(* ===== verification/_CoqProject ===== *)
-Q . S2P
Prelude.v
GoStd.v
GoTemplate.v
GoXml.v
XmlUtil.v
Api.v
Constants.v
Util.v
Security.v
Components.v
HdfsConf.v
ConfigMaps.v
Discovery.v
RoleConfig.v
Containers.v
Oidc.v
StatefulSets.v
Services.v
Roles.v
Cluster.v
ResourceUtil.v
Shell.v
Scripts.v
ScriptRuns.v
ContainerScripts.v
Objects.v
Rounds.v
GoFlag.v
Main.v
GoStore.v
DeepCopy.v
