(* ===== verification/Prelude.v ===== *)
(** * Verification of the HDFS operator

    The operator (Go, [src/cmd], [src/api], [src/internal]) watches resources
    of kind [HdfsCluster] and turns each into Kubernetes objects: a service
    account, for every role group of the name, journal and data nodes two
    services, a stateful set and a config map, and a discovery config map for
    clients. This library models how these objects are computed and proves what
    they contain, how they refer to one another, what the shell scripts in them
    do when they run, which cluster specifications lead to an error or a panic,
    where the order in which Go visits a map shows, and when repeated
    reconciliations come to rest and when they never do.

    ** How the parts work together

    The process ([cmd/main.go]) reads its command line and starts a manager
    that calls the controller.
    [HdfsClusterReconciler.Reconcile] (hdfscluster_controller.go) reads the
    cluster and registers its resources ([Reconciler.RegisterResources],
    cluster.go). Registration fills the table of role groups
    ([PopulateClusterComponents]), then visits the roles; each role visits its
    groups, merges the configuration of the role and its defaults into that of
    the group, and makes the builders of the group's objects. The config map
    builder prints the Hadoop site files as XML, with addresses made of the
    table; the stateful set builder makes the containers, whose arguments are
    shell scripts, with their volumes; the discovery reads the addresses that
    the listeners of the name node pods got.

    ** The files

    - [Prelude]: results of Go calls ([outcome]: a value, an error, a panic, or
      outside the modelled part of the standard library), monadic loops,
      strings, [int32] arithmetic, tactics and hint databases.
    - [GoStd], [GoTemplate], [GoXml]: what the sources use of the standard library: ranging
      over a map in an arbitrary order (class [MapRange], which every theorem
      about such code quantifies over), strings, strconv, fmt, path, bufio, the
      actions of text/template that the scripts use, and the reader and printer
      of encoding/xml for the documents at hand.
    - [XmlUtil]: internal/util/xml_util.go and [AppendXmlContent].
    - [Api]: api/v1alpha1, pointers as options, and the roles and components of
      internal/constant; the class [Platform] holds the constants and functions
      of operator-go and Kubernetes that the code calls.
    - [Constants]: the other constants of internal/constant.
    - [Util]: name_util.go, map_util.go, configuration_util.go.
    - [Security]: internal/common/kerberos.go and tls.go.
    - [Components]: cluster_components.go and the name functions of util.go.
    - [HdfsConf]: hdfs_conf.go, the generators of the configuration files.
    - [ConfigMaps]: configmap.go, vector.go and configmap.go of the roles; the
      embedded builder of operator-go is the class [ConfigMapOps] with the laws
      [ConfigMapLaws].
    - [Discovery]: internal/controller/discovery.go with its cache as state.
    - [RoleConfig]: role_config.go, affinity.go and the resource conversion.
    - [Containers]: container.go, the container builders of the roles and the
      functions of util.go they use; a container is the list of the calls made
      on operator-go's builder.
    - [Oidc]: oidc.go, with SHA-256, hex and base64.
    - [StatefulSets]: statefulset.go and the builders of the roles; operator-go's
      vector factory is a parameter, of which a pod gets what its container
      mounts and the volumes it brings ([VectorFactory]).
    - [Services]: service.go and the services of the roles.
    - [Roles]: role.go, the roles, cluster.go, sa.go, hdfscluster_controller.go;
      the class [Operator] is what operator-go does with registered resources.
    - [Cluster]: the registered resources and the objects built from them,
      taken together.
    - [ResourceUtil]: internal/util/resource_util.go.
    - [Shell]: the fragment of bash that the init containers use, with a printer
      and an interpreter; commands and files are the class [World].
    - [Scripts]: what the init containers decide, as functions of the answers
      they get.
    - [ScriptRuns]: their scripts as programs of [Shell];
      [ContainerScripts]: the whole arguments of the containers, from the
      template to the run.
    - [Objects]: all objects of a reconciliation, their names and the order of
      maps; [Rounds]: reconciliation after reconciliation over a store of
      objects, with the store and the reconcilers of operator-go as the classes
      [Store] and [Runtime].
    - [GoFlag]: Go's package flag; [Main]: cmd/main.go and version.go, with the
      answers of the controller framework as the class [Framework].
    - [GoStore]: Go values in a store where references may share cells, the
      statements of generated copy functions and what a deep copy is;
      [DeepCopy]: zz_generated.deepcopy.go, with the copy functions of other
      packages as the class [Imported].

    ** What is proved

    - Site files: the printed [hdfs-site.xml] and [core-site.xml] parse, and
      read back as exactly the intended properties, each once; every name node
      that is listed has its addresses; the three roles share the file.
    - XML and properties files: printing and reading are inverse, where the text
      can be carried; appending properties overrides by name, under the condition
      on duplicates that the code needs ([mergeable]), and panics or loses a
      property otherwise; a properties file with an equals sign in a value is not
      read back; overriding keeps names in place.
    - Registration and reconciliation: all objects of all groups are registered
      under the names that the addresses use, for every map order; a cluster is
      reported finished only when nothing is left to do.
    - Pods: every mount has a volume; volume names are distinct without TLS only;
      probes and service ports name declared ports; storage claims follow the
      merged configuration.
    - Discovery: the cached reads refine uncached ones; the pods listed are
      those of the stateful sets; the document reads back.
    - Composition: the objects of a role group carry the names and labels that
      the others refer to, and every role finds the name nodes at the addresses
      of their stateful set and service; the names of all objects are distinct,
      but for one clash; the objects do not depend on the orders of the maps
      when there is one group of name and of journal nodes, and do with two.
    - Rounds, over an API server that may refuse a write: in the one case each
      round in which it accepts the objects stores a further one, in any orders,
      until the operator is quiet; in the other a stateful set of data nodes is
      written anew after a finished round; with TLS no round ever finishes, when
      the server refuses pods with two volumes of one name.
    - Scripts: each template executes to the text of a program, with Kerberos
      and without, and running the program does what the decision functions say:
      which pod formats, copies or skips, which formats ZooKeeper, and the wait,
      which ends. The formatting container can be restarted: it never touches a
      data directory that has its version file, and succeeds only with one.
    - Process: the start in order, with its exit codes; the command line and
      the version round trip.
    - Deep copies: the copy of an object holds the same, shares no cell with it
      and does not see later changes of it, nor the object changes of the copy.
    - Errors: missing replica counts, unmatched group names, vector settings and
      listener failures, with the panics and errors the code ends in.

    Several theorems record behaviour that the code hardly intends: a data node
    file without its data directory, overrides without effect, a volume that is
    added twice with TLS, a storage size that is lost, data nodes that restart
    because a map was visited in another order.

    ** Modelling choices and bounds

    Loops over maps are folds over [range], an arbitrary enumeration of the
    map; within one run of the code a map is always visited in the same order,
    and the rounds of [Rounds] have an order each. Loops over replica counts run over [indices n]. The XML reader recurses
    with fuel equal to the length of the document plus one, which is enough
    since each token consumes input ([decode_loop_enough]); the flag parser with
    fuel equal to the number of arguments ([parse_fuel]). A replica count
    is a [Z]; sums of counts wrap at 32 bits ([wrap32]). A [while] loop of a
    script has fuel; 13 turns are enough for the wait, which has its own bound of
    12 rounds. Text is a string of bytes. Logging is left out.
    Conditions on names ([safe], [instance_ok]) say that they are made of the
    characters that Kubernetes allows in names.

    ** Not modelled

    groupversion_info.go and the other registrations with the scheme of
    controller-runtime, and an enumeration of internal/util that nothing uses.
    The merge of objects, the reconciliation of registered resources, what
    operator-go's builders make of the calls and overrides they are given, vector
    YAML and the vector container, quantities and the controller framework belong
    to operator-go, Kubernetes or controller-runtime and are parameters; that
    templates are executed as [GoTemplate] says ([template_spec]), that names are
    made of their parts ([full_name_spec]), what the vector container mounts
    ([vector_mounts_spec]), what the rounds rely on ([runtime_spec],
    [writes_spec], [one_template], [valid_pods]) and what the commands of a
    container do to its data directory ([data_dir_spec]) are hypotheses about
    them; each is shown to hold of a sample. What hdfs commands do to a cluster
    beyond that, elections included, is outside the model. Of bash, what the scripts do not use is outside the
    model ([Beyond]). The start scripts of the daemons contain shell functions
    of operator-go and are kept as text.

    ** Plan

    Done: the components above, their composition, the scripts as programs with
    their preambles, the process, the deep copies and the rounds. Left: several
    clusters in one namespace, and the objects of role groups that were removed
    from a cluster, which no reconciliation registers. *)

From stdpp Require Export base tactics list gmap strings pretty fin_maps.
From Stdlib Require Export ZArith Lia Ascii.

#[export] Set Default Goal Selector "!".

(** ** Go errors and outcomes *)

(** A Go [error] value: an API error for a missing object, or any other error,
    by its message. *)
Inductive error :=
  | ENotFound (what : string)
  | EMsg (msg : string).

(** What a Go call does: it returns a value, it returns a non-nil error, it
    panics, or it leaves the fragment of the standard library that [GoStd] and
    [GoXml] describe. A theorem that a call gives a result always states
    [Ret], so [Beyond] never hides a behaviour. *)
Inductive outcome (A : Type) :=
  | Ret (a : A)
  | Err (e : error)
  | Panic (why : string)
  | Beyond (why : string).
Arguments Ret {A} a.
Arguments Err {A} e.
Arguments Panic {A} why.
Arguments Beyond {A} why.

#[export] Instance outcome_ret : MRet outcome := @Ret.

#[export] Instance outcome_bind : MBind outcome := fun A B f m =>
  match m with
  | Ret a => f a
  | Err e => Err e
  | Panic w => Panic w
  | Beyond w => Beyond w
  end.

#[export] Instance outcome_fmap : FMap outcome := fun A B f m => a ← m; Ret (f a).

#[export] Instance error_eq_dec : EqDecision error.
Proof. solve_decision. Defined.

#[export] Instance outcome_eq_dec `{EqDecision A} : EqDecision (outcome A).
Proof. solve_decision. Defined.

Declare Scope go_scope.
Delimit Scope go_scope with go.

(** [deref p]: the Go expression [*p], or a field access through [p]; a nil
    pointer panics. *)
Definition deref {A} (p : option A) : outcome A :=
  match p with
  | Some a => Ret a
  | None => Panic "invalid memory address or nil pointer dereference"
  end.

Notation "p '.*'" := (deref p) (at level 2, left associativity, format "p .*") : go_scope.

(** Assignment to and reading of an index of a slice; out of range panics. *)
Definition set_index {A} (l : list A) (i : nat) (v : A) : outcome (list A) :=
  if decide (i < length l) then Ret (<[i := v]> l) else Panic "index out of range".

Definition get_index {A} (l : list A) (i : nat) : outcome A :=
  match l !! i with Some a => Ret a | None => Panic "index out of range" end.


(** A [for] loop over a slice whose body may fail, in order. *)
Fixpoint mfold {A S : Type} (f : S → A → outcome S) (s : S) (l : list A) : outcome S :=
  match l with
  | [] => Ret s
  | a :: l' => s' ← f s a; mfold f s' l'
  end.

Fixpoint mmap {A B : Type} (f : A → outcome B) (l : list A) : outcome (list B) :=
  match l with
  | [] => Ret []
  | a :: l' => b ← f a; bs ← mmap f l'; Ret (b :: bs)
  end.

(** ** Generic lemmas on outcomes *)

Lemma bind_ret_inv {A B} (m : outcome A) (f : A → outcome B) b :
  m ≫= f = Ret b → ∃ a, m = Ret a ∧ f a = Ret b.
Proof. destruct m; simpl; intros H; try discriminate H. eauto. Qed.

Lemma bind_ret_r {A} (m : outcome A) : m ≫= (λ a, Ret a) = m.
Proof. by destruct m. Qed.

Lemma bind_assoc {A B C} (m : outcome A) (f : A → outcome B) (g : B → outcome C) :
  (m ≫= f) ≫= g = m ≫= (λ a, f a ≫= g).
Proof. by destruct m. Qed.

(** Whether a call returns a value: a test that computes. *)
Definition is_ret {A} (m : outcome A) : bool := match m with Ret _ => true | _ => false end.

Lemma is_ret_inv {A} (m : outcome A) : is_ret m = true → ∃ a, m = Ret a.
Proof. destruct m; simpl; try discriminate. eauto. Qed.

Lemma deref_ret_inv {A} (p : option A) a : deref p = Ret a → p = Some a.
Proof. destruct p; simpl; congruence. Qed.

Lemma mmap_ret {A B} (f : A → outcome B) (g : A → B) l :
  (∀ a, a ∈ l → f a = Ret (g a)) → mmap f l = Ret (map g l).
Proof.
  induction l as [|a l IH]; intros H; simpl; [done|].
  rewrite (H a) by set_solver. simpl. rewrite IH; [done|]. set_solver.
Qed.

Lemma mmap_ret_inv {A B} (f : A → outcome B) l bs :
  mmap f l = Ret bs → Forall2 (λ a b, f a = Ret b) l bs.
Proof.
  revert bs. induction l as [|a l IH]; intros bs H; simpl in H.
  - injection H as <-. constructor.
  - apply bind_ret_inv in H as (b & Hb & H).
    apply bind_ret_inv in H as (bs' & Hbs & H).
    injection H as <-. constructor; auto.
Qed.

Lemma mfold_app {A S} (f : S → A → outcome S) s l1 l2 :
  mfold f s (l1 ++ l2) = mfold f s l1 ≫= λ s', mfold f s' l2.
Proof.
  revert s. induction l1 as [|a l1 IH]; intros s; simpl; [done|].
  destruct (f s a); simpl; auto.
Qed.

Lemma mfold_ext {A S} (f g : S → A → outcome S) s l :
  (∀ s a, f s a = g s a) → mfold f s l = mfold g s l.
Proof.
  intros Hfg. revert s. induction l as [|a l IH]; intros s; simpl; [done|]. rewrite Hfg.
  destruct (g s a); simpl; auto.
Qed.

Lemma mmap_ext {A B} (f g : A → outcome B) l : (∀ a, f a = g a) → mmap f l = mmap g l.
Proof.
  intros Hfg. induction l as [|a l IH]; simpl; [done|]. rewrite Hfg, IH. done.
Qed.

Lemma mmap_perm {A B} (f : A → outcome B) l1 l2 bs :
  l1 ≡ₚ l2 → mmap f l1 = Ret bs → ∃ bs', mmap f l2 = Ret bs' ∧ bs ≡ₚ bs'.
Proof.
  intros Hp. revert bs. induction Hp as [|a l1 l2 Hp IH|a b l|l1 l2 l3 H1 IH1 H2 IH2]; intros bs Hb.
  - eauto.
  - simpl in Hb. apply bind_ret_inv in Hb as (x & Hx & Hb). apply bind_ret_inv in Hb as (xs & Hxs & [= <-]).
    destruct (IH xs Hxs) as (bs' & Hbs & Hp'). exists (x :: bs'). simpl. rewrite Hx. simpl.
    rewrite Hbs. by rewrite Hp'.
  - simpl in Hb. apply bind_ret_inv in Hb as (x & Hx & Hb). apply bind_ret_inv in Hb as (xs & Hxs & [= <-]).
    apply bind_ret_inv in Hxs as (y & Hy & Hxs). apply bind_ret_inv in Hxs as (ys & Hys & [= <-]).
    exists (y :: x :: ys). simpl. rewrite Hy, Hx. simpl. rewrite Hys. split; [done|]. apply Permutation_swap.
  - destruct (IH1 bs Hb) as (bs1 & Hb1 & Hp1). destruct (IH2 bs1 Hb1) as (bs2 & Hb2 & Hp2).
    exists bs2. split; [done|]. by rewrite Hp1.
Qed.

Lemma mmap_app {A B} (f : A → outcome B) l1 l2 :
  mmap f (l1 ++ l2) = b1 ← mmap f l1; b2 ← mmap f l2; Ret (b1 ++ b2).
Proof.
  induction l1 as [|a l1 IH]; simpl; [by rewrite bind_ret_r|].
  destruct (f a); simpl; [|done..]. rewrite IH. destruct (mmap f l1); simpl; [|done..].
  by destruct (mmap f l2).
Qed.

Lemma mmap_concat {A B} (f : A → outcome B) ls bs :
  mmap f (concat ls) = Ret bs → ∃ bss, bs = concat bss ∧ Forall2 (λ l b, mmap f l = Ret b) ls bss.
Proof.
  revert bs. induction ls as [|l ls IH]; intros bs H; simpl in H.
  { injection H as <-. exists []. by split. }
  rewrite mmap_app in H. apply bind_ret_inv in H as (b & Hb & H).
  apply bind_ret_inv in H as (bs' & Hbs & [= <-]). destruct (IH bs' Hbs) as (bss & -> & Hall).
  exists (b :: bss). split; [done|]. by constructor.
Qed.

(** The loop that appends what its body returns. *)
Lemma mfold_concat {A B} (f : A → outcome (list B)) acc l :
  mfold (λ acc a, rs ← f a; Ret (acc ++ rs)) acc l = rss ← mmap f l; Ret (acc ++ concat rss).
Proof.
  revert acc. induction l as [|a l IH]; intros acc; simpl; [by rewrite app_nil_r|].
  destruct (f a) as [rs| | |]; simpl; [|done..]. rewrite IH. destruct (mmap f l); simpl; [|done..].
  by rewrite app_assoc.
Qed.

(** ** Generic lemmas on strings *)

#[local] Arguments String.append !s1 s2 : simpl nomatch.

Lemma append_nil_r s : s +:+ "" = s.
Proof. induction s as [|c s IH]; simpl; congruence. Qed.

Lemma append_assoc s1 s2 s3 : (s1 +:+ s2) +:+ s3 = s1 +:+ (s2 +:+ s3).
Proof. induction s1 as [|c s IH]; simpl; congruence. Qed.

Lemma append_cons c s1 s2 : String c s1 +:+ s2 = String c (s1 +:+ s2).
Proof. done. Qed.

Lemma append_inj_l s s1 s2 : s +:+ s1 = s +:+ s2 → s1 = s2.
Proof. induction s as [|c s IH]; simpl; [done|]. intros [= H]. auto. Qed.

Lemma length_append s1 s2 : String.length (s1 +:+ s2) = String.length s1 + String.length s2.
Proof. induction s1; simpl; auto. Qed.

Lemma append_inj_r s s1 s2 : s1 +:+ s = s2 +:+ s → s1 = s2.
Proof.
  revert s2. induction s1 as [|c s1 IH]; intros [|c' s2] H; simpl in *; auto.
  - exfalso. apply (f_equal String.length) in H. simpl in H.
    rewrite length_append in H. lia.
  - exfalso. apply (f_equal String.length) in H. simpl in H.
    rewrite length_append in H. lia.
  - injection H as -> H. f_equal. auto.
Qed.

(** A boolean test of all the characters of a string. *)
Fixpoint str_forall (p : ascii → bool) (s : string) : bool :=
  match s with
  | EmptyString => true
  | String c s' => p c && str_forall p s'
  end.

Lemma str_forall_app p s1 s2 :
  str_forall p (s1 +:+ s2) = str_forall p s1 && str_forall p s2.
Proof. induction s1 as [|c s IH]; simpl; [done|]. by rewrite IH, andb_assoc. Qed.

Lemma str_forall_impl (p q : ascii → bool) s :
  (∀ c, p c = true → q c = true) → str_forall p s = true → str_forall q s = true.
Proof.
  intros Hpq. induction s as [|c s IH]; simpl; [done|].
  rewrite !andb_true_iff. intros [Hc Hs]. auto.
Qed.

(** The last occurrence of a separator splits a string in one way. *)
Lemma append_sep_inj (c : ascii) s1 s2 t1 t2 :
  str_forall (λ a, negb (Ascii.eqb a c)) t1 = true →
  str_forall (λ a, negb (Ascii.eqb a c)) t2 = true →
  s1 +:+ String c t1 = s2 +:+ String c t2 → s1 = s2 ∧ t1 = t2.
Proof.
  assert (Hno : ∀ u t t', str_forall (λ a, negb (Ascii.eqb a c)) t = true →
                          t ≠ u +:+ String c t').
  { induction u as [|d u IH]; intros t t' Ht ->; simpl in Ht.
    - by rewrite Ascii.eqb_refl in Ht.
    - apply andb_true_iff in Ht as [_ Ht]. by apply (IH _ t' Ht). }
  revert s2. induction s1 as [|d s1 IH]; intros [|d' s2] H1 H2 H; simpl in H.
  - by injection H as ->.
  - injection H as <- H. exfalso. by apply (Hno s2 t1 t2).
  - injection H as -> H. exfalso. by apply (Hno s1 t2 t1).
  - injection H as -> H. destruct (IH s2 H1 H2 H) as [-> ->]. done.
Qed.

(** ** Generic lemmas on lists *)

Lemma elem_of_concat_map {A B} (f : A → list B) l y :
  y ∈ concat (map f l) ↔ ∃ x, x ∈ l ∧ y ∈ f x.
Proof.
  induction l as [|a l IH]; simpl.
  - split; [by intros ?%elem_of_nil|]. by intros (x & ?%elem_of_nil & _).
  - rewrite elem_of_app, IH. split; [|set_solver].
    intros [Hy|(x & Hx & Hy)]; [exists a|exists x]; set_solver.
Qed.

Lemma NoDup_concat_map {A B} (f : A → list B) l :
  NoDup l →
  NoDup (concat (map f l)) ↔
    (∀ x, x ∈ l → NoDup (f x)) ∧ (∀ x y k, x ∈ l → y ∈ l → k ∈ f x → k ∈ f y → x = y).
Proof.
  induction l as [|a l IH]; intros Hl; simpl.
  { split; [|constructor]. intros _. split; intros x; set_solver. }
  apply NoDup_cons in Hl as [Ha Hl]. rewrite NoDup_app, IH by done. split.
  - intros (Hfa & Hdis & Hf & Huniq). split.
    + intros x [->|Hx]%elem_of_cons; auto.
    + assert (∀ x k, x ∈ l → k ∈ f a → k ∈ f x → False) as Hno.
      { intros x k Hx Hk1 Hk2. apply (Hdis k Hk1). apply elem_of_concat_map. eauto. }
      intros x y k [->|Hx]%elem_of_cons [->|Hy]%elem_of_cons Hk1 Hk2; eauto; exfalso; eauto.
  - intros [Hf Huniq]. split_and!.
    + apply Hf. by left.
    + intros k Hk (x & Hx & Hk')%elem_of_concat_map. assert (a = x) as ->; [|done].
      apply (Huniq _ _ k); [by left|by right|done..].
    + intros x Hx. apply Hf. by right.
    + intros x y k Hx Hy. apply Huniq; by right.
Qed.

(** Inclusion of concrete lists, by computation. *)
Lemma elem_of_included {A} `{EqDecision A} (l1 l2 : list A) :
  forallb (λ x, bool_decide (x ∈ l2)) l1 = true → ∀ x, x ∈ l1 → x ∈ l2.
Proof.
  rewrite forallb_forall. intros H x Hx. apply list_elem_of_In, H in Hx.
  by apply bool_decide_eq_true_1 in Hx.
Qed.

(** An equivalence of tests, by computation. *)
Lemma iff_by_decision (P Q : Prop) `{Decision P, Decision Q} :
  bool_decide P = bool_decide Q → P ↔ Q.
Proof. repeat case_bool_decide; naive_solver. Qed.

(** ** Generic lemmas on maps *)

Lemma foldl_insert_union {V} (l : list (string * V)) (m : gmap string V) :
  NoDup l.*1 → foldl (λ m kv, <[kv.1 := kv.2]> m) m l = list_to_map l ∪ m.
Proof.
  revert m. induction l as [|[k v] l IH]; intros m Hnd; simpl.
  - by rewrite map_empty_union.
  - apply NoDup_cons in Hnd as [Hk Hnd]. rewrite IH by done.
    assert (Hl : (list_to_map l : gmap string V) !! k = None)
      by (by apply not_elem_of_list_to_map_1).
    rewrite <- insert_union_r by done. by rewrite insert_union_l.
Qed.

(** ** Machine integers *)

(** Go's [int32], kept as a [Z] with the wrap-around of its arithmetic. *)
Definition int32_min : Z := (- 2 ^ 31)%Z.
Definition int32_max : Z := (2 ^ 31 - 1)%Z.
Definition in_int32 (z : Z) : Prop := (int32_min ≤ z ≤ int32_max)%Z.
Definition wrap32 (z : Z) : Z := ((z + 2 ^ 31) mod 2 ^ 32 - 2 ^ 31)%Z.

Lemma wrap32_id z : in_int32 z → wrap32 z = z.
Proof.
  unfold in_int32, int32_min, int32_max, wrap32. intros H.
  rewrite Z.mod_small; lia.
Qed.

Lemma wrap32_range z : in_int32 (wrap32 z).
Proof.
  unfold in_int32, int32_min, int32_max, wrap32.
  pose proof (Z.mod_pos_bound (z + 2 ^ 31) (2 ^ 32)). lia.
Qed.

(** ** Automation *)

Create HintDb go discriminated.
#[export] Hint Resolve wrap32_range : go.

(** [go_inv]: take a successful sequence of calls apart. *)
Ltac go_inv :=
  repeat match goal with
  | H : mbind _ _ = Ret _ |- _ =>
      let Hc := fresh "Hcall" in
      apply bind_ret_inv in H as (? & Hc & H)
  | H : deref _ = Ret _ |- _ => apply deref_ret_inv in H
  | H : Ret _ = Ret _ |- _ => injection H as H
  | H : Err _ = Ret _ |- _ => discriminate H
  | H : Panic _ = Ret _ |- _ => discriminate H
  | H : Beyond _ = Ret _ |- _ => discriminate H
  end; simplify_eq.

(** [go_case]: case analysis on the tests of a definition, closing what
    computes. *)
Ltac go_case := repeat (case_match; simplify_eq/=); try done.

Open Scope go_scope.
