(* ===== verification/GoStd.v ===== *)
(** * The parts of Go's language and standard library the operator uses

    [range] over a map (in an unspecified order), and the functions of
    [strings], [strconv], [fmt], [path] and [bufio] that the sources call, as
    executable functions on byte strings. [fmt.Sprintf] is described for the
    verbs the sources use ([%s], [%d], [%%]); any other directive is
    [Beyond]. *)

From S2P Require Import Prelude.

(** ** Iteration over a map

    A Go program must work for every order in which [range] visits a map: the
    operations that range over a map take the order from this class and the
    theorems hold for every instance. *)
Class MapRange := {
  range : ∀ {V : Type}, gmap string V → list (string * V);
  range_perm : ∀ {V : Type} (m : gmap string V), range m ≡ₚ map_to_list m;
}.

Section map_range.
Context {MR : MapRange}.

Lemma elem_of_range {V} (m : gmap string V) k v : (k, v) ∈ range m ↔ m !! k = Some v.
Proof. by rewrite range_perm, elem_of_map_to_list. Qed.

Lemma NoDup_fst_range {V} (m : gmap string V) : NoDup (range m).*1.
Proof. rewrite range_perm. apply NoDup_fst_map_to_list. Qed.

Lemma NoDup_range {V} (m : gmap string V) : NoDup (range m).
Proof. rewrite range_perm. apply NoDup_map_to_list. Qed.

Lemma range_list_to_map {V} (m : gmap string V) : list_to_map (range m) = m.
Proof.
  rewrite <- (list_to_map_to_list m) at 2.
  apply list_to_map_proper; [apply NoDup_fst_range | apply range_perm].
Qed.

Lemma range_empty {V} : range (∅ : gmap string V) = [].
Proof.
  apply Permutation_nil_r. rewrite range_perm. by rewrite map_to_list_empty.
Qed.

Lemma range_nil_inv {V} (m : gmap string V) : range m = [] → m = ∅.
Proof. intros H. rewrite <- (range_list_to_map m), H. done. Qed.

Lemma range_singleton {V} k (v : V) : range {[k := v]} = [(k, v)].
Proof.
  apply Permutation_singleton_r. rewrite range_perm. by rewrite map_to_list_singleton.
Qed.

End map_range.

(** The order of [map_to_list], for evaluation. *)
Definition sorted_range : MapRange :=
  {| range V m := map_to_list m; range_perm V m := Permutation_refl _ |}.

(** ** Literals *)

Definition nl : ascii := "010"%char.
Definition cr : ascii := "013"%char.
Definition quot : ascii := "034"%char.

(** [s] between double quotes. *)
Definition quoted (s : string) : string := String quot s +:+ String quot "".

(** A raw string of the sources, in which a backquote stands for the double
    quote (Go's raw strings have no backquote). *)
Fixpoint dq (s : string) : string :=
  match s with
  | EmptyString => ""
  | String c s' => String (if Ascii.eqb c "096" then quot else c) (dq s')
  end.

(** ** package strings *)

Definition HasPrefix (s prefix : string) : bool := String.prefix prefix s.

Lemma HasPrefix_cons c s d p :
  HasPrefix (String c s) (String d p) = Ascii.eqb d c && HasPrefix s p.
Proof.
  unfold HasPrefix. simpl. destruct (ascii_dec d c) as [->|Hne].
  - by rewrite Ascii.eqb_refl.
  - by rewrite (proj2 (Ascii.eqb_neq d c) Hne).
Qed.

Lemma HasPrefix_head c s d : HasPrefix (String c s) (String d "") = Ascii.eqb d c.
Proof.
  unfold HasPrefix. simpl. destruct (ascii_dec d c) as [->|H].
  - rewrite Ascii.eqb_refl. by destruct s.
  - by rewrite (proj2 (Ascii.eqb_neq d c)).
Qed.

Fixpoint Contains (s sub : string) : bool :=
  HasPrefix s sub || match s with EmptyString => false | String _ s' => Contains s' sub end.

(** [strings.Split] for a separator of one byte. *)
Fixpoint Split (s : string) (sep : ascii) : list string :=
  match s with
  | EmptyString => [""]
  | String c s' =>
      if Ascii.eqb c sep then "" :: Split s' sep
      else match Split s' sep with
           | [] => [String c ""]
           | h :: t => String c h :: t
           end
  end.

Definition Join (l : list string) (sep : string) : string := String.concat sep l.

(** A literal of several lines. *)
Definition lines (l : list string) : string := Join l (String nl "").

(** [strings.ToLower], on bytes of ASCII letters; other bytes are unchanged
    (the only strings it is applied to are the three role names). *)
Definition lower_ascii (c : ascii) : ascii :=
  let n := N_of_ascii c in
  if ((65 <=? n) && (n <=? 90))%N then ascii_of_N (n + 32) else c.

Fixpoint ToLower (s : string) : string :=
  match s with
  | EmptyString => ""
  | String c s' => String (lower_ascii c) (ToLower s')
  end.

(** ** package strconv *)

Definition Itoa (z : Z) : string := pretty z.

Definition is_digit (c : ascii) : bool :=
  let n := N_of_ascii c in ((48 <=? n) && (n <=? 57))%N.

Lemma pretty_N_char_digit x : (x < 10)%N → is_digit (pretty_N_char x) = true.
Proof.
  intros H. destruct x as [|p]; [done|].
  destruct p as [[[[p|p|]|[p|p|]|]|[[p|p|]|[p|p|]|]|]|[[[p|p|]|[p|p|]|]|[[p|p|]|[p|p|]|]|]|];
    (reflexivity || lia).
Qed.

Lemma pretty_N_go_digits x s :
  str_forall is_digit s = true → str_forall is_digit (pretty_N_go x s) = true.
Proof.
  revert s. induction (N.lt_wf_0 x) as [x _ IH]; intros s Hs.
  destruct (decide (x = 0)%N) as [->|Hx]; [done|].
  rewrite pretty_N_go_step by lia. apply IH.
  - apply N.div_lt; lia.
  - simpl. rewrite Hs, pretty_N_char_digit; [done|]. apply N.mod_lt. lia.
Qed.

Lemma Itoa_digits z : (0 ≤ z)%Z → str_forall is_digit (Itoa z) = true.
Proof.
  intros Hz. destruct z as [|p|p]; [done| |lia].
  change (Itoa (Zpos p)) with (pretty_N_go (Npos p) ""). by apply pretty_N_go_digits.
Qed.

Lemma pretty_N_go_head x s :
  (0 < x)%N → ∃ c s', pretty_N_go x s = String c s' ∧ c ≠ "0"%char.
Proof.
  revert s. induction (N.lt_wf_0 x) as [x _ IH]; intros s Hx.
  rewrite pretty_N_go_step by lia.
  destruct (decide (x `div` 10 = 0)%N) as [Hz|Hnz].
  - rewrite Hz, pretty_N_go_0.
    assert (x `mod` 10 = x)%N as ->.
    { apply N.mod_small. apply N.div_small_iff in Hz; lia. }
    exists (pretty_N_char x), s. split; [done|]. apply N.div_small_iff in Hz; [|lia].
    destruct x as [|p]; [lia|].
    destruct p as [[[[p|p|]|[p|p|]|]|[[p|p|]|[p|p|]|]|]|[[[p|p|]|[p|p|]|]|[[p|p|]|[p|p|]|]|]|];
      (discriminate || lia).
  - apply IH; [apply N.div_lt; lia|by apply N.neq_0_lt_0].
Qed.

(** The decimal representation of a positive number has no leading zero. *)
Lemma Itoa_head z : (0 < z)%Z → ∃ c s, Itoa z = String c s ∧ c ≠ "0"%char.
Proof.
  intros Hz. destruct z as [|p|p]; [lia| |lia].
  change (Itoa (Zpos p)) with (pretty_N_go (Npos p) ""). by apply pretty_N_go_head.
Qed.

Lemma Itoa_inj z1 z2 : Itoa z1 = Itoa z2 → z1 = z2.
Proof. apply (inj pretty). Qed.

(** ** package fmt *)

Inductive fmt_arg :=
  | FStr (s : string)
  | FInt (z : Z).

Fixpoint Sprintf (fmt : string) (args : list fmt_arg) : outcome string :=
  match fmt with
  | EmptyString =>
      match args with [] => Ret "" | _ => Beyond "fmt: extra arguments" end
  | String c fmt' =>
      if Ascii.eqb c "%" then
        match fmt' with
        | String v rest =>
            if Ascii.eqb v "%" then r ← Sprintf rest args; Ret (String "%" r)
            else match args with
                 | FStr s :: args' =>
                     if Ascii.eqb v "s" then r ← Sprintf rest args'; Ret (s +:+ r)
                     else Beyond "fmt: verb"
                 | FInt z :: args' =>
                     if Ascii.eqb v "d" then r ← Sprintf rest args'; Ret (Itoa z +:+ r)
                     else Beyond "fmt: verb"
                 | [] => Beyond "fmt: missing argument"
                 end
        | EmptyString => Beyond "fmt: no verb"
        end
      else r ← Sprintf fmt' args; Ret (String c r)
  end.

(** A string with no [%] is printed as it is. *)
Definition no_percent (s : string) : bool := str_forall (λ c, negb (Ascii.eqb c "%")) s.

Lemma Sprintf_plain s fmt args :
  no_percent s = true → Sprintf (s +:+ fmt) args = r ← Sprintf fmt args; Ret (s +:+ r).
Proof.
  unfold no_percent. induction s as [|c s IH]; intros H.
  - change ("" +:+ fmt) with fmt. change (λ r, Ret ("" +:+ r)) with (λ r : string, Ret r).
    by rewrite bind_ret_r.
  - rewrite append_cons. simpl in H |- *. apply andb_true_iff in H as [Hc Hs].
    rewrite negb_true_iff in Hc. rewrite Hc, IH by done.
    by destruct (Sprintf fmt args).
Qed.

Lemma Sprintf_id s : no_percent s = true → Sprintf s [] = Ret s.
Proof.
  intros H. rewrite <- (append_nil_r s) at 1. rewrite Sprintf_plain by done.
  simpl. by rewrite append_nil_r.
Qed.

Lemma Sprintf_mid a z b :
  no_percent a = true → no_percent b = true →
  Sprintf (a +:+ "%d" +:+ b) [FInt z] = Ret (a +:+ Itoa z +:+ b).
Proof.
  intros Ha Hb. rewrite Sprintf_plain by done.
  change ("%d" +:+ b) with (String "%" (String "d" b)). simpl. by rewrite Sprintf_id by done.
Qed.

Lemma Sprintf_end a z :
  no_percent a = true → Sprintf (a +:+ "%d") [FInt z] = Ret (a +:+ Itoa z).
Proof.
  intros Ha. rewrite <- (append_nil_r "%d"), Sprintf_mid by done. by rewrite append_nil_r.
Qed.

Lemma Contains_app_r s1 s2 sub : Contains s2 sub = true → Contains (s1 +:+ s2) sub = true.
Proof.
  intros H. induction s1 as [|c s IH]; [done|]. rewrite append_cons. simpl. by rewrite IH, orb_true_r.
Qed.

Lemma HasPrefix_inv s p : HasPrefix s p = true → ∃ t, s = p +:+ t.
Proof.
  revert s. induction p as [|c p IH]; intros s H; [by exists s|].
  destruct s as [|d s]; [done|]. rewrite HasPrefix_cons in H.
  apply andb_true_iff in H as [Hc%Ascii.eqb_eq Hp]. subst d.
  destruct (IH s Hp) as [t ->]. by exists t.
Qed.

Lemma HasPrefix_app s t : HasPrefix (s +:+ t) s = true.
Proof.
  unfold HasPrefix. induction s as [|c s IH]; [by destruct t|].
  rewrite append_cons. simpl. destruct (ascii_dec c c); [done | congruence].
Qed.

Lemma Contains_app_l s t : Contains (s +:+ t) s = true.
Proof.
  pose proof (HasPrefix_app s t) as H. unfold Contains. destruct (s +:+ t); by rewrite H.
Qed.

(** ** package path *)

(** [path.Clean], on the list of the elements between slashes. *)
Fixpoint clean_elems (rooted : bool) (stack : list string) (elems : list string) : list string :=
  match elems with
  | [] => rev stack
  | e :: elems' =>
      if decide (e = "") then clean_elems rooted stack elems'
      else if decide (e = ".") then clean_elems rooted stack elems'
      else if decide (e = "..") then
        match stack with
        | top :: stack' =>
            if decide (top = "..") then clean_elems rooted (e :: stack) elems'
            else clean_elems rooted stack' elems'
        | [] => clean_elems rooted (if rooted then [] else [e]) elems'
        end
      else clean_elems rooted (e :: stack) elems'
  end.

Definition Clean (p : string) : string :=
  if decide (p = "") then "." else
  let rooted := HasPrefix p "/" in
  let body := Join (clean_elems rooted [] (Split p "/")) "/" in
  if rooted then "/" +:+ body
  else if decide (body = "") then "." else body.

Definition path_Join (elems : list string) : string :=
  match filter (λ e, e ≠ "") elems with
  | [] => ""
  | es => Clean (Join es "/")
  end.

(** ** package bufio: the lines of a [Scanner] with the default split

    A line loses its terminating newline and one carriage return before it; an
    empty rest after the last newline is not a line. *)
Fixpoint drop_last_cr (s : string) : string :=
  match s with
  | EmptyString => ""
  | String c EmptyString => if Ascii.eqb c cr then "" else String c ""
  | String c s' => String c (drop_last_cr s')
  end.

(** The raw lines, without their newline. *)
Definition raw_lines (s : string) : list string :=
  match rev (Split s nl) with
  | last :: before => rev (if decide (last = "") then before else last :: before)
  | [] => []
  end.

Definition MaxScanTokenSize : N := 64 * 1024.

(** One call of [Scan]: a line of [MaxScanTokenSize] bytes or more does not fit
    the buffer, and [Err] then reports it. *)
Definition scan_line (raw : string) : outcome string :=
  if decide (N.of_nat (String.length raw) < MaxScanTokenSize)%N then Ret (drop_last_cr raw)
  else Err (EMsg "bufio.Scanner: token too long").

(** ** Splitting *)

Definition no_byte (c : ascii) (s : string) : bool := str_forall (λ a, negb (Ascii.eqb a c)) s.

Lemma Split_no_sep s sep : no_byte sep s = true → Split s sep = [s].
Proof.
  unfold no_byte. induction s as [|c s IH]; simpl; [done|]. intros H.
  apply andb_true_iff in H as [Hc Hs]. rewrite negb_true_iff in Hc. by rewrite Hc, IH.
Qed.

Lemma Split_app s sep t :
  no_byte sep s = true → Split (s +:+ String sep t) sep = s :: Split t sep.
Proof.
  unfold no_byte. induction s as [|c s IH]; intros H.
  - change ("" +:+ ?x) with x. simpl. by rewrite Ascii.eqb_refl.
  - rewrite append_cons. simpl in H |- *. apply andb_true_iff in H as [Hc Hs].
    rewrite negb_true_iff in Hc. by rewrite Hc, IH.
Qed.

Lemma Split_nonempty s sep : Split s sep ≠ [].
Proof. destruct s as [|c s]; simpl; [done|]. case_match; [done|]. by case_match. Qed.
