(* ===== verification/GoTemplate.v ===== *)
(** * Go's package text/template, as the scripts use it

    Templates with the actions [{{ if .x }}], [{{ .x }}] and [{{ end }}] on a
    map of values, with the trim markers [{{-] and [-}}]. Other actions are
    [Beyond]. *)

From S2P Require Import Prelude GoStd.

(** ** Template data *)

(** The values of the maps given to a template ([map[string]interface{}]). *)
Inductive TmplValue :=
  | TBool (b : bool)
  | TString (s : string).

(** ** The lexer *)

(** The pieces of a text between occurrences of [{{]. *)
Fixpoint pieces (s : string) : list string :=
  match s with
  | EmptyString => [""]
  | String c s' =>
      let next := match pieces s' with [] => [String c ""] | p :: ps => String c p :: ps end in
      match s' with
      | String d s'' => if Ascii.eqb c "{" && Ascii.eqb d "{" then "" :: pieces s'' else next
      | EmptyString => next
      end
  end.

(** What stands before and after the first [}}]. *)
Fixpoint cut (s : string) : option (string * string) :=
  match s with
  | EmptyString => None
  | String c s' =>
      match s' with
      | String d s'' =>
          if Ascii.eqb c "}" && Ascii.eqb d "}" then Some ("", s'')
          else match cut s' with Some (a, t) => Some (String c a, t) | None => None end
      | EmptyString => None
      end
  end.

Definition space (c : ascii) : bool := existsb (Ascii.eqb c) [" "; "009"; nl; cr]%char.

Fixpoint trim_left (s : string) : string :=
  match s with
  | EmptyString => ""
  | String c s' => if space c then trim_left s' else s
  end.

Fixpoint trim_right (s : string) : string :=
  match s with
  | EmptyString => ""
  | String c s' =>
      match trim_right s' with
      | EmptyString => if space c then "" else String c ""
      | t => String c t
      end
  end.

(** The trim markers of an action and what is between them. *)
Definition left_marker (a : string) : bool :=
  match a with String "-" (String c _) => space c | _ => false end.
Definition drop_left (a : string) : string :=
  if left_marker a then match a with String _ a' => a' | _ => a end else a.
Fixpoint right_marker (a : string) : bool :=
  match a with
  | String c (String "-" EmptyString) => space c
  | String _ a' => right_marker a'
  | EmptyString => false
  end.
Fixpoint drop_right (a : string) : string :=
  match a with
  | String c (String "-" EmptyString) => if space c then "" else a
  | String c a' => String c (drop_right a')
  | EmptyString => ""
  end.

Inductive token :=
  | TText (s : string)
  | TIf (f : string)
  | TValue (f : string)
  | TEnd.

(** The token of an action. *)
Definition is_name (s : string) : bool :=
  negb (bool_decide (s = "")) &&
  str_forall (λ c, let n := N_of_ascii c in
    ((97 <=? n)%N && (n <=? 122)%N) || ((65 <=? n)%N && (n <=? 90)%N)) s.

Definition field_name (s : string) : outcome string :=
  match s with
  | String "." f => if is_name f then Ret f else Beyond "template: pipeline"
  | _ => Beyond "template: pipeline"
  end.

Definition action (a : string) : outcome token :=
  let a := trim_right (trim_left (drop_right (drop_left a))) in
  if decide (a = "end") then Ret TEnd
  else if HasPrefix a "if " then
    f ← field_name (trim_left (String.substring 3 (String.length a - 3) a)); Ret (TIf f)
  else f ← field_name a; Ret (TValue f).

(** The actions with the text after each. *)
Definition segment (p : string) : outcome (string * string) :=
  match cut p with Some x => Ret x | None => Err (EMsg "template: unclosed action") end.

(** A text before the actions [l]: trimmed at its right when the next action
    says so. *)
Definition before (l : list (string * string)) (t : string) : string :=
  match l with
  | (a, _) :: _ => if left_marker a then trim_right t else t
  | [] => t
  end.

Fixpoint tokens (l : list (string * string)) : outcome (list token) :=
  match l with
  | [] => Ret []
  | (a, t) :: l' =>
      k ← action a;
      ks ← tokens l';
      let t := if right_marker a then trim_left t else t in
      Ret (k :: TText (before l' t) :: ks)
  end.

Definition lex (s : string) : outcome (list token) :=
  match pieces s with
  | [] => Ret []
  | t :: ps => l ← mmap segment ps; ks ← tokens l; Ret (TText (before l t) :: ks)
  end.

(** ** Execution *)

Definition truth (v : option TmplValue) : bool :=
  match v with
  | Some (TBool b) => b
  | Some (TString s) => negb (bool_decide (s = ""))
  | None => false
  end.

Definition show (v : option TmplValue) : string :=
  match v with
  | Some (TBool b) => if b then "true" else "false"
  | Some (TString s) => s
  | None => "<no value>"
  end.

(** [conds] are the conditions of the open [if] actions. *)
Fixpoint execute (data : gmap string TmplValue) (conds : list bool) (l : list token)
    : outcome string :=
  let shown (s : string) := if forallb id conds then s else "" in
  match l with
  | [] => match conds with [] => Ret "" | _ => Err (EMsg "template: unexpected EOF") end
  | TText s :: l' => r ← execute data conds l'; Ret (shown s +:+ r)
  | TValue f :: l' => r ← execute data conds l'; Ret (shown (show (data !! f)) +:+ r)
  | TIf f :: l' => execute data (truth (data !! f) :: conds) l'
  | TEnd :: l' =>
      match conds with
      | _ :: conds' => execute data conds' l'
      | [] => Err (EMsg "template: unexpected {{end}}")
      end
  end.

Definition Template_Execute (s : string) (data : gmap string TmplValue) : outcome string :=
  ks ← lex s; execute data [] ks.

Example execute_if :
  let t := "a" +:+ String nl ("{{ if .on }}" +:+ String nl "{{- .x }}" +:+ String nl "{{- end}} z") in
  Template_Execute t (<["on" := TBool true]> {["x" := TString "b"]}) = Ret ("a" +:+ String nl "b z") ∧
  Template_Execute t (<["on" := TBool false]> {["x" := TString "b"]}) = Ret ("a" +:+ String nl " z") ∧
  Template_Execute "{{ if .x }}" ∅ = Err (EMsg "template: unexpected EOF").
Proof. vm_compute. done. Qed.

(** ** Text after the last action *)

Lemma pieces_nonempty s : pieces s ≠ [].
Proof. destruct s as [|c [|d s]]; simpl; [done|done|]. repeat case_match; done. Qed.

(** [t] at the end of the last element of a list. *)
Fixpoint at_end (l : list string) (t : string) : list string :=
  match l with
  | [] => [t]
  | [x] => [x +:+ t]
  | x :: l' => x :: at_end l' t
  end.

(** Two lists of pieces, the last of the first and the first of the second
    joined. *)
Definition glue (l m : list string) : list string :=
  match m with [] => l | x :: m' => at_end l x ++ m' end.

Definition no_open (s : string) : bool := negb (HasPrefix s "{").

Lemma glue_cons c l m :
  l ≠ [] →
  match glue l m with [] => [String c ""] | p :: ps => String c p :: ps end
  = glue (match l with [] => [String c ""] | p :: ps => String c p :: ps end) m.
Proof. destruct l as [|x [|y l]], m as [|z m]; simpl; done. Qed.

Lemma glue_cons_empty l m : l ≠ [] → "" :: glue l m = glue ("" :: l) m.
Proof. destruct l as [|x [|y l]], m as [|z m]; simpl; done. Qed.

Lemma pieces_app s t : no_open t = true → pieces (s +:+ t) = glue (pieces s) (pieces t).
Proof.
  intros Ht. assert (∀ n s, String.length s < n → pieces (s +:+ t) = glue (pieces s) (pieces t)) as Hind.
  { induction n as [|n IH]; intros s' Hlen; [lia|]. pose proof (pieces_nonempty t) as Hne.
    destruct s' as [|c [|d s']].
    - change ("" +:+ t) with t. by destruct (pieces t).
    - change (String c "" +:+ t) with (String c t). destruct t as [|d t']; [done|].
      unfold no_open in Ht. rewrite HasPrefix_head in Ht. apply negb_true_iff in Ht.
      rewrite Ascii.eqb_sym in Ht. remember (String d t') as t eqn:Et.
      cbn [pieces]. rewrite Et at 1. rewrite Ht, andb_false_r. by destruct (pieces t).
    - simpl in Hlen. change (String c (String d s') +:+ t) with (String c (String d (s' +:+ t))).
      cbn [pieces]. destruct (Ascii.eqb c "{" && Ascii.eqb d "{").
      + change ("" :: pieces (s' +:+ t) = glue ("" :: pieces s') (pieces t)). rewrite IH by lia.
        apply glue_cons_empty, pieces_nonempty.
      + change (match pieces (String d s' +:+ t) with [] => [String c ""] | p :: ps => String c p :: ps end
          = glue (match pieces (String d s') with [] => [String c ""] | p :: ps => String c p :: ps end)
              (pieces t)).
        rewrite IH by (simpl; lia). apply glue_cons, pieces_nonempty. }
  eauto.
Qed.

(** A text without actions. *)
Definition plain_text (t : string) : Prop := pieces t = [t].

Lemma plain_text_app s t : no_open t = true → plain_text s → plain_text t → plain_text (s +:+ t).
Proof. unfold plain_text. intros Ho Hs Ht. by rewrite pieces_app, Hs, Ht. Qed.

Lemma plain_text_no_brace t : no_byte "{" t = true → plain_text t ∧ no_open t = true.
Proof.
  unfold no_byte, plain_text. induction t as [|c t IH]; intros Ht; [done|].
  simpl in Ht. apply andb_true_iff in Ht as [Hc Ht]. apply negb_true_iff in Hc.
  destruct (IH Ht) as [Hp _]. split.
  - cbn [pieces]. rewrite Hc, Hp. by destruct t.
  - unfold no_open. rewrite HasPrefix_head. by rewrite Ascii.eqb_sym, Hc.
Qed.

Lemma cut_delim_app x t a b : cut x = Some (a, b) → cut (x +:+ t) = Some (a, b +:+ t).
Proof.
  revert a b. induction x as [|c x IH]; intros a b H; [done|].
  destruct x as [|d x]; [done|]. change (String c (String d x) +:+ t) with (String c (String d (x +:+ t))).
  cbn [cut] in H |- *. destruct (Ascii.eqb c "}" && Ascii.eqb d "}"); [by simplify_eq|].
  change (match cut (String d x +:+ t) with Some (a, t) => Some (String c a, t) | None => None end
          = Some (a, b +:+ t)).
  change (match cut (String d x) with Some (a, t) => Some (String c a, t) | None => None end
          = Some (a, b)) in H.
  destruct (cut (String d x)) as [[a' b']|]; [|done]. rewrite (IH a' b') by done. by simplify_eq.
Qed.

(** The text after the last action, if there is one. *)
Definition last_text (l : list (string * string)) (t : string) : list (string * string) :=
  match rev l with
  | [] => []
  | (a, b) :: l' => rev l' ++ [(a, b +:+ t)]
  end.

Lemma segments_at_end ps l t :
  ps ≠ [] → mmap segment ps = Ret l → mmap segment (at_end ps t) = Ret (last_text l t).
Proof.
  revert l. induction ps as [|p ps IH]; intros l Hne H; [done|].
  simpl in H. apply bind_ret_inv in H as ([a b] & Hp & H). apply bind_ret_inv in H as (l' & Hl & [= <-]).
  pose proof Hp as Hc. unfold segment in Hc. destruct (cut p) as [[a' b']|] eqn:Hcut; [|done].
  injection Hc as -> ->.
  destruct ps as [|q ps].
  - injection Hl as <-. cbn [at_end mmap]. unfold segment. by rewrite (cut_delim_app _ t _ _ Hcut).
  - change (at_end (p :: q :: ps) t) with (p :: at_end (q :: ps) t). cbn [mmap].
    rewrite Hp. cbn [mbind outcome_bind]. rewrite (IH l' ltac:(done) Hl).
    cbn [mbind outcome_bind]. f_equal. unfold last_text. cbn [rev].
    destruct (rev l') as [|[x y] l''] eqn:Hr; [|cbn [app]; by rewrite rev_app_distr].
    apply (f_equal (@rev _)) in Hr. rewrite rev_involutive in Hr. simpl in Hr. subst. simpl in Hl.
    apply bind_ret_inv in Hl as (z & _ & Hl). by apply bind_ret_inv in Hl as (zs & _ & [=]).
Qed.

(** No action trims the text after it. *)
Definition no_right_trim (s : string) : bool :=
  match pieces s with
  | _ :: ps =>
      match mmap segment ps with
      | Ret l => forallb (λ ab, negb (right_marker ab.1)) l
      | _ => false
      end
  | [] => true
  end.

Lemma tokens_last l a b t ks :
  forallb (λ ab, negb (right_marker ab.1)) (l ++ [(a, b)]) = true →
  tokens (l ++ [(a, b)]) = Ret ks →
  ∃ ks', ks = ks' ++ [TText b] ∧ tokens (l ++ [(a, b +:+ t)]) = Ret (ks' ++ [TText (b +:+ t)]) ∧
    ∀ x, before (l ++ [(a, b +:+ t)]) x = before (l ++ [(a, b)]) x.
Proof.
  revert ks. induction l as [|[a' b'] l IH]; intros ks Hm H.
  - simpl in Hm, H |- *. rewrite andb_true_r in Hm. apply negb_true_iff in Hm. rewrite Hm in H |- *.
    apply bind_ret_inv in H as (k & Hk & [= <-]). rewrite Hk. by exists [k].
  - simpl in Hm. apply andb_true_iff in Hm as [Hm1 Hm2].
    cbn [tokens app] in H |- *. apply bind_ret_inv in H as (k & Hk & H).
    apply bind_ret_inv in H as (ks1 & Hks & [= <-]). destruct (IH ks1 Hm2 Hks) as (ks' & -> & Hks' & Hb).
    rewrite Hk. cbn [mbind outcome_bind]. rewrite Hks'. cbn [mbind outcome_bind]. rewrite Hb.
    eexists (_ :: _ :: ks'). split; [reflexivity|]. split; done.
Qed.

Lemma execute_last data conds ks b t r :
  execute data conds (ks ++ [TText b]) = Ret r →
  execute data conds (ks ++ [TText (b +:+ t)]) = Ret (r +:+ t).
Proof.
  revert conds r. induction ks as [|k ks IH]; intros conds r H; simpl in *.
  - destruct conds as [|c conds]; simpl in H; [|done]. injection H as <-. simpl.
    by rewrite !append_nil_r.
  - destruct k as [s|f|f|].
    + apply bind_ret_inv in H as (r' & Hr & [= <-]). rewrite (IH _ _ Hr). simpl. by rewrite append_assoc.
    + by apply IH.
    + apply bind_ret_inv in H as (r' & Hr & [= <-]). rewrite (IH _ _ Hr). simpl. by rewrite append_assoc.
    + destruct conds; [done|]. by apply IH.
Qed.

(** Text after a template is copied. *)
Lemma execute_app s t data r :
  plain_text t → no_open t = true → no_right_trim s = true → Template_Execute s data = Ret r →
  Template_Execute (s +:+ t) data = Ret (r +:+ t).
Proof.
  unfold Template_Execute, lex, no_right_trim. intros Ht Ho Hm H. rewrite pieces_app by done.
  rewrite Ht. unfold glue. rewrite app_nil_r.
  pose proof (pieces_nonempty s) as Hne. destruct (pieces s) as [|t0 ps]; [done|]. clear Hne.
  destruct ps as [|p ps].
  { simpl in H |- *. injection H as <-. by rewrite !append_nil_r. }
  change (at_end (t0 :: p :: ps) t) with (t0 :: at_end (p :: ps) t).
  destruct (mmap segment (p :: ps)) as [l| | |] eqn:Hl; [|done..].
  rewrite (segments_at_end (p :: ps) l t ltac:(done) Hl). cbn [mbind outcome_bind] in H |- *.
  unfold last_text. destruct (rev l) as [|[a b] l'] eqn:Hr.
  { apply (f_equal (@rev _)) in Hr. rewrite rev_involutive in Hr. simpl in Hr. subst.
    simpl in Hl. apply bind_ret_inv in Hl as (z & _ & Hl). by apply bind_ret_inv in Hl as (zs & _ & [=]). }
  apply (f_equal (@rev _)) in Hr. rewrite rev_involutive in Hr. simpl in Hr. subst.
  apply bind_ret_inv in H as (ks & Hks & H). apply bind_ret_inv in Hks as (ks1 & Hks & [= <-]).
  destruct (tokens_last _ _ _ t _ Hm Hks) as (ks' & -> & -> & Hb). cbn [mbind outcome_bind].
  rewrite Hb. by apply (execute_last data [] (TText _ :: ks')).
Qed.
