(* ===== verification/GoXml.v ===== *)
(** * Go's [encoding/xml], for the documents the operator reads and writes

    The writer is [Encoder.Encode] with [Indent] (an empty prefix and two
    spaces) on a [<configuration>] of [<property>] pairs, with [EscapeText] on
    byte strings (UTF-8 decoding included). The reader is [Unmarshal] into the
    same struct: elements without attributes or name spaces, text with
    character references, the XML declaration, end tags that must match.
    Comments, CDATA sections, directives, attributes, names with a colon or
    with bytes outside ASCII are [Beyond].

    The main result is the round trip [unmarshal_encode]: reading back a
    written document gives the pairs that were written, for all pairs whose
    strings are valid UTF-8 of characters XML allows. *)

From S2P Require Import Prelude GoStd.

(** The name-value pair of [internal/util]; the tags make its fields the
    elements [name] and [value]. *)
Record XmlNameValuePair := { Name : string; Value : string }.

#[export] Instance pair_eq_dec : EqDecision XmlNameValuePair.
Proof. solve_decision. Defined.

(** ** UTF-8 *)

Definition byte_of (c : ascii) : Z := Z.of_N (N_of_ascii c).

Definition in_range (lo hi : Z) (c : ascii) : bool :=
  ((lo <=? byte_of c) && (byte_of c <=? hi))%Z.

Definition cont_bits (c : ascii) : Z := (byte_of c mod 64)%Z.

Definition rune_error : Z := 65533%Z.

(** Two, three and four byte sequences: [lo] and [hi] bound the second byte. *)
Definition decode2 (b0 : Z) (s : string) : Z * nat :=
  match s with
  | String c1 _ => if in_range 128 191 c1 then (((b0 mod 32) * 64 + cont_bits c1)%Z, 2)
                   else (rune_error, 1)
  | _ => (rune_error, 1)
  end.

Definition decode3 (b0 lo hi : Z) (s : string) : Z * nat :=
  match s with
  | String c1 (String c2 _) =>
      if in_range lo hi c1 && in_range 128 191 c2
      then (((b0 mod 16) * 4096 + cont_bits c1 * 64 + cont_bits c2)%Z, 3)
      else (rune_error, 1)
  | _ => (rune_error, 1)
  end.

Definition decode4 (b0 lo hi : Z) (s : string) : Z * nat :=
  match s with
  | String c1 (String c2 (String c3 _)) =>
      if in_range lo hi c1 && in_range 128 191 c2 && in_range 128 191 c3
      then (((b0 mod 8) * 262144 + cont_bits c1 * 4096 + cont_bits c2 * 64 + cont_bits c3)%Z, 4)
      else (rune_error, 1)
  | _ => (rune_error, 1)
  end.

(** [utf8.DecodeRune] of a non-empty string with first byte [c]: the rune and
    its width; an invalid sequence is [rune_error] of width 1. *)
Definition DecodeRune (c : ascii) (s : string) : Z * nat :=
  let b0 := byte_of c in
  (if b0 <? 128 then (b0, 1%nat)
   else if b0 <? 194 then (rune_error, 1%nat)
   else if b0 <? 224 then decode2 b0 s
   else if b0 =? 224 then decode3 b0 160 191 s
   else if b0 =? 237 then decode3 b0 128 159 s
   else if b0 <? 240 then decode3 b0 128 191 s
   else if b0 =? 240 then decode4 b0 144 191 s
   else if b0 <? 244 then decode4 b0 128 191 s
   else if b0 =? 244 then decode4 b0 128 143 s
   else (rune_error, 1%nat))%Z.

(** [utf8.AppendRune]; a value that is not a code point is [rune_error]. *)
Definition EncodeRune (r : Z) : string :=
  let chr z := ascii_of_N (Z.to_N z) in
  let r := (if ((1114111 <? r) || ((55296 <=? r) && (r <=? 57343)))%Z then rune_error else r) in
  (if r <? 128 then String (chr r) ""
   else if r <? 2048 then String (chr (192 + r / 64)) (String (chr (128 + r mod 64)) "")
   else if r <? 65536 then
     String (chr (224 + r / 4096)) (String (chr (128 + (r / 64) mod 64))
       (String (chr (128 + r mod 64)) ""))
   else String (chr (240 + r / 262144)) (String (chr (128 + (r / 4096) mod 64))
       (String (chr (128 + (r / 64) mod 64)) (String (chr (128 + r mod 64)) ""))))%Z.

Definition isInCharacterRange (r : Z) : bool :=
  ((r =? 9) || (r =? 10) || (r =? 13) || ((32 <=? r) && (r <=? 55295))
   || ((57344 <=? r) && (r <=? 65533)) || ((65536 <=? r) && (r <=? 1114111)))%Z.

(** A rune [EscapeText] and the reader accept. *)
Definition valid_rune (rw : Z * nat) : bool :=
  isInCharacterRange rw.1 && negb ((rw.1 =? rune_error)%Z && (rw.2 =? 1)).

(** Every rune of the string is valid; [skip] bytes of a rune already checked
    come first. *)
Fixpoint valid_chars (skip : nat) (s : string) : bool :=
  match s with
  | EmptyString => true
  | String c s' =>
      match skip with
      | S k => valid_chars k s'
      | O => let rw := DecodeRune c s' in valid_rune rw && valid_chars (rw.2 - 1) s'
      end
  end.

(** ** The writer *)

Definition apos : ascii := "039"%char.
Definition tab : ascii := "009"%char.

(** The escape of one ASCII byte, when it has one. *)
Definition escape_byte (c : ascii) : option string :=
  if Ascii.eqb c quot then Some "&#34;"
  else if Ascii.eqb c apos then Some "&#39;"
  else if Ascii.eqb c "&" then Some "&amp;"
  else if Ascii.eqb c "<" then Some "&lt;"
  else if Ascii.eqb c ">" then Some "&gt;"
  else if Ascii.eqb c tab then Some "&#x9;"
  else if Ascii.eqb c nl then Some "&#xA;"
  else if Ascii.eqb c cr then Some "&#xD;"
  else None.

(** [EscapeText]: what is left of the rune being written is copied or, when
    the rune was replaced, dropped. *)
Inductive esc_mode := ECopy (n : nat) | EDrop (n : nat).

Fixpoint EscapeText (mode : esc_mode) (s : string) : string :=
  match s with
  | EmptyString => ""
  | String c s' =>
      match mode with
      | ECopy (S k) => String c (EscapeText (ECopy k) s')
      | EDrop (S k) => EscapeText (EDrop k) s'
      | _ =>
          match escape_byte c with
          | Some e => e +:+ EscapeText (ECopy 0) s'
          | None =>
              let rw := DecodeRune c s' in
              if valid_rune rw then String c (EscapeText (ECopy (rw.2 - 1)) s')
              else EncodeRune rune_error +:+ EscapeText (EDrop (rw.2 - 1)) s'
          end
      end
  end.

Definition line (s : string) : string := String nl s.

(** One [<property>] at depth 1, with the newline the writer puts before it,
    then the output [k] that follows. *)
Definition encode_pair (p : XmlNameValuePair) (k : string) : string :=
  line ("  <property>" +:+
  line ("    <name>" +:+ EscapeText (ECopy 0) (Name p) +:+ "</name>" +:+
  line ("    <value>" +:+ EscapeText (ECopy 0) (Value p) +:+ "</value>" +:+
  line ("  </property>" +:+ k)))).

Definition encode_pairs (ps : list XmlNameValuePair) (k : string) : string :=
  foldr encode_pair k ps.

(** [Encoder.Encode] on an [XmlConfiguration]: an element with no child is
    closed on its own line. *)
Definition Encode (ps : list XmlNameValuePair) : string :=
  match ps with
  | [] => "<configuration></configuration>"
  | _ => "<configuration>" +:+ encode_pairs ps (line "</configuration>")
  end.

(** ** The reader: tokens *)

Inductive token :=
  | TStart (name : string)
  | TEnd (name : string)
  | TEmpty (name : string)
  | TText (text : string)
  | TProc.

Definition is_name_byte (c : ascii) : bool :=
  in_range 48 57 c || in_range 65 90 c || in_range 97 122 c
  || Ascii.eqb c "_" || Ascii.eqb c "." || Ascii.eqb c "-".

Definition is_name_start (c : ascii) : bool :=
  in_range 65 90 c || in_range 97 122 c || Ascii.eqb c "_".

Definition is_space (c : ascii) : bool :=
  Ascii.eqb c " " || Ascii.eqb c tab || Ascii.eqb c nl || Ascii.eqb c cr.

Fixpoint take_name (s : string) : string * string :=
  match s with
  | String c s' =>
      if is_name_byte c then let '(n, rest) := take_name s' in (String c n, rest) else ("", s)
  | EmptyString => ("", "")
  end.

Fixpoint skip_space (s : string) : string :=
  match s with
  | String c s' => if is_space c then skip_space s' else s
  | EmptyString => ""
  end.

Definition syntax_error {A} (msg : string) : outcome A := Err (EMsg ("XML syntax error: " +:+ msg)).

(** A name: letters, digits, [_], [.] and [-], starting with a letter or [_]. *)
Definition read_name (s : string) : outcome (string * string) :=
  let '(n, rest) := take_name s in
  match rest with
  | String c _ =>
      if in_range 128 255 c || Ascii.eqb c ":" then Beyond "xml: name"
      else match n with
           | String c0 _ => if is_name_start c0 then Ret (n, rest) else syntax_error "invalid XML name"
           | EmptyString => syntax_error "expected element name"
           end
  | EmptyString => syntax_error "unexpected EOF"
  end.

Definition digit_value (base : Z) (c : ascii) : option Z :=
  let v := (if in_range 48 57 c then byte_of c - 48
            else if in_range 97 102 c then byte_of c - 87
            else if in_range 65 70 c then byte_of c - 55 else 99)%Z in
  if (v <? base)%Z then Some v else None.

(** [strconv.ParseUint] of a non-empty digit string, up to the largest rune. *)
Fixpoint parse_uint (base acc : Z) (s : string) : option Z :=
  match s with
  | EmptyString => if (acc <=? 1114111)%Z then Some acc else None
  | String c s' => v ← digit_value base c; parse_uint base (acc * base + v)%Z s'
  end.

(** The rest of the input after the byte [c], when it comes first. *)
Definition expect (c : ascii) (s : string) : option string :=
  match s with
  | String c' s' => if Ascii.eqb c' c then Some s' else None
  | EmptyString => None
  end.

Definition char_ref (base : Z) (digits : string) : option string :=
  if decide (digits = "") then None else EncodeRune <$> parse_uint base 0 digits.

(** The replacement of the reference between [&] and [;]. *)
Definition entity (e : string) : option string :=
  match expect "#" e with
  | Some num =>
      match expect "x" num with
      | Some hex => char_ref 16 hex
      | None => char_ref 10 num
      end
  | None =>
      if decide (e = "lt") then Some "<" else if decide (e = "gt") then Some ">"
      else if decide (e = "amp") then Some "&" else if decide (e = "apos") then Some (String apos "")
      else if decide (e = "quot") then Some (String quot "") else None
  end.

(** [Decoder.text] outside CDATA: the state is the reference being read, if
    any, and the two bytes read before this one. *)
Inductive text_mode := InText (b0 b1 : option ascii) | InRef (acc : string).

Definition prepend (t : string) (r : outcome (string * string)) : outcome (string * string) :=
  '(text, rest) ← r; Ret (t +:+ text, rest).

Fixpoint read_text (mode : text_mode) (s : string) : outcome (string * string) :=
  match s with
  | EmptyString =>
      match mode with InText _ _ => Ret ("", "") | InRef _ => syntax_error "unexpected EOF" end
  | String c s' =>
      match mode with
      | InText b0 b1 =>
          if Ascii.eqb c "<" then Ret ("", s)
          else if Ascii.eqb c ">" && bool_decide (b0 = Some "]"%char ∧ b1 = Some "]"%char)
          then syntax_error "unescaped ]]> not in CDATA section"
          else if Ascii.eqb c "&" then read_text (InRef "") s'
          else if Ascii.eqb c cr then prepend (String nl "") (read_text (InText b1 (Some c)) s')
          else if Ascii.eqb c nl && bool_decide (b1 = Some cr) then read_text (InText b1 (Some c)) s'
          else prepend (String c "") (read_text (InText b1 (Some c)) s')
      | InRef acc =>
          if Ascii.eqb c ";" then
            match entity acc with
            | Some t => prepend t (read_text (InText None None) s')
            | None => syntax_error "invalid character entity"
            end
          else if is_name_byte c || Ascii.eqb c "#" then read_text (InRef (acc +:+ String c "")) s'
          else syntax_error "invalid character entity"
      end
  end.

(** The declarations the operator's documents carry. *)
Definition xml_decl : string := "xml version=" +:+ String quot ("1.0" +:+ String quot "?>").
Definition xml_decl_utf8 : string :=
  "xml version=" +:+ String quot ("1.0" +:+ String quot (" encoding=" +:+
  String quot ("UTF-8" +:+ String quot "?>"))).

Fixpoint drop_prefix (p s : string) : option string :=
  match p, s with
  | EmptyString, _ => Some s
  | String c p', String c' s' => if Ascii.eqb c c' then drop_prefix p' s' else None
  | _, EmptyString => None
  end.

(** After [</], after [<?] and after [<] of a start tag. *)
Definition read_end_tag (s : string) : outcome (token * string) :=
  '(n, rest) ← read_name s;
  match expect ">" (skip_space rest) with
  | Some rest' => Ret (TEnd n, rest')
  | None => syntax_error "invalid characters between </ and >"
  end.

Definition read_proc (s : string) : outcome (token * string) :=
  match drop_prefix xml_decl s with
  | Some rest => Ret (TProc, rest)
  | None =>
      match drop_prefix xml_decl_utf8 s with
      | Some rest => Ret (TProc, rest)
      | None => Beyond "xml: processing instruction"
      end
  end.

Definition read_start_tag (s : string) : outcome (token * string) :=
  '(n, rest) ← read_name s;
  let after := skip_space rest in
  match expect ">" after with
  | Some rest' => Ret (TStart n, rest')
  | None =>
      match expect "/" after with
      | Some after' =>
          match expect ">" after' with
          | Some rest' => Ret (TEmpty n, rest')
          | None => syntax_error "expected /> in element"
          end
      | None =>
          if decide (after = "") then syntax_error "unexpected EOF" else Beyond "xml: attribute"
      end
  end.

Definition read_chardata (s : string) : outcome (token * string) :=
  '(t, rest) ← read_text (InText None None) s;
  if valid_chars 0 t then Ret (TText t, rest) else syntax_error "invalid UTF-8 or character".

(** One token, and the rest of the input. *)
Definition next_token (s : string) : outcome (token * string) :=
  match s with
  | EmptyString => Err (EMsg "EOF")
  | String c s1 =>
      if Ascii.eqb c "<" then
        match s1 with
        | EmptyString => syntax_error "unexpected EOF"
        | String c1 s2 =>
            if Ascii.eqb c1 "/" then read_end_tag s2
            else if Ascii.eqb c1 "?" then read_proc s2
            else if Ascii.eqb c1 "!" then Beyond "xml: comment, CDATA or directive"
            else read_start_tag s1
        end
      else read_chardata s
  end.

(** ** The reader: [Unmarshal] into an [XmlConfiguration] *)

(** What is being filled, innermost first; an element no field matches is
    skipped with everything below it. *)
Inductive frame :=
  | FConf (props : list XmlNameValuePair)
  | FProp (p : XmlNameValuePair)
  | FName (data : string)
  | FValue (data : string)
  | FSkip.

Definition stack := list (string * frame).

Inductive step_result :=
  | Continue (st : stack)
  | Finished (props : list XmlNameValuePair).

Definition start_elem (n : string) (st : stack) : outcome stack :=
  match st with
  | [] => if decide (n = "configuration") then Ret [(n, FConf [])]
          else Err (EMsg "expected element type <configuration>")
  | (_, FConf _) :: _ =>
      Ret ((n, if decide (n = "property") then FProp {| Name := ""; Value := "" |} else FSkip) :: st)
  | (_, FProp _) :: _ =>
      Ret ((n, if decide (n = "name") then FName "" else if decide (n = "value") then FValue "" else FSkip) :: st)
  | _ => Ret ((n, FSkip) :: st)
  end.

Definition text_elem (t : string) (st : stack) : stack :=
  match st with
  | (n, FName d) :: st' => (n, FName (d +:+ t)) :: st'
  | (n, FValue d) :: st' => (n, FValue (d +:+ t)) :: st'
  | _ => st
  end.

Definition end_elem (n : string) (st : stack) : outcome step_result :=
  match st with
  | [] => syntax_error "unexpected end element"
  | (m, f) :: st' =>
      if decide (m = n) then
        match f, st' with
        | FConf ps, _ => Ret (Finished ps)
        | FProp p, (k, FConf ps) :: st'' => Ret (Continue ((k, FConf (ps ++ [p])) :: st''))
        | FName d, (k, FProp p) :: st'' => Ret (Continue ((k, FProp {| Name := d; Value := Value p |}) :: st''))
        | FValue d, (k, FProp p) :: st'' => Ret (Continue ((k, FProp {| Name := Name p; Value := d |}) :: st''))
        | _, _ => Ret (Continue st')
        end
      else syntax_error "element closed by another end tag"
  end.

Definition step_token (tok : token) (st : stack) : outcome step_result :=
  match tok with
  | TStart n => st' ← start_elem n st; Ret (Continue st')
  | TEnd n => end_elem n st
  | TEmpty n => st' ← start_elem n st; end_elem n st'
  | TText t => Ret (Continue (text_elem t st))
  | TProc => Ret (Continue st)
  end.

Fixpoint decode_loop (fuel : nat) (st : stack) (s : string) : outcome (list XmlNameValuePair) :=
  match fuel with
  | O => Beyond "xml: out of fuel"
  | S fuel' =>
      '(tok, rest) ← next_token s;
      r ← step_token tok st;
      match r with
      | Continue st' => decode_loop fuel' st' rest
      | Finished ps => Ret ps
      end
  end.

(** Each token takes at least one byte, so one more than the length is enough
    fuel ([decode_unfold] below). *)
Definition decode (st : stack) (s : string) : outcome (list XmlNameValuePair) :=
  decode_loop (S (String.length s)) st s.

Definition Unmarshal (s : string) : outcome (list XmlNameValuePair) := decode [] s.

(** ** The fuel is enough *)

#[local] Arguments Ascii.eqb : simpl never.

Lemma take_name_length s : String.length (take_name s).2 ≤ String.length s.
Proof.
  induction s as [|c s IH]; simpl; [lia|].
  destruct (is_name_byte c); simpl; [|lia].
  destruct (take_name s). simpl in *. lia.
Qed.

Lemma skip_space_length s : String.length (skip_space s) ≤ String.length s.
Proof. induction s as [|c s IH]; simpl; [lia|]. destruct (is_space c); simpl; lia. Qed.

Lemma read_name_length s n rest :
  read_name s = Ret (n, rest) → String.length rest ≤ String.length s.
Proof.
  unfold read_name. pose proof (take_name_length s) as H.
  destruct (take_name s) as [n' [|c r]]; simpl in *; [done|].
  intros Hr. go_case; lia.
Qed.

Lemma prepend_ret_inv u r t rest :
  prepend u r = Ret (t, rest) → ∃ t', r = Ret (t', rest) ∧ t = u +:+ t'.
Proof. unfold prepend. intros H. go_inv. destruct x. simplify_eq/=. eauto. Qed.

Lemma read_text_length mode s t rest :
  read_text mode s = Ret (t, rest) → String.length rest ≤ String.length s.
Proof.
  revert mode t. induction s as [|c s IH]; intros mode t H; simpl in H |- *.
  - go_case.
  - repeat case_match; simplify_eq/=; try lia; try done;
      first [ apply prepend_ret_inv in H as (t' & H & _); apply IH in H; lia
            | apply IH in H; lia ].
Qed.

(** Text that does not start with a tag takes at least one byte. *)
Lemma read_text_length_lt b0 b1 c s t rest :
  Ascii.eqb c "<" = false → read_text (InText b0 b1) (String c s) = Ret (t, rest) →
  String.length rest ≤ String.length s.
Proof.
  intros Hc H. simpl in H. rewrite Hc in H.
  repeat case_match; simplify_eq/=; try done;
    first [ apply prepend_ret_inv in H as (t' & H & _); by apply read_text_length in H
          | by apply read_text_length in H ].
Qed.

Lemma drop_prefix_length p s rest :
  drop_prefix p s = Some rest → String.length rest ≤ String.length s.
Proof.
  revert s. induction p as [|c p IH]; intros [|c' s] H; simpl in *; simplify_eq/=; try lia.
  destruct (Ascii.eqb c c'); [|done]. apply IH in H. lia.
Qed.

Lemma expect_length c s rest : expect c s = Some rest → String.length rest < String.length s.
Proof. destruct s; simpl; [done|]. intros H. go_case; lia. Qed.

Lemma read_end_tag_length s tok rest :
  read_end_tag s = Ret (tok, rest) → String.length rest < String.length s.
Proof.
  unfold read_end_tag. intros H. go_inv. destruct x as [n r].
  apply read_name_length in Hcall. pose proof (skip_space_length r).
  destruct (expect _ _) eqn:He; simplify_eq/=. apply expect_length in He. lia.
Qed.

Lemma read_proc_length s tok rest :
  read_proc s = Ret (tok, rest) → String.length rest ≤ String.length s.
Proof.
  unfold read_proc. intros H.
  destruct (drop_prefix xml_decl s) eqn:H1; simplify_eq; [by apply drop_prefix_length in H1|].
  destruct (drop_prefix xml_decl_utf8 s) eqn:H2; simplify_eq. by apply drop_prefix_length in H2.
Qed.

Lemma read_start_tag_length s tok rest :
  read_start_tag s = Ret (tok, rest) → String.length rest < String.length s.
Proof.
  unfold read_start_tag. intros H. go_inv. destruct x as [n r].
  apply read_name_length in Hcall. pose proof (skip_space_length r).
  destruct (expect ">" _) eqn:H1; simplify_eq/=; [apply expect_length in H1; lia|].
  destruct (expect "/" _) eqn:H2; [|by case_decide].
  destruct (expect ">" s0) eqn:H3; simplify_eq/=.
  apply expect_length in H2. apply expect_length in H3. lia.
Qed.

Lemma next_token_length s tok rest :
  next_token s = Ret (tok, rest) → String.length rest < String.length s.
Proof.
  destruct s as [|c s]; [done|]. unfold next_token. intros H.
  destruct (Ascii.eqb c "<") eqn:Hc.
  - destruct s as [|c1 s]; [done|].
    destruct (Ascii.eqb c1 "/"); [apply read_end_tag_length in H; simpl; lia|].
    destruct (Ascii.eqb c1 "?"); [apply read_proc_length in H; simpl; lia|].
    destruct (Ascii.eqb c1 "!"); [done|]. apply read_start_tag_length in H. simpl in *. lia.
  - unfold read_chardata in H. go_inv. destruct x as [t r].
    apply read_text_length_lt in Hcall; [|done].
    destruct (valid_chars 0 t); simplify_eq. simpl. lia.
Qed.

Lemma decode_loop_enough fuel1 fuel2 st s :
  String.length s < fuel1 → String.length s < fuel2 →
  decode_loop fuel1 st s = decode_loop fuel2 st s.
Proof.
  revert fuel2 st s. induction fuel1 as [|f1 IH]; intros [|f2] st s H1 H2; try lia. simpl.
  destruct (next_token s) as [[tok rest]| | |] eqn:Ht; try done. simpl.
  destruct (step_token tok st) as [[st'|ps]| | |]; try done. simpl.
  apply next_token_length in Ht. apply IH; lia.
Qed.

(** The loop of [Unmarshal], without fuel. *)
Lemma decode_unfold st s :
  decode st s =
  '(tok, rest) ← next_token s;
  r ← step_token tok st;
  match r with
  | Continue st' => decode st' rest
  | Finished ps => Ret ps
  end.
Proof.
  unfold decode at 1. simpl.
  destruct (next_token s) as [[tok rest]| | |] eqn:Ht; try done. simpl.
  destruct (step_token tok st) as [[st'|ps]| | |]; try done. simpl.
  apply next_token_length in Ht. apply decode_loop_enough; lia.
Qed.

Lemma decode_step st s tok rest st' :
  next_token s = Ret (tok, rest) → step_token tok st = Ret (Continue st') →
  decode st s = decode st' rest.
Proof. intros Ht Hs. rewrite decode_unfold, Ht. simpl. by rewrite Hs. Qed.

Lemma decode_finish st s tok rest ps :
  next_token s = Ret (tok, rest) → step_token tok st = Ret (Finished ps) →
  decode st s = Ret ps.
Proof. intros Ht Hs. rewrite decode_unfold, Ht. simpl. by rewrite Hs. Qed.

(** ** Text round trip *)

(** The next [k] bytes are continuation bytes of a rune. *)
Fixpoint cont (k : nat) (s : string) : bool :=
  match k, s with
  | O, _ => true
  | S k', String c s' => in_range 128 255 c && cont k' s'
  | S _, EmptyString => false
  end.

Lemma in_range_weaken lo hi c :
  (128 ≤ lo)%Z → (hi ≤ 255)%Z → in_range lo hi c = true → in_range 128 255 c = true.
Proof. unfold in_range. rewrite !andb_true_iff, !Z.leb_le. lia. Qed.

Lemma cont_decode2 b0 s : cont ((decode2 b0 s).2 - 1) s = true.
Proof.
  unfold decode2. destruct s as [|c1 s]; [done|].
  destruct (in_range 128 191 c1) eqn:H1; [|done].
  apply in_range_weaken in H1; [|lia..]. simpl. by rewrite H1.
Qed.

Lemma cont_decode3 b0 lo hi s :
  (128 ≤ lo)%Z → (hi ≤ 255)%Z → cont ((decode3 b0 lo hi s).2 - 1) s = true.
Proof.
  intros Hlo Hhi. unfold decode3. destruct s as [|c1 [|c2 s]]; [done..|].
  destruct (in_range lo hi c1) eqn:H1; [|done]. simpl.
  destruct (in_range 128 191 c2) eqn:H2; [|done].
  apply in_range_weaken in H1; [|lia..]. apply in_range_weaken in H2; [|lia..].
  simpl. by rewrite H1, H2.
Qed.

Lemma cont_decode4 b0 lo hi s :
  (128 ≤ lo)%Z → (hi ≤ 255)%Z → cont ((decode4 b0 lo hi s).2 - 1) s = true.
Proof.
  intros Hlo Hhi. unfold decode4. destruct s as [|c1 [|c2 [|c3 s]]]; [done..|].
  destruct (in_range lo hi c1) eqn:H1; [|done]. simpl.
  destruct (in_range 128 191 c2) eqn:H2; [|done]. simpl.
  destruct (in_range 128 191 c3) eqn:H3; [|done].
  apply in_range_weaken in H1; [|lia..]. apply in_range_weaken in H2; [|lia..].
  apply in_range_weaken in H3; [|lia..]. simpl. by rewrite H1, H2, H3.
Qed.

Lemma cont_DecodeRune c s : cont ((DecodeRune c s).2 - 1) s = true.
Proof.
  unfold DecodeRune. repeat case_match; try done;
    first [apply cont_decode2 | apply cont_decode3; lia | apply cont_decode4; lia].
Qed.

(** A byte that the writer does not escape and the reader copies. *)
Lemma escape_byte_None c :
  escape_byte c = None →
  Ascii.eqb c "<" = false ∧ Ascii.eqb c ">" = false ∧ Ascii.eqb c "&" = false ∧
  Ascii.eqb c cr = false ∧ Ascii.eqb c nl = false.
Proof.
  unfold escape_byte.
  repeat (destruct (Ascii.eqb c _); try done).
Qed.

Lemma high_byte_no_escape c : in_range 128 255 c = true → escape_byte c = None.
Proof.
  intros H. unfold escape_byte.
  repeat match goal with
  | |- context [Ascii.eqb c ?d] => destruct (Ascii.eqb_spec c d) as [->|]; [discriminate H|]
  end.
  done.
Qed.

Lemma read_text_copy b0 b1 c s :
  escape_byte c = None →
  read_text (InText b0 b1) (String c s)
  = prepend (String c "") (read_text (InText b1 (Some c)) s).
Proof.
  intros H. apply escape_byte_None in H as (H1 & H2 & H3 & H4 & H5).
  simpl. by rewrite H1, H2, H3, H4, H5.
Qed.

(** An escaped byte is read back. *)
Lemma read_text_escape b0 b1 c e s :
  escape_byte c = Some e →
  read_text (InText b0 b1) (e +:+ s)
  = prepend (String c "") (read_text (InText None None) s).
Proof.
  unfold escape_byte. intros H.
  repeat match goal with
  | H : context [Ascii.eqb c ?d] |- _ =>
      destruct (Ascii.eqb_spec c d) as [->|]; [injection H as <-; reflexivity|]
  end.
  done.
Qed.

Lemma escape_byte_ascii c e s : escape_byte c = Some e → (DecodeRune c s).2 = 1.
Proof.
  unfold escape_byte. intros H.
  repeat match goal with
  | H : context [Ascii.eqb c ?d] |- _ =>
      destruct (Ascii.eqb_spec c d) as [->|]; [reflexivity|]
  end.
  done.
Qed.

(** Reading an escaped string up to the next tag gives the string back. *)
Lemma read_text_EscapeText k s b0 b1 rest :
  valid_chars k s = true → cont k s = true →
  read_text (InText b0 b1) (EscapeText (ECopy k) s +:+ String "<" rest)
  = Ret (s, String "<" rest).
Proof.
  revert k b0 b1. induction s as [|c s IH]; intros k b0 b1 Hv Hk; [done|].
  destruct k as [|k]; simpl in Hv.
  - apply andb_true_iff in Hv as [Hr Hv]. simpl.
    destruct (escape_byte c) as [e|] eqn:He.
    + rewrite append_assoc, (read_text_escape b0 b1 c e) by done.
      rewrite (escape_byte_ascii c e) in Hv by done.
      rewrite IH; [done..|]. done.
    + rewrite Hr, append_cons, read_text_copy by done.
      rewrite IH; [done| done|]. apply cont_DecodeRune.
  - simpl in Hk. apply andb_true_iff in Hk as [Hc Hk].
    change (EscapeText (ECopy (S k)) (String c s)) with (String c (EscapeText (ECopy k) s)).
    rewrite append_cons, read_text_copy by (by apply high_byte_no_escape).
    by rewrite IH.
Qed.

(** ** Document round trip *)

(** A string the writer writes without a replacement character. *)
Definition xml_text (s : string) : Prop := valid_chars 0 s = true.

#[export] Instance xml_text_dec s : Decision (xml_text s).
Proof. unfold xml_text. apply _. Defined.

Definition xml_pair (p : XmlNameValuePair) : Prop := xml_text (Name p) ∧ xml_text (Value p).

#[export] Instance xml_pair_dec p : Decision (xml_pair p).
Proof. unfold xml_pair. apply _. Defined.

Lemma EscapeText_head c s t :
  valid_chars 0 (String c s) = true →
  ∃ c' s', EscapeText (ECopy 0) (String c s) +:+ t = String c' s' ∧ Ascii.eqb c' "<" = false.
Proof.
  intros Hv. simpl in Hv. apply andb_true_iff in Hv as [Hr _]. simpl.
  destruct (escape_byte c) as [e|] eqn:He.
  - unfold escape_byte in He.
    repeat match goal with
    | H : context [Ascii.eqb c ?d] |- _ =>
        destruct (Ascii.eqb c d);
          [injection He as <-; rewrite append_assoc; eexists _, _; split; reflexivity|]
    end.
    done.
  - rewrite Hr. eexists _, _. split; [apply append_cons|].
    apply escape_byte_None in He as [He _]. exact He.
Qed.

Lemma next_token_text s rest :
  s ≠ "" → xml_text s →
  next_token (EscapeText (ECopy 0) s +:+ String "<" rest) = Ret (TText s, String "<" rest).
Proof.
  intros Hne Hv. destruct s as [|c s]; [done|].
  destruct (EscapeText_head c s (String "<" rest) Hv) as (c' & s' & Heq & Hc).
  pose proof (read_text_EscapeText 0 (String c s) None None rest Hv eq_refl) as Hread.
  rewrite Heq in *. unfold next_token. rewrite Hc. unfold read_chardata.
  rewrite Hread. cbv beta iota delta [mbind outcome_bind].
  by rewrite Hv.
Qed.

Lemma decode_field f st s rest :
  f = FName ∨ f = FValue → xml_text s → ∀ n,
  decode ((n, f "") :: st) (EscapeText (ECopy 0) s +:+ String "<" rest)
  = decode ((n, f s) :: st) (String "<" rest).
Proof.
  intros Hf Hv n. destruct (decide (s = "")) as [->|Hne]; [done|].
  erewrite decode_step; [|by apply next_token_text|]; [done|].
  by destruct Hf as [-> | ->].
Qed.

Lemma decode_name st s k n :
  xml_text s →
  decode ((n, FName "") :: st) (EscapeText (ECopy 0) s +:+ "</name>" +:+ k)
  = decode ((n, FName s) :: st) ("</name>" +:+ k).
Proof. intros H. apply (decode_field FName); auto. Qed.

Lemma decode_value st s k n :
  xml_text s →
  decode ((n, FValue "") :: st) (EscapeText (ECopy 0) s +:+ "</value>" +:+ k)
  = decode ((n, FValue s) :: st) ("</value>" +:+ k).
Proof. intros H. apply (decode_field FValue); auto. Qed.

Lemma next_start_property X : next_token ("<property>" +:+ X) = Ret (TStart "property", X).
Proof. reflexivity. Qed.

Lemma next_start_name X : next_token ("<name>" +:+ X) = Ret (TStart "name", X).
Proof. reflexivity. Qed.

Lemma next_start_value X : next_token ("<value>" +:+ X) = Ret (TStart "value", X).
Proof. reflexivity. Qed.

Lemma next_start_configuration X :
  next_token ("<configuration>" +:+ X) = Ret (TStart "configuration", X).
Proof. reflexivity. Qed.

Lemma next_end_property X : next_token ("</property>" +:+ X) = Ret (TEnd "property", X).
Proof. reflexivity. Qed.

Lemma next_end_name X : next_token ("</name>" +:+ X) = Ret (TEnd "name", X).
Proof. reflexivity. Qed.

Lemma next_end_value X : next_token ("</value>" +:+ X) = Ret (TEnd "value", X).
Proof. reflexivity. Qed.

Lemma next_end_configuration X :
  next_token ("</configuration>" +:+ X) = Ret (TEnd "configuration", X).
Proof. reflexivity. Qed.

(** The white space the writer puts between two tags. *)
Lemma next_indent0 X : next_token (line (String "<" X)) = Ret (TText (line ""), String "<" X).
Proof. reflexivity. Qed.

Lemma next_indent2 X :
  next_token (line ("  <" +:+ X)) = Ret (TText (line "  "), String "<" X).
Proof. reflexivity. Qed.

Lemma next_indent4 X :
  next_token (line ("    <" +:+ X)) = Ret (TText (line "    "), String "<" X).
Proof. reflexivity. Qed.

(** One step of the reader on a token lemma. *)
Ltac xml_step lem := erewrite decode_step; [|apply lem|lazy; reflexivity].

Lemma decode_pair ps p k :
  xml_pair p →
  decode [("configuration", FConf ps)] (encode_pair p k)
  = decode [("configuration", FConf (ps ++ [p]))] k.
Proof.
  intros [Hn Hv]. unfold encode_pair.
  xml_step next_indent2. xml_step next_start_property.
  xml_step next_indent4. xml_step next_start_name.
  rewrite decode_name by done. xml_step next_end_name.
  xml_step next_indent4. xml_step next_start_value.
  rewrite decode_value by done. xml_step next_end_value.
  xml_step next_indent2. xml_step next_end_property.
  destruct p; reflexivity.
Qed.

Lemma decode_pairs ps qs k :
  Forall xml_pair qs →
  decode [("configuration", FConf ps)] (encode_pairs qs k)
  = decode [("configuration", FConf (ps ++ qs))] k.
Proof.
  intros H. revert ps. induction H as [|q qs Hq _ IH]; intros ps; simpl.
  - by rewrite app_nil_r.
  - rewrite decode_pair by done. rewrite IH. by rewrite <- app_assoc.
Qed.

(** What is written is read back. *)
Lemma unmarshal_Encode ps : Forall xml_pair ps → Unmarshal (Encode ps) = Ret ps.
Proof.
  intros H. unfold Unmarshal, Encode. destruct ps as [|p ps]; [reflexivity|].
  xml_step next_start_configuration.
  rewrite decode_pairs by done. xml_step (next_indent0 "/configuration>").
  eapply decode_finish; [apply (next_end_configuration "")|reflexivity].
Qed.

(** The same behind the XML declaration of the written files. *)
Definition xml_head : string := "<?" +:+ xml_decl_utf8 +:+ line "".

Lemma unmarshal_doc ps : Forall xml_pair ps → Unmarshal (xml_head +:+ Encode ps) = Ret ps.
Proof.
  intros H. rewrite <- (unmarshal_Encode ps H). unfold Unmarshal.
  destruct ps as [|p ps].
  - reflexivity.
  - transitivity (decode [] (line (Encode (p :: ps)))).
    + by erewrite decode_step.
    + unfold Encode. xml_step next_indent0. reflexivity.
Qed.

(** Printable ASCII text is XML text. *)
Definition plain_byte (c : ascii) : bool := in_range 32 126 c.

Lemma DecodeRune_ascii c s : in_range 0 127 c = true → DecodeRune c s = (byte_of c, 1).
Proof.
  unfold in_range, DecodeRune. rewrite andb_true_iff, !Z.leb_le. intros H.
  destruct (Z.ltb_spec (byte_of c) 128); [done | lia].
Qed.

Lemma plain_xml_text s : str_forall plain_byte s = true → xml_text s.
Proof.
  unfold xml_text. induction s as [|c s IH]; [done|]. simpl. intros H.
  apply andb_true_iff in H as [Hc Hs]. unfold plain_byte, in_range in Hc.
  rewrite andb_true_iff, !Z.leb_le in Hc.
  rewrite DecodeRune_ascii by (unfold in_range; rewrite andb_true_iff, !Z.leb_le; lia).
  simpl. rewrite IH by done. unfold valid_rune, isInCharacterRange, rune_error. simpl.
  destruct (Z.leb_spec 32 (byte_of c)); [|lia].
  destruct (Z.leb_spec (byte_of c) 55295); [|lia].
  destruct (Z.eqb_spec (byte_of c) 65533); [lia|]. by rewrite !orb_true_r.
Qed.

(** ** Strings that need no care

    Printable ASCII without the percent sign of formats and without the bytes
    that XML escapes: names of Kubernetes objects, addresses and paths. *)
Definition safe_byte (c : ascii) : bool :=
  plain_byte c && negb (Ascii.eqb c "%") &&
  match escape_byte c with Some _ => false | None => true end.

Definition safe (s : string) : Prop := str_forall safe_byte s = true.

#[export] Instance safe_dec s : Decision (safe s).
Proof. unfold safe. apply _. Defined.

Lemma safe_app s t : safe s → safe t → safe (s +:+ t).
Proof. unfold safe. rewrite str_forall_app. intros -> ->. done. Qed.

Lemma safe_plain s : safe s → str_forall plain_byte s = true.
Proof.
  apply str_forall_impl. unfold safe_byte. intros c. rewrite !andb_true_iff. tauto.
Qed.

Lemma safe_xml_text s : safe s → xml_text s.
Proof. intros H. by apply plain_xml_text, safe_plain. Qed.

Lemma safe_no_percent s : safe s → no_percent s = true.
Proof.
  apply str_forall_impl. unfold safe_byte. intros c. rewrite !andb_true_iff. tauto.
Qed.

Lemma no_percent_Contains s : no_percent s = true → Contains s "%d" = false.
Proof.
  unfold no_percent. induction s as [|c s IH]; [done|]. cbn [str_forall Contains].
  rewrite andb_true_iff, negb_true_iff. intros [Hc Hs]. rewrite IH by done.
  rewrite HasPrefix_cons, Ascii.eqb_sym, Hc. done.
Qed.

Lemma EscapeText_safe s : safe s → EscapeText (ECopy 0) s = s.
Proof.
  unfold safe. induction s as [|c s IH]; [done|]. simpl.
  rewrite andb_true_iff. intros [Hc Hs]. unfold safe_byte in Hc.
  rewrite !andb_true_iff in Hc. destruct Hc as [[Hp _] He].
  destruct (escape_byte c) as [e|]; [done|].
  assert (Hv : valid_rune (DecodeRune c s) = true).
  { pose proof (plain_xml_text (String c "")) as Hx. unfold xml_text in Hx. simpl in Hx.
    rewrite Hp in Hx. specialize (Hx eq_refl). apply andb_true_iff in Hx as [Hx _].
    unfold plain_byte, in_range in Hp. rewrite andb_true_iff, !Z.leb_le in Hp.
    rewrite DecodeRune_ascii in Hx |- *;
      [done|unfold in_range; rewrite andb_true_iff, !Z.leb_le; lia..]. }
  rewrite Hv. unfold plain_byte, in_range in Hp. rewrite andb_true_iff, !Z.leb_le in Hp.
  rewrite DecodeRune_ascii by (unfold in_range; rewrite andb_true_iff, !Z.leb_le; lia).
  simpl. by rewrite IH.
Qed.

Lemma is_digit_safe c : is_digit c = true → safe_byte c = true.
Proof.
  destruct c as [[] [] [] [] [] [] [] []]; vm_compute; congruence.
Qed.

Lemma Itoa_safe z : (0 ≤ z)%Z → safe (Itoa z).
Proof. intros H. eapply str_forall_impl; [apply is_digit_safe|by apply Itoa_digits]. Qed.

Lemma Join_safe l sep : safe sep → Forall safe l → safe (Join l sep).
Proof.
  intros Hs Hl. unfold Join. induction Hl as [|s l H Hl IH]; [done|]. simpl.
  destruct l as [|s' l]; [done|]. by repeat apply safe_app.
Qed.

Create HintDb safe discriminated.
#[export] Hint Resolve safe_app Itoa_safe Join_safe safe_xml_text safe_no_percent : safe.
#[export] Hint Extern 0 (safe (String _ _)) => reflexivity : safe.
#[export] Hint Extern 0 (safe EmptyString) => reflexivity : safe.
#[export] Hint Extern 1 (_ ≤ _)%Z => lia : safe.

(** [unmarshal_doc] behind the declaration the templates of the sources have. *)
Definition xml_head_plain : string := "<?" +:+ xml_decl +:+ line "".

Lemma unmarshal_doc_plain ps :
  Forall xml_pair ps → Unmarshal (xml_head_plain +:+ Encode ps) = Ret ps.
Proof.
  intros H. rewrite <- (unmarshal_Encode ps H). unfold Unmarshal.
  destruct ps as [|p ps].
  - reflexivity.
  - transitivity (decode [] (line (Encode (p :: ps)))).
    + by erewrite decode_step.
    + unfold Encode. xml_step next_indent0. reflexivity.
Qed.
