(* ===== verification/XmlUtil.v ===== *)
(** * The XML configuration documents of [internal/util]

    [xml_util.go] and [AppendXmlContent] of [configuration_util.go]: merging
    name-value pairs into a [<configuration>] document. The abstract view of a
    document is the finite map its pairs denote when a later pair of the same
    name wins ([effective]); both ways to merge implement the union of maps,
    [DistinctProperties] exactly on the lists that are [mergeable]. *)

From S2P Require Import Prelude GoStd GoXml.

(** ** The code *)

(** The [XMLName] field of the struct is fixed by its tag to [configuration]:
    [Encode] writes that name and [Unmarshal] requires it. *)
Record XmlConfiguration := { Properties : list XmlNameValuePair }.

Definition NewXmlConfiguration (properties : list XmlNameValuePair) : XmlConfiguration :=
  {| Properties := properties |}.

(** The body of the loop of [DistinctProperties]: [distinctKeys] and
    [distinctProperties], then the index and the element of [collect]. The
    index stored for a new name is the one in [collect], and it is used as an
    index of [distinctProperties]. *)
Definition distinct_step (st : gmap string nat * list XmlNameValuePair)
    (iv : nat * XmlNameValuePair) : outcome (gmap string nat * list XmlNameValuePair) :=
  let '(distinctKeys, distinctProperties) := st in
  let '(idx, v) := iv in
  match distinctKeys !! Name v with
  | None => Ret (<[Name v := idx]> distinctKeys, distinctProperties ++ [v])
  | Some existIdx =>
      distinctProperties' ← set_index distinctProperties existIdx v;
      Ret (distinctKeys, distinctProperties')
  end.

Definition DistinctProperties (c : XmlConfiguration) (properties : list XmlNameValuePair)
    : outcome (list XmlNameValuePair) :=
  let collect := Properties c ++ properties in
  st ← mfold distinct_step (∅, []) (imap (λ i v, (i, v)) collect);
  Ret st.2.

(** [String] stores the merged properties in the receiver before it encodes
    it; with no property in the receiver the argument is not looked at. *)
Definition XmlConfiguration_String (c : XmlConfiguration) (properties : list XmlNameValuePair)
    : outcome (XmlConfiguration * string) :=
  c' ← (if decide (length (Properties c) = 0) then Ret c
        else ps ← DistinctProperties c properties; Ret {| Properties := ps |});
  Ret (c', xml_head +:+ Encode (Properties c')).

(** [panic(err)] on an [Unmarshal] error. *)
Definition must_unmarshal (originXml : string) : outcome (list XmlNameValuePair) :=
  match Unmarshal originXml with
  | Err (EMsg m) => Panic m
  | Err (ENotFound m) => Panic m
  | r => r
  end.

Definition Append (originXml : string) (properties : list XmlNameValuePair) : outcome string :=
  ps ← must_unmarshal originXml;
  r ← XmlConfiguration_String {| Properties := ps |} properties;
  Ret r.2.

(** The pairs of a map, in the order [range] visits it. *)
Definition pairs_of (l : list (string * string)) : list XmlNameValuePair :=
  (λ kv, {| Name := kv.1; Value := kv.2 |}) <$> l.

Section with_range.
Context {MR : MapRange}.

Definition StringWithProperties (c : XmlConfiguration) (properties : gmap string string)
    : outcome (XmlConfiguration * string) :=
  XmlConfiguration_String c (pairs_of (range properties)).

Definition AppendXmlContent (current : string) (overrideProperties : gmap string string)
    : outcome string :=
  ps ← must_unmarshal current;
  Ret (xml_head +:+ Encode (ps ++ pairs_of (range overrideProperties))).

End with_range.

(** ** Specification *)

(** The map a list of pairs denotes: a later pair overrides an earlier one. *)
Definition effective (ps : list XmlNameValuePair) : gmap string string :=
  foldl (λ m p, <[Name p := Value p]> m) ∅ ps.

(** Merge by name: a pair whose name is present replaces the pair in its place,
    any other pair is added at the end. *)
Fixpoint upsert (p : XmlNameValuePair) (l : list XmlNameValuePair) : list XmlNameValuePair :=
  match l with
  | [] => [p]
  | q :: l' => if decide (Name q = Name p) then p :: l' else q :: upsert p l'
  end.

Definition merge (base ps : list XmlNameValuePair) : list XmlNameValuePair :=
  foldl (λ l p, upsert p l) base ps.

Lemma foldl_effective_union m ps :
  foldl (λ m p, <[Name p := Value p]> m) m ps = effective ps ∪ m.
Proof.
  unfold effective. revert m. induction ps as [|p ps IH] using rev_ind; intros m; simpl.
  - by rewrite map_empty_union.
  - rewrite !foldl_app. simpl. rewrite IH. by rewrite insert_union_l.
Qed.

Lemma effective_app ps qs : effective (ps ++ qs) = effective qs ∪ effective ps.
Proof. unfold effective at 1. rewrite foldl_app. apply foldl_effective_union. Qed.

Lemma effective_cons p ps : effective (p :: ps) = effective ps ∪ {[Name p := Value p]}.
Proof. change (p :: ps) with ([p] ++ ps). by rewrite effective_app. Qed.

Lemma elem_of_effective_dom ps n : n ∈ dom (effective ps) ↔ n ∈ Name <$> ps.
Proof.
  induction ps as [|p ps IH].
  { change (effective []) with (∅ : gmap string string). rewrite dom_empty. set_solver. }
  rewrite effective_cons, dom_union, dom_singleton. set_solver.
Qed.

Lemma effective_None ps n : n ∉ Name <$> ps → effective ps !! n = None.
Proof. rewrite <- elem_of_effective_dom. apply not_elem_of_dom. Qed.

Lemma effective_elem ps p :
  NoDup (Name <$> ps) → p ∈ ps → effective ps !! Name p = Some (Value p).
Proof.
  induction ps as [|q ps IH]; intros Hnd Hp; [by apply not_elem_of_nil in Hp|].
  rewrite fmap_cons, NoDup_cons in Hnd. destruct Hnd as [Hq Hnd]. rewrite effective_cons.
  apply elem_of_cons in Hp as [->|Hp].
  - rewrite lookup_union_r by (by apply effective_None). apply lookup_insert_eq.
  - apply lookup_union_Some_l. by apply IH.
Qed.

Lemma effective_upsert p l :
  NoDup (Name <$> l) → effective (upsert p l) = <[Name p := Value p]> (effective l).
Proof.
  induction l as [|q l IH]; simpl; intros Hnd; [done|].
  apply NoDup_cons in Hnd as [Hq Hnd]. case_decide as Hd.
  - rewrite !effective_cons. rewrite Hd in *. apply map_eq. intros k.
    rewrite lookup_union, lookup_insert, lookup_union.
    destruct (decide (Name p = k)) as [<-|Hk].
    + rewrite effective_None by done. by rewrite lookup_singleton_eq.
    + by rewrite !lookup_singleton_ne by done.
  - rewrite !effective_cons, IH by done. by rewrite insert_union_l.
Qed.

Lemma names_upsert p l :
  Name <$> upsert p l =
  if decide (Name p ∈ Name <$> l) then Name <$> l else (Name <$> l) ++ [Name p].
Proof.
  induction l as [|q l IH]; [done|].
  change (Name <$> q :: l) with (Name q :: (Name <$> l)).
  unfold upsert; fold upsert. destruct (decide (Name q = Name p)) as [Hd|Hd].
  - rewrite fmap_cons, Hd. by rewrite decide_True by set_solver.
  - rewrite fmap_cons, IH. destruct (decide (Name p ∈ Name <$> l)).
    + by rewrite decide_True by set_solver.
    + by rewrite decide_False by set_solver.
Qed.

Lemma NoDup_names_upsert p l : NoDup (Name <$> l) → NoDup (Name <$> upsert p l).
Proof.
  intros H. rewrite names_upsert. case_decide; [done|].
  apply NoDup_app. split_and!; [done| set_solver | apply NoDup_singleton].
Qed.

(** Merging is override on the maps, and keeps names unique. *)
Lemma NoDup_names_merge base ps : NoDup (Name <$> base) → NoDup (Name <$> merge base ps).
Proof.
  unfold merge. revert base. induction ps as [|p ps IH]; intros base H; simpl; [done|].
  apply IH. by apply NoDup_names_upsert.
Qed.

Lemma effective_merge base ps :
  NoDup (Name <$> base) → effective (merge base ps) = effective ps ∪ effective base.
Proof.
  unfold merge. revert base. induction ps as [|p ps IH]; intros base H; simpl.
  - change (effective []) with (∅ : gmap string string). by rewrite map_empty_union.
  - rewrite IH by (by apply NoDup_names_upsert). rewrite effective_upsert by done.
    rewrite effective_cons, <- map_union_assoc.
    by rewrite <- insert_union_singleton_l.
Qed.

Lemma upsert_new p l : Name p ∉ Name <$> l → upsert p l = l ++ [p].
Proof.
  induction l as [|q l IH]; simpl; [done|]. intros H.
  rewrite decide_False by set_solver. rewrite IH by set_solver. done.
Qed.

Lemma merge_disjoint base ps :
  NoDup (Name <$> (base ++ ps)) → merge base ps = base ++ ps.
Proof.
  unfold merge. revert base. induction ps as [|p ps IH]; intros base H; simpl.
  - by rewrite app_nil_r.
  - rewrite upsert_new.
    + change (p :: ps) with ([p] ++ ps) in H |- *. rewrite (app_assoc base) in *. by apply IH.
    + rewrite fmap_app, NoDup_app in H. destruct H as (_ & H & _).
      intros Hp. apply (H (Name p)); [done|]. set_solver.
Qed.

Lemma upsert_at p l i :
  NoDup (Name <$> l) → (Name <$> l) !! i = Some (Name p) → upsert p l = <[i := p]> l.
Proof.
  revert i. induction l as [|q l IH]; intros i Hnd Hi; [done|].
  simpl in *. apply NoDup_cons in Hnd as [Hq Hnd]. destruct i as [|i]; simpl in *.
  - injection Hi as Hi. by rewrite decide_True.
  - rewrite decide_False.
    + by rewrite (IH i).
    + intros Heq. apply Hq. rewrite Heq. by apply list_elem_of_lookup_2 in Hi.
Qed.

(** ** [DistinctProperties] against the specification *)

(** The names [A] of a duplicate-free prefix sit at their positions; a name
    that is not in the result has no key. *)
Definition distinct_inv (A : list string) (keys : gmap string nat)
    (d : list XmlNameValuePair) : Prop :=
  NoDup (Name <$> d)
  ∧ (∀ i n, A !! i = Some n → keys !! n = Some i ∧ (Name <$> d) !! i = Some n)
  ∧ (∀ n, n ∉ Name <$> d → keys !! n = None).

Lemma snd_imap {A : Type} (f : nat → A → nat * A) (l : list A) :
  (∀ i x, (f i x).2 = x) → (imap f l).*2 = l.
Proof.
  intros Hf. revert f Hf. induction l as [|x l IH]; intros f Hf; simpl; [done|].
  rewrite Hf. f_equal. apply IH. intros i y. apply Hf.
Qed.

Lemma distinct_prefix a :
  NoDup (Name <$> a) →
  ∃ keys, mfold distinct_step (∅, []) (imap (λ i v, (i, v)) a) = Ret (keys, a)
          ∧ distinct_inv (Name <$> a) keys a.
Proof.
  induction a as [|v a IH] using rev_ind; intros Hnd.
  { exists ∅. split; [done|]. repeat split; [by constructor|done..]. }
  rewrite fmap_app in Hnd. pose proof Hnd as Hnd'.
  apply NoDup_app in Hnd' as (Ha & Hdisj & _).
  destruct (IH Ha) as (keys & Hrun & _ & Hpos & Hnone).
  assert (Hv : Name v ∉ Name <$> a).
  { intros Hin. apply (Hdisj _ Hin). set_solver. }
  exists (<[Name v := length a]> keys). split.
  - rewrite imap_app, mfold_app, Hrun. simpl. rewrite Hnone by done.
    by rewrite Nat.add_0_r.
  - split_and!; [by rewrite fmap_app| |].
    + intros i n Hi. rewrite fmap_app in Hi |- *. split; [|done].
      apply lookup_app_Some in Hi as [Hi|[Hlen Hi]].
      * rewrite lookup_insert_ne; [by apply Hpos|].
        intros <-. by apply list_elem_of_lookup_2 in Hi.
      * rewrite length_fmap in *. destruct (i - length a) eqn:Hz; simplify_eq/=.
        rewrite lookup_insert_eq. f_equal. lia.
    + intros n Hn. rewrite fmap_app in Hn.
      rewrite lookup_insert_ne by set_solver. apply Hnone. set_solver.
Qed.

Lemma distinct_rest A keys d l :
  distinct_inv A keys d →
  NoDup (filter (λ n, n ∉ A) (Name <$> l.*2)) →
  (∀ n, n ∈ Name <$> l.*2 → n ∉ A → n ∉ Name <$> d) →
  ∃ keys', mfold distinct_step (keys, d) l = Ret (keys', merge d l.*2).
Proof.
  revert keys d. induction l as [|[i v] l IH]; intros keys d (Hnd & Hpos & Hnone) Hb Hnew.
  { by exists keys. }
  simpl. change (merge d (v :: l.*2)) with (merge (upsert v d) l.*2).
  destruct (decide (Name v ∈ A)) as [HA|HA].
  - apply list_elem_of_lookup in HA as [j Hj]. destruct (Hpos j _ Hj) as [Hkey Hat].
    assert (Hlen : j < length d) by (apply lookup_lt_Some in Hat; by rewrite length_fmap in Hat).
    rewrite Hkey. simpl. unfold set_index. rewrite decide_True by done. simpl.
    rewrite <- (upsert_at v d j) by done.
    assert (Hsame : Name <$> upsert v d = Name <$> d).
    { rewrite names_upsert. by rewrite decide_True by (by apply list_elem_of_lookup_2 in Hat). }
    apply IH.
    + split_and!; rewrite Hsame; auto.
    + rewrite !fmap_cons in Hb. simpl in Hb. rewrite filter_cons_False in Hb; [done|].
      intros H. apply H. by apply list_elem_of_lookup_2 in Hj.
    + intros n Hn. rewrite Hsame. apply Hnew. set_solver.
  - assert (Hv : Name v ∉ Name <$> d) by (apply Hnew; [set_solver|done]).
    rewrite Hnone by done. rewrite !fmap_cons in Hb. simpl in Hb.
    rewrite filter_cons_True in Hb by done. apply NoDup_cons in Hb as [Hvl Hb].
    rewrite (upsert_new v d) by done. simpl. apply IH; [|done|].
    + split_and!.
      * rewrite <- upsert_new by done. by apply NoDup_names_upsert.
      * intros j n Hj. destruct (Hpos j n Hj) as [Hkey Hat]. split.
        -- rewrite lookup_insert_ne; [done|]. intros <-. apply HA.
           by apply list_elem_of_lookup_2 in Hj.
        -- rewrite fmap_app. by apply lookup_app_l_Some.
      * intros n Hn. rewrite fmap_app in Hn.
        rewrite lookup_insert_ne by set_solver. apply Hnone. set_solver.
    + intros n Hn HnA. rewrite fmap_app. intros Hin.
      apply elem_of_app in Hin as [Hin|Hin].
      * apply (Hnew n); [set_solver|done|done].
      * apply list_elem_of_singleton in Hin as ->. apply Hvl.
        by apply list_elem_of_filter.
Qed.

(** The first duplicate may come anywhere, as long as no name that first
    occurs after it is repeated. *)
Lemma DistinctProperties_merge c a b properties :
  Properties c ++ properties = a ++ b →
  NoDup (Name <$> a) → NoDup (filter (λ n, n ∉ Name <$> a) (Name <$> b)) →
  DistinctProperties c properties = Ret (merge a b).
Proof.
  intros Hab Ha Hb. unfold DistinctProperties. rewrite Hab, imap_app, mfold_app.
  destruct (distinct_prefix a Ha) as (keys & -> & Hinv).
  set (l := imap _ b).
  assert (Hsnd : l.*2 = b) by (by apply snd_imap).
  destruct (distinct_rest (Name <$> a) keys a l) as (keys' & Hrun);
    [done | by rewrite Hsnd | done |].
  rewrite Hsnd in Hrun. simpl. by rewrite Hrun.
Qed.

(** Receiver and argument each without duplicates: what every caller passes. *)
Lemma DistinctProperties_two c properties :
  NoDup (Name <$> Properties c) → NoDup (Name <$> properties) →
  DistinctProperties c properties = Ret (merge (Properties c) properties).
Proof.
  intros H1 H2. apply (DistinctProperties_merge c (Properties c) properties); [done..|].
  by apply NoDup_filter.
Qed.

(** ** Where [DistinctProperties] fails

    The lists it merges correctly: no name that first occurs after the first
    duplicate is itself repeated. *)
Definition mergeable (l : list XmlNameValuePair) : Prop :=
  ∃ a b, l = a ++ b ∧ NoDup (Name <$> a) ∧ NoDup (filter (λ n, n ∉ Name <$> a) (Name <$> b)).

Lemma mergeable_two base properties :
  NoDup (Name <$> base) → NoDup (Name <$> properties) → mergeable (base ++ properties).
Proof. intros H1 H2. exists base, properties. split_and!; [done..|]. by apply NoDup_filter. Qed.

(** The longest prefix without a duplicate. *)
Lemma first_duplicate (l : list XmlNameValuePair) :
  NoDup (Name <$> l) ∨
  ∃ a v b, l = a ++ v :: b ∧ NoDup (Name <$> a) ∧ Name v ∈ Name <$> a.
Proof.
  induction l as [|x l IH] using rev_ind; [by left; constructor|].
  destruct IH as [Hl|(a & v & b & -> & Ha & Hv)].
  - destruct (decide (Name x ∈ Name <$> l)) as [Hx|Hx]; [right; by exists l, x, []|].
    left. rewrite fmap_app. apply NoDup_app. split_and!; [done|set_solver|apply NoDup_singleton].
  - right. exists a, v, (b ++ [x]). by rewrite <- app_assoc.
Qed.

Lemma NoDup_filter_impl (P Q : string → Prop) `{!∀ x, Decision (P x), !∀ x, Decision (Q x)} l :
  (∀ x, x ∈ l → P x → Q x) → NoDup (filter Q l) → NoDup (filter P l).
Proof.
  induction l as [|x l IH]; intros Himp Hnd; [by constructor|].
  assert (Hl : NoDup (filter Q l)).
  { rewrite filter_cons in Hnd. case_decide; [by apply NoDup_cons in Hnd as [_ ?]|done]. }
  rewrite filter_cons. case_decide as HP; [|by apply IH; [set_solver|]].
  apply NoDup_cons. split; [|by apply IH; [set_solver|]].
  rewrite filter_cons_True in Hnd by (apply Himp; [set_solver|done]).
  apply NoDup_cons in Hnd as [Hx _]. intros [HPx Hin]%list_elem_of_filter. apply Hx.
  apply list_elem_of_filter. split; [|done]. apply Himp; [set_solver|done].
Qed.

(** Of the names outside [s] that [l] repeats, the one that comes up last. *)
Lemma last_repeated (s : list string) (l : list XmlNameValuePair) :
  ¬ NoDup (filter (λ n, n ∉ s) (Name <$> l)) →
  ∃ l1 v l2 w l3, l = l1 ++ v :: l2 ++ w :: l3 ∧ Name w = Name v
    ∧ Name v ∉ s ∧ Name v ∉ Name <$> l1 ∧ Name v ∉ Name <$> l2
    ∧ NoDup (filter (λ n, n ∉ s ++ (Name <$> l1) ++ [Name v]) (Name <$> l2 ++ w :: l3)).
Proof.
  revert s. induction l as [|x l IH]; intros s Hdup; [by destruct Hdup; constructor|].
  destruct (decide (NoDup (filter (λ n, n ∉ Name x :: s) (Name <$> l)))) as [Hnd|Hnd].
  - destruct (decide (Name x ∈ s)) as [Hx|Hx].
    { destruct Hdup. rewrite fmap_cons, filter_cons_False by (by intros ?).
      apply (NoDup_filter_impl _ (λ n, n ∉ Name x :: s)); [|done].
      intros n _ Hn [->|?]%elem_of_cons; done. }
    destruct (decide (Name x ∈ Name <$> l)) as [Hin|Hin].
    + apply list_elem_of_split_l in Hin as (n1 & n2 & Hsplit & Hn1).
      apply fmap_app_inv in Hsplit as (l2 & lr & -> & Hr & ->).
      symmetry in Hr. apply fmap_cons_inv in Hr as (w & l3 & Hw & -> & ->).
      exists [], x, l2, w, l3. split_and!; [done|done|done|apply not_elem_of_nil|done|].
      apply (NoDup_filter_impl _ (λ n, n ∉ Name x :: s)); [|done].
      intros n _ Hn Hin. apply Hn. simpl. set_solver.
    + destruct Hdup. rewrite fmap_cons, filter_cons_True by done. apply NoDup_cons.
      split; [by intros [_ ?]%list_elem_of_filter|].
      apply (NoDup_filter_impl _ (λ n, n ∉ Name x :: s)); [|done].
      intros n Hn Hs [->|?]%elem_of_cons; done.
  - destruct (IH _ Hnd) as (l1 & v & l2 & w & l3 & -> & Hw & Hs & H1 & H2 & Hlast).
    exists (x :: l1), v, l2, w, l3. split_and!; [done|done|set_solver..|].
    apply (NoDup_filter_impl _ (λ n, n ∉ (Name x :: s) ++ (Name <$> l1) ++ [Name v])); [|done].
    intros n _ Hn Hin. apply Hn. simpl. set_solver.
Qed.

(** The result has only pairs of the input, and never more of them. *)
Lemma distinct_Forall (P : XmlNameValuePair → Prop) st l st' :
  mfold distinct_step st l = Ret st' → Forall P st.2 → Forall P l.*2 → Forall P st'.2.
Proof.
  revert st. induction l as [|[i v] l IH]; intros [keys d] Hrun Hd Hl; simpl in Hrun; simplify_eq;
    [done|].
  apply Forall_cons in Hl as [Hv Hl]. case_match; [unfold set_index in Hrun; case_decide; [|done]|];
    simpl in Hrun; (eapply IH; [exact Hrun| |done]); simpl.
  - by apply Forall_insert.
  - by apply Forall_app; repeat constructor.
Qed.

Lemma distinct_length st l st' :
  mfold distinct_step st l = Ret st' → length st'.2 ≤ length st.2 + length l.
Proof.
  revert st. induction l as [|[i v] l IH]; intros [keys d] Hrun; simpl in Hrun; simplify_eq; [lia|].
  case_match; [unfold set_index in Hrun; case_decide; [|done]|]; simpl in Hrun;
    apply IH in Hrun; simpl in *; rewrite ?length_insert, ?length_app in Hrun; simpl in *; lia.
Qed.

(** The names with a key are those of the input, and keys are its positions. *)
Lemma distinct_keys l st :
  mfold distinct_step (∅, []) (imap pair l) = Ret st →
  ∀ n, (n ∈ Name <$> l → ∃ k, st.1 !! n = Some k ∧ k < length l)
       ∧ (n ∉ Name <$> l → st.1 !! n = None).
Proof.
  revert st. induction l as [|v l IH] using rev_ind; intros st Hrun n.
  { simpl in Hrun. simplify_eq/=. split; [set_solver|done]. }
  rewrite imap_app, mfold_app in Hrun. apply bind_ret_inv in Hrun as ([keys d] & Hl & Hv).
  destruct (IH _ Hl n) as [Hin Hout]. simpl in *. rewrite length_app, fmap_app. simpl.
  case_match eqn:Hk.
  - unfold set_index in Hv. case_decide; simplify_eq/=. split; [|set_solver].
    intros [Hn| ->%list_elem_of_singleton]%elem_of_app.
    + destruct (Hin Hn) as (k & ? & ?). exists k. split; [done|lia].
    + destruct (decide (Name v ∈ Name <$> l)) as [Hvl|Hvl].
      * destruct (Hin Hvl) as (k & ? & ?). exists k. split; [done|lia].
      * pose proof (proj2 (IH _ Hl (Name v)) Hvl) as Hno. simpl in Hno. by rewrite Hno in Hk.
  - simplify_eq/=. rewrite lookup_insert. case_decide as Hd.
    + subst n. split; [|set_solver]. intros _. eexists. split; [done|lia].
    + split; [|set_solver]. intros [Hn|Hn]%elem_of_app; [|set_solver].
      destruct (Hin Hn) as (k & ? & ?). exists k. split; [done|lia].
Qed.

(** Between the two occurrences of the last repeated name [A]: its key [e] is
    past the entries of the names [S] that came before it, and what is there
    occurs once only, in the result and in all that comes. *)
Record misplaced (A : string) (e : nat) (S : list string) (keys : gmap string nat)
    (d rest : list string) : Prop := {
  mp_before : ∀ n, n ∈ S → n ≠ A → ∃ k, keys !! n = Some k ∧ k < e;
  mp_key : keys !! A = Some e;
  mp_elem : A ∈ S;
  mp_new : ∀ n, n ∉ S → n ∈ rest → keys !! n = None;
  mp_once : ∀ n, n ∉ S → n ∈ d → n ∉ rest;
  mp_beyond : ∀ j n, e ≤ j → d !! j = Some n → n ∉ S;
  mp_unique : ∀ i j n, n ∉ S → d !! i = Some n → d !! j = Some n → i = j;
  mp_rest : NoDup (filter (λ n, n ∉ S) rest);
}.

Lemma misplaced_step A e S keys d rest i v st :
  misplaced A e S keys (Name <$> d) (Name v :: rest) → Name v ≠ A →
  distinct_step (keys, d) (i, v) = Ret st →
  misplaced A e S st.1 (Name <$> st.2) rest.
Proof.
  intros [Hbef Hkey HA Hnew Honce Hbey Huniq Hrest] Hv Hrun. simpl in Hrun.
  destruct (decide (Name v ∈ S)) as [HvS|HvS].
  - destruct (Hbef _ HvS Hv) as (k & Hk & Hke). rewrite Hk in Hrun.
    unfold set_index in Hrun. case_decide as Hlen; simplify_eq/=.
    assert (Hat : ∀ j n, n ∉ S → (Name <$> <[k:=v]> d) !! j = Some n → (Name <$> d) !! j = Some n).
    { intros j n Hn. rewrite list_fmap_insert, list_lookup_insert_Some.
      intros [(-> & <- & _)|[_ ?]]; done. }
    rewrite filter_cons_False in Hrest by (by intros ?). split; auto.
    + intros n Hn Hin. apply Hnew; [done|set_solver].
    + intros n Hn [j Hj]%list_elem_of_lookup. apply Hat, list_elem_of_lookup_2 in Hj; [|done].
      specialize (Honce n Hn Hj). set_solver.
    + intros j n Hj. rewrite list_fmap_insert, list_lookup_insert_ne by lia. by apply Hbey.
    + intros i' j n Hn Hi Hj. eapply Huniq; eauto.
  - rewrite Hnew in Hrun by set_solver. simplify_eq/=. rewrite fmap_app.
    rewrite filter_cons_True in Hrest by done. apply NoDup_cons in Hrest as [Hvr Hrest].
    assert (Hvd : Name v ∉ Name <$> d) by (intros Hin; specialize (Honce _ HvS Hin); set_solver).
    assert (Hvrest : Name v ∉ rest) by (intros Hin; apply Hvr; by apply list_elem_of_filter).
    assert (Hat : ∀ j n, ((Name <$> d) ++ [Name v]) !! j = Some n →
                    (Name <$> d) !! j = Some n ∨ (j = length d ∧ n = Name v)).
    { intros j n [?|[Hlen Hj]]%lookup_app_Some; [by left|right]. rewrite length_fmap in *.
      destruct (j - length d) as [|?] eqn:Hz; simplify_eq/=. split; [lia|done]. }
    split; auto.
    + intros n Hn HnA. rewrite lookup_insert_ne by set_solver. by apply Hbef.
    + by rewrite lookup_insert_ne by set_solver.
    + intros n Hn Hin. rewrite lookup_insert_ne by set_solver. apply Hnew; set_solver.
    + intros n Hn [Hin| ->%list_elem_of_singleton]%elem_of_app; [|done].
      specialize (Honce n Hn Hin). set_solver.
    + intros j n Hj [?|[_ ->]]%Hat; [by eapply Hbey|done].
    + intros i' j n Hn [Hi|[-> ->]]%Hat [Hj|[-> Hn2]]%Hat; simplify_eq; auto; [by eapply Huniq|..];
        exfalso; apply Hvd; by eapply list_elem_of_lookup_2.
Qed.

(** At its second occurrence the entry of another name is overwritten. *)
Lemma misplaced_run A e S keys d l2 i w l3 st :
  misplaced A e S keys (Name <$> d) (Name <$> l2.*2 ++ w :: l3.*2) →
  Name w = A → A ∉ Name <$> l2.*2 →
  mfold distinct_step (keys, d) (l2 ++ (i, w) :: l3) = Ret st →
  ∃ X, X ∈ (Name <$> d) ++ (Name <$> l2.*2) ∧ X ∉ Name <$> st.2.
Proof.
  intros Hinv Hw. revert keys d Hinv. induction l2 as [|[j v] l2 IH]; intros keys d Hinv HA Hrun.
  - destruct Hinv as [_ Hkey HAS _ Honce Hbey Huniq _]. simpl in *. rewrite Hw, Hkey in Hrun.
    unfold set_index in Hrun. case_decide as Hlen; [|done]. simpl in Hrun.
    destruct (lookup_lt_is_Some_2 (Name <$> d) e) as [X HX]; [by rewrite length_fmap|].
    assert (HXS : X ∉ S) by (by eapply (Hbey e)).
    assert (HXd : X ∈ Name <$> d) by (by eapply list_elem_of_lookup_2).
    exists X. split; [set_solver|]. specialize (Honce X HXS HXd).
    assert (Hall : Forall (λ p, Name p ≠ X) st.2).
    { eapply distinct_Forall; [exact Hrun|..]; simpl; apply Forall_forall.
      - intros p [j Hp]%list_elem_of_lookup <-. apply list_lookup_insert_Some in Hp as [(_ & <- & _)|[Hne Hp]].
        + by apply HXS; rewrite Hw.
        + apply Hne. apply (Huniq e j (Name p)); [done..|]. by rewrite list_lookup_fmap, Hp.
      - intros p Hp <-. apply Honce, elem_of_cons. right.
        by apply list_elem_of_fmap_2. }
    intros (p & -> & Hp)%list_elem_of_fmap. rewrite Forall_forall in Hall. by apply (Hall p).
  - change ((j, v) :: l2) with ([(j, v)] ++ l2) in Hrun. rewrite <- app_assoc, mfold_app in Hrun.
    apply bind_ret_inv in Hrun as ([keys' d'] & Hv & Hrun).
    assert (Hstep : distinct_step (keys, d) (j, v) = Ret (keys', d')).
    { change (mfold distinct_step (keys, d) [(j, v)])
        with (st ← distinct_step (keys, d) (j, v); Ret st) in Hv.
      by destruct (distinct_step (keys, d) (j, v)); simpl in *. }
    destruct (IH keys' d') as (X & HX & Hout); [|set_solver|done|].
    + eapply (misplaced_step _ _ _ keys d _ j v (keys', d')); [exact Hinv|set_solver|done].
    + exists X. split; [|done]. assert (Hall : Forall (λ p, Name p ∈ (Name <$> d) ++ [Name v]) d').
      { eapply (distinct_Forall _ (keys, d) [(j, v)] (keys', d')); [exact Hv|..];
          apply Forall_forall; simpl; intros p Hp.
        - apply elem_of_app. left. by apply list_elem_of_fmap_2.
        - apply list_elem_of_singleton in Hp as ->. set_solver. }
      apply elem_of_app in HX as [(p & -> & Hp)%list_elem_of_fmap|HX]; [|set_solver].
      rewrite Forall_forall in Hall. specialize (Hall p Hp). set_solver.
Qed.

(** A duplicate [u] leaves the result behind the input, so the key of a later
    new name [v] is past the end of the result. *)
Lemma prefix_behind a u l1 v keys d :
  NoDup (Name <$> a) → Name u ∈ Name <$> a → Name v ∉ Name <$> a ++ u :: l1 →
  mfold distinct_step (∅, []) (imap pair ((a ++ u :: l1) ++ [v])) = Ret (keys, d) →
  length d ≤ length (a ++ u :: l1) ∧ keys !! Name v = Some (length (a ++ u :: l1))
  ∧ ∀ n, n ∈ Name <$> a ++ u :: l1 → ∃ k, keys !! n = Some k ∧ k < length (a ++ u :: l1).
Proof.
  intros Ha Hu Hv Hrun. rewrite imap_app, mfold_app in Hrun.
  apply bind_ret_inv in Hrun as ([keys1 d1] & Hpre & Hrun).
  pose proof (proj2 (distinct_keys _ _ Hpre (Name v)) Hv) as Hnone. simpl in Hnone.
  simpl in Hrun. rewrite Hnone in Hrun. injection Hrun as <- <-.
  rewrite lookup_insert_eq, Nat.add_0_r. split_and!; [|done|].
  2: { intros n Hn. rewrite lookup_insert_ne by (intros <-; done).
       by apply (distinct_keys _ _ Hpre n). }
  enough (length d1 ≤ length a + length l1) by (rewrite !length_app; simpl; lia).
  rewrite imap_app, mfold_app in Hpre. apply bind_ret_inv in Hpre as ([keys2 d2] & Hrun & Hpre).
  destruct (distinct_prefix a Ha) as (keys3 & Hrun' & _ & Hpos & _).
  pose proof (eq_trans (eq_sym Hrun) Hrun') as [= -> ->].
  apply list_elem_of_lookup in Hu as [j Hj]. destruct (Hpos _ _ Hj) as [Hkey _].
  simpl in Hpre. rewrite Hkey in Hpre. simpl in Hpre. unfold set_index in Hpre.
  case_decide; [|done]. simpl in Hpre. apply distinct_length in Hpre. simpl in Hpre.
  by rewrite length_insert, length_imap in Hpre.
Qed.

Lemma misplaced_intro q v keys d rest :
  length d ≤ length q → keys !! Name v = Some (length q) →
  (∀ n, n ∈ Name <$> q → ∃ k, keys !! n = Some k ∧ k < length q) →
  (∀ n, n ∉ Name <$> q ++ [v] → keys !! n = None) →
  (∀ n, n ∈ Name <$> d → n ∈ Name <$> q ++ [v]) →
  NoDup (filter (λ n, n ∉ Name <$> q ++ [v]) rest) →
  misplaced (Name v) (length q) (Name <$> q ++ [v]) keys (Name <$> d) rest.
Proof.
  intros Hlen Hkey Hold Hnone Hnames Hrest. split; auto.
  - intros n Hn Hne. apply Hold. rewrite fmap_app in Hn. set_solver.
  - rewrite fmap_app. set_solver.
  - intros j n Hj Hn%lookup_lt_Some. rewrite length_fmap in Hn. lia.
  - intros i j n Hn Hi%list_elem_of_lookup_2%Hnames _. done.
Qed.

Lemma distinct_fails l keys0 out :
  ¬ mergeable l → mfold distinct_step (∅, []) (imap pair l) = Ret (keys0, out) →
  ∃ X, X ∈ Name <$> l ∧ X ∉ Name <$> out.
Proof.
  intros Hm Hrun. destruct (first_duplicate l) as [Hl|(a & u & b & -> & Ha & Hu)].
  { destruct Hm. exists l, []. rewrite app_nil_r. split_and!; [done..|constructor]. }
  destruct (last_repeated (Name <$> a) (u :: b))
    as ([|u' l1] & v & l2 & w & l3 & Hub & Hw & Hva & Hv1 & Hv2 & Hlast).
  { intros Hb. apply Hm. by exists a, (u :: b). }
  { simpl in Hub. by simplify_eq. }
  injection Hub as <- ->. set (pre := (a ++ u :: l1) ++ [v]).
  assert (Hsplit : a ++ u :: l1 ++ v :: l2 ++ w :: l3 = pre ++ l2 ++ w :: l3)
    by (unfold pre; by rewrite <- !app_assoc).
  rewrite Hsplit in Hrun |- *. rewrite imap_app, mfold_app in Hrun.
  apply bind_ret_inv in Hrun as ([keys d] & Hpre & Hrun).
  assert (Hnames : ∀ n, n ∈ Name <$> d → n ∈ Name <$> pre).
  { intros n (p & -> & Hp)%list_elem_of_fmap. revert p Hp. apply Forall_forall.
    eapply (distinct_Forall _ _ _ (keys, d)); [exact Hpre|constructor|].
    rewrite snd_imap by done. apply Forall_forall. intros p Hp. by apply list_elem_of_fmap_2. }
  destruct (prefix_behind a u l1 v keys d) as (Hlen & Hkey & Hold); [done|done|set_solver|done|].
  set (L := imap _ (l2 ++ w :: l3)) in Hrun.
  assert (HL : L.*2 = l2 ++ w :: l3) by (by apply snd_imap).
  apply fmap_app_inv in HL as (L2 & L' & -> & HL' & HLs).
  symmetry in HL'. apply fmap_cons_inv in HL' as ([i w'] & L3 & -> & -> & ->). simpl in *.
  rewrite HLs in Hrun.
  destruct (misplaced_run (Name v) (length (a ++ u :: l1)) (Name <$> pre) keys d L2 i w' L3 (keys0, out))
    as (X & HX & Hout); [|done|done|done|].
  - apply misplaced_intro; [done..| |done|].
    + intros n. apply (distinct_keys _ _ Hpre n).
    + eapply NoDup_filter_impl; [|exact Hlast]. intros n _ Hn Hin. apply Hn. set_solver.
  - exists X. split; [|done]. rewrite fmap_app. set_solver.
Qed.

(** The step either goes on or writes past the end of the result. *)
Lemma distinct_total st l :
  is_ret (mfold distinct_step st l) = true ∨
  mfold distinct_step st l = Panic "index out of range".
Proof.
  revert st. induction l as [|[i v] l IH]; intros [keys d]; [by left|].
  simpl. case_match; [unfold set_index; case_decide; [|by right]|]; simpl; apply IH.
Qed.

(** What [DistinctProperties] does with every list of pairs. *)
Lemma DistinctProperties_cases c properties :
  let l := Properties c ++ properties in
  (mergeable l → ∃ out, DistinctProperties c properties = Ret out
     ∧ NoDup (Name <$> out) ∧ effective out = effective l)
  ∧ (¬ mergeable l → DistinctProperties c properties = Panic "index out of range"
     ∨ ∃ out n, DistinctProperties c properties = Ret out
         ∧ n ∈ Name <$> l ∧ n ∉ Name <$> out).
Proof.
  intros l. split.
  - intros (a & b & Hab & Ha & Hb). exists (merge a b). split_and!.
    + by apply DistinctProperties_merge.
    + by apply NoDup_names_merge.
    + by rewrite Hab, effective_app, effective_merge.
  - intros Hm. unfold DistinctProperties. fold l.
    destruct (distinct_total (∅, []) (imap pair l)) as [Hret|Hpanic].
    + apply is_ret_inv in Hret as [[keys out] Hrun]. right.
      destruct (distinct_fails l keys out Hm Hrun) as (n & Hn & Hout).
      exists out, n. split; [|done]. change (imap (λ i v, (i, v)) l) with (imap pair l).
      by rewrite Hrun.
    + left. change (imap (λ i v, (i, v)) l) with (imap pair l). by rewrite Hpanic.
Qed.

Lemma DistinctProperties_Forall (P : XmlNameValuePair → Prop) c properties out :
  DistinctProperties c properties = Ret out →
  Forall P (Properties c) → Forall P properties → Forall P out.
Proof.
  intros Hrun Hc Hp. apply bind_ret_inv in Hrun as (st & Hrun & [= <-]).
  eapply distinct_Forall; [exact Hrun|constructor|]. rewrite snd_imap by done.
  by apply Forall_app.
Qed.

(** ** [String], [Append] and [AppendXmlContent] *)

Lemma must_unmarshal_ret s ps : Unmarshal s = Ret ps → must_unmarshal s = Ret ps.
Proof. unfold must_unmarshal. by intros ->. Qed.

Lemma XmlConfiguration_String_merge c properties :
  Properties c ≠ [] → NoDup (Name <$> Properties c) → NoDup (Name <$> properties) →
  XmlConfiguration_String c properties
  = Ret ({| Properties := merge (Properties c) properties |},
         xml_head +:+ Encode (merge (Properties c) properties)).
Proof.
  intros Hne H1 H2. unfold XmlConfiguration_String.
  rewrite decide_False by (by intros ?%length_zero_iff_nil).
  rewrite DistinctProperties_two by done. done.
Qed.

(** [Append] prints what [DistinctProperties] returns. *)
Lemma Append_distinct origin base properties :
  Unmarshal origin = Ret base → base ≠ [] →
  Append origin properties
  = (out ← DistinctProperties {| Properties := base |} properties; Ret (xml_head +:+ Encode out)).
Proof.
  intros Ho Hne. unfold Append, XmlConfiguration_String. rewrite (must_unmarshal_ret _ _ Ho).
  cbn [mbind outcome_bind Properties].
  rewrite decide_False by (by intros ?%length_zero_iff_nil).
  by destruct (DistinctProperties _ _).
Qed.

Lemma Append_merge origin base properties :
  Unmarshal origin = Ret base → base ≠ [] →
  NoDup (Name <$> base) → NoDup (Name <$> properties) →
  Append origin properties = Ret (xml_head +:+ Encode (merge base properties)).
Proof.
  intros Ho Hne H1 H2. unfold Append. rewrite (must_unmarshal_ret _ _ Ho).
  cbv beta iota delta [mbind outcome_bind].
  by rewrite XmlConfiguration_String_merge.
Qed.

Section append_xml.
Context {MR : MapRange}.

Lemma AppendXmlContent_app current base (overrides : gmap string string) :
  Unmarshal current = Ret base →
  AppendXmlContent current overrides
  = Ret (xml_head +:+ Encode (base ++ pairs_of (range overrides))).
Proof. intros H. unfold AppendXmlContent. by rewrite (must_unmarshal_ret _ _ H). Qed.

Lemma effective_pairs_of (m : gmap string string) : effective (pairs_of (range m)) = m.
Proof.
  apply map_eq. intros k.
  rewrite <- (range_list_to_map m) at 2. generalize (NoDup_fst_range m).
  induction (range m) as [|[k' v] l IH]; intros Hnd; [done|].
  apply NoDup_cons in Hnd as [Hk Hnd]. simpl. rewrite effective_cons, lookup_union, IH by done.
  simpl. rewrite lookup_insert. case_decide as Hd.
  - subst k'. rewrite lookup_singleton_eq.
    assert (Hn : (list_to_map l : gmap string string) !! k = None) by (by apply not_elem_of_list_to_map_1).
    rewrite Hn. done.
  - rewrite lookup_singleton_ne by done. by rewrite right_id by apply _.
Qed.

Lemma xml_pairs_of (m : gmap string string) :
  map_Forall (λ k v, xml_text k ∧ xml_text v) m → Forall xml_pair (pairs_of (range m)).
Proof.
  intros H. apply Forall_forall. intros p Hp. apply list_elem_of_fmap in Hp as ([k v] & -> & Hkv).
  apply elem_of_range in Hkv. by apply (H k v).
Qed.

Lemma append_document current base (overrides : gmap string string) :
  Unmarshal current = Ret base → Forall xml_pair base →
  map_Forall (λ k v, xml_text k ∧ xml_text v) overrides →
  ∃ doc, AppendXmlContent current overrides = Ret doc ∧
         Unmarshal doc = Ret (base ++ pairs_of (range overrides)).
Proof.
  intros Hc Hb Ho. eexists. split; [by apply AppendXmlContent_app|].
  apply unmarshal_doc, Forall_app. split; [done|]. by apply xml_pairs_of.
Qed.

End append_xml.

(** ** Properties *)

(** C9. [DistinctProperties] implements "a later pair of the same name wins",
    without duplicates and without a panic, exactly on the lists in which no
    name that first occurs after the first duplicate is itself repeated: there
    the result has unique names and denotes the same map as all the pairs in a
    row; on every other list it panics or loses a name altogether. *)
Theorem distinct_properties_last_wins c properties :
  (mergeable (Properties c ++ properties) →
     ∃ out, DistinctProperties c properties = Ret out
            ∧ NoDup (Name <$> out)
            ∧ effective out = effective (Properties c ++ properties))
  ∧ (¬ mergeable (Properties c ++ properties) →
     DistinctProperties c properties = Panic "index out of range"
     ∨ ∃ out n, DistinctProperties c properties = Ret out
         ∧ n ∈ Name <$> (Properties c ++ properties) ∧ n ∉ Name <$> out).
Proof. apply DistinctProperties_cases. Qed.

Definition pair_ (n v : string) : XmlNameValuePair := {| Name := n; Value := v |}.

Lemma distinct_properties_last_wins_witness :
  ∃ out, DistinctProperties {| Properties := [pair_ "key1" "v1"; pair_ "key2" "v2"] |}
           [pair_ "key1" "v3"; pair_ "key4" "v4"; pair_ "key1" "v5"] = Ret out
         ∧ NoDup (Name <$> out)
         ∧ effective out = effective [pair_ "key1" "v1"; pair_ "key2" "v2"; pair_ "key1" "v3";
                                      pair_ "key4" "v4"; pair_ "key1" "v5"].
Proof.
  apply (distinct_properties_last_wins {| Properties := [pair_ "key1" "v1"; pair_ "key2" "v2"] |}).
  exists [pair_ "key1" "v1"; pair_ "key2" "v2"],
         [pair_ "key1" "v3"; pair_ "key4" "v4"; pair_ "key1" "v5"].
  split; [reflexivity|split; apply (bool_decide_unpack _); vm_compute; exact I].
Defined.

(** Both failures happen: [DistinctProperties] overwrites the entry of another name (here [c] is lost and [b] is there
    twice), or writes past the end of the slice and panics. *)
Theorem distinct_properties_misplaced :
  DistinctProperties {| Properties := [pair_ "a" "1"; pair_ "a" "2"; pair_ "b" "1"; pair_ "c" "1"] |}
    [pair_ "b" "2"] = Ret [pair_ "a" "2"; pair_ "b" "1"; pair_ "b" "2"]
  ∧ DistinctProperties {| Properties := [pair_ "a" "1"; pair_ "a" "2"] |}
    [pair_ "b" "1"; pair_ "b" "2"] = Panic "index out of range".
Proof. by vm_compute. Qed.

(** C8. [Append] on a document with at least one property, for text that XML
    can carry: when the pairs of the document and the given ones, in a row, are
    mergeable (in particular when neither repeats a name), the result parses,
    has no name twice and denotes the union of the two maps with the given
    pairs preferred; when they are not, [Append] panics or the document it
    writes has lost a property. *)
Theorem append_overrides origin base properties :
  Unmarshal origin = Ret base → base ≠ [] →
  Forall xml_pair base → Forall xml_pair properties →
  (NoDup (Name <$> base) ∧ NoDup (Name <$> properties) → mergeable (base ++ properties))
  ∧ (mergeable (base ++ properties) →
     ∃ doc out, Append origin properties = Ret doc
                ∧ Unmarshal doc = Ret out
                ∧ NoDup (Name <$> out)
                ∧ effective out = effective properties ∪ effective base)
  ∧ (¬ mergeable (base ++ properties) →
     Append origin properties = Panic "index out of range"
     ∨ ∃ doc out n, Append origin properties = Ret doc
                    ∧ Unmarshal doc = Ret out
                    ∧ n ∈ Name <$> (base ++ properties) ∧ n ∉ Name <$> out).
Proof.
  intros Ho Hne Hb Hp. rewrite (Append_distinct _ _ _ Ho Hne).
  destruct (DistinctProperties_cases {| Properties := base |} properties) as [Hgood Hbad].
  assert (Hread : ∀ out, DistinctProperties {| Properties := base |} properties = Ret out →
            Unmarshal (xml_head +:+ Encode out) = Ret out).
  { intros out Hout. eapply unmarshal_doc, DistinctProperties_Forall; done. }
  split_and!.
  - intros [H1 H2]. by apply mergeable_two.
  - intros (out & Hout & Hnd & Heff)%Hgood. rewrite Hout. eexists _, out.
    split_and!; [done|by apply Hread|done|]. by rewrite Heff, effective_app.
  - intros [Hpanic|(out & n & Hout & Hn & Hno)]%Hbad; [left; by rewrite Hpanic|right].
    rewrite Hout. eexists _, out, n. split_and!; [done|by apply Hread|done|done].
Qed.

(** The documents of [xml_util_test.go]. *)
Definition test_origin : string :=
  let t := String tab "" in
  Join ["<?" +:+ xml_decl_utf8;
        t +:+ "<configuration>";
        t +:+ t +:+ "<property>";
        t +:+ t +:+ t +:+ "<name>key1</name>";
        t +:+ t +:+ t +:+ "<value>value1</value>";
        t +:+ t +:+ "</property>";
        t +:+ "</configuration>"] (line "").

Definition test_want : string :=
  Join ["<?" +:+ xml_decl_utf8;
        "<configuration>";
        "  <property>";
        "    <name>key1</name>";
        "    <value>value2</value>";
        "  </property>";
        "  <property>";
        "    <name>key3</name>";
        "    <value>value3</value>";
        "  </property>";
        "</configuration>"] (line "").

(** The second case of [TestXmlConfiguration_Append]. *)
Example append_test_case :
  Append test_origin [pair_ "key1" "value2"; pair_ "key3" "value3"] = Ret test_want.
Proof. by vm_compute. Qed.

Lemma append_overrides_witness :
  ∃ doc out, Append test_origin [pair_ "key1" "value2"; pair_ "key3" "value3"] = Ret doc
             ∧ Unmarshal doc = Ret out ∧ NoDup (Name <$> out)
             ∧ effective out = effective [pair_ "key1" "value2"; pair_ "key3" "value3"]
                               ∪ effective [pair_ "key1" "value1"].
Proof.
  destruct (append_overrides test_origin [pair_ "key1" "value1"]
              [pair_ "key1" "value2"; pair_ "key3" "value3"]) as (Hm & Hgood & _);
    [vm_compute; reflexivity | discriminate
    | apply (bool_decide_unpack _); vm_compute; exact I .. |].
  apply Hgood, Hm. split; apply (bool_decide_unpack _); vm_compute; exact I.
Defined.

(** [String] on a configuration without properties ignores the pairs it
    is given, so [Append] to a document with an empty [<configuration>] (such
    as the operator's own [emptyXmlConfig]) drops them all. *)
Theorem append_to_empty_drops origin properties :
  Unmarshal origin = Ret [] →
  ∃ doc, Append origin properties = Ret doc ∧ Unmarshal doc = Ret [].
Proof.
  intros Ho. exists (xml_head +:+ Encode []). split; [|by vm_compute].
  unfold Append. by rewrite (must_unmarshal_ret _ _ Ho).
Qed.

Lemma append_to_empty_drops_witness :
  ∃ doc, Append "<configuration></configuration>" [pair_ "key1" "value1"] = Ret doc
         ∧ Unmarshal doc = Ret [].
Proof. apply append_to_empty_drops. vm_compute. reflexivity. Defined.


