(* ===== verification/Api.v ===== *)
(** * The API types, the constants and the types of the platform

    The types of [api/v1alpha1] with the fields the operator reads, the
    constants of [api/v1alpha1] and [internal/constant], and the types of
    Kubernetes and of the operator-go library that these refer to. What the
    operator takes from operator-go and from Kubernetes and is not in the
    repository (the values of path constants, [Quantity], [GetFullName], the
    YAML of the vector agent, ...) is the class [Platform]: a parameter of
    everything that follows. *)

From S2P Require Import Prelude GoStd GoTemplate.

(** ** operator-go: cluster, role and role group identities *)

Record GroupVersionKind := { Group : string; Version : string; Kind : string }.

Record ClusterInfo := { GVK : option GroupVersionKind; ClusterName : string }.

Record RoleInfo := { ri_ClusterInfo : ClusterInfo; RoleName : string }.

Record RoleGroupInfo := { rg_RoleInfo : RoleInfo; RoleGroupName : string }.

Definition rg_ClusterInfo (i : RoleGroupInfo) : ClusterInfo := ri_ClusterInfo (rg_RoleInfo i).

(** ** The platform *)

Class Platform := {
  (** [resource.Quantity] of Kubernetes; the literals given to [MustParse] in
      the sources are well formed. *)
  Quantity : Type;
  MustParse : string → Quantity;
  IsZero : Quantity → bool;
  (** The directories of operator-go's [constants]. *)
  KubedoopRoot : string;
  KubedoopConfigDir : string;
  KubedoopConfigDirMount : string;
  KubedoopLogDir : string;
  KubedoopLogDirMount : string;
  KubedoopDataDir : string;
  KubedoopListenerDir : string;
  KubedoopTlsDir : string;
  KubedoopKerberosDir : string;
  KubedoopJmxDir : string;
  (** Listener classes and annotation keys of operator-go's [constants]. *)
  ClusterInternal : string;
  ListenerStorageClass : string;
  AnnotationListenersClass : string;
  AnnotationSecretsClass : string;
  AnnotationSecretsScope : string;
  AnnotationSecretsFormat : string;
  AnnotationSecretsPKCS12Password : string;
  AnnotationSecretsKerberosServiceNames : string;
  (** [RoleGroupInfo.GetFullName]. *)
  GetFullName : RoleGroupInfo → string;
  (** [config.TemplateParser.Parse] of operator-go: a template and its data. *)
  TemplateParse : string → gmap string TmplValue → outcome string;
  (** [NewXMLConfigurationFromMap(m).Marshal()] of operator-go. *)
  XMLMarshal : gmap string string → outcome string;
  (** [RoleGroupInfo.GetLabels] and [GetAnnotations]. *)
  GetLabels : RoleGroupInfo → gmap string string;
  GetAnnotations : RoleGroupInfo → gmap string string;
  (** [builder.VectorConfigFileName] and [productlogging.MakeVectorYaml]: the
      namespace, cluster, role, group and aggregator config map. *)
  VectorConfigFileName : string;
  MakeVectorYaml : string → string → string → string → string → outcome string;
  (** Constants of [k8s.io/api/core/v1]. *)
  DefaultHardPodAffinitySymmetricWeight : Z;
  LabelHostname : string;
  (** Pieces of shell script of operator-go's [util]. *)
  CommonBashTrapFunctions : string;
  RemoveVectorShutdownFileCommand : string;
  InvokePrepareSignalHandlers : string;
  ExportPodAddress : string;
  InvokeWaitForTermination : string;
  CreateVectorShutdownFileCommand : string;
}.

(** What the repository says of [GetFullName]: the names in the comments of
    [hdfs_conf.go] and the names [discovery.go] formats itself. *)
Definition full_name_spec (P : Platform) : Prop :=
  ∀ i, GetFullName i
       = ClusterName (rg_ClusterInfo i) +:+ "-" +:+ RoleName (rg_RoleInfo i) +:+ "-"
         +:+ RoleGroupName i.

(** [TemplateParser] wraps text/template: its [Parse] executes the template on
    the data. *)
Definition template_spec (P : Platform) : Prop :=
  ∀ tmpl data, TemplateParse tmpl data = Template_Execute tmpl data.

Section with_platform.
Context {P : Platform}.

(** ** operator-go: commons *)

Record CPUResource := { Min : Quantity; Max : Quantity }.
Record MemoryResource := { Limit : Quantity }.
Record StorageResource := { Capacity : Quantity }.

Record ResourcesSpec := {
  CPU : option CPUResource;
  Memory : option MemoryResource;
  Storage : option StorageResource;
}.

Record LoggingSpec := { EnableVectorAgent : option bool }.

Record RoleGroupConfigSpec := {
  Resources : option ResourcesSpec;
  Logging : option LoggingSpec;
}.

Record OverridesSpec := { ConfigOverrides : gmap string (gmap string string) }.

Record ClusterOperationSpec := { Stopped : bool }.

(** ** api/v1alpha1: the custom resource

    A nil map and an empty map behave alike in the code that reads them, and
    are one value here; pointers are options. *)

Record ImageSpec := {
  Custom : string;
  Repo : string;
  KubedoopVersion : string;
  ProductVersion : string;
  PullPolicy : string;
  PullSecretName : string;
}.

(** The image a container builder is given ([util.Image] of operator-go). *)
Record ContainerImage := {
  img_ProductName : string;
  img_KubedoopVersion : string;
  img_ProductVersion : string;
  img_Custom : string;
  img_Repo : string;
  img_PullPolicy : string;
}.

Record OidcSpec := { ClientCredentialsSecret : string; ExtraScopes : list string }.
Record TlsSpec := { tls_SecretClass : string; JksPassword : string }.
Record KerberosSpec := { krb_SecretClass : string }.

Record AuthenticationSpec := {
  AuthenticationClass : string;
  Oidc : option OidcSpec;
  Tls : option TlsSpec;
  Kerberos : option KerberosSpec;
}.

Record ServiceSpec := {
  svc_Annotations : gmap string string;
  svc_Type : string;
  svc_Port : Z;
}.

Record ClusterConfigSpec := {
  VectorAggregatorConfigMapName : string;
  Service : option ServiceSpec;
  cc_ClusterName : string;
  Authentication : option AuthenticationSpec;
  ClusterDomain : string;
  DfsReplication : Z;
  ZookeeperConfigMapName : string;
}.

Record ConfigSpec := {
  cs_RoleGroupConfigSpec : option RoleGroupConfigSpec;
  ListenerClass : option string;
}.

Record RoleGroupSpec := {
  Replicas : option Z;
  rgs_Config : option ConfigSpec;
  rgs_OverridesSpec : option OverridesSpec;
}.

Record RoleSpec := {
  rs_Config : option ConfigSpec;
  RoleGroups : gmap string RoleGroupSpec;
  rs_OverridesSpec : option OverridesSpec;
}.

Record HdfsClusterSpec := {
  Image : option ImageSpec;
  spec_ClusterOperation : option ClusterOperationSpec;
  ClusterConfig : option ClusterConfigSpec;
  NameNode : option RoleSpec;
  DataNode : option RoleSpec;
  JournalNode : option RoleSpec;
}.

Record HdfsCluster := {
  hc_Name : string;
  hc_Namespace : string;
  hc_UID : string;
  Spec : HdfsClusterSpec;
}.

Record ConfigOverridesSpec := {
  CoreSite : option (gmap string string);
  HdfsSite : option (gmap string string);
  Log4j : option (gmap string string);
  Security : option (gmap string string);
  HadoopPolicy : option (gmap string string);
  SslServer : option (gmap string string);
  SslClient : option (gmap string string);
}.

(** [LogLevelSpec] and [LoggingConfigSpec] of [logger.go]. *)
Record LogLevelSpec := { Level : string }.

Record LoggingConfigSpec := {
  Loggers : option (gmap string (option LogLevelSpec));
  Console : option LogLevelSpec;
  File : option LogLevelSpec;
}.

(** ** Kubernetes volumes *)

Record PersistentVolumeClaimSpec := {
  AccessModes : list string;
  StorageClassName : option string;
  VolumeMode : option string;
  StorageRequest : Quantity;
}.

(** A claim template of a pod volume has no name; a claim template of a
    stateful set has one. *)
Record PersistentVolumeClaim := {
  pvc_Name : string;
  pvc_Annotations : gmap string string;
  pvc_Spec : PersistentVolumeClaimSpec;
}.

Inductive VolumeSource :=
  | EmptyDir (sizeLimit : Quantity)
  | Ephemeral (template : PersistentVolumeClaim)
  | ConfigMapSource (name : string).

Record Volume := { vol_Name : string; vol_Source : VolumeSource }.

(** ** Directories of [hdfscluster_types.go] *)

Definition NameNodeRootDataDir : string := KubedoopDataDir +:+ "namenode".
Definition JournalNodeRootDataDir : string := KubedoopDataDir +:+ "journalnode".
Definition DataNodeRootDataDirPrefix : string := KubedoopDataDir.
Definition DataNodeRootDataDirSuffix : string := "/datanode".
Definition HadoopHome : string := KubedoopRoot +:+ "/hadoop".

End with_platform.

(** ** Constants *)

(** File names of the config map. *)
Definition CoreSiteFileName := "core-site.xml".
Definition HdfsSiteFileName := "hdfs-site.xml".
Definition SslServerFileName := "ssl-server.xml".
Definition SslClientFileName := "ssl-client.xml".
Definition SecurityFileName := "security.properties".
Definition HadoopPolicyFileName := "hadoop-policy.xml".
Definition Log4jFileName := "log4j.properties".

(** Volume names. *)
Definition ListenerVolumeName := "listener".
Definition KubedoopLogVolumeMountName := "log".
Definition DataVolumeMountName := "data".
Definition HdfsConfigVolumeMountName := "hdfs-config".
Definition HdfsLogVolumeMountName := "hdfs-log-config".
Definition FormatNamenodesConfigVolumeMountName := "format-namenodes-config".
Definition FormatNamenodesLogVolumeMountName := "format-namenodes-log-config".
Definition FormatZookeeperConfigVolumeMountName := "format-zookeeper-config".
Definition FormatZookeeperLogVolumeMountName := "format-zookeeper-log-config".
Definition WaitForNamenodesConfigVolumeMountName := "wait-for-namenodes-config".
Definition WaitForNamenodesLogVolumeMountName := "wait-for-namenodes-log-config".

(** Port names. *)
Definition MetricName := "metric".
Definition HttpName := "http".
Definition HttpsName := "https".
Definition RpcName := "rpc".
Definition IpcName := "ipc".
Definition DataName := "data".

(** Native metrics ports. *)
Definition NameNodeNativeMetricsHttpPort : Z := 9870.
Definition NameNodeNativeMetricsHttpsPort : Z := 9871.
Definition DataNodeNativeMetricsHttpPort : Z := 9864.
Definition DataNodeNativeMetricsHttpsPort : Z := 9865.
Definition JournalNodeNativeMetricsHttpPort : Z := 8480.
Definition JournalNodeNativeMetricsHttpsPort : Z := 8481.

(** Service ports. *)
Definition NameNodeHttpPort : Z := 9870.
Definition NameNodeHttpsPort : Z := 9871.
Definition NameNodeRpcPort : Z := 8020.
Definition NameNodeMetricPort : Z := 8183.
Definition DataNodeMetricPort : Z := 8082.
Definition DataNodeHttpPort : Z := 9864.
Definition DataNodeHttpsPort : Z := 9865.
Definition DataNodeDataPort : Z := 9866.
Definition DataNodeIpcPort : Z := 9867.
Definition JournalNodeMetricPort : Z := 8081.
Definition JournalNodeRpcPort : Z := 8485.
Definition JournalNodeHttpPort : Z := 8480.
Definition JournalNodeHttpsPort : Z := 8481.

(** Roles and container components of [internal/constant]: strings. *)
Definition Role := string.
Definition NameNodeRole : Role := "namenode".
Definition DataNodeRole : Role := "datanode".
Definition JournalNodeRole : Role := "journalnode".

Definition ContainerComponent := string.
Definition NameNodeComponent : ContainerComponent := "namenode".
Definition DataNodeComponent : ContainerComponent := "datanode".
Definition JournalNodeComponent : ContainerComponent := "journalnode".
Definition ZkfcComponent : ContainerComponent := "zkfc".
Definition FormatNameNodeComponent : ContainerComponent := "format-namenodes".
Definition FormatZookeeperComponent : ContainerComponent := "format-zookeeper".
Definition WaitForNameNodesComponent : ContainerComponent := "wait-for-namenodes".
Definition OidcComponent : ContainerComponent := "oidc".

Definition ZookeeperHdfsDiscoveryKey := "ZOOKEEPER".

(** Labels of [labels.go]. *)
Definition LabelCrName := "app.kubernetes.io/Name".
Definition LabelComponent := "app.kubernetes.io/component".
Definition LabelManagedBy := "app.kubernetes.io/managed-by".

(** ** Kubernetes core types *)

Inductive EnvVarSource :=
  | FieldRef (fieldPath : string)
  | ConfigMapKeyRef (name key : string)
  | SecretKeyRef (name key : string).

Record EnvVar := { ev_Name : string; ev_Value : string; ev_ValueFrom : option EnvVarSource }.

Record VolumeMount := { vm_Name : string; vm_MountPath : string }.

Record ContainerPort := { cp_Name : string; cp_Port : Z; cp_Protocol : string }.

Record ServicePort := {
  sp_Name : string; sp_Port : Z; sp_Protocol : string; sp_TargetPort : string;
}.

Definition ProtocolTCP := "TCP".

Record HTTPGetAction := { hg_Path : string; hg_Port : string; hg_Scheme : string }.

Inductive ProbeHandler :=
  | HTTPGet (a : HTTPGetAction)
  | TCPSocket (port : string).

Record Probe := {
  FailureThreshold : Z;
  InitialDelaySeconds : Z;
  PeriodSeconds : Z;
  SuccessThreshold : Z;
  TimeoutSeconds : Z;
  Handler : ProbeHandler;
}.

(** A platform for evaluation, with the paths the comments of the sources
    show. *)
Definition sample_platform : Platform := {|
  Quantity := string;
  MustParse s := s;
  IsZero s := bool_decide (s = "0");
  KubedoopRoot := "/kubedoop";
  KubedoopConfigDir := "/kubedoop/config";
  KubedoopConfigDirMount := "/kubedoop/mount/config";
  KubedoopLogDir := "/kubedoop/log";
  KubedoopLogDirMount := "/kubedoop/mount/log";
  KubedoopDataDir := "/kubedoop/data/";
  KubedoopListenerDir := "/kubedoop/listener";
  KubedoopTlsDir := "/kubedoop/tls";
  KubedoopKerberosDir := "/kubedoop/kerberos";
  KubedoopJmxDir := "/kubedoop/jmx";
  ClusterInternal := "cluster-internal";
  ListenerStorageClass := "listeners.kubedoop.dev";
  AnnotationListenersClass := "listeners.kubedoop.dev/class";
  AnnotationSecretsClass := "secrets.kubedoop.dev/class";
  AnnotationSecretsScope := "secrets.kubedoop.dev/scope";
  AnnotationSecretsFormat := "secrets.kubedoop.dev/format";
  AnnotationSecretsPKCS12Password := "secrets.kubedoop.dev/pkcs12Password";
  AnnotationSecretsKerberosServiceNames := "secrets.kubedoop.dev/kerberosServiceNames";
  GetFullName i := ClusterName (rg_ClusterInfo i) +:+ "-" +:+ RoleName (rg_RoleInfo i)
                   +:+ "-" +:+ RoleGroupName i;
  TemplateParse := Template_Execute;
  XMLMarshal _ := Ret "<configuration></configuration>";
  GetLabels i := {[ "app.kubernetes.io/instance" := ClusterName (rg_ClusterInfo i) ]};
  GetAnnotations _ := ∅;
  VectorConfigFileName := "vector.yaml";
  MakeVectorYaml _ _ _ _ _ := Ret "sources: {}";
  DefaultHardPodAffinitySymmetricWeight := 1;
  LabelHostname := "kubernetes.io/hostname";
  CommonBashTrapFunctions := "prepare_signal_handlers() { :; }";
  RemoveVectorShutdownFileCommand := "rm -f /kubedoop/log/_vector/shutdown";
  InvokePrepareSignalHandlers := "prepare_signal_handlers";
  ExportPodAddress := "export POD_ADDRESS";
  InvokeWaitForTermination := "wait_for_termination $!";
  CreateVectorShutdownFileCommand := "touch /kubedoop/log/_vector/shutdown";
|}.

Lemma sample_template : template_spec sample_platform.
Proof. done. Qed.

Lemma sample_full_name : full_name_spec sample_platform.
Proof. intros i. reflexivity. Qed.

(** A cluster for evaluation: the shipped sample, with its roles. *)
Definition sample_cluster_config (auth : option AuthenticationSpec) : ClusterConfigSpec := {|
  VectorAggregatorConfigMapName := "vector-aggregator-discovery";
  Service := None;
  cc_ClusterName := "";
  Authentication := auth;
  ClusterDomain := "cluster.local";
  DfsReplication := 1;
  ZookeeperConfigMapName := "hdfs-sample-znode";
|}.

Definition sample_group (replicas : Z) : RoleGroupSpec (P := sample_platform) := {|
  Replicas := Some replicas; rgs_Config := None; rgs_OverridesSpec := None;
|}.

Definition sample_role (replicas : Z) : RoleSpec (P := sample_platform) := {|
  rs_Config := None;
  RoleGroups := {[ "default" := sample_group replicas ]};
  rs_OverridesSpec := None;
|}.

Definition sample_instance (auth : option AuthenticationSpec)
    : HdfsCluster (P := sample_platform) := {|
  hc_Name := "simple-hdfs";
  hc_Namespace := "default";
  hc_UID := "7f3c";
  Spec := {|
    Image := None; spec_ClusterOperation := None;
    ClusterConfig := Some (sample_cluster_config auth);
    NameNode := Some (sample_role 2);
    DataNode := Some (sample_role 1);
    JournalNode := Some (sample_role 3);
  |};
|}.

Definition sample_cluster_info : ClusterInfo := {| GVK := None; ClusterName := "simple-hdfs" |}.
