(* ===== verification/Constants.v ===== *)
(** * internal/constant

    The tables of constants of [internal/constant/constants.go]. Its roles and
    components are in [Api]; most of the others repeat names of the API package
    and carry the prefix [constant_] where both packages have the name. *)

From S2P Require Import Prelude Api.

(** Container names. *)
Definition NameNodeContainer : string := "namenode".
Definition DataNodeContainer : string := "datanode".
Definition JournalNodeContainer : string := "journalnode".
Definition ZkfcContainer : string := "zkfc".
Definition FormatNameNodeContainer : string := "format-namenodes".
Definition FormatZookeeperContainer : string := "format-zookeeper".
Definition WaitForNameNodesContainer : string := "wait-for-namenodes".
Definition OidcContainer : string := "oidc".
Definition VectorContainer : string := "vector".

(** Ports of the name nodes. *)
Definition NameNodeServiceHttpPort : Z := 9870.
Definition NameNodeServiceHttpsPort : Z := 9871.
Definition NameNodeServiceRpcPort : Z := 8020.
Definition NameNodeServiceMetricPort : Z := 8183.

(** Ports of the data nodes. *)
Definition DataNodeServiceHttpPort : Z := 9864.
Definition DataNodeServiceHttpsPort : Z := 9865.
Definition DataNodeServiceDataPort : Z := 9866.
Definition DataNodeServiceIpcPort : Z := 9867.
Definition DataNodeServiceMetricPort : Z := 8082.

(** Ports of the journal nodes. *)
Definition JournalNodeServiceHttpPort : Z := 8480.
Definition JournalNodeServiceHttpsPort : Z := 8481.
Definition JournalNodeServiceRpcPort : Z := 8485.
Definition JournalNodeServiceMetricPort : Z := 8081.

(** Volume names. *)
Definition constant_ListenerVolumeName : string := "listener".
Definition TlsStoreVolumeName : string := "tls".
Definition KerberosVolumeName : string := "kerberos".
Definition constant_KubedoopLogVolumeMountName : string := "log".
Definition constant_DataVolumeMountName : string := "data".
Definition constant_HdfsConfigVolumeMountName : string := "hdfs-config".
Definition constant_HdfsLogVolumeMountName : string := "hdfs-log-config".
Definition ZkfcConfigVolumeMountName : string := "zkfc-config".
Definition ZkfcLogVolumeMountName : string := "zkfc-log-config".
Definition constant_FormatNamenodesConfigVolumeMountName : string := "format-namenodes-config".
Definition constant_FormatNamenodesLogVolumeMountName : string := "format-namenodes-log-config".
Definition constant_FormatZookeeperConfigVolumeMountName : string := "format-zookeeper-config".
Definition constant_FormatZookeeperLogVolumeMountName : string := "format-zookeeper-log-config".
Definition constant_WaitForNamenodesConfigVolumeMountName : string := "wait-for-namenodes-config".
Definition constant_WaitForNamenodesLogVolumeMountName : string := "wait-for-namenodes-log-config".

Section with_platform.
Context {P : Platform}.

(** Directories. *)
Definition constant_KubedoopConfigDirMount : string := KubedoopConfigDir.
Definition constant_KubedoopLogDirMount : string := KubedoopLogDir.
Definition constant_KubedoopListenerDir : string := KubedoopListenerDir.
Definition constant_KubedoopDataDir : string := KubedoopDataDir.
Definition constant_KubedoopRoot : string := KubedoopRoot.

End with_platform.

(** Port names. *)
Definition MetricPortName : string := "metric".
Definition HttpPortName : string := "http".
Definition HttpsPortName : string := "https".
Definition RpcPortName : string := "rpc".
Definition IpcPortName : string := "ipc".
Definition DataPortName : string := "data".

(** The two packages agree wherever both name a thing, except that the
    directories of this package called mounts are not the mount directories. *)
Lemma tables_agree :
  [NameNodeServiceHttpPort; NameNodeServiceHttpsPort; NameNodeServiceRpcPort; NameNodeServiceMetricPort;
   DataNodeServiceHttpPort; DataNodeServiceHttpsPort; DataNodeServiceDataPort; DataNodeServiceIpcPort;
   DataNodeServiceMetricPort; JournalNodeServiceHttpPort; JournalNodeServiceHttpsPort;
   JournalNodeServiceRpcPort; JournalNodeServiceMetricPort]
  = [NameNodeHttpPort; NameNodeHttpsPort; NameNodeRpcPort; NameNodeMetricPort; DataNodeHttpPort;
     DataNodeHttpsPort; DataNodeDataPort; DataNodeIpcPort; DataNodeMetricPort; JournalNodeHttpPort;
     JournalNodeHttpsPort; JournalNodeRpcPort; JournalNodeMetricPort] ∧
  [constant_ListenerVolumeName; constant_KubedoopLogVolumeMountName; constant_DataVolumeMountName;
   constant_HdfsConfigVolumeMountName; constant_HdfsLogVolumeMountName;
   constant_FormatNamenodesConfigVolumeMountName; constant_FormatNamenodesLogVolumeMountName;
   constant_FormatZookeeperConfigVolumeMountName; constant_FormatZookeeperLogVolumeMountName;
   constant_WaitForNamenodesConfigVolumeMountName; constant_WaitForNamenodesLogVolumeMountName;
   MetricPortName; HttpPortName; HttpsPortName; RpcPortName; IpcPortName; DataPortName]
  = [ListenerVolumeName; KubedoopLogVolumeMountName; DataVolumeMountName; HdfsConfigVolumeMountName;
     HdfsLogVolumeMountName; FormatNamenodesConfigVolumeMountName; FormatNamenodesLogVolumeMountName;
     FormatZookeeperConfigVolumeMountName; FormatZookeeperLogVolumeMountName;
     WaitForNamenodesConfigVolumeMountName; WaitForNamenodesLogVolumeMountName;
     MetricName; HttpName; HttpsName; RpcName; IpcName; DataName] ∧
  [NameNodeContainer; DataNodeContainer; JournalNodeContainer; ZkfcContainer; FormatNameNodeContainer;
   FormatZookeeperContainer; WaitForNameNodesContainer; OidcContainer]
  = [NameNodeComponent; DataNodeComponent; JournalNodeComponent; ZkfcComponent; FormatNameNodeComponent;
     FormatZookeeperComponent; WaitForNameNodesComponent; OidcComponent].
Proof. split_and!; reflexivity. Qed.

Lemma mounts_name_directories :
  constant_KubedoopLogDirMount (P := sample_platform) ≠ KubedoopLogDirMount (Platform := sample_platform) ∧
  constant_KubedoopConfigDirMount (P := sample_platform) ≠ KubedoopConfigDirMount (Platform := sample_platform).
Proof. split; discriminate. Qed.
