(* ===== verification/Util.v ===== *)
(** * The helpers of [internal/util]: names, maps, properties files

    [name_util.go], [map_util.go] and [configuration_util.go] (its XML half is
    [XmlUtil]), with [OverrideEnvVars] of [internal/common/util.go], whose
    loop is the one of [OverrideProperties]. *)

From S2P Require Import Prelude GoStd GoXml XmlUtil Api.

(** ** name_util.go *)

Record ResourceNameGenerator := {
  rng_InstanceName : string;
  rng_RoleName : string;
  rng_GroupName : string;
}.

Definition NewResourceNameGenerator (instanceName roleName groupName : string)
    : ResourceNameGenerator :=
  {| rng_InstanceName := instanceName; rng_RoleName := roleName; rng_GroupName := groupName |}.

Definition NewResourceNameGeneratorOneRole (instanceName groupName : string)
    : ResourceNameGenerator :=
  {| rng_InstanceName := instanceName; rng_RoleName := ""; rng_GroupName := groupName |}.

(** [res[:len(res)-1]]: the slice bound is negative for the empty string. *)
Fixpoint drop_last (s : string) : outcome string :=
  match s with
  | EmptyString => Panic "slice bounds out of range"
  | String _ EmptyString => Ret ""
  | String c s' => r ← drop_last s'; Ret (String c r)
  end.

Definition GenerateResourceName (r : ResourceNameGenerator) (extraSuffix : string)
    : outcome string :=
  let res := if decide (rng_InstanceName r ≠ "") then rng_InstanceName r +:+ "-" else "" in
  let res := if decide (rng_GroupName r ≠ "") then res +:+ rng_GroupName r +:+ "-" else res in
  res ← (if decide (rng_RoleName r ≠ "") then Ret (res +:+ rng_RoleName r) else drop_last res);
  if decide (extraSuffix ≠ "") then Ret (res +:+ "-" +:+ extraSuffix) else Ret res.

Definition CreateServiceAccountName (instanceName : string) : outcome string :=
  GenerateResourceName (NewResourceNameGeneratorOneRole instanceName "") "sa".

Definition CreateRoleGroupLoggingConfigMapName (instanceName role groupName : string)
    : outcome string :=
  GenerateResourceName (NewResourceNameGenerator instanceName role groupName) "log".

Definition CreateClusterServiceName (instanceName : string) : string := instanceName +:+ "-cluster".

Section with_range.
Context {MR : MapRange}.

(** ** map_util.go *)

(** The receiver is a pointer to a map that may be nil. *)
Definition MapMerge (m : option (gmap string string)) (source : gmap string string)
    (replace : bool) : gmap string string :=
  let m := default ∅ m in
  foldl (λ m kv,
    match m !! kv.1 with
    | Some _ => if replace then <[kv.1 := kv.2]> m else m
    | None => <[kv.1 := kv.2]> m
    end) m (range source).

(** ** configuration_util.go *)

Definition MakeConfigFileContent (config : gmap string string) : string :=
  if decide (size config = 0) then "" else
  foldl (λ content kv, content +:+ kv.1 +:+ " " +:+ kv.2 +:+ String nl "") "" (range config).

Definition MakePropertiesFileContent (config : gmap string string) : string :=
  if decide (size config = 0) then "" else
  foldl (λ content kv, content +:+ kv.1 +:+ "=" +:+ kv.2 +:+ String nl "") "" (range config).

Definition OverrideConfigFileContent (current override : string) : string :=
  if decide (current = "") then override
  else if decide (override = "") then current
  else current +:+ String nl "" +:+ override.

Record NameValuePair := { nv_Name : string; nv_Value : string }.

(** The body of the loop of [ScanProperties] on one raw line. *)
Definition scan_property (properties : list NameValuePair) (raw : string)
    : outcome (list NameValuePair) :=
  line ← scan_line raw;
  if HasPrefix line "#" || bool_decide (line = "") then Ret properties
  else match Split line "=" with
       | [n; v] => Ret (properties ++ [{| nv_Name := n; nv_Value := v |}])
       | _ => Err (EMsg ("invalid property line: " +:+ line))
       end.

Definition ScanProperties (current : string) (properties : list NameValuePair)
    : outcome (list NameValuePair) :=
  mfold scan_property properties (raw_lines current).

(** ** Override in place, shared by [OverrideProperties] and [OverrideEnvVars] *)

Section override.
Context {A : Type} (nm : A → string) (upd : string → A → A) (mk : string → string → A).

(** [keys[v.Name] = i], so the last index of a name is kept. *)
Definition index_of_names (l : list A) : gmap string nat :=
  foldl (λ m iv, <[nm iv.2 := iv.1]> m) ∅ (imap (λ i v, (i, v)) l).

Definition override_entry (keys : gmap string nat) (current : list A) (kv : string * string)
    : outcome (list A) :=
  match keys !! kv.1 with
  | Some idx => a ← get_index current idx; set_index current idx (upd kv.2 a)
  | None => Ret (current ++ [mk kv.1 kv.2])
  end.

Definition override_entries (current : list A) (override : gmap string string)
    : outcome (list A) :=
  mfold (override_entry (index_of_names current)) current (range override).

End override.

Definition OverrideProperties (override : gmap string string) (current : list NameValuePair)
    : outcome (list NameValuePair) :=
  if decide (size override = 0) then Ret current else
  override_entries nv_Name (λ v a, {| nv_Name := nv_Name a; nv_Value := v |})
    (λ k v, {| nv_Name := k; nv_Value := v |}) current override.

Definition OverridePropertiesFileContent (current : string) (override : gmap string string)
    : outcome string :=
  properties ← ScanProperties current [];
  properties ← OverrideProperties override properties;
  Ret (foldl (λ res p, res +:+ nv_Name p +:+ "=" +:+ nv_Value p +:+ String nl "") "" properties).

Definition OverrideEnvVars (origin : list EnvVar) (override : gmap string string)
    : outcome (list EnvVar) :=
  override_entries ev_Name
    (λ v a, {| ev_Name := ev_Name a; ev_Value := v; ev_ValueFrom := ev_ValueFrom a |})
    (λ k v, {| ev_Name := k; ev_Value := v; ev_ValueFrom := None |}) origin override.

End with_range.

(** ** Names *)

Lemma drop_last_append s c : drop_last (s +:+ String c "") = Ret s.
Proof.
  induction s as [|d s IH]; [done|]. rewrite append_cons. simpl.
  rewrite IH. destruct s as [|d' s]; [done|]. by rewrite append_cons.
Qed.

Lemma CreateServiceAccountName_ret name :
  name ≠ "" → CreateServiceAccountName name = Ret (name +:+ "-sa").
Proof.
  intros H. unfold CreateServiceAccountName, GenerateResourceName. simpl.
  rewrite decide_True by done. by rewrite (drop_last_append name "-").
Qed.

(** [GenerateResourceName] joins the non-empty ones of instance, group and
    role, then the suffix when there is one, with dashes; with all three empty
    it panics. *)
Theorem generate_resource_name_spec r extraSuffix :
  GenerateResourceName r extraSuffix =
  match filter (λ s, s ≠ "") [rng_InstanceName r; rng_GroupName r; rng_RoleName r] with
  | [] => Panic "slice bounds out of range"
  | parts => Ret (Join (parts ++ filter (λ s, s ≠ "") [extraSuffix]) "-")
  end.
Proof.
  destruct r as [i ro g]. unfold GenerateResourceName.
  cbn [rng_InstanceName rng_GroupName rng_RoleName].
  rewrite !filter_cons, !filter_nil.
  destruct (decide (i ≠ "")), (decide (g ≠ "")), (decide (ro ≠ "")), (decide (extraSuffix ≠ ""));
    change ("" +:+ ?x) with x; rewrite <- ?(append_assoc _ _ "-"), ?drop_last_append;
    simpl; rewrite ?append_assoc; done.
Qed.

(** ** Maps *)

Section map_merge.
Context {MR : MapRange}.

Lemma map_merge_loop (replace : bool) (l : list (string * string)) (m : gmap string string) :
  NoDup l.*1 →
  foldl (λ m kv,
    match m !! kv.1 with
    | Some _ => if replace then <[kv.1 := kv.2]> m else m
    | None => <[kv.1 := kv.2]> m
    end) m l
  = if replace then list_to_map l ∪ m else m ∪ list_to_map l.
Proof.
  revert m. induction l as [|[k v] l IH]; intros m Hnd; simpl.
  - destruct replace; by rewrite ?map_empty_union, ?map_union_empty.
  - apply NoDup_cons in Hnd as [Hk Hnd]. rewrite IH by done.
    assert (Hl : (list_to_map l : gmap string string) !! k = None)
      by (by apply not_elem_of_list_to_map_1).
    destruct replace.
    + assert (Hm : match m !! k with Some _ => <[k:=v]> m | None => <[k:=v]> m end = <[k:=v]> m)
        by (by destruct (m !! k)).
      rewrite Hm. rewrite <- insert_union_r by done. by rewrite insert_union_l.
    + destruct (m !! k) as [w|] eqn:Hmk.
      * apply map_eq. intros j. rewrite !lookup_union, lookup_insert.
        case_decide; [|done]. subst j. by rewrite Hmk, Hl.
      * rewrite <- insert_union_l. by rewrite insert_union_r.
Qed.

End map_merge.

(** [MapMerge] gives the union of the two maps, the source preferred when
    [replace] is set and the receiver otherwise, whatever the order in which
    the source is visited, and a nil receiver counts as empty. *)
Theorem map_merge_union {MR : MapRange} m source replace :
  MapMerge m source replace = if replace then source ∪ default ∅ m else default ∅ m ∪ source.
Proof.
  unfold MapMerge. rewrite map_merge_loop by apply NoDup_fst_range.
  by rewrite range_list_to_map.
Qed.

(** ** Properties files *)

Lemma raw_lines_cons l t : no_byte nl l = true → raw_lines (l +:+ String nl t) = l :: raw_lines t.
Proof.
  intros Hl. unfold raw_lines. rewrite Split_app by done. simpl.
  destruct (rev (Split t nl)) as [|last before] eqn:Hr.
  - exfalso. apply (Split_nonempty t nl).
    by rewrite <- (rev_involutive (Split t nl)), Hr.
  - simpl. case_decide; [by rewrite rev_app_distr|].
    simpl. by rewrite rev_app_distr.
Qed.

Lemma drop_last_cr_id s : no_byte cr s = true → drop_last_cr s = s.
Proof.
  unfold no_byte. induction s as [|c s IH]; [done|]. simpl. intros H.
  apply andb_true_iff in H as [Hc Hs]. rewrite negb_true_iff in Hc.
  destruct s as [|c' s]; [by rewrite Hc|]. by rewrite IH.
Qed.

(** A key and a value that make one line of a properties file, and one that is
    not a comment. *)
Definition line_ok (k v : string) : Prop :=
  no_byte nl (k +:+ "=" +:+ v) = true ∧ no_byte cr (k +:+ "=" +:+ v) = true
  ∧ HasPrefix k "#" = false
  ∧ (N.of_nat (String.length (k +:+ "=" +:+ v)) < MaxScanTokenSize)%N.

(** No further separator in them. *)
Definition no_equals (k v : string) : Prop := no_byte "=" k = true ∧ no_byte "=" v = true.

#[export] Instance line_ok_dec k v : Decision (line_ok k v).
Proof. unfold line_ok. apply _. Defined.

#[export] Instance no_equals_dec k v : Decision (no_equals k v).
Proof. unfold no_equals. apply _. Defined.

Lemma HasPrefix_hash k v : HasPrefix k "#" = false → HasPrefix (k +:+ "=" +:+ v) "#" = false.
Proof.
  destruct k as [|c k]; [reflexivity|]. rewrite append_cons. by rewrite !HasPrefix_head.
Qed.

Lemma Split_length_app s sep t :
  length (Split (s +:+ String sep t) sep) = length (Split s sep) + length (Split t sep).
Proof.
  induction s as [|c s IH].
  - change ("" +:+ ?x) with x. cbn [Split]. rewrite Ascii.eqb_refl. done.
  - rewrite append_cons. cbn [Split]. destruct (Ascii.eqb c sep); cbn [length]; [by rewrite IH|].
    pose proof (Split_nonempty s sep). pose proof (Split_nonempty (s +:+ String sep t) sep).
    destruct (Split s sep), (Split (s +:+ String sep t) sep); done.
Qed.

Lemma Split_sep s sep : no_byte sep s = false → 2 ≤ length (Split s sep).
Proof.
  unfold no_byte. induction s as [|c s IH]; [done|]. cbn [str_forall Split].
  destruct (Ascii.eqb c sep) eqn:Hc; intros H.
  - cbn [length]. pose proof (Split_nonempty s sep). destruct (Split s sep); [done|]. simpl. lia.
  - simpl in H. specialize (IH H). destruct (Split s sep); simpl in *; lia.
Qed.

(** One line is read as its pair, unless it has another separator. *)
Lemma scan_property_line acc k v :
  line_ok k v →
  scan_property acc (k +:+ "=" +:+ v)
  = if decide (no_equals k v) then Ret (acc ++ [{| nv_Name := k; nv_Value := v |}])
    else Err (EMsg ("invalid property line: " +:+ k +:+ "=" +:+ v)).
Proof.
  intros (_ & Hcr & Hh & Hlen). unfold scan_property, scan_line.
  rewrite decide_True by done. cbv beta iota delta [mbind outcome_bind].
  rewrite drop_last_cr_id, HasPrefix_hash by done.
  rewrite bool_decide_eq_false_2 by (by destruct k). cbn [orb].
  change ("=" +:+ v) with (String "=" v). case_decide as Hno.
  - destruct Hno as [Hk Hv]. by rewrite Split_app, Split_no_sep.
  - assert (2 < length (Split (k +:+ String "=" v) "=")) as Hl.
    { rewrite Split_length_app. pose proof (Split_nonempty k "="). pose proof (Split_nonempty v "=").
      unfold no_equals in Hno. destruct (no_byte "=" k) eqn:Hk.
      - destruct (no_byte "=" v) eqn:Hv; [naive_solver|]. apply Split_sep in Hv.
        destruct (Split k "="); simpl in *; [done|lia].
      - apply Split_sep in Hk. destruct (Split v "="); simpl in *; [done|lia]. }
    destruct (Split _ "=") as [|a [|b [|c l]]]; simpl in Hl; [lia..|done].
Qed.

Definition property_line (kv : string * string) : string :=
  kv.1 +:+ "=" +:+ kv.2 +:+ String nl "".

Lemma foldl_lines (f : string * string → string) s l :
  foldl (λ c kv, c +:+ f kv) s l = s +:+ foldr (λ kv c, f kv +:+ c) "" l.
Proof.
  revert s. induction l as [|kv l IH]; intros s; simpl; [by rewrite append_nil_r|].
  by rewrite IH, append_assoc.
Qed.

(** The pair that a line gives. *)
Definition pair_of (kv : string * string) : NameValuePair := {| nv_Name := kv.1; nv_Value := kv.2 |}.

Lemma scan_lines acc l :
  Forall (λ kv, line_ok kv.1 kv.2) l →
  let r := mfold scan_property acc (raw_lines (foldr (λ kv c, property_line kv +:+ c) "" l)) in
  (Forall (λ kv, no_equals kv.1 kv.2) l → r = Ret (acc ++ (pair_of <$> l)))
  ∧ (∀ k v, (k, v) ∈ l → ¬ no_equals k v → ∃ k v, (k, v) ∈ l ∧ ¬ no_equals k v
       ∧ r = Err (EMsg ("invalid property line: " +:+ k +:+ "=" +:+ v))).
Proof.
  intros H. revert acc. induction H as [|[k v] l Hkv _ IH]; intros acc r; unfold r; clear r.
  { split; [intros _; simpl; by rewrite app_nil_r|]. by intros k v ?%elem_of_nil. }
  unfold foldr at 1 2; fold (foldr (λ kv c, property_line kv +:+ c) "" l).
  unfold property_line at 1 3. cbn [fst snd] in *.
  rewrite !append_assoc. change (String nl "" +:+ ?x) with (String nl x).
  rewrite <- !append_assoc, (append_assoc k "=" v).
  pose proof Hkv as (Hnl & _). rewrite raw_lines_cons by done.
  cbn [mfold]. rewrite scan_property_line by done.
  destruct (decide (no_equals k v)) as [Hno|Hno]; cbn [mbind outcome_bind].
  - destruct (IH (acc ++ [pair_of (k, v)])) as [IH1 IH2]. split.
    + intros [_ Hl]%Forall_cons. unfold pair_of in IH1 at 1. cbn [fst snd] in IH1.
      rewrite IH1 by done. rewrite <- app_assoc. done.
    + intros k0 v0 [[= -> ->]|Hin]%elem_of_cons Hne; [done|].
      destruct (IH2 k0 v0 Hin Hne) as (k1 & v1 & Hin1 & Hne1 & Hr). exists k1, v1.
      split_and!; [by right|done|exact Hr].
  - split; [intros [? _]%Forall_cons; done|]. intros _ _ _ _. exists k, v. split_and!; [by left|done|done].
Qed.

(** C24. Reading back a properties file that [MakePropertiesFileContent] wrote,
    for keys and values that carry no line break, keys that start no comment and
    lines that do not overrun the scanner: without an equals sign in a key or a
    value it gives the pairs of the map, in the order they were written; with
    one, in a value too, it fails on a line that has one. *)
Theorem properties_roundtrip {MR : MapRange} (config : gmap string string) :
  map_Forall line_ok config →
  (map_Forall no_equals config →
     ScanProperties (MakePropertiesFileContent config) [] = Ret (pair_of <$> range config))
  ∧ (∀ k v, config !! k = Some v → ¬ no_equals k v →
     ∃ k v, config !! k = Some v ∧ ¬ no_equals k v ∧
       ScanProperties (MakePropertiesFileContent config) []
       = Err (EMsg ("invalid property line: " +:+ k +:+ "=" +:+ v))).
Proof.
  intros H. unfold ScanProperties, MakePropertiesFileContent.
  case_decide as Hsz.
  { apply map_size_empty_inv in Hsz as ->. rewrite range_empty. split; [done|].
    intros k v Hkv. by rewrite lookup_empty in Hkv. }
  rewrite (foldl_lines property_line "" (range config)). change ("" +:+ ?x) with x.
  assert (∀ Q : string → string → Prop, map_Forall Q config → Forall (λ kv, Q kv.1 kv.2) (range config)) as Hall.
  { intros Q HQ. apply Forall_forall. intros [k v] Hkv. apply elem_of_range in Hkv. by apply (HQ k v). }
  destruct (scan_lines [] (range config) (Hall _ H)) as [H1 H2]. split.
  - intros Hno. by apply H1, (Hall no_equals).
  - intros k v Hkv Hne. destruct (H2 k v) as (k' & v' & Hin & Hne' & Hr); [by apply elem_of_range|done|].
    exists k', v'. split_and!; [by apply elem_of_range|done|exact Hr].
Qed.

Lemma properties_roundtrip_witness :
  @ScanProperties (@MakePropertiesFileContent sorted_range
    {["networkaddress.cache.ttl" := "30"; "networkaddress.cache.negative.ttl" := "0"]}) []
  = Ret (pair_of <$>
         @range sorted_range _
           {["networkaddress.cache.ttl" := "30"; "networkaddress.cache.negative.ttl" := "0"]}).
Proof.
  apply (@properties_roundtrip sorted_range); apply (bool_decide_unpack _); vm_compute; exact I.
Defined.

(** ** Override in place *)

Section override_lemmas.
Context {MR : MapRange} {A : Type}.
Context (nm : A → string) (val : A → string).
Context (upd : string → A → A) (mk : string → string → A).
Context (nm_upd : ∀ v a, nm (upd v a) = nm a) (val_upd : ∀ v a, val (upd v a) = v).
Context (nm_mk : ∀ k v, nm (mk k v) = k) (val_mk : ∀ k v, val (mk k v) = v).

(** The map a list denotes, a later entry winning. *)
Definition denotes (l : list A) : gmap string string :=
  foldl (λ m a, <[nm a := val a]> m) ∅ l.

(** [i] is the last position of [k]. *)
Definition last_at (names : list string) (i : nat) (k : string) : Prop :=
  names !! i = Some k ∧ ∀ j, i < j → names !! j ≠ Some k.

Lemma index_of_names_snoc l x :
  index_of_names nm (l ++ [x]) = <[nm x := length l]> (index_of_names nm l).
Proof.
  unfold index_of_names. rewrite imap_app, foldl_app. simpl. by rewrite Nat.add_0_r.
Qed.

Lemma last_at_ext names i k extra :
  last_at names i k → k ∉ extra → last_at (names ++ extra) i k.
Proof.
  intros [Hi Hlast] Hk. split; [by apply lookup_app_l_Some|].
  intros j Hj Hjk. apply lookup_app_Some in Hjk as [Hjk|[_ Hjk]].
  - by apply (Hlast j).
  - apply Hk. by apply list_elem_of_lookup_2 in Hjk.
Qed.

Lemma index_of_names_spec l k :
  match index_of_names nm l !! k with
  | Some i => last_at (nm <$> l) i k
  | None => k ∉ nm <$> l
  end.
Proof.
  induction l as [|x l IH] using rev_ind; [by apply not_elem_of_nil|].
  rewrite index_of_names_snoc, lookup_insert, fmap_app. case_decide as Hk.
  - subst k. split.
    + rewrite lookup_app_r by (by rewrite length_fmap). rewrite length_fmap, Nat.sub_diag. done.
    + intros j Hj Hjk. apply lookup_lt_Some in Hjk.
      rewrite length_app, length_fmap in Hjk. simpl in Hjk. lia.
  - destruct (index_of_names nm l !! k) as [i|].
    + apply last_at_ext; [done|]. simpl. set_solver.
    + simpl. set_solver.
Qed.

Lemma denotes_snoc l a : denotes (l ++ [a]) = <[nm a := val a]> (denotes l).
Proof. unfold denotes. by rewrite foldl_app. Qed.

Lemma foldl_denotes_insert l (m : gmap string string) k v :
  k ∉ nm <$> l →
  foldl (λ m a, <[nm a := val a]> m) (<[k := v]> m) l
  = <[k := v]> (foldl (λ m a, <[nm a := val a]> m) m l).
Proof.
  revert m. induction l as [|a l IH]; intros m Hk; simpl; [done|].
  rewrite insert_insert_ne by set_solver. apply IH. set_solver.
Qed.

Lemma denotes_update l i k a' :
  last_at (nm <$> l) i k → nm a' = k → denotes (<[i := a']> l) = <[k := val a']> (denotes l).
Proof.
  intros [Hi Hlast] Ha. apply list_lookup_fmap_Some in Hi as (a & Hk & Hl).
  assert (Hlen : length (take i l) = i) by (apply lookup_lt_Some in Hl; rewrite length_take; lia).
  assert (Hdrop : k ∉ nm <$> drop (S i) l).
  { intros Hin. apply list_elem_of_lookup in Hin as [j Hj]. rewrite fmap_drop, lookup_drop in Hj.
    apply (Hlast (S i + j)); [lia|done]. }
  rewrite <- (take_drop_middle l i a Hl) at 1 2.
  rewrite insert_app_r_alt by lia. rewrite Hlen, Nat.sub_diag. simpl.
  unfold denotes. rewrite !foldl_app. simpl. rewrite <- Hk, Ha.
  rewrite !foldl_denotes_insert by done. by rewrite insert_insert_eq.
Qed.

Lemma override_entry_hit (keys : gmap string nat) (cur : list A) k v i a :
  keys !! k = Some i → cur !! i = Some a →
  override_entry upd mk keys cur (k, v) = Ret (<[i := upd v a]> cur).
Proof.
  intros Hk Ha. unfold override_entry, get_index, set_index. simpl. rewrite Hk, Ha. simpl.
  by rewrite decide_True by (by apply lookup_lt_Some in Ha).
Qed.

Lemma override_entry_miss (keys : gmap string nat) (cur : list A) k v :
  keys !! k = None → override_entry upd mk keys cur (k, v) = Ret (cur ++ [mk k v]).
Proof. intros Hk. unfold override_entry. simpl. by rewrite Hk. Qed.

Lemma override_entries_run names0 (keys : gmap string nat) (cur : list A)
    (kvs : list (string * string)) (ext : list string) :
  (∀ k, match keys !! k with Some i => last_at names0 i k | None => k ∉ names0 end) →
  nm <$> cur = names0 ++ ext → (∀ k, k ∈ ext → (k ∉ names0) ∧ (k ∉ kvs.*1)) → NoDup kvs.*1 →
  ∃ out, mfold (override_entry upd mk keys) cur kvs = Ret out
         ∧ nm <$> out = (nm <$> cur) ++ filter (λ k, k ∉ names0) kvs.*1
         ∧ denotes out = foldl (λ m kv, <[kv.1 := kv.2]> m) (denotes cur) kvs.
Proof.
  intros Hkeys. revert cur ext. induction kvs as [|[k v] kvs IH]; intros cur ext Hcur Hext Hnd.
  { exists cur. split_and!; [done| |done]. simpl. by rewrite app_nil_r. }
  rewrite fmap_cons, NoDup_cons in Hnd. destruct Hnd as [Hk Hnd].
  change ((k, v).1) with k in Hk. specialize (Hkeys k) as Hkk.
  rewrite fmap_cons. change ((k, v).1) with k.
  change (mfold (override_entry upd mk keys) cur ((k, v) :: kvs)) with
    (override_entry upd mk keys cur (k, v) ≫= λ s, mfold (override_entry upd mk keys) s kvs).
  destruct (keys !! k) as [i|] eqn:Hkey.
  - assert (Hlast : last_at (nm <$> cur) i k).
    { rewrite Hcur. apply last_at_ext; [done|]. intros Hin. apply Hext in Hin as [Hin _].
      apply Hin. destruct Hkk as [Hi _]. by apply list_elem_of_lookup_2 in Hi. }
    pose proof Hlast as [Hi _]. apply list_lookup_fmap_Some in Hi as (a & Hak & Ha).
    rewrite (override_entry_hit _ _ _ _ i a) by done.
    assert (Hnames : nm <$> <[i := upd v a]> cur = nm <$> cur).
    { rewrite list_fmap_insert, nm_upd. apply list_insert_id.
      rewrite list_lookup_fmap, Ha. done. }
    destruct (IH (<[i := upd v a]> cur) ext) as (out & Hrun & Hn & Hd).
    + by rewrite Hnames.
    + intros k' Hk'. destruct (Hext k' Hk'). set_solver.
    + done.
    + exists out. split_and!; [done| |].
      * rewrite Hn, Hnames. rewrite filter_cons_False; [done|].
        intros H. apply H. destruct Hkk as [Hi _]. by apply list_elem_of_lookup_2 in Hi.
      * rewrite Hd. simpl. rewrite (denotes_update cur i k) by (rewrite ?nm_upd; congruence).
        by rewrite val_upd.
  - rewrite override_entry_miss by done.
    destruct (IH (cur ++ [mk k v]) (ext ++ [k])) as (out & Hrun & Hn & Hd).
    + by rewrite fmap_app, Hcur, <- app_assoc; simpl; rewrite nm_mk.
    + intros k' Hk'. apply elem_of_app in Hk' as [Hk'|Hk'].
      * destruct (Hext k' Hk'). set_solver.
      * apply list_elem_of_singleton in Hk' as ->. done.
    + done.
    + exists out. split_and!; [done| |].
      * rewrite Hn, fmap_app. simpl. rewrite nm_mk.
        rewrite filter_cons_True by done. by rewrite <- app_assoc.
      * rewrite Hd, denotes_snoc, nm_mk, val_mk. done.
Qed.

(** The loop never panics; it keeps the names there are, in place, adds the
    new ones at the end, and the result denotes the override over the list. *)
Lemma override_entries_spec current (override : gmap string string) :
  ∃ out, override_entries nm upd mk current override = Ret out
         ∧ nm <$> out = (nm <$> current) ++ filter (λ k, k ∉ nm <$> current) (range override).*1
         ∧ denotes out = override ∪ denotes current.
Proof.
  unfold override_entries.
  destruct (override_entries_run (nm <$> current) (index_of_names nm current) current
              (range override) []) as (out & Hrun & Hn & Hd).
  - intros k. apply index_of_names_spec.
  - by rewrite app_nil_r.
  - set_solver.
  - apply NoDup_fst_range.
  - exists out. split_and!; [done..|].
    rewrite Hd, foldl_insert_union by apply NoDup_fst_range. by rewrite range_list_to_map.
Qed.

(** What the update does not touch stays. *)
Lemma override_entries_keep {B} (g : A → B) (keys : gmap string nat) cur kvs out :
  (∀ v a, g (upd v a) = g a) →
  mfold (override_entry upd mk keys) cur kvs = Ret out → ∃ new, g <$> out = (g <$> cur) ++ new.
Proof.
  intros Hg. revert cur. induction kvs as [|[k v] kvs IH]; intros cur H; simpl in H.
  - exists []. go_inv. by rewrite app_nil_r.
  - apply bind_ret_inv in H as (cur' & H1 & H). apply IH in H as [new Hnew].
    unfold override_entry in H1. simpl in H1. destruct (keys !! k) as [i|].
    + apply bind_ret_inv in H1 as (a & Ha & H1). unfold get_index in Ha. unfold set_index in H1.
      destruct (cur !! i) eqn:Hi; [|done]. case_decide; [|done]. go_inv.
      exists new. rewrite Hnew, list_fmap_insert, Hg. f_equal.
      apply list_insert_id. rewrite list_lookup_fmap, Hi. done.
    + go_inv. eexists. rewrite Hnew, fmap_app, <- app_assoc. done.
Qed.

End override_lemmas.

(** [OverrideProperties] never fails; for every order in which the
    override map is visited it keeps the names of the list in place, adds the
    new names at the end, and the result denotes (a later pair winning) the
    override map over the list. *)
Theorem override_properties_spec {MR : MapRange} (override : gmap string string) current :
  ∃ out, OverrideProperties override current = Ret out
         ∧ nv_Name <$> out
           = (nv_Name <$> current)
             ++ filter (λ k, k ∉ nv_Name <$> current) (range override).*1
         ∧ denotes nv_Name nv_Value out = override ∪ denotes nv_Name nv_Value current.
Proof.
  unfold OverrideProperties. case_decide as Hsz.
  - apply map_size_empty_inv in Hsz as ->. exists current.
    rewrite range_empty, map_empty_union. simpl. by rewrite app_nil_r.
  - by apply override_entries_spec.
Qed.

(** [OverrideEnvVars] never fails; a variable that is overridden keeps its
    place and its [ValueFrom] and only its value changes, every other variable
    is kept, and the variables of the override that were not there come at the
    end. *)
Theorem override_env_vars_spec {MR : MapRange} (override : gmap string string) origin :
  ∃ out, OverrideEnvVars origin override = Ret out
         ∧ ev_Name <$> out
           = (ev_Name <$> origin)
             ++ filter (λ k, k ∉ ev_Name <$> origin) (range override).*1
         ∧ ev_ValueFrom <$> take (length origin) out = ev_ValueFrom <$> origin
         ∧ denotes ev_Name ev_Value out = override ∪ denotes ev_Name ev_Value origin.
Proof.
  edestruct (override_entries_spec ev_Name ev_Value) as (out & Hrun & Hn & Hd);
    [..|exists out; split_and!; [exact Hrun|exact Hn| |exact Hd]]; try done.
  apply (override_entries_keep _ _ ev_ValueFrom) in Hrun as [new Hnew]; [|done].
  rewrite fmap_take, Hnew. by rewrite take_app_length' by (by rewrite length_fmap).
Qed.
