(* ===== verification/Security.v ===== *)
(** * Kerberos and TLS: [internal/common/kerberos.go] and [tls.go]

    The settings, volumes, mounts, ports and probes that depend on whether
    Kerberos and TLS are configured. *)

From S2P Require Import Prelude GoStd GoTemplate GoXml XmlUtil Api.

Definition kv (n v : string) : XmlNameValuePair := {| Name := n; Value := v |}.

Section with_platform.
Context {P : Platform}.

(** ** kerberos.go *)

Definition KrbVolumeName := "kerberos".
Definition xmlTrue := "true".
Definition dataTransferProtectionVal := "privacy".

Definition IsKerberosEnabled (clusterSpec : ClusterConfigSpec) : bool :=
  match Authentication clusterSpec with
  | Some a => match Kerberos a with Some _ => true | None => false end
  | None => false
  end.

Definition ExportKrbRealmFromConfig (krb5ConfPath : string) : string :=
  "export KERBEROS_REALM=$(grep -oP 'default_realm = \K.*' " +:+ krb5ConfPath +:+ ")"
  +:+ String nl "".

Definition SecurityHdfsSiteXml : list XmlNameValuePair :=
  [ kv "dfs.block.access.token.enable" xmlTrue;
    kv "dfs.http.policy" "HTTPS_ONLY";
    kv "hadoop.kerberos.keytab.login.autorenewal.enabled" xmlTrue;
    kv "dfs.https.server.keystore.resource" "ssl-server.xml";
    kv "dfs.https.client.keystore.resource" "ssl-client.xml";
    kv "dfs.encrypt.data.transfer" xmlTrue;
    kv "dfs.data.transfer.protection" dataTransferProtectionVal ].

Definition SecurityDiscoveryHdfsSiteXml : list XmlNameValuePair :=
  [ kv "hadoop.kerberos.keytab.login.autorenewal.enabled" xmlTrue;
    kv "dfs.data.transfer.protection" dataTransferProtectionVal;
    kv "dfs.encrypt.data.transfer" xmlTrue ].

Definition PrincipalHostPart (instanceName ns : string) : string :=
  instanceName +:+ "." +:+ ns +:+ ".svc.cluster.local@${env.KERBEROS_REALM}".

Definition SecurityDiscoveryCoreSiteXml (instanceName ns : string) : list XmlNameValuePair :=
  let principalHostPart := PrincipalHostPart instanceName ns in
  [ kv "hadoop.security.authentication" "kerberos";
    kv "dfs.journalnode.kerberos.principal" ("jn/" +:+ principalHostPart);
    kv "dfs.namenode.kerberos.principal" ("nn/" +:+ principalHostPart);
    kv "dfs.datanode.kerberos.principal" ("dn/" +:+ principalHostPart);
    kv "hadoop.rpc.protection" dataTransferProtectionVal ].

Definition SecurityCoreSiteXml (instanceName ns : string) : list XmlNameValuePair :=
  let principalHostPart := PrincipalHostPart instanceName ns in
  let keytab := path_Join [KubedoopKerberosDir; "keytab"] in
  [ kv "hadoop.security.authentication" "kerberos";
    kv "dfs.journalnode.kerberos.principal" ("jn/" +:+ principalHostPart);
    kv "dfs.journalnode.kerberos.internal.spnego.principal" ("jn/" +:+ principalHostPart);
    kv "dfs.namenode.kerberos.principal" ("nn/" +:+ principalHostPart);
    kv "dfs.datanode.kerberos.principal" ("dn/" +:+ principalHostPart);
    kv "dfs.web.authentication.kerberos.principal" ("HTTP/" +:+ principalHostPart);
    kv "dfs.journalnode.keytab.file" keytab;
    kv "dfs.namenode.keytab.file" keytab;
    kv "dfs.datanode.keytab.file" keytab;
    kv "dfs.journalnode.kerberos.principal.pattern" ("jn/" +:+ principalHostPart);
    kv "dfs.namenode.kerberos.principal.pattern" ("nn/" +:+ principalHostPart);
    kv "hadoop.rpc.protection" dataTransferProtectionVal ].

(** The variables, and the caller's [jvmArgs] with one argument more. *)
Definition SecurityEnvs (container : ContainerComponent) (jvmArgs : list string)
    : list EnvVar * list string :=
  let krb5conf := path_Join [KubedoopKerberosDir; "krb5.conf"] in
  ([ {| ev_Name := "HADOOP_OPTS"; ev_Value := "-Djava.security.krb5.conf=" +:+ krb5conf;
        ev_ValueFrom := None |};
     {| ev_Name := "KRB5_CONFIG"; ev_Value := krb5conf; ev_ValueFrom := None |};
     {| ev_Name := "KRB5_CLIENT_KTNAME"; ev_Value := path_Join [KubedoopKerberosDir; "keytab"];
        ev_ValueFrom := None |} ],
   jvmArgs ++ ["-Djava.security.krb5.conf=" +:+ krb5conf]).

Definition SecurityVolumeMounts : list VolumeMount :=
  [ {| vm_Name := KrbVolumeName; vm_MountPath := KubedoopKerberosDir |} ].

Definition GetKerberosServiceName (role : Role) : outcome string :=
  if decide (role = NameNodeRole) then Ret "nn"
  else if decide (role = DataNodeRole) then Ret "dn"
  else if decide (role = JournalNodeRole) then Ret "jn"
  else Panic ("unsupported role for kerberos: " +:+ role).

Definition secrets_claim (annotations : gmap string string) : PersistentVolumeClaim :=
  {| pvc_Name := "";
     pvc_Annotations := annotations;
     pvc_Spec := {| AccessModes := ["ReadWriteOnce"];
                    StorageClassName := Some "secrets.kubedoop.dev";
                    VolumeMode := Some "Filesystem";
                    StorageRequest := MustParse "1Gi" |} |}.

Definition CreateKerberosSecretPvc (secretClass instanceName : string) (role : Role)
    : outcome Volume :=
  kerberosServiceName ← GetKerberosServiceName role;
  Ret {| vol_Name := KrbVolumeName;
         vol_Source := Ephemeral (secrets_claim
           (<[AnnotationSecretsClass := secretClass]>
           (<[AnnotationSecretsScope := "service=" +:+ instanceName]>
           {[AnnotationSecretsKerberosServiceNames := kerberosServiceName +:+ ",HTTP"]}))) |}.

Definition CreateExportKrbRealmEnvData (clusterConfig : ClusterConfigSpec) : gmap string TmplValue :=
  {[ "kerberosEnabled" := TBool (IsKerberosEnabled clusterConfig);
     "kerberosEnv" :=
       TString (ExportKrbRealmFromConfig (path_Join [KubedoopKerberosDir; "krb5.conf"])) ]}.

Definition GetKerberosTicket (principal : string) : string :=
  let keytabLocation := path_Join [KubedoopKerberosDir; "keytab"] in
  lines [ "";
          "echo " +:+ quoted ("Getting ticket for " +:+ principal) +:+ " from " +:+ keytabLocation;
          "kinit " +:+ quoted principal +:+ " -kt " +:+ keytabLocation;
          "" ].

Definition CreateGetKerberosTicketData (principal : string) : gmap string TmplValue :=
  {[ "kinitScript" := TString (GetKerberosTicket principal) ]}.

(** [panic(err)] on a template error. *)
Definition ParseTemplate (tmpl : string) (data : gmap string TmplValue) : outcome (list string) :=
  match TemplateParse tmpl data with
  | Err (EMsg m) => Panic m
  | Err (ENotFound m) => Panic m
  | Ret content => Ret [content]
  | Panic w => Panic w
  | Beyond w => Beyond w
  end.

Definition CreateKerberosPrincipal (instanceName ns : string) (role : Role) : outcome string :=
  let host := instanceName +:+ "." +:+ ns +:+ ".svc.cluster.local@${KERBEROS_REALM}" in
  name ← GetKerberosServiceName role;
  Ret (name +:+ "/" +:+ host).

(** ** tls.go *)

Definition TlsVolumeName := "tls".

Definition IsTlsEnabled (clusterSpec : ClusterConfigSpec) : bool :=
  match Authentication clusterSpec with
  | Some a => match Tls a with Some _ => true | None => false end
  | None => false
  end.

Definition HttpPort (clusterSpec : ClusterConfigSpec) (httpsPort httpPort : Z) : ContainerPort :=
  if IsTlsEnabled clusterSpec
  then {| cp_Name := HttpsName; cp_Port := httpsPort; cp_Protocol := ProtocolTCP |}
  else {| cp_Name := HttpName; cp_Port := httpPort; cp_Protocol := ProtocolTCP |}.

Definition ServiceHttpPort (clusterSpec : ClusterConfigSpec) (svcHttpsPort svcHttpPort : Z)
    : ServicePort :=
  if IsTlsEnabled clusterSpec
  then {| sp_Name := HttpsName; sp_Port := svcHttpsPort; sp_Protocol := ProtocolTCP;
          sp_TargetPort := HttpsName |}
  else {| sp_Name := HttpName; sp_Port := svcHttpPort; sp_Protocol := ProtocolTCP;
          sp_TargetPort := HttpName |}.

Definition CreateDnsDomain (svcName namespace clusterDomain : string) (port : Z) : string :=
  svcName +:+ "." +:+ namespace +:+ ".svc." +:+ clusterDomain +:+ ":" +:+ Itoa port.

(** The DNS domain and the template of the key, with its [%d] left in. *)
Definition DfsNameNodeHttpAddressHa (clusterSpec : ClusterConfigSpec)
    (instanceName statefulsetName svcName namespace : string) : string * string :=
  if IsTlsEnabled clusterSpec
  then (CreateDnsDomain svcName namespace (ClusterDomain clusterSpec) NameNodeHttpsPort,
        "dfs.namenode.https-address." +:+ instanceName +:+ "." +:+ statefulsetName +:+ "-%d")
  else (CreateDnsDomain svcName namespace (ClusterDomain clusterSpec) NameNodeHttpPort,
        "dfs.namenode.http-address." +:+ instanceName +:+ "." +:+ statefulsetName +:+ "-%d").

Definition WebUiPortProbe (clusterSpec : ClusterConfigSpec) : string :=
  if IsTlsEnabled clusterSpec then "HTTPS" else "HTTP".

Definition TlsHttpGetAction (clusterSpec : ClusterConfigSpec) (probePath : string)
    : HTTPGetAction :=
  if IsTlsEnabled clusterSpec
  then {| hg_Path := probePath; hg_Port := HttpsName; hg_Scheme := "HTTPS" |}
  else {| hg_Path := probePath; hg_Port := HttpName; hg_Scheme := "HTTP" |}.

Definition TlsVolumeMounts : list VolumeMount :=
  [ {| vm_Name := TlsVolumeName; vm_MountPath := KubedoopTlsDir |} ].

Definition TlsHdfsSiteXml (clusterSpec : ClusterConfigSpec) : list XmlNameValuePair :=
  if IsTlsEnabled clusterSpec
  then [ kv "dfs.datanode.registered.https.port" "${env.HTTPS_PORT}" ]
  else [ kv "dfs.datanode.registered.http.port" "${env.HTTP_PORT}" ].

Definition CreateServiceMetricsName (roleGroupInfo : RoleGroupInfo) : string :=
  GetFullName roleGroupInfo +:+ "-metrics".

Definition CreateTlsSecretPvc (secretClass jksPassword : string) (roleGroupInfo : RoleGroupInfo)
    : Volume :=
  {| vol_Name := TlsVolumeName;
     vol_Source := Ephemeral (secrets_claim
       (<[AnnotationSecretsClass := secretClass]>
       (<[AnnotationSecretsScope :=
            "pod,node,service=" +:+ CreateServiceMetricsName roleGroupInfo]>
       (<[AnnotationSecretsFormat := "tls-p12"]>
       {[AnnotationSecretsPKCS12Password := jksPassword]})))) |}.

End with_platform.
