(* ===== verification/Components.v ===== *)
(** * Cluster components: [internal/common/cluster_components.go] and the name
    functions of [util.go]

    The table of role groups the configuration generators read, filled from
    the custom resource, and the names of pods, services and addresses derived
    from it. Replica counts are [int32]. *)

From S2P Require Import Prelude GoStd GoXml XmlUtil Api Security.

(** [0, 1, ..., n-1]: the values of the loop variable of
    [for i := int32(0); i < n; i++]. *)
Definition indices (n : Z) : list Z := Z.of_nat <$> seq 0 (Z.to_nat n).

(** [make([]T, n)] and [make([]T, 0, n)] panic for a negative [n]. *)
Definition make_slice (n : Z) : outcome unit :=
  if decide (n < 0)%Z then Panic "makeslice: len out of range" else Ret tt.

(** ** Names of util.go *)

Definition CreateJournalUrl (jnSvcs : list string) (instanceName : string) : string :=
  "qjournal://" +:+ Join jnSvcs ";" +:+ "/" +:+ instanceName.

Definition CreateNetworkUrl (podName svcName namespace clusterDomain : string) (port : Z)
    : string :=
  podName +:+ "." +:+ CreateDnsDomain svcName namespace clusterDomain port.

Definition pod_name (statefulResourceName : string) (i : Z) : string :=
  statefulResourceName +:+ "-" +:+ Itoa i.

Definition CreateNetworksByReplicates (replicates : Z)
    (statefulResourceName svcName namespace clusterDomain : string) (port : Z)
    : outcome (list string) :=
  _ ← make_slice replicates;
  Ret ((λ i, CreateNetworkUrl (pod_name statefulResourceName i) svcName namespace clusterDomain port)
       <$> indices replicates).

Definition CreatePodNamesByReplicas (replicas : Z) (statefulResourceName : string)
    : outcome (list string) :=
  _ ← make_slice replicas;
  Ret (pod_name statefulResourceName <$> indices replicas).

Definition kv_content (keyTemplate valueTemplate : string) (i : Z) : outcome (string * string) :=
  key ← Sprintf keyTemplate [FInt i];
  value ← (if Contains valueTemplate "%d" then Sprintf valueTemplate [FInt i]
           else Ret valueTemplate);
  Ret (key, value).

Definition CreateKvContentByReplicas (replicas : Z) (keyTemplate valueTemplate : string)
    : outcome (list (string * string)) :=
  mmap (kv_content keyTemplate valueTemplate) (indices replicas).

Definition CreateXmlContentByReplicas (replicas : Z) (keyTemplate valueTemplate : string)
    : outcome (list XmlNameValuePair) :=
  _ ← make_slice replicas;
  kvs ← CreateKvContentByReplicas replicas keyTemplate valueTemplate;
  Ret (pairs_of kvs).

Section with_platform.
Context {P : Platform} {MR : MapRange}.

(** ** The table *)

Record ComponentInfo := {
  ci_InstanceName : string;
  ci_Namespace : string;
  ci_GroupName : string;
  ci_Replicas : Z;
  ci_Config : RoleGroupSpec;
  ci_RoleGroupInfo : option RoleGroupInfo;
}.

Record ClusterComponentsInfo := {
  cci_InstanceName : string;
  cci_Namespace : string;
  cci_NameNode : gmap string ComponentInfo;
  cci_DataNode : gmap string ComponentInfo;
  cci_JournalNode : gmap string ComponentInfo;
  cci_ClusterConfig : option ClusterConfigSpec;
}.

Definition NewClusterComponentsInfo (instanceName namespace : string)
    (clusterConfig : option ClusterConfigSpec) : ClusterComponentsInfo :=
  {| cci_InstanceName := instanceName; cci_Namespace := namespace;
     cci_NameNode := ∅; cci_DataNode := ∅; cci_JournalNode := ∅;
     cci_ClusterConfig := clusterConfig |}.

(** The entry of one role group. *)
Definition component_of (instance : HdfsCluster) (clusterInfo : ClusterInfo) (role : Role)
    (groupName : string) (spec : RoleGroupSpec) (replicas : Z) : ComponentInfo :=
  {| ci_InstanceName := hc_Name instance;
     ci_Namespace := hc_Namespace instance;
     ci_GroupName := groupName;
     ci_Replicas := replicas;
     ci_Config := spec;
     ci_RoleGroupInfo :=
       Some {| rg_RoleInfo := {| ri_ClusterInfo := clusterInfo; RoleName := role |};
               RoleGroupName := groupName |} |}.

(** The body of one of the three loops; [*spec.Replicas] panics on nil. *)
Definition populate_group (instance : HdfsCluster) (clusterInfo : ClusterInfo) (role : Role)
    (infos : gmap string ComponentInfo) (g : string * RoleGroupSpec)
    : outcome (gmap string ComponentInfo) :=
  replicas ← deref (Replicas g.2);
  Ret (<[g.1 := component_of instance clusterInfo role g.1 g.2 replicas]> infos).

Definition populate_role (instance : HdfsCluster) (clusterInfo : ClusterInfo) (role : Role)
    (spec : option RoleSpec) (infos : gmap string ComponentInfo)
    : outcome (gmap string ComponentInfo) :=
  match spec with
  | None => Ret infos
  | Some rs =>
      mfold (populate_group instance clusterInfo role) infos (range (RoleGroups rs))
  end.

Definition PopulateClusterComponents (instance : HdfsCluster) (componentsInfo : ClusterComponentsInfo)
    (clusterInfo : ClusterInfo) : outcome ClusterComponentsInfo :=
  nn ← populate_role instance clusterInfo NameNodeRole (NameNode (Spec instance))
         (cci_NameNode componentsInfo);
  dn ← populate_role instance clusterInfo DataNodeRole (DataNode (Spec instance))
         (cci_DataNode componentsInfo);
  jn ← populate_role instance clusterInfo JournalNodeRole (JournalNode (Spec instance))
         (cci_JournalNode componentsInfo);
  Ret {| cci_InstanceName := cci_InstanceName componentsInfo;
         cci_Namespace := cci_Namespace componentsInfo;
         cci_NameNode := nn; cci_DataNode := dn; cci_JournalNode := jn;
         cci_ClusterConfig := cci_ClusterConfig componentsInfo |}.

(** [totalReplicas += info.Replicas], in [int32]. *)
Definition total_replicas (infos : gmap string ComponentInfo) (groupName : string) : Z :=
  foldl (λ total kv,
    if decide (ci_GroupName kv.2 = groupName) then wrap32 (total + ci_Replicas kv.2) else total)
    0%Z (range infos).

Definition GetJournalNodeReplicas (c : ClusterComponentsInfo) (groupName : string) : Z :=
  total_replicas (cci_JournalNode c) groupName.

Definition GetNameNodeReplicas (c : ClusterComponentsInfo) (groupName : string) : Z :=
  total_replicas (cci_NameNode c) groupName.

(** [info.RoleGroupInfo.GetFullName()]. *)
Definition full_name (info : ComponentInfo) : outcome string :=
  i ← deref (ci_RoleGroupInfo info); Ret (GetFullName i).

Definition GetNameNodeServiceNames (c : ClusterComponentsInfo) (groupName : string)
    : outcome (list string) :=
  match cci_NameNode c !! groupName with
  | None => Ret []
  | Some info => n ← full_name info; Ret [n]
  end.

Definition GetJournalNodeServiceNames (c : ClusterComponentsInfo) : outcome (list string) :=
  mmap (λ kv, full_name kv.2) (range (cci_JournalNode c)).

Definition GetJournalNodeServicesForSharedEdits (c : ClusterComponentsInfo)
    : outcome (list string) :=
  serviceNames ← GetJournalNodeServiceNames c;
  Ret (map (λ s, s +:+ ":8485") serviceNames).

Definition GetStatefulSetName (info : ComponentInfo) : string :=
  match ci_RoleGroupInfo info with Some i => GetFullName i | None => "" end.

Definition GetServiceName (info : ComponentInfo) : string :=
  match ci_RoleGroupInfo info with Some i => GetFullName i | None => "" end.

(** ** The table after [PopulateClusterComponents] *)

Definition groups_of (spec : option RoleSpec) : gmap string RoleGroupSpec :=
  match spec with Some rs => RoleGroups rs | None => ∅ end.

(** Every role group has a replica count (the API server defaults it to 1). *)
Definition replicas_set (spec : option RoleSpec) : Prop :=
  map_Forall (λ _ g, is_Some (Replicas g)) (groups_of spec).

(** The entries a role's groups must get. *)
Definition table_of (instance : HdfsCluster) (clusterInfo : ClusterInfo) (role : Role)
    (spec : option RoleSpec) : gmap string ComponentInfo :=
  map_imap (λ g s, Some (component_of instance clusterInfo role g s (default 0%Z (Replicas s))))
    (groups_of spec).

Lemma lookup_table_of instance ci role spec g :
  table_of instance ci role spec !! g
  = (λ s, component_of instance ci role g s (default 0%Z (Replicas s))) <$> groups_of spec !! g.
Proof. unfold table_of. rewrite map_lookup_imap. by destruct (groups_of spec !! g). Qed.

Lemma populate_group_some instance ci role infos g s r :
  Replicas s = Some r →
  populate_group instance ci role infos (g, s)
  = Ret (<[g := component_of instance ci role g s r]> infos).
Proof. intros H. unfold populate_group. simpl. by rewrite H. Qed.

Lemma populate_loop instance ci role infos (l : list (string * RoleGroupSpec)) :
  Forall (λ kv, is_Some (Replicas kv.2)) l →
  mfold (populate_group instance ci role) infos l
  = Ret (foldl (λ (m : gmap string ComponentInfo) kv, <[kv.1 := kv.2]> m) infos
      (map (λ kv, (kv.1, component_of instance ci role kv.1 kv.2 (default 0%Z (Replicas kv.2)))) l)).
Proof.
  intros H. revert infos. induction H as [|[g s] l [r Hr] _ IH]; intros infos; [done|].
  cbn [mfold]. erewrite populate_group_some by done.
  simpl in Hr |- *. rewrite IH, Hr. done.
Qed.

Lemma populate_role_table instance ci role spec infos :
  replicas_set spec →
  populate_role instance ci role spec infos = Ret (table_of instance ci role spec ∪ infos).
Proof.
  intros H. unfold populate_role. destruct spec as [rs|].
  2: { unfold table_of. simpl. by rewrite map_imap_empty, map_empty_union. }
  rewrite populate_loop.
  - f_equal. rewrite foldl_insert_union.
    + f_equal. apply map_eq. intros g. rewrite lookup_table_of. simpl.
      rewrite <- (range_list_to_map (RoleGroups rs)) at 2.
      induction (range (RoleGroups rs)) as [|[g' s] l IH]; [done|]. simpl.
      rewrite !lookup_insert. case_decide; [by subst|done].
    + rewrite <- list_fmap_compose. apply (NoDup_fst_range (RoleGroups rs)).
  - apply Forall_forall. intros [g s] Hgs. apply elem_of_range in Hgs. by apply (H g s).
Qed.

(** The function [total_replicas] when at most one entry has the name. *)
Lemma total_replicas_unique (infos : gmap string ComponentInfo) g :
  map_Forall (λ k info, ci_GroupName info = k ∧ in_int32 (ci_Replicas info)) infos →
  total_replicas infos g = default 0%Z (ci_Replicas <$> infos !! g).
Proof.
  intros Hall. unfold total_replicas.
  assert (Hl : Forall (λ kv, ci_GroupName kv.2 = kv.1 ∧ in_int32 (ci_Replicas kv.2)) (range infos)).
  { apply Forall_forall. intros [k i] Hki. apply elem_of_range in Hki. by apply (Hall k i). }
  rewrite <- (range_list_to_map infos) at 2. pose proof (NoDup_fst_range infos) as Hnd.
  assert (Hstep : ∀ l t, g ∉ l.*1 → Forall (λ kv, ci_GroupName kv.2 = kv.1 ∧ in_int32 (ci_Replicas kv.2)) l →
    foldl (λ total kv, if decide (ci_GroupName kv.2 = g) then wrap32 (total + ci_Replicas kv.2)
                       else total) t l = t).
  { induction l as [|[k i] l IH]; intros t Hg Hf; [done|]. simpl.
    inversion Hf as [|? ? [Hk _] Hf']; subst. simpl in Hk.
    rewrite decide_False by set_solver. apply IH; [set_solver|done]. }
  induction (range infos) as [|[k i] l IH]; [done|].
  inversion Hl as [|? ? [Hk Hr] Hl']; subst. simpl in Hk, Hr.
  rewrite fmap_cons, NoDup_cons in Hnd. destruct Hnd as [Hkl Hnd]. simpl.
  rewrite lookup_insert. simpl. destruct (decide (k = g)) as [->|Hne].
  - rewrite decide_True by done. rewrite Z.add_0_l, wrap32_id by done.
    by rewrite Hstep by (simpl in Hkl; done).
  - rewrite decide_False by congruence. by apply IH.
Qed.

#[local] Instance replicas_set_dec spec : Decision (replicas_set spec).
Proof. unfold replicas_set. apply _. Defined.

(** A loop over groups of which one has no replica count panics. *)
Lemma populate_loop_panics instance ci role infos (l : list (string * RoleGroupSpec)) :
  ¬ Forall (λ kv, is_Some (Replicas kv.2)) l →
  mfold (populate_group instance ci role) infos l = deref None.
Proof.
  revert infos. induction l as [|[g s] l IH]; intros infos H; [by destruct H|].
  cbn [mfold]. destruct (Replicas s) as [r|] eqn:Hr;
    [|unfold populate_group at 2; simpl; by rewrite Hr].
  erewrite populate_group_some by done. simpl.
  apply IH. intros Hl. apply H. constructor; [by exists r|done].
Qed.

Lemma populate_role_panics instance ci role spec infos :
  ¬ replicas_set spec → populate_role instance ci role spec infos = deref None.
Proof.
  intros H. unfold populate_role. destruct spec as [rs|].
  2: { destruct H. apply map_Forall_empty. }
  apply populate_loop_panics. intros Hl. apply H. intros g s Hgs.
  rewrite Forall_forall in Hl. apply (Hl (g, s)). by apply elem_of_range.
Qed.

Lemma populate_role_spec instance ci role spec infos :
  populate_role instance ci role spec infos
  = if decide (replicas_set spec) then Ret (table_of instance ci role spec ∪ infos)
    else deref None.
Proof. case_decide; auto using populate_role_table, populate_role_panics. Qed.

(** The table the operator builds for an instance, from the empty one. *)
Definition components_of (instance : HdfsCluster) (clusterInfo : ClusterInfo)
    : ClusterComponentsInfo :=
  {| cci_InstanceName := hc_Name instance;
     cci_Namespace := hc_Namespace instance;
     cci_NameNode := table_of instance clusterInfo NameNodeRole (NameNode (Spec instance));
     cci_DataNode := table_of instance clusterInfo DataNodeRole (DataNode (Spec instance));
     cci_JournalNode := table_of instance clusterInfo JournalNodeRole (JournalNode (Spec instance));
     cci_ClusterConfig := ClusterConfig (Spec instance) |}.

(** Every role of the instance has its replica counts. *)
Definition instance_replicas_set (instance : HdfsCluster) : Prop :=
  replicas_set (NameNode (Spec instance)) ∧ replicas_set (DataNode (Spec instance)) ∧
  replicas_set (JournalNode (Spec instance)).

#[export] Instance instance_replicas_set_dec instance : Decision (instance_replicas_set instance).
Proof. unfold instance_replicas_set. apply _. Defined.

Lemma populate_components instance ci :
  PopulateClusterComponents instance
    (NewClusterComponentsInfo (hc_Name instance) (hc_Namespace instance)
       (ClusterConfig (Spec instance))) ci
  = if decide (instance_replicas_set instance) then Ret (components_of instance ci)
    else deref None.
Proof.
  unfold PopulateClusterComponents, instance_replicas_set. simpl. rewrite !populate_role_spec.
  destruct (decide (replicas_set (NameNode _))); simpl; [|rewrite decide_False by naive_solver; done].
  destruct (decide (replicas_set (DataNode _))); simpl; [|rewrite decide_False by naive_solver; done].
  destruct (decide (replicas_set (JournalNode _))); simpl; [|rewrite decide_False by naive_solver; done].
  rewrite decide_True by done. simpl. by rewrite !map_union_empty.
Qed.

(** Replica counts are [int32] values. *)
Definition replicas_int32 (spec : option RoleSpec) : Prop :=
  map_Forall (λ _ g, in_int32 (default 0%Z (Replicas g))) (groups_of spec).

Lemma total_replicas_table instance ci role spec g :
  replicas_int32 spec →
  total_replicas (table_of instance ci role spec) g
  = default 0%Z (groups_of spec !! g ≫= Replicas).
Proof.
  intros H. rewrite total_replicas_unique.
  - rewrite lookup_table_of. by destruct (groups_of spec !! g).
  - intros k info. rewrite lookup_table_of.
    destruct (groups_of spec !! k) as [s|] eqn:Hk; simpl; intros Hi; simplify_eq/=.
    split; [done|]. by apply (H k s).
Qed.

(** ** Addresses by replica *)

Lemma length_indices n : length (indices n) = Z.to_nat n.
Proof. unfold indices. by rewrite length_fmap, length_seq. Qed.

Lemma elem_of_indices n i : i ∈ indices n ↔ (0 ≤ i < n)%Z.
Proof.
  unfold indices. rewrite list_elem_of_fmap. setoid_rewrite elem_of_seq. split.
  - intros (k & -> & Hk). lia.
  - intros H. exists (Z.to_nat i). lia.
Qed.

Lemma NoDup_indices n : NoDup (indices n).
Proof. apply NoDup_fmap_2; [intros ???; lia|apply NoDup_seq]. Qed.

Lemma pod_name_inj s i j : pod_name s i = pod_name s j → i = j.
Proof.
  unfold pod_name. intros H. by apply append_inj_l, append_inj_l, Itoa_inj in H.
Qed.

Lemma make_slice_ret n : (0 ≤ n)%Z → make_slice n = Ret tt.
Proof. intros H. unfold make_slice. by rewrite decide_False by lia. Qed.

Lemma make_slice_panic n : (n < 0)%Z → make_slice n = Panic "makeslice: len out of range".
Proof. intros H. unfold make_slice. by rewrite decide_True by lia. Qed.

(** The pairs of a key and a value that end in, or contain, one [%d]. *)
Lemma CreateXmlContentByReplicas_d n k v1 v2 :
  (0 ≤ n)%Z → no_percent k = true → no_percent v1 = true → no_percent v2 = true →
  CreateXmlContentByReplicas n (k +:+ "%d") (v1 +:+ "%d" +:+ v2)
  = Ret (map (λ i, kv (k +:+ Itoa i) (v1 +:+ Itoa i +:+ v2)) (indices n)).
Proof.
  intros Hn Hk Hv1 Hv2. unfold CreateXmlContentByReplicas, CreateKvContentByReplicas.
  rewrite make_slice_ret by done. simpl.
  rewrite (mmap_ret _ (λ i, (k +:+ Itoa i, v1 +:+ Itoa i +:+ v2))).
  - simpl. unfold pairs_of. by rewrite <- list_fmap_compose.
  - intros i _. unfold kv_content. rewrite Sprintf_end by done. simpl.
    rewrite Contains_app_r by apply (Contains_app_l "%d"). by rewrite Sprintf_mid by done.
Qed.

(** A value with no [%d] is the same for every replica. *)
Lemma CreateXmlContentByReplicas_const n k v :
  (0 ≤ n)%Z → no_percent k = true → Contains v "%d" = false →
  CreateXmlContentByReplicas n (k +:+ "%d") v
  = Ret (map (λ i, kv (k +:+ Itoa i) v) (indices n)).
Proof.
  intros Hn Hk Hv. unfold CreateXmlContentByReplicas, CreateKvContentByReplicas.
  rewrite make_slice_ret by done. simpl.
  rewrite (mmap_ret _ (λ i, (k +:+ Itoa i, v))).
  - simpl. unfold pairs_of. by rewrite <- list_fmap_compose.
  - intros i _. unfold kv_content. rewrite Sprintf_end by done. simpl. by rewrite Hv.
Qed.

End with_platform.

(** ** Claims *)

(** C5. [PopulateClusterComponents], run on the fresh table that every caller
    passes, ends for every order in which Go visits the maps of role groups in
    the same table: one entry per role group, with the group's name, replica
    count, configuration and identity, for each of the three roles. It panics
    exactly when some group of some role has no replica count. *)
Theorem populate_cluster_components_spec {P : Platform} {MR : MapRange} instance ci :
  PopulateClusterComponents instance
    (NewClusterComponentsInfo (hc_Name instance) (hc_Namespace instance)
       (ClusterConfig (Spec instance))) ci
  = if decide (instance_replicas_set instance) then Ret (components_of instance ci)
    else Panic "invalid memory address or nil pointer dereference".
Proof. apply populate_components. Qed.

(** C25. After [PopulateClusterComponents], the [int32] sum that
    [GetNameNodeReplicas] and [GetJournalNodeReplicas] make over the table is
    the replica count of the one group of that name, without overflow, and 0
    when the role has no such group: the sum is not over all groups. *)
Theorem replicas_of_group {P : Platform} {MR : MapRange} instance ci c g :
  replicas_int32 (NameNode (Spec instance)) →
  replicas_int32 (JournalNode (Spec instance)) →
  PopulateClusterComponents instance
    (NewClusterComponentsInfo (hc_Name instance) (hc_Namespace instance)
       (ClusterConfig (Spec instance))) ci = Ret c →
  GetNameNodeReplicas c g = default 0%Z (groups_of (NameNode (Spec instance)) !! g ≫= Replicas) ∧
  GetJournalNodeReplicas c g
  = default 0%Z (groups_of (JournalNode (Spec instance)) !! g ≫= Replicas).
Proof.
  intros Hnn Hjn Hc. rewrite populate_components in Hc.
  case_decide; simplify_eq/=. unfold GetNameNodeReplicas, GetJournalNodeReplicas. simpl.
  split; by apply total_replicas_table.
Qed.

(** [CreatePodNamesByReplicas] gives one name per replica, pairwise
    distinct, the i-th being the stateful set's name, a dash and [i]; a
    negative count panics (the resource definition sets no minimum). *)
Theorem pod_names_distinct replicas name :
  if decide (replicas < 0)%Z
  then CreatePodNamesByReplicas replicas name = Panic "makeslice: len out of range"
  else ∃ pods, CreatePodNamesByReplicas replicas name = Ret pods ∧
       length pods = Z.to_nat replicas ∧ NoDup pods ∧
       ∀ i, (i < Z.to_nat replicas)%nat → pods !! i = Some (name +:+ "-" +:+ Itoa (Z.of_nat i)).
Proof.
  unfold CreatePodNamesByReplicas. case_decide as H.
  - by rewrite make_slice_panic.
  - rewrite make_slice_ret by lia. eexists. split; [done|]. repeat split.
    + by rewrite length_fmap, length_indices.
    + apply NoDup_fmap_2; [intros i j; apply pod_name_inj|apply NoDup_indices].
    + intros i Hi. unfold indices. rewrite !list_lookup_fmap, lookup_seq_lt by lia. done.
Qed.

Lemma replicas_of_group_witness :
  let P := sample_platform in
  let MR := sorted_range in
  let c := components_of (sample_instance None) sample_cluster_info in
  GetNameNodeReplicas c "default" = 2%Z ∧ GetJournalNodeReplicas c "default" = 3%Z.
Proof.
  intros P MR c.
  destruct (replicas_of_group (sample_instance None) sample_cluster_info c "default")
    as [H1 H2].
  - apply map_Forall_singleton. vm_compute. split; discriminate.
  - apply map_Forall_singleton. vm_compute. split; discriminate.
  - rewrite populate_components, decide_True; [done|].
    repeat split; apply map_Forall_singleton; by eexists.
  - split; [rewrite H1|rewrite H2]; vm_compute; reflexivity.
Defined.
