(* ===== verification/HdfsConf.v ===== *)
(** * The configuration files: [internal/common/hdfs_conf.go]

    The generators of [core-site.xml] and [hdfs-site.xml], with the list of
    properties each collects threaded through its methods, and the contents of
    the other files of the config map. A document is read back by the XML
    reader of [GoXml]: the theorems say which properties Hadoop finds in it. *)

From S2P Require Import Prelude GoStd GoXml XmlUtil Api Util Security Components.

Section with_platform.
Context {P : Platform} {MR : MapRange}.

(** ** core-site.xml *)

Definition xml_decl_line : string := "<?xml version=" +:+ quoted "1.0" +:+ "?>".

(** [fmt.Sprintf(coreSiteTemplate, name)]. *)
Definition coreSiteTemplate (name : string) : string :=
  lines [ xml_decl_line;
          "<configuration>";
          "  <property>";
          "    <name>fs.defaultFS</name>";
          "    <value>hdfs://" +:+ name +:+ "/</value>";
          "  </property>";
          "</configuration>" ].

Definition emptyXmlConfig : string :=
  lines [ xml_decl_line; "<configuration>"; "</configuration>" ].

Record CoreSiteXmlGenerator := {
  cs_InstanceName : string;
  IsDiscovery : bool;
  cs_properties : list XmlNameValuePair;
}.

Definition cs_append (c : CoreSiteXmlGenerator) (ps : list XmlNameValuePair)
    : CoreSiteXmlGenerator :=
  {| cs_InstanceName := cs_InstanceName c; IsDiscovery := IsDiscovery c;
     cs_properties := cs_properties c ++ ps |}.

Definition CoreSite_Generate (c : CoreSiteXmlGenerator) : outcome string :=
  let xml := coreSiteTemplate (cs_InstanceName c) in
  if decide (length (cs_properties c) ≠ 0) then Append xml (cs_properties c) else Ret xml.

Definition HaZookeeperQuorum (c : CoreSiteXmlGenerator) : CoreSiteXmlGenerator :=
  cs_append c [kv "ha.zookeeper.quorum" "${env.ZOOKEEPER}"].

Definition EnableKerberos (c : CoreSiteXmlGenerator) (clusterConfig : ClusterConfigSpec)
    (ns : string) : CoreSiteXmlGenerator :=
  if IsKerberosEnabled clusterConfig then
    if IsDiscovery c then cs_append c (SecurityDiscoveryCoreSiteXml (cs_InstanceName c) ns)
    else cs_append c (SecurityCoreSiteXml (cs_InstanceName c) ns)
  else c.

(** ** hdfs-site.xml *)

Record NameNodeHdfsSiteXmlGenerator := {
  NameNodeReplicas : Z;
  g_InstanceName : string;
  GroupName : string;
  NameSpace : string;
  g_ClusterDomain : string;
  hdfsReplication : Z;
  clusterConfig : ClusterConfigSpec;
  clusterComponentInfo : ClusterComponentsInfo;
  g_properties : list XmlNameValuePair;
}.

Definition NewNameNodeHdfsSiteXmlGenerator (instanceName groupName : string)
    (nameNodeReplicas : Z) (nameSpace : string) (cfg : ClusterConfigSpec)
    (clusterDomain : string) (replication : Z) (info : ClusterComponentsInfo)
    : NameNodeHdfsSiteXmlGenerator :=
  {| NameNodeReplicas := nameNodeReplicas;
     g_InstanceName := instanceName;
     GroupName := groupName;
     NameSpace := nameSpace;
     g_ClusterDomain := clusterDomain;
     hdfsReplication := replication;
     clusterConfig := cfg;
     clusterComponentInfo := info;
     g_properties := [] |}.

Definition g_append (c : NameNodeHdfsSiteXmlGenerator) (ps : list XmlNameValuePair)
    : NameNodeHdfsSiteXmlGenerator :=
  {| NameNodeReplicas := NameNodeReplicas c; g_InstanceName := g_InstanceName c;
     GroupName := GroupName c; NameSpace := NameSpace c; g_ClusterDomain := g_ClusterDomain c;
     hdfsReplication := hdfsReplication c; clusterConfig := clusterConfig c;
     clusterComponentInfo := clusterComponentInfo c;
     g_properties := g_properties c ++ ps |}.

Definition makeServiceId (c : NameNodeHdfsSiteXmlGenerator) : list XmlNameValuePair :=
  [ kv "dfs.nameservices" (g_InstanceName c);
    kv ("dfs.client.failover.proxy.provider." +:+ g_InstanceName c)
       "org.apache.hadoop.hdfs.server.namenode.ha.ConfiguredFailoverProxyProvider" ].

Definition makeHdfsReplication (c : NameNodeHdfsSiteXmlGenerator) : XmlNameValuePair :=
  kv "dfs.replication" (Itoa (hdfsReplication c)).

(** [c.clusterComponentInfo.NameNode[c.GroupName].RoleGroupInfo.GetFullName()]:
    a group that the table lacks is a nil pointer. *)
Definition nameNodeFullName (c : NameNodeHdfsSiteXmlGenerator) : outcome string :=
  info ← deref (cci_NameNode (clusterComponentInfo c) !! GroupName c);
  full_name info.

Definition makeNamenodeSharedEditDir (c : NameNodeHdfsSiteXmlGenerator)
    : outcome XmlNameValuePair :=
  journalUrls ← GetJournalNodeServicesForSharedEdits (clusterComponentInfo c);
  Ret (kv "dfs.namenode.shared.edits.dir" (CreateJournalUrl journalUrls (g_InstanceName c))).

Definition makeRoleNodeDataDir : list XmlNameValuePair :=
  [ kv "dfs.journalnode.edits.dir" JournalNodeRootDataDir;
    kv "dfs.namenode.name.dir" NameNodeRootDataDir ].

Definition makeNameNodeHosts (c : NameNodeHdfsSiteXmlGenerator) : outcome XmlNameValuePair :=
  nameNodeStatefulSetName ← nameNodeFullName c;
  pods ← CreatePodNamesByReplicas (NameNodeReplicas c) nameNodeStatefulSetName;
  Ret (kv ("dfs.ha.namenodes." +:+ g_InstanceName c) (Join pods ",")).

Definition makeNameNodeHttp (c : NameNodeHdfsSiteXmlGenerator)
    : outcome (list XmlNameValuePair) :=
  statefulSetName ← nameNodeFullName c;
  svc ← nameNodeFullName c;
  let '(dnsDomain, keyTemplate) :=
    DfsNameNodeHttpAddressHa (clusterConfig c) (g_InstanceName c) statefulSetName svc
      (NameSpace c) in
  let valueTemplate := statefulSetName +:+ "-%d." +:+ dnsDomain in
  CreateXmlContentByReplicas (NameNodeReplicas c) keyTemplate valueTemplate.

Definition makeNameNodeRpc (c : NameNodeHdfsSiteXmlGenerator)
    : outcome (list XmlNameValuePair) :=
  statefulSetName ← nameNodeFullName c;
  svc ← nameNodeFullName c;
  let dnsDomain := CreateDnsDomain svc (NameSpace c) (g_ClusterDomain c) NameNodeRpcPort in
  let keyTemplate :=
    "dfs.namenode.rpc-address." +:+ g_InstanceName c +:+ "." +:+ statefulSetName +:+ "-%d" in
  let valueTemplate := statefulSetName +:+ "-%d." +:+ dnsDomain in
  CreateXmlContentByReplicas (NameNodeReplicas c) keyTemplate valueTemplate.

Definition makeNameNodeNameDir (c : NameNodeHdfsSiteXmlGenerator)
    : outcome (list XmlNameValuePair) :=
  statefulSetName ← nameNodeFullName c;
  let keyTemplate :=
    "dfs.namenode.name.dir." +:+ g_InstanceName c +:+ "." +:+ statefulSetName +:+ "-%d" in
  let valueTemplate := NameNodeRootDataDir in
  CreateXmlContentByReplicas (NameNodeReplicas c) keyTemplate valueTemplate.

Definition hdfsSiteTemplate : string :=
  lines [ xml_decl_line;
          "<configuration>";
          "  <property>";
          "    <name>dfs.datanode.registered.hostname</name>";
          "    <value>${env.POD_ADDRESS}</value>";
          "  </property>";
          "  <property>";
          "    <name>dfs.datanode.registered.ipc.port</name>";
          "    <value>${env.IPC_PORT}</value>";
          "  </property>";
          "  <property>";
          "    <name>dfs.datanode.registered.port</name>";
          "    <value>${env.DATA_PORT}</value>";
          "  </property>";
          "  <property>";
          "    <name>dfs.ha.automatic-failover.enabled</name>";
          "    <value>true</value>";
          "  </property>";
          "  <property>";
          "    <name>dfs.ha.fencing.methods</name>";
          "    <value>shell(/bin/true)</value>";
          "  </property>";
          "  <property>";
          "    <name>dfs.ha.namenode.id</name>";
          "    <value>${env.POD_NAME}</value>";
          "  </property>";
          "  <property>";
          "    <name>dfs.namenode.datanode.registration.unsafe.allow-address-override</name>";
          "    <value>true</value>";
          "  </property>";
          "</configuration>";
          "" ].

(** [Generate] changes the list of the receiver; a second call on the same
    generator would start from it. *)
Definition NameNode_Generate (c : NameNodeHdfsSiteXmlGenerator)
    : outcome (NameNodeHdfsSiteXmlGenerator * string) :=
  let c := g_append c (makeServiceId c) in
  let c := g_append c [makeHdfsReplication c] in
  hosts ← makeNameNodeHosts c; let c := g_append c [hosts] in
  http ← makeNameNodeHttp c; let c := g_append c http in
  rpc ← makeNameNodeRpc c; let c := g_append c rpc in
  nameDir ← makeNameNodeNameDir c; let c := g_append c nameDir in
  edits ← makeNamenodeSharedEditDir c; let c := g_append c [edits] in
  let c := g_append c makeRoleNodeDataDir in
  s ← Append hdfsSiteTemplate (g_properties c);
  Ret (c, s).

Definition EnablerKerberos (c : NameNodeHdfsSiteXmlGenerator) (cfg : ClusterConfigSpec)
    : NameNodeHdfsSiteXmlGenerator :=
  if IsKerberosEnabled cfg then g_append c SecurityHdfsSiteXml else c.

Definition EnableHttps (c : NameNodeHdfsSiteXmlGenerator) : NameNodeHdfsSiteXmlGenerator :=
  g_append c (TlsHdfsSiteXml (clusterConfig c)).

Record DataNodeHdfsSiteXmlGenerator := {
  dn_NameNodeHdfsSiteXmlGenerator : NameNodeHdfsSiteXmlGenerator;
  DataNodeConfig : gmap string string;
}.

Definition NewDataNodeHdfsSiteXmlGenerator (instance : HdfsCluster) (groupName : string)
    (dataNodeConfig : gmap string string) (info : ClusterComponentsInfo)
    : outcome DataNodeHdfsSiteXmlGenerator :=
  let nameNodeReplicas := GetNameNodeReplicas info groupName in
  clusterSpec ← deref (ClusterConfig (Spec instance));
  Ret {| dn_NameNodeHdfsSiteXmlGenerator :=
           NewNameNodeHdfsSiteXmlGenerator (hc_Name instance) groupName nameNodeReplicas
             (hc_Namespace instance) clusterSpec (ClusterDomain clusterSpec)
             (DfsReplication clusterSpec) info;
         DataNodeConfig := dataNodeConfig |}.

Definition DataNode_Generate (c : DataNodeHdfsSiteXmlGenerator) : outcome string :=
  r ← NameNode_Generate (dn_NameNodeHdfsSiteXmlGenerator c);
  AppendXmlContent r.2 (DataNodeConfig c).

(** ** The other files *)

Definition MakeHadoopPolicyData : string := emptyXmlConfig.

Definition MakeSecurityPropertiesData : string :=
  lines [ "networkaddress.cache.negative.ttl=0"; "networkaddress.cache.ttl=30" ].

Definition pkcs12StoreType := "pkcs12".

(** A non-nil error is thrown as a panic. *)
Definition must_marshal (m : gmap string string) : outcome string :=
  match XMLMarshal m with
  | Err (EMsg e) => Panic e
  | Err (ENotFound e) => Panic e
  | o => o
  end.

(** [clusterSpec.Authentication.Tls.JksPassword]. *)
Definition jks_password (clusterSpec : ClusterConfigSpec) : outcome string :=
  a ← deref (Authentication clusterSpec);
  t ← deref (Tls a);
  Ret (JksPassword t).

Definition MakeSslClientData (clusterSpec : ClusterConfigSpec) : outcome string :=
  if IsTlsEnabled clusterSpec then
    jksPasswd ← jks_password clusterSpec;
    must_marshal
      (<["ssl.client.truststore.location" := path_Join [KubedoopTlsDir; "truststore.p12"]]>
      (<["ssl.client.truststore.type" := pkcs12StoreType]>
      {["ssl.client.truststore.password" := jksPasswd]}))
  else Ret emptyXmlConfig.

Definition MakeSslServerData (clusterSpec : ClusterConfigSpec) : outcome string :=
  if IsTlsEnabled clusterSpec then
    jksPasswd ← jks_password clusterSpec;
    must_marshal
      (<["ssl.server.truststore.location" := path_Join [KubedoopTlsDir; "truststore.p12"]]>
      (<["ssl.server.truststore.type" := pkcs12StoreType]>
      (<["ssl.server.truststore.password" := jksPasswd]>
      (<["ssl.server.keystore.location" := path_Join [KubedoopTlsDir; "keystore.p12"]]>
      (<["ssl.server.keystore.type" := pkcs12StoreType]>
      {["ssl.server.keystore.password" := jksPasswd]})))))
  else Ret emptyXmlConfig.

Definition log4jProperties : string :=
  lines [ "log4j.rootLogger=INFO, CONSOLE, FILE";
          "";
          "log4j.appender.CONSOLE=org.apache.log4j.ConsoleAppender";
          "log4j.appender.CONSOLE.Threshold=DEBUG";
          "log4j.appender.CONSOLE.layout=org.apache.log4j.PatternLayout";
          "log4j.appender.CONSOLE.layout.ConversionPattern=%d{ISO8601} %-5p %c{2} (%F:%M(%L)) - %m%n";
          "";
          "log4j.appender.FILE=org.apache.log4j.RollingFileAppender";
          "log4j.appender.FILE.Threshold=INFO";
          "log4j.appender.FILE.MaxFileSize=5MB";
          "log4j.appender.FILE.MaxBackupIndex=1";
          "log4j.appender.FILE.layout=org.apache.log4j.xml.XMLLayout";
          "log4j.appender.FILE.layout.ConversionPattern=%d{ISO8601} %-5p %c{2} (%F:%M(%L)) - %m%n";
          "" ].

Definition MakeLog4jPropertiesData (containerComponent : ContainerComponent) : string :=
  let fileLocation := "log4j.appender.FILE.File=" +:+ KubedoopLogDir +:+ "/" +:+
    containerComponent +:+ "/" +:+ containerComponent +:+ ".log4j.xml" in
  log4jProperties +:+ String nl "" +:+ fileLocation.

Definition CreateComponentLog4jPropertiesName (component : ContainerComponent) : string :=
  component +:+ ".log4j.properties".

(** ** User overrides of the files of a config map *)

Definition override_xml (file : string) (data : gmap string string)
    (override : option (gmap string string)) : outcome (gmap string string) :=
  match override with
  | None => Ret data
  | Some o => s ← AppendXmlContent (default "" (data !! file)) o; Ret (<[file := s]> data)
  end.

Definition override_properties (file : string) (data : gmap string string)
    (override : option (gmap string string)) : gmap string string :=
  match override with
  | None => data
  | Some o =>
      <[file := OverrideConfigFileContent (default "" (data !! file))
                  (MakePropertiesFileContent o)]> data
  end.

(** The data of the config map, a map that was made, before and after. *)
Definition OverrideConfigurations (data : gmap string string)
    (overrides : option ConfigOverridesSpec) : outcome (gmap string string) :=
  match overrides with
  | None => Ret data
  | Some o =>
      data ← override_xml CoreSiteFileName data (CoreSite o);
      data ← override_xml HdfsSiteFileName data (HdfsSite o);
      data ← override_xml HadoopPolicyFileName data (HadoopPolicy o);
      let data := override_properties SecurityFileName data (Security o) in
      data ← override_xml SslClientFileName data (SslClient o);
      override_xml SslServerFileName data (SslServer o)
  end.

(** ** What the templates hold *)

Definition hdfs_site_base : list XmlNameValuePair :=
  [ kv "dfs.datanode.registered.hostname" "${env.POD_ADDRESS}";
    kv "dfs.datanode.registered.ipc.port" "${env.IPC_PORT}";
    kv "dfs.datanode.registered.port" "${env.DATA_PORT}";
    kv "dfs.ha.automatic-failover.enabled" "true";
    kv "dfs.ha.fencing.methods" "shell(/bin/true)";
    kv "dfs.ha.namenode.id" "${env.POD_NAME}";
    kv "dfs.namenode.datanode.registration.unsafe.allow-address-override" "true" ].

Lemma hdfsSiteTemplate_read : Unmarshal hdfsSiteTemplate = Ret hdfs_site_base.
Proof. vm_compute. reflexivity. Qed.

Definition core_site_base (name : string) : list XmlNameValuePair :=
  [ kv "fs.defaultFS" ("hdfs://" +:+ name +:+ "/") ].

Lemma coreSiteTemplate_doc name :
  safe name → coreSiteTemplate name = xml_head_plain +:+ Encode (core_site_base name).
Proof.
  intros H. unfold core_site_base, Encode, encode_pairs, encode_pair, foldr, kv, Name, Value.
  rewrite !EscapeText_safe by auto with safe.
  unfold coreSiteTemplate, lines, Join, xml_head_plain, xml_decl_line, xml_decl, quoted, line.
  simpl. rewrite !append_assoc. reflexivity.
Qed.

Lemma xml_pair_kv n v : xml_text n → xml_text v → xml_pair (kv n v).
Proof. by split. Qed.

Lemma coreSiteTemplate_read name :
  safe name → Unmarshal (coreSiteTemplate name) = Ret (core_site_base name).
Proof.
  intros H. rewrite coreSiteTemplate_doc by done. apply unmarshal_doc_plain.
  repeat constructor; apply safe_xml_text; simpl; auto with safe.
Qed.

(** ** The properties a site file must have *)

(** The key of the web address of a name node. *)
Definition http_key (cfg : ClusterConfigSpec) : string :=
  if IsTlsEnabled cfg then "dfs.namenode.https-address." else "dfs.namenode.http-address.".

Definition http_port (cfg : ClusterConfigSpec) : Z :=
  if IsTlsEnabled cfg then NameNodeHttpsPort else NameNodeHttpPort.

(** One property per name node, keyed by the name service and the pod. *)
Definition per_pod (key inst ss : string) (value : string → string) (n : Z)
    : list XmlNameValuePair :=
  map (λ i, kv (key +:+ inst +:+ "." +:+ pod_name ss i) (value (pod_name ss i))) (indices n).

(** The stable address of a pod behind its headless service. *)
Definition pod_address (ss ns domain : string) (port : Z) (pod : string) : string :=
  pod +:+ "." +:+ CreateDnsDomain ss ns domain port.

(** The high-availability settings of [n] name nodes of the stateful set [ss]
    with the journal services [journals]. *)
Definition ha_properties (cfg : ClusterConfigSpec) (inst ns domain ss : string)
    (replication n : Z) (journals : list string) : list XmlNameValuePair :=
  [ kv "dfs.nameservices" inst;
    kv ("dfs.client.failover.proxy.provider." +:+ inst)
       "org.apache.hadoop.hdfs.server.namenode.ha.ConfiguredFailoverProxyProvider";
    kv "dfs.replication" (Itoa replication);
    kv ("dfs.ha.namenodes." +:+ inst) (Join (map (pod_name ss) (indices n)) ",") ]
  ++ per_pod (http_key cfg) inst ss (pod_address ss ns (ClusterDomain cfg) (http_port cfg)) n
  ++ per_pod "dfs.namenode.rpc-address." inst ss (pod_address ss ns domain NameNodeRpcPort) n
  ++ per_pod "dfs.namenode.name.dir." inst ss (λ _, NameNodeRootDataDir) n
  ++ [ kv "dfs.namenode.shared.edits.dir"
         (CreateJournalUrl (map (λ s, s +:+ ":8485") journals) inst) ]
  ++ makeRoleNodeDataDir.

Definition security_properties (cfg : ClusterConfigSpec) : list XmlNameValuePair :=
  (if IsKerberosEnabled cfg then SecurityHdfsSiteXml else []) ++ TlsHdfsSiteXml cfg.

(** ** The generators collect these properties *)

Lemma per_pod_constant key inst ss v n :
  (0 ≤ n)%Z → safe key → safe inst → safe ss → safe v →
  CreateXmlContentByReplicas n (key +:+ inst +:+ "." +:+ ss +:+ "-%d") v
  = Ret (per_pod key inst ss (λ _, v) n).
Proof.
  intros Hn Hk Hi Hs Hv.
  replace (key +:+ inst +:+ "." +:+ ss +:+ "-%d")
    with ((key +:+ inst +:+ "." +:+ ss +:+ "-") +:+ "%d") by (by rewrite !append_assoc).
  rewrite CreateXmlContentByReplicas_const; auto 10 using no_percent_Contains with safe.
  f_equal. apply map_ext. intros i. unfold pod_name. by rewrite !append_assoc.
Qed.

Lemma per_pod_address key inst ss ns domain port n :
  (0 ≤ n)%Z → (0 ≤ port)%Z → safe key → safe inst → safe ss → safe ns → safe domain →
  CreateXmlContentByReplicas n (key +:+ inst +:+ "." +:+ ss +:+ "-%d")
    (ss +:+ "-%d." +:+ CreateDnsDomain ss ns domain port)
  = Ret (per_pod key inst ss (pod_address ss ns domain port) n).
Proof.
  intros Hn Hport Hk Hi Hs Hns Hd.
  replace (key +:+ inst +:+ "." +:+ ss +:+ "-%d")
    with ((key +:+ inst +:+ "." +:+ ss +:+ "-") +:+ "%d") by (by rewrite !append_assoc).
  replace (ss +:+ "-%d." +:+ CreateDnsDomain ss ns domain port)
    with ((ss +:+ "-") +:+ "%d" +:+ "." +:+ CreateDnsDomain ss ns domain port)
    by (by rewrite !append_assoc).
  rewrite CreateXmlContentByReplicas_d; unfold CreateDnsDomain; auto 12 with safe.
  f_equal. apply map_ext. intros i. unfold pod_address, pod_name, CreateDnsDomain.
  by rewrite !append_assoc.
Qed.

(** The paths of the platform that end up in the files. *)
Definition safe_paths : Prop :=
  safe KubedoopDataDir ∧ safe (path_Join [KubedoopKerberosDir; "keytab"]).

(** The facts a generator relies on: its group has an entry in the table, the
    count is not negative, and the names come from Kubernetes. *)
Record generator_ok (c : NameNodeHdfsSiteXmlGenerator) (ss : string) (journals : list string)
    : Prop := {
  ok_group : nameNodeFullName c = Ret ss;
  ok_journals : GetJournalNodeServiceNames (clusterComponentInfo c) = Ret journals;
  ok_replicas : (0 ≤ NameNodeReplicas c)%Z;
  ok_replication : (0 ≤ hdfsReplication c)%Z;
  ok_instance : safe (g_InstanceName c);
  ok_ss : safe ss;
  ok_ns : safe (NameSpace c);
  ok_domain : safe (g_ClusterDomain c);
  ok_cfg_domain : safe (ClusterDomain (clusterConfig c));
  ok_journal_names : Forall safe journals;
  ok_paths : safe_paths;
}.

Lemma makeNameNodeHttp_spec c ss js :
  generator_ok c ss js →
  makeNameNodeHttp c
  = Ret (per_pod (http_key (clusterConfig c)) (g_InstanceName c) ss
           (pod_address ss (NameSpace c) (ClusterDomain (clusterConfig c))
              (http_port (clusterConfig c))) (NameNodeReplicas c)).
Proof.
  intros []. unfold makeNameNodeHttp, DfsNameNodeHttpAddressHa, http_key, http_port.
  rewrite ok_group0. simpl.
  destruct (IsTlsEnabled (clusterConfig c)); rewrite <- per_pod_address; auto with safe; done.
Qed.

Lemma makeNameNodeRpc_spec c ss js :
  generator_ok c ss js →
  makeNameNodeRpc c
  = Ret (per_pod "dfs.namenode.rpc-address." (g_InstanceName c) ss
           (pod_address ss (NameSpace c) (g_ClusterDomain c) NameNodeRpcPort)
           (NameNodeReplicas c)).
Proof.
  intros []. unfold makeNameNodeRpc. rewrite ok_group0. simpl.
  rewrite <- per_pod_address; auto with safe; done.
Qed.

Lemma NameNodeRootDataDir_safe : safe_paths → safe NameNodeRootDataDir.
Proof. intros [H _]. unfold NameNodeRootDataDir. auto with safe. Qed.

Lemma makeNameNodeNameDir_spec c ss js :
  generator_ok c ss js →
  makeNameNodeNameDir c
  = Ret (per_pod "dfs.namenode.name.dir." (g_InstanceName c) ss (λ _, NameNodeRootDataDir)
           (NameNodeReplicas c)).
Proof.
  intros []. unfold makeNameNodeNameDir. rewrite ok_group0. simpl.
  rewrite <- per_pod_constant; auto using NameNodeRootDataDir_safe with safe; done.
Qed.

Lemma makeNameNodeHosts_spec c ss js :
  generator_ok c ss js →
  makeNameNodeHosts c
  = Ret (kv ("dfs.ha.namenodes." +:+ g_InstanceName c)
            (Join (map (pod_name ss) (indices (NameNodeReplicas c))) ",")).
Proof.
  intros []. unfold makeNameNodeHosts, CreatePodNamesByReplicas.
  rewrite ok_group0. simpl. by rewrite make_slice_ret by done.
Qed.

Lemma makeNamenodeSharedEditDir_spec c ss js :
  generator_ok c ss js →
  makeNamenodeSharedEditDir c
  = Ret (kv "dfs.namenode.shared.edits.dir"
           (CreateJournalUrl (map (λ s, s +:+ ":8485") js) (g_InstanceName c))).
Proof.
  intros []. unfold makeNamenodeSharedEditDir, GetJournalNodeServicesForSharedEdits.
  by rewrite ok_journals0.
Qed.

Lemma generator_ok_append c ps ss js : generator_ok c ss js → generator_ok (g_append c ps) ss js.
Proof. intros []. by split. Qed.

Lemma NameNode_Generate_collects c ss js :
  generator_ok c ss js →
  snd <$> NameNode_Generate c
  = Append hdfsSiteTemplate
      (g_properties c
       ++ ha_properties (clusterConfig c) (g_InstanceName c) (NameSpace c) (g_ClusterDomain c) ss
            (hdfsReplication c) (NameNodeReplicas c) js).
Proof.
  intros H. unfold NameNode_Generate.
  erewrite makeNameNodeHosts_spec by eauto using generator_ok_append.
  cbn [mbind outcome_bind].
  erewrite makeNameNodeHttp_spec by eauto 10 using generator_ok_append.
  cbn [mbind outcome_bind].
  erewrite makeNameNodeRpc_spec by eauto 10 using generator_ok_append.
  cbn [mbind outcome_bind].
  erewrite makeNameNodeNameDir_spec by eauto 10 using generator_ok_append.
  cbn [mbind outcome_bind].
  erewrite makeNamenodeSharedEditDir_spec by eauto 10 using generator_ok_append.
  cbn [mbind outcome_bind g_append g_properties clusterConfig g_InstanceName NameSpace
       g_ClusterDomain hdfsReplication NameNodeReplicas].
  unfold ha_properties. rewrite <- !app_assoc.
  match goal with |- context [Append hdfsSiteTemplate ?l] => set (ps := l) end.
  transitivity (Append hdfsSiteTemplate ps); [by destruct (Append hdfsSiteTemplate ps)|].
  done.
Qed.

(** ** No two properties share a name *)

(** The keys that a name service or a pod completes. *)
Definition open_keys : list string :=
  [ "dfs.client.failover.proxy.provider."; "dfs.ha.namenodes.";
    "dfs.namenode.http-address."; "dfs.namenode.https-address.";
    "dfs.namenode.rpc-address."; "dfs.namenode.name.dir." ].

(** The kind of a property: its open key, or its own name. *)
Definition kind_of (n : string) : string := default n (find (HasPrefix n) open_keys).

Lemma NoDup_kinds (bs : list (string * list string)) :
  NoDup bs.*1 →
  Forall (λ b, NoDup b.2 ∧ Forall (λ n, kind_of n = b.1) b.2) bs →
  NoDup (concat bs.*2).
Proof.
  induction bs as [|[k ns] bs IH]; intros Hnd Hall; simpl; [constructor|].
  apply NoDup_cons in Hnd as [Hk Hnd]. apply Forall_cons in Hall as [[Hns Hkind] Hall].
  apply NoDup_app. split; [done|]. split; [|by apply IH].
  intros n Hn Hin. apply Hk.
  apply list_elem_of_In, in_concat in Hin as (ns' & Hns' & Hin).
  apply list_elem_of_In, list_elem_of_fmap in Hns' as ([k' ns''] & -> & Hb).
  rewrite Forall_forall in Hall. rewrite Forall_forall in Hkind. destruct (Hall _ Hb) as [_ Hk']. simpl in *.
  rewrite Forall_forall in Hk'. rewrite <- (Hkind n Hn), (Hk' n) by (by apply list_elem_of_In).
  apply list_elem_of_fmap. by exists (k', ns'').
Qed.

Lemma NoDup_per_pod key inst ss f n : NoDup (Name <$> per_pod key inst ss f n).
Proof.
  unfold per_pod. rewrite <- list_fmap_compose. apply NoDup_fmap_2; [|apply NoDup_indices].
  intros i j H. simpl in H.
  by apply append_inj_l, append_inj_l, append_inj_l, pod_name_inj in H.
Qed.

(** A block of properties of one kind. *)
Definition block (k : string) (ps : list XmlNameValuePair) : string * list string :=
  (k, Name <$> ps).

Lemma block_per_pod key inst ss f n :
  (∀ x, kind_of (key +:+ x) = key) →
  let b := block key (per_pod key inst ss f n) in
  NoDup b.2 ∧ Forall (λ n, kind_of n = b.1) b.2.
Proof.
  intros H. split; [apply NoDup_per_pod|]. simpl.
  apply Forall_forall. intros nm Hn. unfold per_pod in Hn.
  apply list_elem_of_fmap in Hn as (q & -> & Hq).
  apply list_elem_of_fmap in Hq as (i & -> & _). apply H.
Qed.

Lemma block_single k n v : kind_of n = k →
  let b := block k [kv n v] in NoDup b.2 ∧ Forall (λ n, kind_of n = b.1) b.2.
Proof. intros H. split; [apply NoDup_singleton|]. by repeat constructor. Qed.

Definition singles (ps : list XmlNameValuePair) : list (string * list string) :=
  map (λ p, block (Name p) [p]) ps.

Lemma singles_ok ps :
  Forall (λ p, kind_of (Name p) = Name p) ps →
  Forall (λ b, NoDup b.2 ∧ Forall (λ n, kind_of n = b.1) b.2) (singles ps).
Proof.
  induction 1 as [|[n v] ps H _ IH]; constructor; [|done]. by apply (block_single n n v).
Qed.

Definition site_blocks (cfg : ClusterConfigSpec) (inst ns domain ss : string)
    (replication n : Z) (journals : list string) : list (string * list string) :=
  singles (hdfs_site_base ++ security_properties cfg)
  ++ [ block "dfs.nameservices" [kv "dfs.nameservices" inst];
       block "dfs.client.failover.proxy.provider."
         [kv ("dfs.client.failover.proxy.provider." +:+ inst)
            "org.apache.hadoop.hdfs.server.namenode.ha.ConfiguredFailoverProxyProvider"];
       block "dfs.replication" [kv "dfs.replication" (Itoa replication)];
       block "dfs.ha.namenodes."
         [kv ("dfs.ha.namenodes." +:+ inst) (Join (map (pod_name ss) (indices n)) ",")];
       block (http_key cfg) (per_pod (http_key cfg) inst ss
         (pod_address ss ns (ClusterDomain cfg) (http_port cfg)) n);
       block "dfs.namenode.rpc-address." (per_pod "dfs.namenode.rpc-address." inst ss
         (pod_address ss ns domain NameNodeRpcPort) n);
       block "dfs.namenode.name.dir." (per_pod "dfs.namenode.name.dir." inst ss
         (λ _, NameNodeRootDataDir) n) ]
  ++ singles ([ kv "dfs.namenode.shared.edits.dir"
                  (CreateJournalUrl (map (λ s, s +:+ ":8485") journals) inst) ]
              ++ makeRoleNodeDataDir).

Lemma site_blocks_names cfg inst ns domain ss r n js :
  concat (site_blocks cfg inst ns domain ss r n js).*2
  = Name <$> (hdfs_site_base ++ security_properties cfg ++ ha_properties cfg inst ns domain ss r n js).
Proof.
  unfold site_blocks, ha_properties, security_properties.
  rewrite !fmap_app, !concat_app.
  assert (Hs : ∀ ps, concat (singles ps).*2 = Name <$> ps).
  { induction ps as [|p ps IH]; [done|]. simpl. f_equal. exact IH. }
  rewrite !Hs, !fmap_app. simpl. rewrite <- !app_assoc. simpl. done.
Qed.

Lemma site_blocks_ok cfg inst ns domain ss r n js :
  NoDup (site_blocks cfg inst ns domain ss r n js).*1 ∧
  Forall (λ b, NoDup b.2 ∧ Forall (λ n, kind_of n = b.1) b.2)
    (site_blocks cfg inst ns domain ss r n js).
Proof.
  unfold site_blocks, security_properties, TlsHdfsSiteXml, http_key.
  split; destruct (IsKerberosEnabled cfg), (IsTlsEnabled cfg).
  1-4: by apply (bool_decide_eq_true_1 _); vm_compute.
  all: repeat apply Forall_app_2; try (apply singles_ok; repeat constructor).
  all: repeat apply Forall_cons_2; try apply Forall_nil_2.
  all: first [ apply block_single; reflexivity
             | apply block_single; destruct inst; reflexivity
             | apply block_per_pod; intros []; reflexivity ].
Qed.

Lemma site_names_NoDup cfg inst ns domain ss r n js :
  NoDup (Name <$> (hdfs_site_base ++ security_properties cfg
                   ++ ha_properties cfg inst ns domain ss r n js)).
Proof.
  rewrite <- site_blocks_names. destruct (site_blocks_ok cfg inst ns domain ss r n js).
  by apply NoDup_kinds.
Qed.

(** ** The documents *)

Definition safe_pair (p : XmlNameValuePair) : Prop := safe (Name p) ∧ safe (Value p).

#[local] Instance safe_pair_dec p : Decision (safe_pair p).
Proof. unfold safe_pair. apply _. Defined.

Lemma safe_pair_kv n v : safe n → safe v → safe_pair (kv n v).
Proof. by split. Qed.

Lemma safe_pairs_xml ps : Forall safe_pair ps → Forall xml_pair ps.
Proof.
  intros H. eapply Forall_impl; [exact H|]. intros p [Hn Hv]. split; auto with safe.
Qed.

Lemma per_pod_safe key inst ss f n :
  safe key → safe inst → safe ss → (∀ pod, safe pod → safe (f pod)) →
  Forall safe_pair (per_pod key inst ss f n).
Proof.
  intros Hk Hi Hs Hf. apply Forall_forall. intros p Hp.
  apply list_elem_of_fmap in Hp as (i & -> & Hin). apply elem_of_indices in Hin as [Hi0 _].
  unfold pod_name. apply safe_pair_kv; auto 10 with safe.
Qed.

Lemma Forall_safe_map {A} (f : A → string) l : (∀ a, a ∈ l → safe (f a)) → Forall safe (map f l).
Proof.
  intros H. apply Forall_forall. intros s (a & -> & Ha)%list_elem_of_fmap. auto.
Qed.

Lemma pod_address_safe ss ns domain port pod :
  (0 ≤ port)%Z → safe ss → safe ns → safe domain → safe pod →
  safe (pod_address ss ns domain port pod).
Proof. intros. unfold pod_address, CreateDnsDomain. auto 12 with safe. Qed.

Lemma static_site_safe cfg : Forall safe_pair (hdfs_site_base ++ security_properties cfg).
Proof.
  unfold security_properties, TlsHdfsSiteXml.
  destruct (IsKerberosEnabled cfg), (IsTlsEnabled cfg);
    apply (bool_decide_eq_true_1 _); vm_compute; reflexivity.
Qed.

Lemma CreateJournalUrl_safe js inst :
  safe inst → Forall safe js → safe (CreateJournalUrl (map (λ s, s +:+ ":8485") js) inst).
Proof.
  intros Hi Hjs. rewrite Forall_forall in Hjs. unfold CreateJournalUrl.
  assert (safe (Join (map (λ s, s +:+ ":8485") js) ";")).
  { apply Join_safe; [done|]. apply Forall_safe_map. intros s Hs. auto with safe. }
  auto 10 with safe.
Qed.

Lemma ha_properties_safe c ss js :
  generator_ok c ss js →
  Forall safe_pair
    (ha_properties (clusterConfig c) (g_InstanceName c) (NameSpace c) (g_ClusterDomain c) ss
       (hdfsReplication c) (NameNodeReplicas c) js).
Proof.
  intros []. unfold ha_properties.
  assert (safe (Join (map (pod_name ss) (indices (NameNodeReplicas c))) ",")).
  { apply Join_safe; [done|]. apply Forall_safe_map. intros i Hi%elem_of_indices.
    unfold pod_name. auto with safe. }
  assert (safe (http_key (clusterConfig c)))
    by (unfold http_key; destruct (IsTlsEnabled _); auto with safe).
  assert (0 ≤ http_port (clusterConfig c))%Z
    by (unfold http_port; by destruct (IsTlsEnabled _)).
  pose proof (NameNodeRootDataDir_safe ok_paths0). destruct ok_paths0 as [Hd _].
  assert (safe JournalNodeRootDataDir) by (unfold JournalNodeRootDataDir; auto with safe).
  repeat apply Forall_app_2.
  - repeat constructor; simpl; auto with safe.
  - apply per_pod_safe; auto using pod_address_safe.
  - apply per_pod_safe; auto with safe. intros. apply pod_address_safe; done.
  - apply per_pod_safe; auto with safe.
  - repeat constructor; simpl; auto using CreateJournalUrl_safe with safe.
  - repeat constructor; simpl; auto with safe.
Qed.

(** What a generator writes is read back as the base properties, the security
    properties collected before and the high-availability properties. *)
Lemma NameNode_Generate_reads c ss js :
  generator_ok c ss js → g_properties c = security_properties (clusterConfig c) →
  ∃ doc, snd <$> NameNode_Generate c = Ret doc ∧
    Unmarshal doc = Ret (hdfs_site_base ++ security_properties (clusterConfig c)
      ++ ha_properties (clusterConfig c) (g_InstanceName c) (NameSpace c) (g_ClusterDomain c) ss
           (hdfsReplication c) (NameNodeReplicas c) js).
Proof.
  intros Hok Hps. rewrite (NameNode_Generate_collects c ss js Hok), Hps.
  set (ps := security_properties _ ++ ha_properties _ _ _ _ _ _ _ _).
  assert (Hnd : NoDup (Name <$> (hdfs_site_base ++ ps))) by apply site_names_NoDup.
  assert (Hx : Forall xml_pair (hdfs_site_base ++ ps)).
  { apply safe_pairs_xml. unfold ps. rewrite (app_assoc hdfs_site_base).
    apply Forall_app_2; [apply static_site_safe|by apply ha_properties_safe]. }
  rewrite fmap_app in Hnd. apply NoDup_app in Hnd as (H1 & Hdis & H2).
  erewrite Append_merge; [|apply hdfsSiteTemplate_read|done..].
  rewrite merge_disjoint by (rewrite fmap_app; by apply NoDup_app). eexists. split; [done|].
  by apply unmarshal_doc.
Qed.

(** The same for core-site.xml. *)
Lemma CoreSite_Generate_reads c :
  safe (cs_InstanceName c) → Forall safe_pair (cs_properties c) →
  NoDup (Name <$> (core_site_base (cs_InstanceName c) ++ cs_properties c)) →
  ∃ doc, CoreSite_Generate c = Ret doc ∧
    Unmarshal doc = Ret (core_site_base (cs_InstanceName c) ++ cs_properties c).
Proof.
  intros Hi Hps Hnd. pose proof (coreSiteTemplate_read _ Hi) as Hread.
  unfold CoreSite_Generate. destruct (cs_properties c) as [|p ps] eqn:Hc; simpl length.
  - rewrite decide_False by lia. eauto.
  - rewrite decide_True by lia.
    pose proof Hnd as Hnd'. rewrite fmap_app in Hnd'. apply NoDup_app in Hnd' as (H1 & Hdis & H2).
    erewrite Append_merge by done. rewrite merge_disjoint by done. eexists. split; [done|].
    apply unmarshal_doc, safe_pairs_xml, Forall_app_2; [|done].
    repeat constructor; simpl; auto with safe.
Qed.

Lemma SecurityCoreSiteXml_safe inst ns :
  safe_paths → safe inst → safe ns → Forall safe_pair (SecurityCoreSiteXml inst ns).
Proof.
  intros [_ Hkt] Hi Hn. unfold SecurityCoreSiteXml.
  assert (safe (PrincipalHostPart inst ns)) by (unfold PrincipalHostPart; auto 10 with safe).
  repeat constructor; simpl; auto with safe.
Qed.

Lemma SecurityDiscoveryCoreSiteXml_safe inst ns :
  safe inst → safe ns → Forall safe_pair (SecurityDiscoveryCoreSiteXml inst ns).
Proof.
  intros Hi Hn. unfold SecurityDiscoveryCoreSiteXml.
  assert (safe (PrincipalHostPart inst ns)) by (unfold PrincipalHostPart; auto 10 with safe).
  repeat constructor; simpl; auto with safe.
Qed.

(** The [core-site.xml] of the three roles. *)
Definition core_site_properties (cfg : ClusterConfigSpec) (inst ns : string)
    : list XmlNameValuePair :=
  (if IsKerberosEnabled cfg then SecurityCoreSiteXml inst ns else [])
  ++ [kv "ha.zookeeper.quorum" "${env.ZOOKEEPER}"].

Lemma core_site_reads cfg inst ns :
  safe_paths → safe inst → safe ns →
  ∃ doc,
    CoreSite_Generate (HaZookeeperQuorum (EnableKerberos
      {| cs_InstanceName := inst; IsDiscovery := false; cs_properties := [] |} cfg ns)) = Ret doc ∧
    Unmarshal doc = Ret (core_site_base inst ++ core_site_properties cfg inst ns) ∧
    NoDup (Name <$> (core_site_base inst ++ core_site_properties cfg inst ns)).
Proof.
  intros Hp Hi Hn.
  assert (Hnd : NoDup (Name <$> (core_site_base inst ++ core_site_properties cfg inst ns))).
  { unfold core_site_properties. destruct (IsKerberosEnabled cfg);
      apply (bool_decide_eq_true_1 _); vm_compute; reflexivity. }
  set (c := HaZookeeperQuorum _).
  assert (Hc : cs_InstanceName c = inst ∧ cs_properties c = core_site_properties cfg inst ns).
  { unfold c, EnableKerberos, core_site_properties. by destruct (IsKerberosEnabled cfg). }
  destruct Hc as [Hci Hcp].
  destruct (CoreSite_Generate_reads c) as (doc & Hg & Hr).
  - by rewrite Hci.
  - rewrite Hcp. unfold core_site_properties. apply Forall_app_2.
    + destruct (IsKerberosEnabled cfg); [by apply SecurityCoreSiteXml_safe|constructor].
    + by repeat constructor.
  - by rewrite Hci, Hcp.
  - rewrite Hci, Hcp in Hr. eauto.
Qed.

End with_platform.
