(* ===== verification/ConfigMaps.v ===== *)
(** * The config maps of the roles

    [internal/common/configmap.go] and [vector.go], and the role builders
    [internal/controller/{name,data,journal}/configmap.go]: which files the
    config map of a role group holds and what is in them. The builder of
    operator-go that the common builder embeds is the interface
    [ConfigMapOps], with the laws its client relies on in [ConfigMapLaws]. *)

From S2P Require Import Prelude GoStd GoXml XmlUtil Api Util Security Components HdfsConf.

(** ** The embedded builder of operator-go *)

Record ConfigMap := {
  cm_Name : string;
  cm_Labels : gmap string string;
  cm_Annotations : gmap string string;
  cm_Data : gmap string string;
}.

Class ConfigMapOps := {
  cm_builder : Type;
  new_cm_builder : string → gmap string string → gmap string string → cm_builder;
  AddItem : string → string → cm_builder → cm_builder;
  GetObject : cm_builder → ConfigMap;
}.

(** [AddItem] sets a key of the data and nothing else. *)
Class ConfigMapLaws (O : ConfigMapOps) : Prop := {
  get_new : ∀ name labels annotations,
    GetObject (new_cm_builder name labels annotations)
    = {| cm_Name := name; cm_Labels := labels; cm_Annotations := annotations; cm_Data := ∅ |};
  get_add : ∀ k v b,
    let o := GetObject b in
    GetObject (AddItem k v b)
    = {| cm_Name := cm_Name o; cm_Labels := cm_Labels o; cm_Annotations := cm_Annotations o;
         cm_Data := <[k := v]> (cm_Data o) |};
}.

(** An implementation, for evaluation. *)
Definition sample_cm_ops : ConfigMapOps := {|
  cm_builder := ConfigMap;
  new_cm_builder n l a := {| cm_Name := n; cm_Labels := l; cm_Annotations := a; cm_Data := ∅ |};
  AddItem k v o :=
    {| cm_Name := cm_Name o; cm_Labels := cm_Labels o; cm_Annotations := cm_Annotations o;
       cm_Data := <[k := v]> (cm_Data o) |};
  GetObject o := o;
|}.

#[export] Instance sample_cm_laws : ConfigMapLaws sample_cm_ops.
Proof. by split. Qed.

Section with_platform.
Context {P : Platform} {MR : MapRange} {O : ConfigMapOps}.

(** ** vector.go *)

Definition IsVectorEnable (roleLoggingConfig : option LoggingSpec) : outcome bool :=
  match roleLoggingConfig with
  | None => Ret false
  | Some l => deref (EnableVectorAgent l)
  end.

Record VectorConfigParams := {
  vp_ClusterConfig : ClusterConfigSpec;
  vp_Namespace : string;
  vp_InstanceName : string;
  vp_Role : string;
  vp_GroupName : string;
}.

Definition generateVectorYAML (params : VectorConfigParams) : outcome string :=
  let aggregatorConfigMapName := VectorAggregatorConfigMapName (vp_ClusterConfig params) in
  if decide (aggregatorConfigMapName = "")
  then Err (EMsg "vectorAggregatorConfigMapName is not set")
  else MakeVectorYaml (vp_Namespace params) (vp_InstanceName params) (vp_Role params)
         (vp_GroupName params) aggregatorConfigMapName.

(** An error is logged and the data left as it is. *)
Definition ExtendConfigMapByVector (params : VectorConfigParams) (data : gmap string string)
    : outcome (gmap string string) :=
  match generateVectorYAML params with
  | Err _ => Ret data
  | Ret vectorYaml => Ret (<[VectorConfigFileName := vectorYaml]> data)
  | Panic w => Panic w
  | Beyond w => Beyond w
  end.

(** ** configmap.go *)

(** The interface [ConfigMapComponentBuilder]; a nil map of overrides is
    [None]. *)
Record ConfigMapComponentBuilder := {
  BuildConfig : outcome (gmap string string);
  GetConfigOverrides : option (gmap string (gmap string string));
}.

Record ConfigMapBuilder := {
  b_builder : cm_builder;
  b_clusterName : string;
  b_roleGroupInfo : RoleGroupInfo;
  b_overrides : option OverridesSpec;
  b_roleConfig : option ConfigSpec;
  b_component : ConfigMapComponentBuilder;
  b_vectorAggregatorConfigMapName : string;
}.

Definition GetVectorConfigMapName (cluster : option HdfsCluster) : string :=
  match cluster with
  | None => ""
  | Some c =>
      match ClusterConfig (Spec c) with
      | Some cfg =>
          if decide (VectorAggregatorConfigMapName cfg = "") then ""
          else VectorAggregatorConfigMapName cfg
      | None => ""
      end
  end.

Definition NewConfigMapBuilder (roleGroupInfo : RoleGroupInfo) (overrides : option OverridesSpec)
    (configSpec : option ConfigSpec) (hdfsCluster : HdfsCluster)
    (component : ConfigMapComponentBuilder) : ConfigMapBuilder :=
  {| b_builder := new_cm_builder (GetFullName roleGroupInfo) (GetLabels roleGroupInfo)
                    (GetAnnotations roleGroupInfo);
     b_clusterName := ClusterName (rg_ClusterInfo roleGroupInfo);
     b_roleGroupInfo := roleGroupInfo;
     b_overrides := overrides;
     b_roleConfig := configSpec;
     b_component := component;
     b_vectorAggregatorConfigMapName := GetVectorConfigMapName (Some hdfsCluster) |}.

(** The two loops bind a key and a value and do nothing with them. *)
Definition applyComponentOverrides (b : cm_builder) (overrides : gmap string (gmap string string))
    : cm_builder :=
  let visit file b :=
    match overrides !! file with
    | Some o => foldl (λ b _, b) b (range o)
    | None => b
    end in
  visit HdfsSiteFileName (visit CoreSiteFileName b).

(** [namespace] is [b.client.GetOwnerNamespace()]. *)
Definition buildVectorConfig (namespace : string) (b : ConfigMapBuilder) : outcome string :=
  match b_roleConfig b with
  | None => Ret ""
  | Some rc =>
      rg ← deref (cs_RoleGroupConfigSpec rc);
      match Logging rg with
      | Some {| EnableVectorAgent := Some enabled |} =>
          if decide (b_vectorAggregatorConfigMapName b = "")
          then Err (EMsg "vector is enabled but vectorAggregatorConfigMapName is not set")
          else if enabled
          then MakeVectorYaml namespace (b_clusterName b)
                 (RoleName (rg_RoleInfo (b_roleGroupInfo b)))
                 (RoleGroupName (b_roleGroupInfo b)) (b_vectorAggregatorConfigMapName b)
          else Ret ""
      | _ => Ret ""
      end
  end.

(** The loop over the files of the component. *)
Definition add_items (configs : gmap string string) (b : cm_builder) : cm_builder :=
  foldl (λ b kv, AddItem kv.1 kv.2 b) b (range configs).

(** The loop over the overrides: only a key equal to the file's name counts. *)
Definition add_file_overrides (overrides : gmap string (gmap string string)) (b : cm_builder)
    : cm_builder :=
  foldl (λ b kv, match kv.2 !! kv.1 with Some content => AddItem kv.1 content b | None => b end)
    b (range overrides).

Definition Build (namespace : string) (b : ConfigMapBuilder) : outcome ConfigMap :=
  configs ← BuildConfig (b_component b);
  let cm := add_items configs (b_builder b) in
  let cm := match b_overrides b with
            | Some o => add_file_overrides (ConfigOverrides o) cm
            | None => cm
            end in
  let cm := match GetConfigOverrides (b_component b) with
            | Some componentOverrides => applyComponentOverrides cm componentOverrides
            | None => cm
            end in
  match b_roleConfig b with
  | None => Ret (GetObject cm)
  | Some rc =>
      rg ← deref (cs_RoleGroupConfigSpec rc);
      isEnabled ← IsVectorEnable (Logging rg);
      if isEnabled : bool then
        vectorConfig ← buildVectorConfig namespace b;
        if decide (vectorConfig = "") then Ret (GetObject cm)
        else Ret (GetObject (AddItem VectorConfigFileName vectorConfig cm))
      else Ret (GetObject cm)
  end.

(** ** The builders of the roles *)

(** [makeCoreSiteData], the same in the three roles. *)
Definition makeCoreSiteData (instance : HdfsCluster) : outcome string :=
  cfg ← deref (ClusterConfig (Spec instance));
  CoreSite_Generate (HaZookeeperQuorum (EnableKerberos
    {| cs_InstanceName := hc_Name instance; IsDiscovery := false; cs_properties := [] |}
    cfg (hc_Namespace instance))).

(** [generator.EnablerKerberos(clusterSpec).EnableHttps().Generate()]. *)
Definition generate_site (clusterSpec : ClusterConfigSpec) (c : NameNodeHdfsSiteXmlGenerator)
    : outcome string :=
  r ← NameNode_Generate (EnableHttps (EnablerKerberos c clusterSpec));
  Ret r.2.

Definition name_makeHdfsSiteData (instance : HdfsCluster) (groupName : string)
    (replicas : option Z) (info : ClusterComponentsInfo) : outcome string :=
  clusterSpec ← deref (ClusterConfig (Spec instance));
  replicas ← deref replicas;
  generate_site clusterSpec
    (NewNameNodeHdfsSiteXmlGenerator (hc_Name instance) groupName replicas (hc_Namespace instance)
       clusterSpec (ClusterDomain clusterSpec) (DfsReplication clusterSpec) info).

(** [getNameNodeReplicas] of the journal node's builder. *)
Definition getNameNodeReplicas (info : ClusterComponentsInfo) (groupName : string) : outcome Z :=
  c ← deref (cci_NameNode info !! groupName);
  Ret (ci_Replicas c).

Definition journal_makeHdfsSiteData (instance : HdfsCluster) (groupName : string)
    (info : ClusterComponentsInfo) : outcome string :=
  replicas ← getNameNodeReplicas info groupName;
  clusterSpec ← deref (ClusterConfig (Spec instance));
  generate_site clusterSpec
    (NewNameNodeHdfsSiteXmlGenerator (hc_Name instance) groupName replicas (hc_Namespace instance)
       clusterSpec (ClusterDomain clusterSpec) (DfsReplication clusterSpec) info).

Definition dataNodeConfig : gmap string string :=
  {[ "dfs.datanode.data.dir" :=
       "[DISK]" +:+ KubedoopDataDir +:+ "/" +:+ DataVolumeMountName +:+ "/" +:+ DataNodeRole ]}.

(** [EnablerKerberos] is promoted from the embedded generator and returns a
    pointer to that one: the chain ends in its [Generate]. *)
Definition data_makeHdfsSiteData (instance : HdfsCluster) (groupName : string)
    (info : ClusterComponentsInfo) : outcome string :=
  clusterSpec ← deref (ClusterConfig (Spec instance));
  generator ← NewDataNodeHdfsSiteXmlGenerator instance groupName dataNodeConfig info;
  generate_site clusterSpec (dn_NameNodeHdfsSiteXmlGenerator generator).

Definition log4j_files (components : list ContainerComponent) : gmap string string :=
  list_to_map (map (λ c, (CreateComponentLog4jPropertiesName c, MakeLog4jPropertiesData c))
                 components).

(** The map literal of the three [BuildConfig] methods, which differ in the
    site file and in the log files. *)
Definition config_files (instance : HdfsCluster) (hdfsSite : outcome string)
    (components : list ContainerComponent) : outcome (gmap string string) :=
  coreSite ← makeCoreSiteData instance;
  hdfsSite ← hdfsSite;
  cfg ← deref (ClusterConfig (Spec instance));
  sslClient ← MakeSslClientData cfg;
  sslServer ← MakeSslServerData cfg;
  Ret (<[CoreSiteFileName := coreSite]>
      (<[HdfsSiteFileName := hdfsSite]>
      (<[HadoopPolicyFileName := MakeHadoopPolicyData]>
      (<[SecurityFileName := MakeSecurityPropertiesData]>
      (<[SslClientFileName := sslClient]>
      (<[SslServerFileName := sslServer]>
      (log4j_files components))))))).

Definition name_component (instance : HdfsCluster) (roleGroupInfo : RoleGroupInfo)
    (replicas : option Z) (overrides : option OverridesSpec) (info : ClusterComponentsInfo)
    : ConfigMapComponentBuilder :=
  {| BuildConfig :=
       config_files instance
         (name_makeHdfsSiteData instance (RoleGroupName roleGroupInfo) replicas info)
         [NameNodeComponent; ZkfcComponent; FormatNameNodeComponent; FormatZookeeperComponent];
     GetConfigOverrides := ConfigOverrides <$> overrides |}.

Definition data_component (instance : HdfsCluster) (roleGroupInfo : RoleGroupInfo)
    (info : ClusterComponentsInfo) : ConfigMapComponentBuilder :=
  {| BuildConfig :=
       config_files instance
         (data_makeHdfsSiteData instance (RoleGroupName roleGroupInfo) info)
         [DataNodeComponent; WaitForNameNodesComponent];
     GetConfigOverrides := Some ∅ |}.

Definition journal_component (instance : HdfsCluster) (roleGroupInfo : RoleGroupInfo)
    (overrides : option OverridesSpec) (info : ClusterComponentsInfo)
    : ConfigMapComponentBuilder :=
  {| BuildConfig :=
       config_files instance
         (journal_makeHdfsSiteData instance (RoleGroupName roleGroupInfo) info)
         [JournalNodeComponent];
     GetConfigOverrides := ConfigOverrides <$> overrides |}.

(** [configSpec] is dereferenced when the name node's builder is made. *)
Definition NewNamenodeConfigMapBuilder (roleGroupInfo : RoleGroupInfo) (replicas : option Z)
    (overrides : option OverridesSpec) (configSpec : option ConfigSpec) (instance : HdfsCluster)
    (info : ClusterComponentsInfo) : outcome ConfigMapBuilder :=
  _ ← deref configSpec;
  Ret (NewConfigMapBuilder roleGroupInfo overrides configSpec instance
         (name_component instance roleGroupInfo replicas overrides info)).

Definition NewDataNodeConfigMapBuilder (instance : HdfsCluster) (roleGroupInfo : RoleGroupInfo)
    (overrides : option OverridesSpec) (config : option ConfigSpec)
    (info : ClusterComponentsInfo) : ConfigMapBuilder :=
  NewConfigMapBuilder roleGroupInfo overrides config instance
    (data_component instance roleGroupInfo info).

Definition NewJournalnodeConfigMapBuilder (roleGroupInfo : RoleGroupInfo)
    (overrides : option OverridesSpec) (roleConfig : option ConfigSpec) (instance : HdfsCluster)
    (info : ClusterComponentsInfo) : ConfigMapBuilder :=
  NewConfigMapBuilder roleGroupInfo overrides roleConfig instance
    (journal_component instance roleGroupInfo overrides info).

(** ** The site file of an instance *)

(** The identity of a role group of the cluster. *)
Definition group_info (ci : ClusterInfo) (role : Role) (g : string) : RoleGroupInfo :=
  {| rg_RoleInfo := {| ri_ClusterInfo := ci; RoleName := role |}; RoleGroupName := g |}.

(** The services of the journal node groups, in the order Go visits them. *)
Definition journal_services (instance : HdfsCluster) (ci : ClusterInfo) : list string :=
  map (λ kv, GetFullName (group_info ci JournalNodeRole kv.1))
    (range (table_of instance ci JournalNodeRole (JournalNode (Spec instance)))).

(** The properties of the site file of a group [g] of [n] name nodes. *)
Definition site_of (instance : HdfsCluster) (ci : ClusterInfo) (cfg : ClusterConfigSpec)
    (g : string) (n : Z) : list XmlNameValuePair :=
  hdfs_site_base ++ security_properties cfg
  ++ ha_properties cfg (hc_Name instance) (hc_Namespace instance) (ClusterDomain cfg)
       (GetFullName (group_info ci NameNodeRole g)) (DfsReplication cfg) n
       (journal_services instance ci).

(** What the API server guarantees of a cluster that could be created: its
    names are names of Kubernetes objects. *)
Record instance_ok (instance : HdfsCluster) (ci : ClusterInfo) (cfg : ClusterConfigSpec)
    : Prop := {
  io_config : ClusterConfig (Spec instance) = Some cfg;
  io_name : safe (hc_Name instance);
  io_namespace : safe (hc_Namespace instance);
  io_cluster : safe (ClusterName ci);
  io_domain : safe (ClusterDomain cfg);
  io_replication : (0 ≤ DfsReplication cfg)%Z;
  io_name_groups : map_Forall (λ g _, safe g) (groups_of (NameNode (Spec instance)));
  io_journal_groups : map_Forall (λ g _, safe g) (groups_of (JournalNode (Spec instance)));
}.

Lemma GetFullName_safe ci role g :
  full_name_spec P → safe (ClusterName ci) → safe role → safe g →
  safe (GetFullName (group_info ci role g)).
Proof.
  intros HP Hc Hr Hg. rewrite HP. unfold group_info, rg_ClusterInfo. simpl. auto 10 with safe.
Qed.

Lemma table_entry instance ci role spec g info :
  table_of instance ci role spec !! g = Some info →
  ci_RoleGroupInfo info = Some (group_info ci role g) ∧ is_Some (groups_of spec !! g).
Proof.
  rewrite lookup_table_of. destruct (groups_of spec !! g); intros H; simplify_eq/=. eauto.
Qed.

Lemma GetJournalNodeServiceNames_table instance ci :
  GetJournalNodeServiceNames (components_of instance ci) = Ret (journal_services instance ci).
Proof.
  apply mmap_ret. intros [g info] Hg. apply elem_of_range in Hg.
  apply table_entry in Hg as [Hg _]. unfold full_name. simpl. by rewrite Hg.
Qed.

Lemma journal_services_safe instance ci cfg :
  full_name_spec P → instance_ok instance ci cfg → Forall safe (journal_services instance ci).
Proof.
  intros HP []. apply Forall_safe_map. intros [g info] Hg. apply elem_of_range in Hg.
  apply table_entry in Hg as [_ [s Hs]]. simpl.
  apply GetFullName_safe; [done..|]. by apply (io_journal_groups0 g s).
Qed.

(** The generator the three builders make for an instance. *)
Definition site_generator (instance : HdfsCluster) (ci : ClusterInfo) (cfg : ClusterConfigSpec)
    (g : string) (n : Z) : NameNodeHdfsSiteXmlGenerator :=
  NewNameNodeHdfsSiteXmlGenerator (hc_Name instance) g n (hc_Namespace instance) cfg
    (ClusterDomain cfg) (DfsReplication cfg) (components_of instance ci).

Lemma nameNodeFullName_table instance ci cfg g n :
  nameNodeFullName (site_generator instance ci cfg g n)
  = if decide (is_Some (groups_of (NameNode (Spec instance)) !! g))
    then Ret (GetFullName (group_info ci NameNodeRole g)) else deref None.
Proof.
  unfold nameNodeFullName. simpl. rewrite lookup_table_of.
  by destruct (groups_of _ !! g) as [s|].
Qed.

Lemma site_generator_ok instance ci cfg g n :
  full_name_spec P → safe_paths → instance_ok instance ci cfg →
  is_Some (groups_of (NameNode (Spec instance)) !! g) → (0 ≤ n)%Z →
  generator_ok (site_generator instance ci cfg g n) (GetFullName (group_info ci NameNodeRole g))
    (journal_services instance ci).
Proof.
  intros HP Hpaths Hi Hg Hn. pose proof (journal_services_safe _ _ _ HP Hi). destruct Hi.
  split; simpl; try done.
  - by rewrite nameNodeFullName_table, decide_True.
  - apply GetJournalNodeServiceNames_table.
  - destruct Hg as [s Hs]. apply GetFullName_safe; [done..|]. by apply (io_name_groups0 g s).
Qed.

Lemma generate_site_reads instance ci cfg g n :
  full_name_spec P → safe_paths → instance_ok instance ci cfg →
  is_Some (groups_of (NameNode (Spec instance)) !! g) → (0 ≤ n)%Z →
  ∃ doc, generate_site cfg (site_generator instance ci cfg g n) = Ret doc ∧
    Unmarshal doc = Ret (site_of instance ci cfg g n).
Proof.
  intros HP Hpaths Hi Hg Hn. pose proof (site_generator_ok _ _ _ _ _ HP Hpaths Hi Hg Hn) as Hok.
  set (c := EnableHttps (EnablerKerberos (site_generator instance ci cfg g n) cfg)).
  assert (Hc : generator_ok c (GetFullName (group_info ci NameNodeRole g))
                 (journal_services instance ci) ∧
               c = g_append (site_generator instance ci cfg g n) (security_properties cfg)).
  { unfold c, EnablerKerberos, EnableHttps, security_properties.
    destruct (IsKerberosEnabled cfg); simpl; eauto using generator_ok_append. }
  destruct Hc as [Hok' Hc].
  destruct (NameNode_Generate_reads c _ _ Hok') as (doc & Hgen & Hread).
  { by rewrite Hc. }
  exists doc. split.
  - unfold generate_site. fold c. by destruct (NameNode_Generate c).
  - by rewrite Hread, Hc.
Qed.

Lemma site_of_NoDup instance ci cfg g n : NoDup (Name <$> site_of instance ci cfg g n).
Proof. apply site_names_NoDup. Qed.

End with_platform.

(** ** The config map as a whole *)

Section config_map.
Context {P : Platform} {MR : MapRange} {O : ConfigMapOps} {L : ConfigMapLaws O}.

Definition with_data (o : ConfigMap) (data : gmap string string) : ConfigMap :=
  {| cm_Name := cm_Name o; cm_Labels := cm_Labels o; cm_Annotations := cm_Annotations o;
     cm_Data := data |}.

Lemma with_data_add k v b o d :
  GetObject b = with_data o d → GetObject (AddItem k v b) = with_data o (<[k := v]> d).
Proof. intros H. rewrite get_add, H. done. Qed.

Lemma add_items_data configs b o d :
  GetObject b = with_data o d → GetObject (add_items configs b) = with_data o (configs ∪ d).
Proof.
  unfold add_items. intros H.
  rewrite <- (range_list_to_map configs) at 2.
  rewrite <- foldl_insert_union by apply NoDup_fst_range.
  revert b d H. induction (range configs) as [|[k v] l IH]; intros b d H; [done|]. simpl.
  apply IH. by apply with_data_add.
Qed.

(** The contents that overrides name after their own file. *)
Definition file_overrides (overrides : gmap string (gmap string string)) : gmap string string :=
  map_imap (λ file o, o !! file) overrides.

Lemma add_file_overrides_data overrides b o d :
  GetObject b = with_data o d →
  GetObject (add_file_overrides overrides b) = with_data o (file_overrides overrides ∪ d).
Proof.
  unfold add_file_overrides. intros H.
  assert (Hf : file_overrides overrides
               = map_imap (λ file o, o !! file) (list_to_map (range overrides) : gmap _ _))
    by (by rewrite range_list_to_map).
  rewrite Hf. clear Hf. pose proof (NoDup_fst_range overrides) as Hnd.
  revert b d H. induction (range overrides) as [|[f c] l IH]; intros b d H.
  - simpl. by rewrite map_imap_empty, map_empty_union.
  - rewrite fmap_cons, NoDup_cons in Hnd. destruct Hnd as [Hf Hnd]. simpl in Hf |- *.
    assert (Hnone : (list_to_map l : gmap string (gmap string string)) !! f = None)
      by (by apply not_elem_of_list_to_map_1).
    rewrite (map_imap_insert _ _ _ (list_to_map l)). destruct (c !! f) as [v|] eqn:Hc.
    + rewrite (IH Hnd _ _ (with_data_add f v b o d H)).
      rewrite <- insert_union_r; [by rewrite insert_union_l|].
      by rewrite map_lookup_imap, Hnone.
    + rewrite (IH Hnd _ _ H). rewrite delete_id; [done|]. by rewrite map_lookup_imap, Hnone.
Qed.

Lemma applyComponentOverrides_id b overrides : applyComponentOverrides b overrides = b.
Proof.
  assert (Hid : ∀ (l : list (string * string)), foldl (λ (b : cm_builder) _, b) b l = b)
    by (induction l; auto).
  unfold applyComponentOverrides. destruct (overrides !! CoreSiteFileName); rewrite ?Hid;
    destruct (overrides !! HdfsSiteFileName); rewrite ?Hid; done.
Qed.

(** The file the vector agent adds to the data. *)
Definition vector_file (namespace : string) (b : ConfigMapBuilder) : outcome (gmap string string) :=
  match b_roleConfig b with
  | None => Ret ∅
  | Some rc =>
      rg ← deref (cs_RoleGroupConfigSpec rc);
      isEnabled ← IsVectorEnable (Logging rg);
      if isEnabled : bool then
        vectorConfig ← buildVectorConfig namespace b;
        if decide (vectorConfig = "") then Ret ∅ else Ret {[VectorConfigFileName := vectorConfig]}
      else Ret ∅
  end.

Definition overrides_of (b : ConfigMapBuilder) : gmap string (gmap string string) :=
  match b_overrides b with Some o => ConfigOverrides o | None => ∅ end.

Lemma Build_data namespace b o d configs :
  GetObject (b_builder b) = with_data o d → BuildConfig (b_component b) = Ret configs →
  Build namespace b
  = v ← vector_file namespace b;
    Ret (with_data o (v ∪ (file_overrides (overrides_of b) ∪ (configs ∪ d)))).
Proof.
  intros Hb Hc. unfold Build. rewrite Hc. cbn [mbind outcome_bind].
  set (cm1 := match b_overrides b with Some _ => _ | None => _ end).
  assert (H1 : GetObject cm1 = with_data o (file_overrides (overrides_of b) ∪ (configs ∪ d))).
  { pose proof (add_items_data configs _ _ _ Hb) as H0. unfold cm1, overrides_of.
    destruct (b_overrides b); [by apply add_file_overrides_data|]. rewrite H0.
    unfold file_overrides. by rewrite map_imap_empty, map_empty_union. }
  set (cm2 := match GetConfigOverrides _ with Some _ => _ | None => _ end).
  assert (H2 : cm2 = cm1).
  { unfold cm2. destruct (GetConfigOverrides _); [apply applyComponentOverrides_id|done]. }
  rewrite H2. unfold vector_file.
  destruct (b_roleConfig b) as [rc|]; [|simpl; by rewrite H1, map_empty_union].
  destruct (cs_RoleGroupConfigSpec rc) as [rg|]; [|done]. simpl.
  destruct (IsVectorEnable (Logging rg)) as [[]| | |]; [|simpl; by rewrite H1, map_empty_union|done..].
  simpl. destruct (buildVectorConfig namespace b) as [vc| | |]; [|done..]. simpl.
  case_decide; [simpl; by rewrite H1, map_empty_union|]. simpl.
  erewrite with_data_add by done. by rewrite insert_union_singleton_l.
Qed.

(** [Build] on a fresh builder. *)
Lemma Build_new namespace info overrides rc instance component configs :
  BuildConfig component = Ret configs →
  let b := NewConfigMapBuilder info overrides rc instance component in
  Build namespace b
  = v ← vector_file namespace b;
    Ret {| cm_Name := GetFullName info; cm_Labels := GetLabels info;
           cm_Annotations := GetAnnotations info;
           cm_Data := v ∪ (file_overrides (default ∅ (ConfigOverrides <$> overrides)) ∪ configs) |}.
Proof.
  intros Hc b.
  set (o := {| cm_Name := GetFullName info; cm_Labels := GetLabels info;
               cm_Annotations := GetAnnotations info; cm_Data := ∅ |}).
  assert (Hb : GetObject (b_builder b) = with_data o ∅) by apply get_new.
  rewrite (Build_data namespace b o ∅ configs Hb Hc), map_union_empty. by destruct overrides.
Qed.

End config_map.

(** ** Claims *)

(** C1. The [hdfs-site.xml] that the operator writes for a group of [n] name
    nodes is a document that reads back as exactly the base settings, the
    Kerberos and TLS settings of the cluster and the high-availability
    settings: the name service, the list of the name nodes' pods, a web
    address, an RPC address and a storage directory for each pod, the journal
    address and the data directories. No property occurs twice. *)
Theorem name_node_hdfs_site {P : Platform} {MR : MapRange} instance ci cfg g s n :
  full_name_spec P → safe_paths → instance_ok instance ci cfg →
  groups_of (NameNode (Spec instance)) !! g = Some s → Replicas s = Some n → (0 ≤ n)%Z →
  ∃ doc,
    name_makeHdfsSiteData instance g (Replicas s) (components_of instance ci) = Ret doc ∧
    Unmarshal doc = Ret (site_of instance ci cfg g n) ∧
    NoDup (Name <$> site_of instance ci cfg g n).
Proof.
  intros HP Hpaths Hi Hg Hr Hn. unfold name_makeHdfsSiteData. rewrite (io_config _ _ _ Hi), Hr.
  destruct (generate_site_reads instance ci cfg g n) as (doc & Hgen & Hread); eauto.
  exists doc. eauto using site_of_NoDup.
Qed.

(** Look up a property of a site file. *)
Ltac site_prop :=
  match goal with
  | |- effective ?ps !! ?n = Some ?v =>
      apply (effective_elem ps (kv n v)); [apply site_of_NoDup|];
      unfold site_of, ha_properties; rewrite !elem_of_app; simpl
  end.

(** What Hadoop sees in the site file of a name node group (which is also
    that of the other roles' groups of the same name): the list under [dfs.ha.namenodes.<name service>] has
    the pods of the stateful set, and every pod in it has its RPC address and
    its web address at the stable DNS name [<pod>.<service>.<ns>.svc.<domain>]
    (port 8020, and 9870 or, with TLS, 9871) and its storage directory. *)
Lemma listed_name_nodes_configured {P : Platform} {MR : MapRange} instance ci cfg g s n doc :
  full_name_spec P → safe_paths → instance_ok instance ci cfg →
  groups_of (NameNode (Spec instance)) !! g = Some s → Replicas s = Some n → (0 ≤ n)%Z →
  name_makeHdfsSiteData instance g (Replicas s) (components_of instance ci) = Ret doc →
  ∃ ps, Unmarshal doc = Ret ps ∧
  let conf := effective ps in
  let ss := GetFullName (group_info ci NameNodeRole g) in
  let pods := map (pod_name ss) (indices n) in
  let host pod := pod +:+ "." +:+ ss +:+ "." +:+ hc_Namespace instance +:+ ".svc."
                  +:+ ClusterDomain cfg in
  conf !! "dfs.nameservices" = Some (hc_Name instance) ∧
  conf !! ("dfs.ha.namenodes." +:+ hc_Name instance) = Some (Join pods ",") ∧
  ∀ pod, pod ∈ pods →
    conf !! ("dfs.namenode.rpc-address." +:+ hc_Name instance +:+ "." +:+ pod)
    = Some (host pod +:+ ":8020") ∧
    conf !! (http_key cfg +:+ hc_Name instance +:+ "." +:+ pod)
    = Some (host pod +:+ (if IsTlsEnabled cfg then ":9871" else ":9870")) ∧
    conf !! ("dfs.namenode.name.dir." +:+ hc_Name instance +:+ "." +:+ pod)
    = Some NameNodeRootDataDir.
Proof.
  intros HP Hpaths Hi Hg Hr Hn Hdoc.
  destruct (generate_site_reads instance ci cfg g n) as (doc' & Hgen & Hread); eauto.
  unfold name_makeHdfsSiteData in Hdoc. rewrite (io_config _ _ _ Hi), Hr in Hdoc.
  change (generate_site cfg (site_generator instance ci cfg g n) = Ret doc) in Hdoc.
  rewrite Hgen in Hdoc. injection Hdoc as ->. exists (site_of instance ci cfg g n).
  split; [done|]. split; [|split].
  - site_prop. set_solver.
  - site_prop. set_solver.
  - intros pod Hpod. apply list_elem_of_fmap in Hpod as (i & -> & Hin). split; [|split].
    + replace (_ +:+ ":8020") with
        (pod_address (GetFullName (group_info ci NameNodeRole g)) (hc_Namespace instance)
           (ClusterDomain cfg) NameNodeRpcPort (pod_name (GetFullName (group_info ci NameNodeRole g)) i))
        by (unfold pod_address, CreateDnsDomain; by rewrite !append_assoc).
      site_prop. do 4 right. left. apply list_elem_of_fmap. eauto.
    + replace (_ +:+ (if IsTlsEnabled cfg then _ else _)) with
        (pod_address (GetFullName (group_info ci NameNodeRole g)) (hc_Namespace instance)
           (ClusterDomain cfg) (http_port cfg) (pod_name (GetFullName (group_info ci NameNodeRole g)) i))
        by (unfold pod_address, CreateDnsDomain, http_port; rewrite !append_assoc;
            by destruct (IsTlsEnabled cfg)).
      site_prop. do 3 right. left. apply list_elem_of_fmap. eauto.
    + site_prop. do 5 right. left. apply list_elem_of_fmap. eauto.
Qed.

Lemma hdfs_site_shared {P : Platform} {MR : MapRange} instance ci g s :
  groups_of (NameNode (Spec instance)) !! g = Some s →
  is_Some (Replicas s) → replicas_int32 (NameNode (Spec instance)) →
  let info := components_of instance ci in
  data_makeHdfsSiteData instance g info = name_makeHdfsSiteData instance g (Replicas s) info ∧
  journal_makeHdfsSiteData instance g info = name_makeHdfsSiteData instance g (Replicas s) info.
Proof.
  intros Hg [n Hn] H32 info.
  unfold data_makeHdfsSiteData, journal_makeHdfsSiteData, name_makeHdfsSiteData,
    NewDataNodeHdfsSiteXmlGenerator, getNameNodeReplicas, GetNameNodeReplicas, info.
  cbn [cci_NameNode components_of]. rewrite total_replicas_table by done.
  rewrite lookup_table_of, Hg, Hn. simpl. rewrite Hn.
  by destruct (ClusterConfig (Spec instance)).
Qed.

(** The three roles write the same site file: for a data node or journal
    node group, the file of the name node group that has the same name, with
    that group's replica count. In particular the data node file is the one the
    embedded name node generator writes, not the one of the data node's own
    [Generate] method. *)
Theorem roles_share_hdfs_site {P : Platform} {MR : MapRange} instance ci g s :
  groups_of (NameNode (Spec instance)) !! g = Some s →
  is_Some (Replicas s) → replicas_int32 (NameNode (Spec instance)) →
  let info := components_of instance ci in
  data_makeHdfsSiteData instance g info = name_makeHdfsSiteData instance g (Replicas s) info ∧
  journal_makeHdfsSiteData instance g info = name_makeHdfsSiteData instance g (Replicas s) info.
Proof. apply hdfs_site_shared. Qed.

(** C32. A data node or journal node group whose name is not the name of a name
    node group makes the operator panic while it builds the group's config map,
    whatever the rest of the cluster is. *)
Theorem role_group_without_name_nodes_panics {P : Platform} {MR : MapRange} instance ci g :
  groups_of (NameNode (Spec instance)) !! g = None →
  let info := components_of instance ci in
  data_makeHdfsSiteData instance g info = Panic "invalid memory address or nil pointer dereference" ∧
  journal_makeHdfsSiteData instance g info
  = Panic "invalid memory address or nil pointer dereference".
Proof.
  intros Hg info. unfold data_makeHdfsSiteData, journal_makeHdfsSiteData,
    NewDataNodeHdfsSiteXmlGenerator, getNameNodeReplicas, info.
  split; [|cbn [cci_NameNode components_of]; by rewrite lookup_table_of, Hg].
  destruct (ClusterConfig (Spec instance)) as [cfg|]; [|done]. simpl.
  unfold generate_site, NameNode_Generate, makeNameNodeHosts, nameNodeFullName,
    EnablerKerberos, EnableHttps.
  destruct (IsKerberosEnabled cfg); simpl; by rewrite lookup_table_of, Hg.
Qed.

(** No property of a site file has the name of the data directory setting. *)
Lemma data_dir_not_listed {P : Platform} {MR : MapRange} instance ci cfg g n :
  "dfs.datanode.data.dir" ∉ Name <$> site_of instance ci cfg g n.
Proof.
  intros Hin. unfold site_of in Hin. rewrite <- site_blocks_names in Hin.
  destruct (site_blocks_ok cfg (hc_Name instance) (hc_Namespace instance) (ClusterDomain cfg)
    (GetFullName (group_info ci NameNodeRole g)) (DfsReplication cfg) n
    (journal_services instance ci)) as [_ Hall].
  apply list_elem_of_In, in_concat in Hin as (ns & Hns & Hin).
  apply list_elem_of_In, list_elem_of_fmap in Hns as (b & -> & Hb).
  rewrite Forall_forall in Hall. destruct (Hall b Hb) as [_ Hk]. rewrite Forall_forall in Hk.
  assert (Hkind : b.1 = "dfs.datanode.data.dir").
  { rewrite <- (Hk "dfs.datanode.data.dir"); [reflexivity|by apply list_elem_of_In]. }
  assert (Hb1 : "dfs.datanode.data.dir"
    ∈ (site_blocks cfg (hc_Name instance) (hc_Namespace instance) (ClusterDomain cfg)
    (GetFullName (group_info ci NameNodeRole g)) (DfsReplication cfg) n
    (journal_services instance ci)).*1).
  { rewrite <- Hkind. apply list_elem_of_fmap. eauto. }
  revert Hb1. unfold site_blocks, security_properties, TlsHdfsSiteXml, http_key.
  destruct (IsKerberosEnabled cfg), (IsTlsEnabled cfg);
    apply (bool_decide_eq_true_1 _); vm_compute; reflexivity.
Qed.

Lemma site_of_xml {P : Platform} {MR : MapRange} instance ci cfg g n :
  full_name_spec P → safe_paths → instance_ok instance ci cfg →
  is_Some (groups_of (NameNode (Spec instance)) !! g) → (0 ≤ n)%Z →
  Forall xml_pair (site_of instance ci cfg g n).
Proof.
  intros HP Hpaths Hi Hg Hn. pose proof (site_generator_ok _ _ _ _ _ HP Hpaths Hi Hg Hn) as Hok.
  apply safe_pairs_xml. unfold site_of. rewrite (app_assoc hdfs_site_base).
  apply Forall_app_2; [apply static_site_safe|]. exact (ha_properties_safe _ _ _ Hok).
Qed.

Lemma dataNodeConfig_xml {P : Platform} :
  safe_paths → map_Forall (λ k v, xml_text k ∧ xml_text v) dataNodeConfig.
Proof.
  intros [Hd _]. apply map_Forall_singleton.
  split; [done|]. apply safe_xml_text. unfold DataVolumeMountName, DataNodeRole.
  auto 10 with safe.
Qed.

(** C22. The data directory of the data nodes does not reach their
    configuration: the [hdfs-site.xml] built for a data node group has no
    [dfs.datanode.data.dir], although [dataNodeConfig] computes it and the
    generator's own [Generate], applied to the same generator with the same
    security settings, would write it. *)
Theorem data_node_site_lacks_data_dir {P : Platform} {MR : MapRange} instance ci cfg g s n :
  full_name_spec P → safe_paths → instance_ok instance ci cfg →
  groups_of (NameNode (Spec instance)) !! g = Some s → Replicas s = Some n → (0 ≤ n)%Z →
  replicas_int32 (NameNode (Spec instance)) →
  (∃ doc ps,
    data_makeHdfsSiteData instance g (components_of instance ci) = Ret doc ∧
    Unmarshal doc = Ret ps ∧ effective ps !! "dfs.datanode.data.dir" = None) ∧
  (∃ gen doc ps,
    NewDataNodeHdfsSiteXmlGenerator instance g dataNodeConfig (components_of instance ci)
    = Ret gen ∧
    DataNode_Generate
      {| dn_NameNodeHdfsSiteXmlGenerator :=
           EnableHttps (EnablerKerberos (dn_NameNodeHdfsSiteXmlGenerator gen) cfg);
         DataNodeConfig := DataNodeConfig gen |} = Ret doc ∧
    Unmarshal doc = Ret ps ∧
    effective ps !! "dfs.datanode.data.dir"
    = Some ("[DISK]" +:+ KubedoopDataDir +:+ "/data/datanode")).
Proof.
  intros HP Hpaths Hi Hg Hr Hn H32.
  destruct (generate_site_reads instance ci cfg g n) as (doc & Hgen & Hread); [eauto..|].
  assert (Hnew : NewDataNodeHdfsSiteXmlGenerator instance g dataNodeConfig (components_of instance ci)
    = Ret {| dn_NameNodeHdfsSiteXmlGenerator := site_generator instance ci cfg g n;
             DataNodeConfig := dataNodeConfig |}).
  { unfold NewDataNodeHdfsSiteXmlGenerator, GetNameNodeReplicas. cbn [cci_NameNode components_of].
    rewrite total_replicas_table, Hg by done. simpl. by rewrite (io_config _ _ _ Hi), Hr. }
  split.
  - exists doc, (site_of instance ci cfg g n). split; [|split; [done|]].
    + unfold data_makeHdfsSiteData. rewrite Hnew, (io_config _ _ _ Hi). done.
    + apply effective_None, data_dir_not_listed.
  - destruct (append_document doc (site_of instance ci cfg g n) dataNodeConfig)
      as (doc' & Hdoc' & Hread'); [done|by apply site_of_xml|by apply dataNodeConfig_xml|].
    eexists _, doc', _. split; [done|]. split; [|split; [exact Hread'|]].
    + unfold DataNode_Generate. simpl. unfold generate_site in Hgen.
      destruct (NameNode_Generate _) as [r| | |]; simplify_eq/=. done.
    + rewrite effective_app, effective_pairs_of. apply lookup_union_Some_l.
      unfold dataNodeConfig. rewrite lookup_singleton_eq. by rewrite ?append_assoc.
Qed.

Lemma map_imap_none {A B} (f : string → A → option B) (m : gmap string A) :
  (∀ k x, m !! k = Some x → f k x = None) → map_imap f m = ∅.
Proof.
  intros H. apply map_eq. intros k. rewrite map_lookup_imap, lookup_empty.
  destruct (m !! k) eqn:Hk; simpl; [by apply H|done].
Qed.

(** C21. [Build] gives, for every order of the maps, the config map of the role
    group's name, labels and annotations whose data are the files of the role;
    over them the override contents that are keyed by their own file name; over
    them [vector.yaml]. An error or panic of the vector part is that of
    [Build]. *)
Theorem config_map_build_spec {P : Platform} {MR : MapRange} {O : ConfigMapOps}
    {L : ConfigMapLaws O} namespace info overrides rc instance component configs :
  BuildConfig component = Ret configs →
  let b := NewConfigMapBuilder info overrides rc instance component in
  Build namespace b
  = v ← vector_file namespace b;
    Ret {| cm_Name := GetFullName info; cm_Labels := GetLabels info;
           cm_Annotations := GetAnnotations info;
           cm_Data := v ∪ (file_overrides (default ∅ (ConfigOverrides <$> overrides)) ∪ configs) |}.
Proof. apply Build_new. Qed.

(** Builders that differ in overrides that no file is named after. *)
Lemma Build_overrides {P : Platform} {MR : MapRange} {O : ConfigMapOps} {L : ConfigMapLaws O}
    namespace info o1 o2 rc instance c1 c2 :
  BuildConfig c1 = BuildConfig c2 →
  file_overrides (default ∅ (ConfigOverrides <$> o1)) = file_overrides (default ∅ (ConfigOverrides <$> o2)) →
  Build namespace (NewConfigMapBuilder info o1 rc instance c1)
  = Build namespace (NewConfigMapBuilder info o2 rc instance c2).
Proof.
  intros Hc Ho. destruct (BuildConfig c2) as [configs|e|w|w] eqn:Hc2;
    [|unfold Build; simpl; by rewrite Hc, Hc2..].
  rewrite !(Build_new _ _ _ _ _ _ configs) by done. simpl. by rewrite Ho.
Qed.

(** C31. The overrides a user gives as properties of a file, as the API
    describes them, change nothing: unless some file's overrides contain the
    file's own name as a key, the builders of the three roles, which hand the
    overrides to their components too, build the config map that they build of
    empty overrides. *)
Theorem config_overrides_ignored {P : Platform} {MR : MapRange} {O : ConfigMapOps}
    {L : ConfigMapLaws O} namespace info replicas o rc instance components :
  map_Forall (λ file (props : gmap string string), props !! file = None) (ConfigOverrides o) →
  let none := {| ConfigOverrides := ∅ |} in
  let name_node o := b ← NewNamenodeConfigMapBuilder info replicas (Some o) rc instance components;
                     Build namespace b in
  let data_node o := Build namespace (NewDataNodeConfigMapBuilder instance info (Some o) rc components) in
  let journal_node o := Build namespace (NewJournalnodeConfigMapBuilder info (Some o) rc instance components) in
  name_node o = name_node none ∧ data_node o = data_node none ∧ journal_node o = journal_node none.
Proof.
  intros H none. assert (file_overrides (ConfigOverrides o) = file_overrides (ConfigOverrides none)) as Ho.
  { unfold file_overrides. rewrite (map_imap_none _ (ConfigOverrides o)) by done.
    symmetry. apply map_imap_empty. }
  split_and!; [|by apply Build_overrides..].
  unfold NewNamenodeConfigMapBuilder. destruct (deref rc); [|done..]. by apply Build_overrides.
Qed.

(** C30. The vector agent in [Build], once the files are made: with no logging
    section, or with the agent off, the config map has the files of the role
    and the user's replacements and nothing else; with a logging section that
    leaves [enableVectorAgent] out, the operator panics; with the agent on and no
    aggregator config map, [Build] returns an error; otherwise it fails exactly
    when the YAML cannot be made, and adds exactly that YAML as [vector.yaml],
    unless it is empty. *)
Theorem vector_branches {P : Platform} {MR : MapRange} {O : ConfigMapOps} {L : ConfigMapLaws O} namespace
    info overrides rc rg instance component configs :
  BuildConfig component = Ret configs → cs_RoleGroupConfigSpec rc = Some rg →
  let r := Build namespace (NewConfigMapBuilder info overrides (Some rc) instance component) in
  let aggregator := GetVectorConfigMapName (Some instance) in
  let files := file_overrides (default ∅ (ConfigOverrides <$> overrides)) ∪ configs in
  let config_map data := {| cm_Name := GetFullName info; cm_Labels := GetLabels info;
                            cm_Annotations := GetAnnotations info; cm_Data := data |} in
  match Logging rg with
  | None => r = Ret (config_map files)
  | Some {| EnableVectorAgent := None |} =>
      r = Panic "invalid memory address or nil pointer dereference"
  | Some {| EnableVectorAgent := Some false |} => r = Ret (config_map files)
  | Some {| EnableVectorAgent := Some true |} =>
      if decide (aggregator = "")
      then r = Err (EMsg "vector is enabled but vectorAggregatorConfigMapName is not set")
      else match MakeVectorYaml namespace (ClusterName (rg_ClusterInfo info))
                   (RoleName (rg_RoleInfo info)) (RoleGroupName info) aggregator with
           | Ret yaml => r = Ret (config_map (if decide (yaml = "") then files
                                              else <[VectorConfigFileName := yaml]> files))
           | Err e => r = Err e
           | Panic w => r = Panic w
           | Beyond w => r = Beyond w
           end
  end.
Proof.
  intros Hc Hrg r aggregator files config_map. unfold r. rewrite (Build_new _ _ _ _ _ _ configs) by done.
  unfold vector_file, buildVectorConfig. cbn [b_roleConfig NewConfigMapBuilder]. rewrite Hrg.
  cbn [mbind outcome_bind deref]. fold files.
  destruct (Logging rg) as [[[[]|]]|]; cbn [IsVectorEnable deref EnableVectorAgent mbind outcome_bind];
    [|by rewrite map_empty_union|done|by rewrite map_empty_union].
  cbn [b_vectorAggregatorConfigMapName b_clusterName b_roleGroupInfo NewConfigMapBuilder].
  fold aggregator. case_decide; [done|].
  destruct (MakeVectorYaml _ _ _ _ _); cbn [mbind outcome_bind]; [|done..].
  case_decide; cbn [mbind outcome_bind]; [by rewrite map_empty_union|].
  by rewrite insert_union_singleton_l.
Qed.

(** C23. The [core-site.xml] of the three roles reads back as the default file
    system of the name service, the Kerberos settings when Kerberos is
    configured, and the quorum, each property once. *)
Theorem core_site_document {P : Platform} instance cfg :
  safe_paths → safe (hc_Name instance) → safe (hc_Namespace instance) →
  ClusterConfig (Spec instance) = Some cfg →
  ∃ doc, makeCoreSiteData instance = Ret doc ∧
  let ps := kv "fs.defaultFS" ("hdfs://" +:+ hc_Name instance +:+ "/")
            :: (if IsKerberosEnabled cfg
                then SecurityCoreSiteXml (hc_Name instance) (hc_Namespace instance) else [])
            ++ [kv "ha.zookeeper.quorum" "${env.ZOOKEEPER}"] in
  Unmarshal doc = Ret ps ∧ NoDup (Name <$> ps).
Proof.
  intros Hp Hi Hn Hc. unfold makeCoreSiteData. rewrite Hc. by apply core_site_reads.
Qed.

(** ** Witnesses *)

Definition sample_auth : option AuthenticationSpec := Some {|
  AuthenticationClass := ""; Oidc := None;
  Tls := Some {| tls_SecretClass := "tls"; JksPassword := "changeit" |};
  Kerberos := Some {| krb_SecretClass := "kerberos" |};
|}.

Lemma sample_paths : safe_paths (P := sample_platform).
Proof. split; vm_compute; reflexivity. Qed.

Lemma sample_instance_ok auth :
  instance_ok (P := sample_platform) (sample_instance auth) sample_cluster_info
    (sample_cluster_config auth).
Proof.
  split; [reflexivity|done..| |]; apply map_Forall_singleton; done.
Qed.

Lemma sample_name_group auth :
  groups_of (P := sample_platform) (NameNode (Spec (sample_instance auth))) !! "default"
  = Some (sample_group 2).
Proof. reflexivity. Qed.

Lemma sample_int32 auth : replicas_int32 (P := sample_platform) (NameNode (Spec (sample_instance auth))).
Proof. apply map_Forall_singleton. vm_compute. split; discriminate. Qed.

Lemma sample_generates auth :
  ∃ doc,
    name_makeHdfsSiteData (P := sample_platform) (MR := sorted_range) (sample_instance auth)
      "default" (Replicas (sample_group 2))
      (components_of (sample_instance auth) sample_cluster_info) = Ret doc.
Proof.
  destruct (generate_site_reads (P := sample_platform) (MR := sorted_range) (sample_instance auth)
    sample_cluster_info (sample_cluster_config auth) "default" 2 sample_full_name sample_paths
    (sample_instance_ok _) (mk_is_Some _ _ (sample_name_group auth)) Z.le_0_2)
    as (doc & Hgen & _).
  exists doc. exact Hgen.
Qed.

Definition sample_site (auth : option AuthenticationSpec) : list XmlNameValuePair :=
  site_of (P := sample_platform) (MR := sorted_range) (sample_instance auth) sample_cluster_info
    (sample_cluster_config auth) "default" 2.

Lemma name_node_hdfs_site_witness :
  ∃ doc,
    name_makeHdfsSiteData (P := sample_platform) (MR := sorted_range) (sample_instance sample_auth)
      "default" (Replicas (sample_group 2)) (components_of (sample_instance sample_auth) sample_cluster_info) = Ret doc ∧
    Unmarshal doc = Ret (sample_site sample_auth) ∧ NoDup (Name <$> sample_site sample_auth).
Proof.
  exact (@name_node_hdfs_site sample_platform sorted_range (sample_instance sample_auth)
    sample_cluster_info (sample_cluster_config sample_auth) "default" (sample_group 2) 2
    sample_full_name sample_paths (sample_instance_ok _) (sample_name_group _) eq_refl
    (Z.le_0_2)).
Defined.

Lemma roles_share_hdfs_site_witness :
  data_makeHdfsSiteData (P := sample_platform) (MR := sorted_range) (sample_instance None) "default"
    (components_of (sample_instance None) sample_cluster_info)
  = name_makeHdfsSiteData (P := sample_platform) (MR := sorted_range) (sample_instance None)
      "default" (Replicas (sample_group 2)) (components_of (sample_instance None) sample_cluster_info).
Proof.
  exact (proj1 (@roles_share_hdfs_site sample_platform sorted_range (sample_instance None)
    sample_cluster_info "default" (sample_group 2) (sample_name_group _) (mk_is_Some _ _ eq_refl)
    (sample_int32 _))).
Defined.

Lemma role_group_without_name_nodes_panics_witness :
  journal_makeHdfsSiteData (P := sample_platform) (MR := sorted_range) (sample_instance None) "hdd"
    (components_of (sample_instance None) sample_cluster_info)
  = Panic "invalid memory address or nil pointer dereference".
Proof.
  exact (proj2 (@role_group_without_name_nodes_panics sample_platform sorted_range
    (sample_instance None) sample_cluster_info "hdd" eq_refl)).
Defined.

Lemma data_node_site_lacks_data_dir_witness :
  ∃ doc ps,
    data_makeHdfsSiteData (P := sample_platform) (MR := sorted_range) (sample_instance None)
      "default" (components_of (sample_instance None) sample_cluster_info) = Ret doc ∧
    Unmarshal doc = Ret ps ∧ effective ps !! "dfs.datanode.data.dir" = None.
Proof.
  exact (proj1 (@data_node_site_lacks_data_dir sample_platform sorted_range (sample_instance None)
    sample_cluster_info (sample_cluster_config None) "default" (sample_group 2) 2
    sample_full_name sample_paths (sample_instance_ok _) (sample_name_group _) eq_refl
    Z.le_0_2 (sample_int32 _))).
Defined.

Definition sample_info : RoleGroupInfo := group_info sample_cluster_info NameNodeRole "default".

Definition sample_component : ConfigMapComponentBuilder :=
  {| BuildConfig := Ret {[ "core-site.xml" := "<configuration></configuration>" ]};
     GetConfigOverrides := None |}.

Definition sample_overrides : OverridesSpec :=
  {| ConfigOverrides := {[ "core-site.xml" := {[ "io.file.buffer.size" := "131072" ]} ]} |}.

Definition sample_config (logging : option LoggingSpec) : ConfigSpec (P := sample_platform) :=
  {| cs_RoleGroupConfigSpec := Some {| Resources := None; Logging := logging |};
     ListenerClass := None |}.

Definition sample_build (overrides : option OverridesSpec) (logging : option LoggingSpec)
    : outcome ConfigMap :=
  Build (P := sample_platform) (MR := sorted_range) (O := sample_cm_ops) "default"
    (NewConfigMapBuilder sample_info overrides (Some (sample_config logging)) (sample_instance None)
       sample_component).

Lemma config_map_build_spec_witness :
  cm_Data <$> sample_build None (Some {| EnableVectorAgent := Some true |})
  = Ret (<["vector.yaml" := "sources: {}"]>
         {[ "core-site.xml" := "<configuration></configuration>" ]}).
Proof.
  unfold sample_build.
  rewrite (@config_map_build_spec sample_platform sorted_range sample_cm_ops sample_cm_laws
    "default" sample_info None (Some (sample_config _)) (sample_instance None) sample_component
    _ eq_refl).
  vm_compute. reflexivity.
Defined.

Lemma config_overrides_ignored_witness :
  let build o := Build (P := sample_platform) (MR := sorted_range) (O := sample_cm_ops) "default"
    (NewJournalnodeConfigMapBuilder (MR := sorted_range) sample_info (Some o) (Some (sample_config None))
       (sample_instance None) (components_of (sample_instance None) sample_cluster_info)) in
  build sample_overrides = build {| ConfigOverrides := ∅ |}.
Proof.
  apply (@config_overrides_ignored sample_platform sorted_range sample_cm_ops sample_cm_laws "default"
           sample_info (Some 1%Z) sample_overrides (Some (sample_config None)) (sample_instance None)).
  apply map_Forall_singleton. reflexivity.
Defined.

Lemma vector_branches_witness :
  sample_build None (Some {| EnableVectorAgent := None |})
  = Panic "invalid memory address or nil pointer dereference".
Proof.
  apply (@vector_branches sample_platform sorted_range sample_cm_ops sample_cm_laws "default" sample_info None
    (sample_config (Some {| EnableVectorAgent := None |})) _ (sample_instance None)
    sample_component _ eq_refl eq_refl).
Defined.

Lemma core_site_document_witness :
  ∃ doc, makeCoreSiteData (P := sample_platform) (sample_instance None) = Ret doc ∧
  let ps := [kv "fs.defaultFS" "hdfs://simple-hdfs/"; kv "ha.zookeeper.quorum" "${env.ZOOKEEPER}"] in
  Unmarshal doc = Ret ps ∧ NoDup (Name <$> ps).
Proof.
  apply (@core_site_document sample_platform (sample_instance None) (sample_cluster_config None));
    first [apply sample_paths | reflexivity].
Defined.
