(* ===== verification/Discovery.v ===== *)
(** * The discovery config map: [internal/controller/discovery.go]

    The client-side configuration: the pods of all name node groups and their
    addresses, read from the listeners through the API server. The reads are
    the record [Reads]: what the API server answers while one config map is
    built. The cache of addresses is passed from call to call. *)

From S2P Require Import Prelude GoStd GoXml XmlUtil Api Util Security Components HdfsConf ConfigMaps.

Record IngressAddressSpec := { Address : string; Ports : gmap string Z }.

(** The answers of the API server: the labels of a pod and the addresses in the
    status of a listener, by namespace and name. *)
Record Reads := {
  pod_labels : string → string → outcome (gmap string string);
  listener_addresses : string → string → outcome (list IngressAddressSpec);
}.

Definition address_cache := gmap string IngressAddressSpec.

Definition ErrListenerNotFound : error := EMsg "listener resource not found".
Definition ErrListenerAddressesNotFound : error := EMsg "listener addresses not found".

Section with_platform.
Context {P : Platform} {MR : MapRange}.
Context (R : Reads) (instance : HdfsCluster).

Definition listener_label_prefix := "listeners.kubedoop.dev/mnt".

(** The first label, in the order Go visits the map, that names a listener. *)
Definition getListenerNameByPodName (podName : string) : outcome string :=
  labels ← pod_labels R (hc_Namespace instance) podName;
  match find (λ kv, HasPrefix kv.1 listener_label_prefix) (range labels) with
  | Some kv => Ret kv.2
  | None => Err (EMsg "not found listener name by pod name")
  end.

Definition getListenerAddress (cache : address_cache) (podName : string)
    : outcome (IngressAddressSpec * address_cache) :=
  listenerName ← getListenerNameByPodName podName;
  match cache !! listenerName with
  | Some address => Ret (address, cache)
  | None =>
      match listener_addresses R (hc_Namespace instance) listenerName with
      | Err _ => Err ErrListenerNotFound
      | Ret [] => Err ErrListenerAddressesNotFound
      | Ret (address :: _) => Ret (address, <[listenerName := address]> cache)
      | Panic w => Panic w
      | Beyond w => Beyond w
      end
  end.

Definition getPort (address : IngressAddressSpec) (portName : string) : outcome Z :=
  match find (λ kv, bool_decide (kv.1 = portName)) (range (Ports address)) with
  | Some kv => Ret kv.2
  | None => Err (EMsg ("not found port in address " +:+ portName +:+ " by port name"))
  end.

(** The body of the loop over the pods. *)
Definition port_name_address (portName podName : string) (cache : address_cache)
    : outcome (XmlNameValuePair * address_cache) :=
  r ← getListenerAddress cache podName;
  port ← getPort r.1 portName;
  Ret (kv ("dfs.namenode." +:+ portName +:+ "-address." +:+ hc_Name instance +:+ "." +:+ podName)
          (Address r.1 +:+ ":" +:+ Itoa port), r.2).

Definition port_name_step (portName : string)
    (st : list XmlNameValuePair * address_cache) (podName : string)
    : outcome (list XmlNameValuePair * address_cache) :=
  r ← port_name_address portName podName st.2;
  Ret (st.1 ++ [r.1], r.2).

Definition createPortNameAddress (podNames : list string) (portName : string)
    (cache : address_cache) : outcome (list XmlNameValuePair * address_cache) :=
  mfold (port_name_step portName) ([], cache) podNames.

(** An error of the second call is logged and dropped. *)
Definition createConnections (podNames : list string) : outcome (list XmlNameValuePair) :=
  cfg ← deref (ClusterConfig (Spec instance));
  let schema := if IsTlsEnabled cfg then "https" else "http" in
  http ← createPortNameAddress podNames schema ∅;
  match createPortNameAddress podNames RpcName http.2 with
  | Ret rpc => Ret (http.1 ++ rpc.1)
  | Err _ => Ret http.1
  | Panic w => Panic w
  | Beyond w => Beyond w
  end.

Definition group_pod_names (g : string * RoleGroupSpec) : list string :=
  let nameNodeStatefulSetName := hc_Name instance +:+ "-namenode-" +:+ g.1 in
  match Replicas g.2 with
  | Some replicas => map (pod_name nameNodeStatefulSetName) (indices replicas)
  | None => []
  end.

Definition getPodNames (nameNodeGroups : gmap string RoleGroupSpec) : list string :=
  concat (map group_pod_names (range nameNodeGroups)).

Definition makeDiscoveryHosts (podNames : list string) : XmlNameValuePair :=
  kv ("dfs.ha.namenodes." +:+ hc_Name instance) (Join podNames ",").

Definition makeDynamicHdfsSiteXml : outcome (list XmlNameValuePair) :=
  nameNode ← deref (NameNode (Spec instance));
  let podNames := getPodNames (RoleGroups nameNode) in
  let hosts := makeDiscoveryHosts podNames in
  connections ← createConnections podNames;
  Ret (hosts :: connections).

Definition commonHdfsSiteXml : list XmlNameValuePair :=
  [ kv "dfs.nameservices" (hc_Name instance);
    kv ("dfs.client.failover.proxy.provider." +:+ hc_Name instance)
       "org.apache.hadoop.hdfs.server.namenode.ha.ConfiguredFailoverProxyProvider" ].

Definition makeHdfsSiteXmlData : outcome string :=
  let xml := NewXmlConfiguration commonHdfsSiteXml in
  properties ← makeDynamicHdfsSiteXml;
  cfg ← deref (ClusterConfig (Spec instance));
  let properties :=
    if IsKerberosEnabled cfg then properties ++ SecurityDiscoveryHdfsSiteXml else properties in
  r ← XmlConfiguration_String xml properties;
  Ret r.2.

Definition makeCoreSiteXmlData : outcome string :=
  cfg ← deref (ClusterConfig (Spec instance));
  CoreSite_Generate (EnableKerberos
    {| cs_InstanceName := hc_Name instance; IsDiscovery := true; cs_properties := [] |}
    cfg (hc_Namespace instance)).

(** The config map with its namespace. *)
Definition discovery_Build : outcome (string * ConfigMap) :=
  hdfsSiteXml ← makeHdfsSiteXmlData;
  coreSiteXml ← makeCoreSiteXmlData;
  Ret (hc_Namespace instance,
       {| cm_Name := hc_Name instance;
          cm_Labels := <[LabelCrName := hc_Name instance]>
                      (<[LabelManagedBy := "hdfs-operator"]> {[LabelComponent := "discovery"]});
          cm_Annotations := ∅;
          cm_Data := <["core-site.xml" := coreSiteXml]> {["hdfs-site.xml" := hdfsSiteXml]} |}).

(** ** The reference: addresses without a cache *)

Definition listener_address (podName : string) : outcome IngressAddressSpec :=
  listenerName ← getListenerNameByPodName podName;
  match listener_addresses R (hc_Namespace instance) listenerName with
  | Err _ => Err ErrListenerNotFound
  | Ret [] => Err ErrListenerAddressesNotFound
  | Ret (address :: _) => Ret address
  | Panic w => Panic w
  | Beyond w => Beyond w
  end.

Definition connection (portName podName : string) : outcome XmlNameValuePair :=
  a ← listener_address podName;
  port ← getPort a portName;
  Ret (kv ("dfs.namenode." +:+ portName +:+ "-address." +:+ hc_Name instance +:+ "." +:+ podName)
          (Address a +:+ ":" +:+ Itoa port)).

(** A cache holds only addresses the API server gives. *)
Definition cache_ok (cache : address_cache) : Prop :=
  map_Forall (λ l a, ∃ rest,
    listener_addresses R (hc_Namespace instance) l = Ret (a :: rest)) cache.

Lemma getListenerAddress_spec cache podName :
  cache_ok cache →
  match listener_address podName with
  | Ret a => ∃ cache', getListenerAddress cache podName = Ret (a, cache') ∧ cache_ok cache'
  | Err e => getListenerAddress cache podName = Err e
  | Panic w => getListenerAddress cache podName = Panic w
  | Beyond w => getListenerAddress cache podName = Beyond w
  end.
Proof.
  intros Hok. unfold listener_address, getListenerAddress.
  destruct (getListenerNameByPodName podName) as [l| | |]; simpl; [|done..].
  destruct (cache !! l) as [a|] eqn:Hl.
  - destruct (Hok l a Hl) as [rest ->]. eauto.
  - destruct (listener_addresses R (hc_Namespace instance) l) as [[|a rest]| | |] eqn:Hr; try done.
    eexists. split; [done|]. apply map_Forall_insert_2; eauto.
Qed.

Lemma port_name_address_spec cache portName podName :
  cache_ok cache →
  match connection portName podName with
  | Ret c => ∃ cache', port_name_address portName podName cache = Ret (c, cache') ∧ cache_ok cache'
  | Err e => port_name_address portName podName cache = Err e
  | Panic w => port_name_address portName podName cache = Panic w
  | Beyond w => port_name_address portName podName cache = Beyond w
  end.
Proof.
  intros Hok. pose proof (getListenerAddress_spec cache podName Hok) as H.
  unfold connection, port_name_address.
  destruct (listener_address podName) as [a| | |]; simpl; [|by rewrite H..].
  destruct H as (cache' & -> & Hok'). simpl.
  destruct (getPort a portName); simpl; eauto.
Qed.

(** The loop gives what the uncached reads give: the same connections, or the
    same failure. *)
Lemma port_name_loop portName podNames acc cache :
  cache_ok cache →
  match mmap (connection portName) podNames with
  | Ret cs => ∃ cache', mfold (port_name_step portName) (acc, cache) podNames
                        = Ret (acc ++ cs, cache') ∧ cache_ok cache'
  | Err e => mfold (port_name_step portName) (acc, cache) podNames = Err e
  | Panic w => mfold (port_name_step portName) (acc, cache) podNames = Panic w
  | Beyond w => mfold (port_name_step portName) (acc, cache) podNames = Beyond w
  end.
Proof.
  revert acc cache. induction podNames as [|p podNames IH]; intros acc cache Hok; simpl.
  - exists cache. by rewrite app_nil_r.
  - pose proof (port_name_address_spec cache portName p Hok) as H.
    change (port_name_step portName (acc, cache) p)
      with (r ← port_name_address portName p cache; Ret (acc ++ [r.1], r.2)).
    destruct (connection portName p) as [c| | |]; simpl; [|by rewrite H..].
    destruct H as (cache' & -> & Hok'). simpl. specialize (IH (acc ++ [c]) cache' Hok').
    destruct (mmap (connection portName) podNames) as [cs| | |]; simpl; [|done..].
    destruct IH as (cache'' & -> & Hok''). exists cache''. by rewrite <- app_assoc.
Qed.

Lemma createConnections_eq podNames cfg :
  ClusterConfig (Spec instance) = Some cfg →
  createConnections podNames
  = http ← mmap (connection (if IsTlsEnabled cfg then "https" else "http")) podNames;
    match mmap (connection RpcName) podNames with
    | Ret rpc => Ret (http ++ rpc)
    | Err _ => Ret http
    | Panic w => Panic w
    | Beyond w => Beyond w
    end.
Proof.
  intros Hcfg. unfold createConnections, createPortNameAddress. rewrite Hcfg. simpl.
  set (schema := if IsTlsEnabled cfg then _ else _).
  pose proof (port_name_loop schema podNames [] ∅ (map_Forall_empty _)) as H.
  destruct (mmap (connection schema) podNames) as [http| | |]; [|by rewrite H..].
  destruct H as (cache & -> & Hok). simpl.
  pose proof (port_name_loop RpcName podNames [] cache Hok) as H.
  destruct (mmap (connection RpcName) podNames) as [rpc| | |]; [|by rewrite H..].
  destruct H as (cache' & -> & _). done.
Qed.

(** ** The pods *)

Lemma no_dash_Itoa i : (0 ≤ i)%Z → str_forall (λ a, negb (Ascii.eqb a "-")) (Itoa i) = true.
Proof.
  intros H. eapply str_forall_impl; [|by apply Itoa_digits].
  intros [[] [] [] [] [] [] [] []]; vm_compute; congruence.
Qed.

(** A pod's name determines its stateful set and its number. *)
Lemma pod_name_inj2 ss1 ss2 i j :
  (0 ≤ i)%Z → (0 ≤ j)%Z → pod_name ss1 i = pod_name ss2 j → ss1 = ss2 ∧ i = j.
Proof.
  intros Hi Hj H. unfold pod_name in H.
  destruct (append_sep_inj "-" ss1 ss2 (Itoa i) (Itoa j)) as [-> H2];
    [by apply no_dash_Itoa..|exact H|]. by apply Itoa_inj in H2 as ->.
Qed.

Lemma elem_of_getPodNames groups pod :
  pod ∈ getPodNames groups ↔
  ∃ g s n i, groups !! g = Some s ∧ Replicas s = Some n ∧ (0 ≤ i < n)%Z ∧
             pod = pod_name (hc_Name instance +:+ "-namenode-" +:+ g) i.
Proof.
  unfold getPodNames. rewrite list_elem_of_In, in_concat. split.
  - intros (l & Hl & Hp). apply list_elem_of_In, list_elem_of_fmap in Hl as ([g s] & -> & Hg).
    apply elem_of_range in Hg. apply list_elem_of_In in Hp. unfold group_pod_names in Hp.
    simpl in Hp. destruct (Replicas s) as [n|] eqn:Hr; [|by apply not_elem_of_nil in Hp].
    apply list_elem_of_fmap in Hp as (i & -> & Hi%elem_of_indices).
    exists g, s, n, i. done.
  - intros (g & s & n & i & Hg & Hr & Hi & ->). exists (group_pod_names (g, s)). split.
    + apply list_elem_of_In, list_elem_of_fmap. exists (g, s). split; [done|by apply elem_of_range].
    + apply list_elem_of_In. unfold group_pod_names. simpl. rewrite Hr.
      apply list_elem_of_fmap. exists i. by rewrite elem_of_indices.
Qed.

Lemma NoDup_getPodNames groups : NoDup (getPodNames groups).
Proof.
  unfold getPodNames. pose proof (NoDup_fst_range groups) as Hnd.
  induction (range groups) as [|[g s] l IH]; simpl; [constructor|].
  rewrite fmap_cons, NoDup_cons in Hnd. destruct Hnd as [Hg Hnd].
  apply NoDup_app. split; [|split; [|by apply IH]].
  - unfold group_pod_names. simpl. destruct (Replicas s); [|constructor].
    apply NoDup_fmap_2; [intros i j; apply pod_name_inj|apply NoDup_indices].
  - intros pod Hp Hin. apply Hg.
    apply list_elem_of_In, in_concat in Hin as (ps & Hps & Hin).
    apply list_elem_of_In, list_elem_of_fmap in Hps as ([g' s'] & -> & Hl).
    apply list_elem_of_In in Hin. unfold group_pod_names in Hp, Hin. simpl in Hp, Hin.
    destruct (Replicas s) as [n|]; [|by apply not_elem_of_nil in Hp].
    destruct (Replicas s') as [n'|]; [|by apply not_elem_of_nil in Hin].
    apply list_elem_of_fmap in Hp as (i & -> & Hi%elem_of_indices).
    apply list_elem_of_fmap in Hin as (j & Heq & Hj%elem_of_indices).
    apply pod_name_inj2 in Heq as [Heq _]; [|lia..].
    apply append_inj_l, append_inj_l in Heq as ->. simpl.
    apply list_elem_of_fmap. by exists (g', s').
Qed.

(** ** The document *)

Definition connection_key (portName podName : string) : string :=
  "dfs.namenode." +:+ portName +:+ "-address." +:+ hc_Name instance +:+ "." +:+ podName.

Lemma connection_names portName pods cs :
  mmap (connection portName) pods = Ret cs → Name <$> cs = map (connection_key portName) pods.
Proof.
  intros H. apply mmap_ret_inv in H. induction H as [|pod c pods cs Hc _ IH]; [done|].
  rewrite fmap_cons, IH. cbn [map]. f_equal. unfold connection in Hc. go_inv. done.
Qed.

Definition scheme (cfg : ClusterConfigSpec) : string :=
  if IsTlsEnabled cfg then "https" else "http".

Definition discovery_pairs (cfg : ClusterConfigSpec) (pods : list string)
    (http rpc : list XmlNameValuePair) : list XmlNameValuePair :=
  commonHdfsSiteXml ++ makeDiscoveryHosts pods :: http ++ rpc
  ++ (if IsKerberosEnabled cfg then SecurityDiscoveryHdfsSiteXml else []).

Lemma connection_block key portName pods :
  key = "dfs.namenode." +:+ portName +:+ "-address." →
  (∀ x, kind_of (key +:+ x) = key) → NoDup pods →
  NoDup (map (connection_key portName) pods) ∧
  Forall (λ n, kind_of n = key) (map (connection_key portName) pods).
Proof.
  intros Hkey Hkind Hnd.
  assert (Heq : ∀ pod, connection_key portName pod = key +:+ hc_Name instance +:+ "." +:+ pod).
  { intros pod. rewrite Hkey. unfold connection_key. by rewrite !append_assoc. }
  split.
  - apply NoDup_fmap_2; [|done]. intros p q. rewrite !Heq.
    by intros ->%append_inj_l%append_inj_l%append_inj_l.
  - apply Forall_forall. intros n (pod & -> & _)%list_elem_of_fmap. by rewrite Heq.
Qed.

Lemma discovery_pairs_NoDup cfg pods http rpc :
  NoDup pods → mmap (connection (scheme cfg)) pods = Ret http →
  mmap (connection RpcName) pods = Ret rpc →
  NoDup (Name <$> discovery_pairs cfg pods http rpc).
Proof.
  intros Hnd Hh%connection_names Hr%connection_names.
  set (web := if IsTlsEnabled cfg then "dfs.namenode.https-address."
              else "dfs.namenode.http-address.").
  set (bs := [ block "dfs.nameservices" [kv "dfs.nameservices" (hc_Name instance)];
     block "dfs.client.failover.proxy.provider."
       [kv ("dfs.client.failover.proxy.provider." +:+ hc_Name instance)
          "org.apache.hadoop.hdfs.server.namenode.ha.ConfiguredFailoverProxyProvider"];
     block "dfs.ha.namenodes." [makeDiscoveryHosts pods];
     (web, Name <$> http); ("dfs.namenode.rpc-address.", Name <$> rpc) ]
     ++ singles (if IsKerberosEnabled cfg then SecurityDiscoveryHdfsSiteXml else [])).
  assert (Hbs : Name <$> discovery_pairs cfg pods http rpc = concat bs.*2).
  { unfold discovery_pairs, bs. simpl. rewrite !fmap_app.
    by destruct (IsKerberosEnabled cfg). }
  rewrite Hbs. apply NoDup_kinds.
  - unfold bs, web. destruct (IsKerberosEnabled cfg), (IsTlsEnabled cfg);
      apply (bool_decide_eq_true_1 _); vm_compute; reflexivity.
  - unfold bs. apply Forall_app_2.
    2: { apply singles_ok. destruct (IsKerberosEnabled cfg); repeat constructor. }
    unfold makeDiscoveryHosts.
    repeat apply Forall_cons_2; try apply Forall_nil_2;
      try (apply block_single; first [reflexivity | destruct (hc_Name instance); reflexivity]).
    + simpl. rewrite Hh. apply connection_block; [|unfold web|done].
      * unfold web, scheme. by destruct (IsTlsEnabled cfg).
      * destruct (IsTlsEnabled cfg); intros []; reflexivity.
    + simpl. rewrite Hr. apply connection_block; [done|intros []; reflexivity|done].
Qed.

Lemma makeHdfsSiteXmlData_reads cfg nn http rpc :
  ClusterConfig (Spec instance) = Some cfg → NameNode (Spec instance) = Some nn →
  let pods := getPodNames (RoleGroups nn) in
  mmap (connection (scheme cfg)) pods = Ret http → mmap (connection RpcName) pods = Ret rpc →
  Forall xml_pair (discovery_pairs cfg pods http rpc) →
  ∃ doc, makeHdfsSiteXmlData = Ret doc ∧
    Unmarshal doc = Ret (discovery_pairs cfg pods http rpc).
Proof.
  intros Hcfg Hnn pods Hh Hr Hx.
  pose proof (discovery_pairs_NoDup cfg pods http rpc (NoDup_getPodNames _) Hh Hr) as Hnd.
  unfold makeHdfsSiteXmlData, makeDynamicHdfsSiteXml. rewrite Hnn, Hcfg. simpl. fold pods.
  rewrite (createConnections_eq pods cfg Hcfg). fold (scheme cfg). rewrite Hh, Hr. simpl.
  set (props := if IsKerberosEnabled cfg then _ else _).
  assert (Hp : discovery_pairs cfg pods http rpc = commonHdfsSiteXml ++ props).
  { unfold discovery_pairs, props. destruct (IsKerberosEnabled cfg); simpl;
      rewrite ?app_nil_r, <- ?app_assoc; done. }
  rewrite Hp in *. pose proof Hnd as Hnd'. rewrite fmap_app in Hnd'.
  apply NoDup_app in Hnd' as (H1 & _ & H2).
  rewrite XmlConfiguration_String_merge by done. simpl.
  rewrite merge_disjoint by done. eexists. split; [done|]. by apply unmarshal_doc.
Qed.

End with_platform.

(** ** Claims *)

(** C6. The cache of listener addresses does not show: [createConnections]
    gives the connections (or the failure) that reading each pod's listener
    anew would give, first the web addresses of all pods in order, then the RPC
    addresses, for every answer of the API server. *)
Theorem discovery_connections_uncached {P : Platform} {MR : MapRange} R instance cfg podNames :
  ClusterConfig (Spec instance) = Some cfg →
  createConnections R instance podNames
  = http ← mmap (connection R instance (if IsTlsEnabled cfg then "https" else "http")) podNames;
    match mmap (connection R instance RpcName) podNames with
    | Ret rpc => Ret (http ++ rpc)
    | Err _ => Ret http
    | Panic w => Panic w
    | Beyond w => Beyond w
    end.
Proof. apply createConnections_eq. Qed.

(** C20. The pods the discovery lists are exactly the pods of the name node
    stateful sets, of all role groups, each once, in groups whose replica count
    is set. *)
Theorem discovery_pods {P : Platform} {MR : MapRange} instance ci nn :
  full_name_spec P → ClusterName ci = hc_Name instance →
  NoDup (getPodNames instance (RoleGroups nn)) ∧
  ∀ pod, pod ∈ getPodNames instance (RoleGroups nn) ↔
    ∃ g s n i, RoleGroups nn !! g = Some s ∧ Replicas s = Some n ∧ (0 ≤ i < n)%Z ∧
               pod = pod_name (GetFullName (group_info ci NameNodeRole g)) i.
Proof.
  intros HP Hci. split; [apply NoDup_getPodNames|]. intros pod. rewrite elem_of_getPodNames.
  assert (Heq : ∀ g, GetFullName (group_info ci NameNodeRole g)
                     = hc_Name instance +:+ "-namenode-" +:+ g).
  { intros g. rewrite HP. unfold rg_ClusterInfo. simpl. rewrite Hci. done. }
  by setoid_rewrite Heq.
Qed.

(** C11. When every pod's listener has its web and RPC ports, the discovery's
    [hdfs-site.xml] reads back as the name service with its failover provider,
    the list of all pods, a web address and an RPC address per pod, and the
    client's Kerberos settings; no name occurs twice, so a client that takes
    the last value of a name finds each of them. *)
Theorem discovery_document {P : Platform} {MR : MapRange} R instance cfg nn http rpc :
  ClusterConfig (Spec instance) = Some cfg → NameNode (Spec instance) = Some nn →
  let pods := getPodNames instance (RoleGroups nn) in
  mmap (connection R instance (scheme cfg)) pods = Ret http →
  mmap (connection R instance RpcName) pods = Ret rpc →
  Forall xml_pair (discovery_pairs instance cfg pods http rpc) →
  ∃ doc, makeHdfsSiteXmlData R instance = Ret doc ∧
    Unmarshal doc = Ret (discovery_pairs instance cfg pods http rpc) ∧
    NoDup (Name <$> discovery_pairs instance cfg pods http rpc) ∧
    length http = length pods ∧ length rpc = length pods.
Proof.
  intros Hcfg Hnn pods Hh Hr Hx.
  destruct (makeHdfsSiteXmlData_reads R instance cfg nn http rpc) as (doc & Hdoc & Hread); try done.
  exists doc. split_and!; [done..| | |].
  - eapply discovery_pairs_NoDup; eauto using NoDup_getPodNames.
  - symmetry. eapply Forall2_length, mmap_ret_inv, Hh.
  - symmetry. eapply Forall2_length, mmap_ret_inv, Hr.
Qed.

(** C29. The error paths of the discovery: when a web address is missing, the
    build fails with that error and nothing is published. When all web
    addresses are there and an RPC address is missing, the error is dropped:
    the properties are those without any RPC address, of any pod. *)
Theorem discovery_error_paths {P : Platform} {MR : MapRange} R instance cfg nn :
  ClusterConfig (Spec instance) = Some cfg → NameNode (Spec instance) = Some nn →
  let pods := getPodNames instance (RoleGroups nn) in
  (∀ e, mmap (connection R instance (scheme cfg)) pods = Err e →
        discovery_Build R instance = Err e) ∧
  (∀ http e, mmap (connection R instance (scheme cfg)) pods = Ret http →
             mmap (connection R instance RpcName) pods = Err e →
             makeDynamicHdfsSiteXml R instance = Ret (makeDiscoveryHosts instance pods :: http)).
Proof.
  intros Hcfg Hnn pods. split.
  - intros e He. unfold discovery_Build, makeHdfsSiteXmlData, makeDynamicHdfsSiteXml.
    rewrite Hnn. simpl. fold pods. rewrite (createConnections_eq R instance pods cfg Hcfg).
    fold (scheme cfg). by rewrite He.
  - intros http e Hh He. unfold makeDynamicHdfsSiteXml. rewrite Hnn. simpl. fold pods.
    rewrite (createConnections_eq R instance pods cfg Hcfg). fold (scheme cfg). by rewrite Hh, He.
Qed.

(** ** Witnesses *)

(** Two name node pods, with a listener each. *)
Definition sample_address (ports : gmap string Z) (addr : string) : IngressAddressSpec :=
  {| Address := addr; Ports := ports |}.

Definition sample_reads (ports : gmap string Z) : Reads := {|
  pod_labels _ pod := Ret {[ "listeners.kubedoop.dev/mnt.0" := pod +:+ "-listener" ]};
  listener_addresses _ l := Ret [sample_address ports "10.0.0.1"];
|}.

Definition sample_ports : gmap string Z := <["http" := 30070%Z]> {["rpc" := 30820%Z]}.

Definition sample_pods : list string :=
  ["simple-hdfs-namenode-default-0"; "simple-hdfs-namenode-default-1"].

Lemma sample_getPodNames auth :
  getPodNames (P := sample_platform) (MR := sorted_range) (sample_instance auth)
    (RoleGroups (sample_role 2)) = sample_pods.
Proof. reflexivity. Qed.

Definition sample_web : list XmlNameValuePair :=
  [kv "dfs.namenode.http-address.simple-hdfs.simple-hdfs-namenode-default-0" "10.0.0.1:30070";
   kv "dfs.namenode.http-address.simple-hdfs.simple-hdfs-namenode-default-1" "10.0.0.1:30070"].

Definition sample_rpc : list XmlNameValuePair :=
  [kv "dfs.namenode.rpc-address.simple-hdfs.simple-hdfs-namenode-default-0" "10.0.0.1:30820";
   kv "dfs.namenode.rpc-address.simple-hdfs.simple-hdfs-namenode-default-1" "10.0.0.1:30820"].

Lemma discovery_connections_uncached_witness :
  createConnections (P := sample_platform) (MR := sorted_range) (sample_reads sample_ports)
    (sample_instance None) sample_pods = Ret (sample_web ++ sample_rpc).
Proof.
  rewrite (@discovery_connections_uncached sample_platform sorted_range _ (sample_instance None)
    (sample_cluster_config None) sample_pods eq_refl).
  vm_compute. reflexivity.
Defined.

Lemma discovery_pods_witness :
  NoDup (getPodNames (P := sample_platform) (MR := sorted_range) (sample_instance None)
    (RoleGroups (sample_role 2))).
Proof.
  exact (proj1 (@discovery_pods sample_platform sorted_range (sample_instance None)
    sample_cluster_info (sample_role 2) sample_full_name eq_refl)).
Defined.

Lemma sample_web_connections :
  mmap (connection (P := sample_platform) (MR := sorted_range) (sample_reads sample_ports)
    (sample_instance None) "http") sample_pods = Ret sample_web.
Proof. vm_compute. reflexivity. Qed.

Lemma sample_rpc_connections :
  mmap (connection (P := sample_platform) (MR := sorted_range) (sample_reads sample_ports)
    (sample_instance None) RpcName) sample_pods = Ret sample_rpc.
Proof. vm_compute. reflexivity. Qed.

Lemma discovery_document_witness :
  ∃ doc,
    makeHdfsSiteXmlData (P := sample_platform) (MR := sorted_range) (sample_reads sample_ports)
      (sample_instance None) = Ret doc ∧
    Unmarshal doc
    = Ret (discovery_pairs (P := sample_platform) (sample_instance None)
             (sample_cluster_config None) sample_pods sample_web sample_rpc).
Proof.
  destruct (@discovery_document sample_platform sorted_range (sample_reads sample_ports)
    (sample_instance None) (sample_cluster_config None) (sample_role 2) sample_web sample_rpc
    eq_refl eq_refl sample_web_connections sample_rpc_connections) as (doc & H1 & H2 & _).
  - apply (bool_decide_eq_true_1 _). vm_compute. reflexivity.
  - exists doc. split; [exact H1|exact H2].
Defined.

Lemma discovery_error_paths_witness :
  makeDynamicHdfsSiteXml (P := sample_platform) (MR := sorted_range)
    (sample_reads {["http" := 30070%Z]}) (sample_instance None)
  = Ret (kv "dfs.ha.namenodes.simple-hdfs"
           "simple-hdfs-namenode-default-0,simple-hdfs-namenode-default-1" :: sample_web).
Proof.
  refine (proj2 (@discovery_error_paths sample_platform sorted_range
    (sample_reads {["http" := 30070%Z]}) (sample_instance None) (sample_cluster_config None)
    (sample_role 2) eq_refl eq_refl) sample_web
    (EMsg "not found port in address rpc by port name") _ _);
    vm_compute; reflexivity.
Defined.
