(* ===== verification/RoleConfig.v ===== *)
(** * Role configuration: [internal/common/role_config.go] and [affinity.go]

    The defaults of a role, their merge into the configuration of a role group,
    the resources of a container and the affinity of its pods. *)

From S2P Require Import Prelude GoStd GoXml Api.

Section with_platform.
Context {P : Platform}.

(** ** affinity.go *)

Record PodAffinity := {
  affinityRequired : bool;
  anti : bool;
  weight : Z;
  labels : gmap string string;
}.

Definition NewPodAffinity (ls : gmap string string) (required anti_ : bool) : PodAffinity :=
  {| affinityRequired := required; anti := anti_; weight := 0; labels := ls |}.

Definition Weight (w : Z) (p : PodAffinity) : PodAffinity :=
  {| affinityRequired := affinityRequired p; anti := anti p; weight := w; labels := labels p |}.

Record PodAffinityTerm := { MatchLabels : gmap string string; TopologyKey : string }.
Record WeightedPodAffinityTerm := { term_Weight : Z; term : PodAffinityTerm }.

(** The required and the preferred terms of a [corev1.PodAffinity] or
    [PodAntiAffinity]. *)
Record AffinityTerms := {
  Required : list PodAffinityTerm;
  Preferred : list WeightedPodAffinityTerm;
}.

Record Affinity := { af_PodAffinity : AffinityTerms; af_PodAntiAffinity : AffinityTerms }.

Record AffinityBuilder := { ab_PodAffinity : list PodAffinity }.

Definition NewAffinityBuilder (podAffinity : list PodAffinity) : AffinityBuilder :=
  {| ab_PodAffinity := podAffinity |}.

Definition AddPodAffinity (a : AffinityBuilder) (podAffinity : PodAffinity) : AffinityBuilder :=
  {| ab_PodAffinity := ab_PodAffinity a ++ [podAffinity] |}.

Definition add_required (t : AffinityTerms) (x : PodAffinityTerm) : AffinityTerms :=
  {| Required := Required t ++ [x]; Preferred := Preferred t |}.

Definition add_preferred (t : AffinityTerms) (x : WeightedPodAffinityTerm) : AffinityTerms :=
  {| Required := Required t; Preferred := Preferred t ++ [x] |}.

(** The body of the loop of [buildPodAffinity]; [pa] is a copy, so the weight
    set in it stays local. *)
Definition affinity_step (st : AffinityTerms * AffinityTerms) (pa : PodAffinity)
    : AffinityTerms * AffinityTerms :=
  let t := {| MatchLabels := labels pa; TopologyKey := LabelHostname |} in
  if affinityRequired pa then
    if anti pa then (st.1, add_required st.2 t) else (add_required st.1 t, st.2)
  else
    let w := if decide (weight pa = 0%Z) then DefaultHardPodAffinitySymmetricWeight
             else weight pa in
    let wt := {| term_Weight := w; term := t |} in
    if anti pa then (st.1, add_preferred st.2 wt) else (add_preferred st.1 wt, st.2).

Definition no_terms : AffinityTerms := {| Required := []; Preferred := [] |}.

Definition buildPodAffinity (a : AffinityBuilder) : AffinityTerms * AffinityTerms :=
  foldl affinity_step (no_terms, no_terms) (ab_PodAffinity a).

Definition Affinity_Build (a : AffinityBuilder) : Affinity :=
  let '(podAffinity, podAntiAffinity) := buildPodAffinity a in
  {| af_PodAffinity := podAffinity; af_PodAntiAffinity := podAntiAffinity |}.

(** [AffinityDefault] of [util.go]. *)
Definition AffinityDefault (role : Role) (crName : string) : Affinity :=
  {| af_PodAffinity :=
       {| Required := [];
          Preferred := [ {| term_Weight := 20;
                            term := {| MatchLabels := {[LabelCrName := crName]};
                                       TopologyKey := LabelHostname |} |} ] |};
     af_PodAntiAffinity :=
       {| Required := [];
          Preferred := [ {| term_Weight := 70;
                            term := {| MatchLabels := <[LabelCrName := crName]>
                                                      {[LabelComponent := role]};
                                       TopologyKey := LabelHostname |} |} ] |} |}.

(** ** role_config.go *)

(** [time.Minute], in nanoseconds. *)
Definition Minute : Z := 60000000000.

Record GeneralNodeConfig := { gen_Affinity : AffinityBuilder; gracefulShutdownTimeout : Z }.

Record RoleNodeConfig := {
  resources : ResourcesSpec;
  listenerClass : string;
  common : GeneralNodeConfig;
}.

Definition parseQuantity (q : string) : Quantity := MustParse q.

(** The quantities of the four cases, in the order CPU minimum and maximum,
    memory, storage. *)
Definition GetContainerResource (role : Role) : outcome ResourcesSpec :=
  let spec cpuMin cpuMax memoryLimit storage :=
    {| CPU := Some {| Min := parseQuantity cpuMin; Max := parseQuantity cpuMax |};
       Memory := Some {| Limit := parseQuantity memoryLimit |};
       Storage := Some {| Capacity := parseQuantity storage |} |} in
  if decide (role = NameNodeRole) then Ret (spec "300m" "1000m" "1024Mi" "1Gi")
  else if decide (role = DataNodeRole) then Ret (spec "100m" "400m" "512Mi" "2Gi")
  else if decide (role = JournalNodeRole) then Ret (spec "100m" "400m" "512Mi" "1Gi")
  else Panic ("unsupported role: " +:+ role).

Definition newDefaultResourceSpec (role : Role) : outcome ResourcesSpec :=
  GetContainerResource role.

Definition DefaultNodeConfig (clusterName : string) (role : Role) (lc : string) (timeout : Z)
    : outcome RoleNodeConfig :=
  rs ← newDefaultResourceSpec role;
  Ret {| resources := rs;
         listenerClass := lc;
         common :=
           {| gen_Affinity :=
                {| ab_PodAffinity :=
                     [ Weight 20 (NewPodAffinity {[LabelCrName := clusterName]} false false);
                       Weight 70 (NewPodAffinity (<[LabelCrName := clusterName]>
                                                  {[LabelComponent := role]}) false true) ] |};
              gracefulShutdownTimeout := timeout |} |}.

Definition DefaultNameNodeConfig (clusterName : string) : outcome RoleNodeConfig :=
  DefaultNodeConfig clusterName NameNodeRole ClusterInternal (15 * Minute).

Definition DefaultDataNodeConfig (clusterName : string) : outcome RoleNodeConfig :=
  DefaultNodeConfig clusterName DataNodeRole ClusterInternal (30 * Minute).

Definition DefaultJournalNodeConfig (clusterName : string) : outcome RoleNodeConfig :=
  DefaultNodeConfig clusterName JournalNodeRole "" (15 * Minute).

Definition DefaultRoleConfig (clusterName : string) (role : Role) : outcome RoleNodeConfig :=
  if decide (role = NameNodeRole) then DefaultNameNodeConfig clusterName
  else if decide (role = DataNodeRole) then DefaultDataNodeConfig clusterName
  else if decide (role = JournalNodeRole) then DefaultJournalNodeConfig clusterName
  else Panic ("unsupported role: " +:+ role).

(** The resources part of [MergeDefaultConfig]. When the user gives CPU or
    memory, the user's own object is updated; when the user gives neither, a
    fresh one replaces it. *)
Definition merge_resources (defaults : ResourcesSpec) (mergedResources : option ResourcesSpec)
    : ResourcesSpec :=
  match mergedResources with
  | None => defaults
  | Some m =>
      let res :=
        match CPU m, Memory m with
        | None, None => {| CPU := None; Memory := None; Storage := None |}
        | _, _ =>
            {| CPU := match CPU m with
                      | None => CPU defaults
                      | Some c => if IsZero (Max c) && IsZero (Min c) then None else Some c
                      end;
               Memory := match Memory m with
                         | None => Memory defaults
                         | Some mem => if IsZero (Limit mem) then None else Some mem
                         end;
               Storage := Storage m |}
        end in
      match Storage m with
      | None => {| CPU := CPU res; Memory := Memory res; Storage := Storage defaults |}
      | Some _ => res
      end
  end.

Definition MergeDefaultConfig (n : RoleNodeConfig) (mergedCfg : ConfigSpec) : ConfigSpec :=
  let rg := default {| Resources := None; Logging := None |} (cs_RoleGroupConfigSpec mergedCfg) in
  {| cs_RoleGroupConfigSpec :=
       Some {| Resources := Some (merge_resources (resources n) (Resources rg));
               Logging := Logging rg |};
     ListenerClass :=
       match ListenerClass mergedCfg with
       | None => if decide (listenerClass n = "") then None else Some (listenerClass n)
       | Some lc => Some lc
       end |}.

(** ** [ConvertToResourceRequirements] of util.go *)

(** A nil list and an empty list of resources are one value. *)
Record ResourceRequirements := {
  Requests : gmap string Quantity;
  Limits : gmap string Quantity;
}.

Definition set_unless_zero (k : string) (q : option Quantity) (m : gmap string Quantity)
    : gmap string Quantity :=
  match q with
  | Some v => if IsZero v then m else <[k := v]> m
  | None => m
  end.

Definition ConvertToResourceRequirements (rs : option ResourcesSpec)
    : option ResourceRequirements :=
  match rs with
  | None => None
  | Some r =>
      Some {| Requests := set_unless_zero "memory" (Limit <$> Memory r)
                            (set_unless_zero "cpu" (Min <$> CPU r) ∅);
              Limits := set_unless_zero "memory" (Limit <$> Memory r)
                          (set_unless_zero "cpu" (Max <$> CPU r) ∅) |}
  end.

End with_platform.

(** ** Claims *)

(** The affinity that the default configuration of a role builds is the one
    [AffinityDefault] gives for the role: pods near the cluster with weight 20,
    pods of the same role apart with weight 70, nothing required. *)
Theorem default_affinity_agrees {P : Platform} clusterName role n :
  DefaultRoleConfig clusterName role = Ret n →
  Affinity_Build (gen_Affinity (common n)) = AffinityDefault role clusterName.
Proof.
  unfold DefaultRoleConfig, DefaultNameNodeConfig, DefaultDataNodeConfig, DefaultJournalNodeConfig,
    DefaultNodeConfig, newDefaultResourceSpec, GetContainerResource.
  intros H. repeat case_decide; simplify_eq; simpl in H; simplify_eq; done.
Qed.

(** [buildPodAffinity] loses no affinity and keeps the order: the terms of
    each of the four lists are those of the affinities of its kind, and a
    preferred affinity without a weight gets the default weight. *)
Theorem build_pod_affinity_spec {P : Platform} a :
  let part (req an : bool) :=
    filter (λ p, affinityRequired p = req ∧ anti p = an) (ab_PodAffinity a) in
  let t p := {| MatchLabels := labels p; TopologyKey := LabelHostname |} in
  let wt p := {| term_Weight := if decide (weight p = 0%Z) then DefaultHardPodAffinitySymmetricWeight
                                else weight p; term := t p |} in
  Affinity_Build a
  = {| af_PodAffinity := {| Required := map t (part true false);
                            Preferred := map wt (part false false) |};
       af_PodAntiAffinity := {| Required := map t (part true true);
                                Preferred := map wt (part false true) |} |}.
Proof.
  unfold Affinity_Build, buildPodAffinity. destruct a as [l]. simpl.
  induction l as [|p l IH] using rev_ind; [done|].
  rewrite foldl_app. simpl. destruct (foldl affinity_step (no_terms, no_terms) l) as [pa paa].
  injection IH as -> ->. rewrite !filter_app.
  unfold affinity_step. destruct (affinityRequired p) eqn:Hr, (anti p) eqn:Ha; simpl;
    rewrite !filter_cons, !filter_nil, Hr, Ha; simpl;
    unfold add_required, add_preferred; simpl; rewrite !map_app, ?app_nil_r; simpl; done.
Qed.

(** [ConvertToResourceRequirements] asks for the memory limit and the CPU
    minimum, limits to the memory limit and the CPU maximum, and never sets a
    quantity that is zero. *)
Theorem resource_requirements_nonzero {P : Platform} rs req :
  ConvertToResourceRequirements (Some rs) = Some req →
  Requests req !! "memory" = Limits req !! "memory" ∧
  map_Forall (λ _ q, IsZero q = false) (Requests req) ∧
  map_Forall (λ _ q, IsZero q = false) (Limits req) ∧
  (∀ c, CPU rs = Some c → IsZero (Min c) = false → Requests req !! "cpu" = Some (Min c)) ∧
  (∀ c, CPU rs = Some c → IsZero (Max c) = false → Limits req !! "cpu" = Some (Max c)) ∧
  (∀ m, Memory rs = Some m → IsZero (Limit m) = false → Limits req !! "memory" = Some (Limit m)).
Proof.
  assert (Hset : ∀ k q m, map_Forall (λ _ q, IsZero q = false) m →
    map_Forall (λ _ q, IsZero q = false) (set_unless_zero k q m)).
  { intros k [q|] m Hm; simpl; [|done]. destruct (IsZero q) eqn:Hz; [done|].
    by apply map_Forall_insert_2. }
  intros [= <-]. simpl. repeat split; [|repeat apply Hset; apply map_Forall_empty..| | |].
  - destruct (Memory rs) as [m|]; simpl; [destruct (IsZero (Limit m)); simpl|];
      rewrite ?lookup_insert_eq; try done;
      destruct (CPU rs) as [c|]; simpl; try done;
      destruct (IsZero (Min c)), (IsZero (Max c)); simpl;
      rewrite ?lookup_insert_ne by done; rewrite ?lookup_empty; done.
  - intros c Hc Hz. rewrite Hc. simpl. rewrite Hz.
    destruct (Memory rs) as [m|]; simpl; [destruct (IsZero (Limit m))|];
      rewrite ?lookup_insert_ne by done; by rewrite lookup_insert_eq.
  - intros c Hc Hz. rewrite Hc. simpl. rewrite Hz.
    destruct (Memory rs) as [m|]; simpl; [destruct (IsZero (Limit m))|];
      rewrite ?lookup_insert_ne by done; by rewrite lookup_insert_eq.
  - intros m Hm Hz. rewrite Hm. simpl. rewrite Hz. by rewrite lookup_insert_eq.
Qed.

(** ** Witnesses *)

Lemma default_affinity_agrees_witness :
  ∃ n, DefaultRoleConfig (P := sample_platform) "simple-hdfs" JournalNodeRole = Ret n ∧
    Affinity_Build (P := sample_platform) (gen_Affinity (common (P := sample_platform) n))
    = AffinityDefault (P := sample_platform) JournalNodeRole "simple-hdfs".
Proof.
  eexists. split; [reflexivity|].
  apply (@default_affinity_agrees sample_platform). reflexivity.
Defined.

Lemma resource_requirements_nonzero_witness :
  let rs : ResourcesSpec (P := sample_platform) :=
    {| CPU := Some {| Min := "0" : Quantity (Platform := sample_platform); Max := "400m" |};
       Memory := Some {| Limit := "512Mi" : Quantity (Platform := sample_platform) |};
       Storage := None |} in
  ∃ req, ConvertToResourceRequirements (Some rs) = Some req ∧
    Requests req !! "memory" = Limits req !! "memory".
Proof.
  intros rs. eexists. split; [reflexivity|].
  exact (proj1 (@resource_requirements_nonzero sample_platform rs _ eq_refl)).
Defined.
