(* ===== verification/Containers.v ===== *)
(** * Containers: [internal/common/container.go], the container builders of the
    roles and the parts of [util.go] they use

    The components that describe a container, and [BuildWithComponent], which
    turns one into calls of operator-go's container builder. That builder is
    not in the repository: a container is the list of the calls made on it. *)

From S2P Require Import Prelude GoStd GoTemplate GoXml XmlUtil Api Constants Util Security Components RoleConfig.

Definition script (l : list string) : string := dq (lines l).

(** ** util.go: environment, mounts, ports *)

Section with_platform.
Context {P : Platform} {MR : MapRange}.

Definition GetMetricsPort (role : Role) : outcome Z :=
  if decide (role = NameNodeRole) then Ret NameNodeMetricPort
  else if decide (role = DataNodeRole) then Ret DataNodeMetricPort
  else if decide (role = JournalNodeRole) then Ret JournalNodeMetricPort
  else Err (EMsg ("unknown role: " +:+ role)).

Definition GetNativeMetricsPort (role : Role) (clusterConfig : ClusterConfigSpec) : outcome Z :=
  if decide (role = NameNodeRole) then
    Ret (if IsTlsEnabled clusterConfig then NameNodeNativeMetricsHttpsPort
         else NameNodeNativeMetricsHttpPort)
  else if decide (role = DataNodeRole) then
    Ret (if IsTlsEnabled clusterConfig then DataNodeNativeMetricsHttpsPort
         else DataNodeNativeMetricsHttpPort)
  else if decide (role = JournalNodeRole) then
    Ret (if IsTlsEnabled clusterConfig then JournalNodeNativeMetricsHttpsPort
         else JournalNodeNativeMetricsHttpPort)
  else Err (EMsg ("unknown role for get native metrics port: " +:+ role)).

Definition getEnvNameByContainerComponent (container : ContainerComponent) : string :=
  if decide (container = NameNodeComponent) then "HDFS_NAMENODE_OPTS"
  else if decide (container = DataNodeComponent) then "HDFS_DATANODE_OPTS"
  else if decide (container = JournalNodeComponent) then "HDFS_JOURNALNODE_OPTS"
  else "".

Definition getSubDirByContainerComponent (container : ContainerComponent) : string := container.

Definition GetCommonCommand : list string := ["/bin/bash"; "-x"; "-euo"; "pipefail"; "-c"].

Definition env (name value : string) : EnvVar :=
  {| ev_Name := name; ev_Value := value; ev_ValueFrom := None |}.

Definition env_from (name : string) (source : EnvVarSource) : EnvVar :=
  {| ev_Name := name; ev_Value := ""; ev_ValueFrom := Some source |}.

(** The argument of the metrics agent, when the container belongs to a role
    with a metrics port; an unknown role is only printed. *)
Definition java_agent_args (role : option Role) : list string :=
  match role with
  | None => []
  | Some r =>
      match GetMetricsPort r with
      | Ret metricPort =>
          let jarPath := path_Join [KubedoopJmxDir; "jmx_prometheus_javaagent.jar"] in
          let configPath := path_Join [KubedoopJmxDir; ToLower r +:+ ".yaml"] in
          [ "-javaagent:" +:+ jarPath +:+ "=" +:+ Itoa metricPort +:+ ":" +:+ configPath ]
      | _ => []
      end
  end.

Definition GetCommonContainerEnv (clusterConfig : ClusterConfigSpec)
    (container : ContainerComponent) (role : option Role) : list EnvVar :=
  let envs :=
    [ env "HADOOP_CONF_DIR"
        (path_Join [KubedoopConfigDir; getSubDirByContainerComponent container]);
      env "HADOOP_HOME" HadoopHome;
      env_from "POD_NAME" (FieldRef "metadata.name");
      env_from "ZOOKEEPER"
        (ConfigMapKeyRef (ZookeeperConfigMapName clusterConfig) ZookeeperHdfsDiscoveryKey) ] in
  let '(envs, jvmArgs) :=
    if IsKerberosEnabled clusterConfig then
      let '(es, args) := SecurityEnvs container [] in (envs ++ es, args)
    else (envs, []) in
  let envName := getEnvNameByContainerComponent container in
  let jvmArgs :=
    if decide (envName = "") then jvmArgs
    else jvmArgs ++ ["-Xmx419430k"] ++ java_agent_args role
         ++ [ "-Djava.security.properties="
              +:+ path_Join [KubedoopConfigDir; getSubDirByContainerComponent container;
                             "security.properties"] ] in
  if decide (length jvmArgs ≠ 0 ∧ envName ≠ "") then envs ++ [env envName (Join jvmArgs " ")]
  else envs.

Definition mount (name path : string) : VolumeMount := {| vm_Name := name; vm_MountPath := path |}.

Definition GetCommonVolumeMounts (clusterConfig : ClusterConfigSpec) : list VolumeMount :=
  [ mount KubedoopLogVolumeMountName KubedoopLogDir ]
  ++ (if IsKerberosEnabled clusterConfig then SecurityVolumeMounts else [])
  ++ (if IsTlsEnabled clusterConfig then TlsVolumeMounts else []).

(** [clusterConfig.Authentication.Kerberos.SecretClass] and the like panic when
    a pointer on the way is nil; the tests before them exclude that. *)
Definition GetCommonVolumes (clusterConfig : ClusterConfigSpec) (instanceName : string)
    (roleGroupInfo : RoleGroupInfo) : outcome (list Volume) :=
  let volumes := [ {| vol_Name := KubedoopLogVolumeMountName;
                      vol_Source := EmptyDir (MustParse "150Mi") |} ] in
  volumes ←
    (if IsKerberosEnabled clusterConfig then
       a ← deref (Authentication clusterConfig);
       k ← deref (Kerberos a);
       v ← CreateKerberosSecretPvc (krb_SecretClass k) instanceName
             (RoleName (rg_RoleInfo roleGroupInfo));
       Ret (volumes ++ [v])
     else Ret volumes);
  if IsTlsEnabled clusterConfig then
    a ← deref (Authentication clusterConfig);
    t ← deref (Tls a);
    let tlsSecretClass := tls_SecretClass t in
    let volumes := volumes ++ [CreateTlsSecretPvc tlsSecretClass (JksPassword t) roleGroupInfo] in
    Ret (volumes ++ [CreateTlsSecretPvc tlsSecretClass (JksPassword t) roleGroupInfo])
  else Ret volumes.

(** Logging builders of [util.go]. *)
Record LogBuilderLoggers := { logger : string; level : string }.
Record LogBuilderAppender := { appenderName : string; app_level : string }.
Record Log4jLoggingDataBuilder := {
  lb_Loggers : list LogBuilderLoggers;
  lb_Console : option LogBuilderAppender;
  lb_File : option LogBuilderAppender;
}.

Definition appender (name : string) (l : option LogLevelSpec) : option LogBuilderAppender :=
  match l with
  | Some s => Some {| appenderName := name; app_level := Level s |}
  | None => None
  end.

(** [level.Level] panics on a nil entry of the map of loggers. *)
Definition CreateLog4jBuilder (containerLogging : LoggingConfigSpec)
    (consoleAppenderName fileAppenderName : string) : outcome Log4jLoggingDataBuilder :=
  loggers ← match Loggers containerLogging with
            | None => Ret []
            | Some m =>
                mmap (λ kv, l ← deref kv.2; Ret {| logger := kv.1; level := Level l |}) (range m)
            end;
  Ret {| lb_Loggers := loggers;
         lb_Console := appender consoleAppenderName (Console containerLogging);
         lb_File := appender fileAppenderName (File containerLogging) |}.

(** ** container.go *)

(** The interface of a container component with its three optional
    interfaces. *)
Record ContainerComponentInterface := {
  GetContainerName : string;
  GetCommand : option (list string);
  GetArgs : outcome (list string);
  GetEnvVars : list EnvVar;
  GetVolumeMounts : list VolumeMount;
  PortsProvider : option (list ContainerPort);
  HealthCheckProvider : option (Probe * Probe);
  SecretProvider : option string;
}.

(** The calls on operator-go's container builder. *)
Inductive container_call :=
  | SetName (name : string)
  | SetLivenessProbe (p : option Probe)
  | SetReadinessProbe (p : option Probe)
  | AddEnvVars (envs : list EnvVar)
  | AddPorts (ports : list ContainerPort)
  | SetCommand (command : list string)
  | AddVolumeMounts (mounts : list VolumeMount)
  | SetArgs (args : list string)
  | AddEnvFromSecret (secret : string)
  | SetResources (r : option ResourcesSpec).

(** A built container: the component and image its builder was made with and
    the calls made on it. *)
Record Container := {
  ctr_Component : ContainerComponent;
  ctr_Image : ContainerImage;
  ctr_Calls : list container_call;
}.

Record HdfsContainerBuilder := {
  hb_Component : ContainerComponent;
  hb_Image : ContainerImage;
  hb_ZookeeperConfigMapName : string;
  hb_RoleGroupInfo : RoleGroupInfo;
  hb_RoleGroupConfig : option RoleGroupConfigSpec;
  hb_volumeMounts : list VolumeMount;
}.

Definition commonVolumeMounts : list VolumeMount :=
  [ mount constant_KubedoopLogVolumeMountName constant_KubedoopLogDirMount ].

Definition NewHdfsContainerBuilder (container : ContainerComponent) (image : ContainerImage)
    (zookeeperConfigMapName : string) (roleGroupInfo : RoleGroupInfo)
    (roleGroupConfig : option RoleGroupConfigSpec) : HdfsContainerBuilder :=
  {| hb_Component := container; hb_Image := image;
     hb_ZookeeperConfigMapName := zookeeperConfigMapName;
     hb_RoleGroupInfo := roleGroupInfo; hb_RoleGroupConfig := roleGroupConfig;
     hb_volumeMounts := commonVolumeMounts |}.

(** The resources of the zkfc container when none are configured. *)
Definition zkfc_resources : ResourcesSpec :=
  {| CPU := Some {| Min := MustParse "100m"; Max := MustParse "400m" |};
     Memory := Some {| Limit := MustParse "512Mi" |};
     Storage := None |}.

Definition resource_calls (name : string) (cfg : option RoleGroupConfigSpec)
    : list container_call :=
  match cfg with
  | None => []
  | Some c =>
      if decide (name = ZkfcContainer) then
        match Resources c with
        | None => [SetResources (Some zkfc_resources)]
        | Some r => [SetResources (Some r)]
        end
      else [SetResources (Resources c)]
  end.

(** [BuildWithComponent] with a non-nil component on a builder that was just
    made, as every caller does. *)
Definition BuildWithComponent (c : HdfsContainerBuilder) (component : ContainerComponentInterface)
    : outcome Container :=
  args ← GetArgs component;
  let command := default GetCommonCommand (GetCommand component) in
  let calls :=
    [ SetName (GetContainerName component);
      SetLivenessProbe (fst <$> HealthCheckProvider component);
      SetReadinessProbe (snd <$> HealthCheckProvider component);
      AddEnvVars (GetEnvVars component);
      AddPorts (default [] (PortsProvider component));
      SetCommand command;
      AddVolumeMounts (GetVolumeMounts component);
      SetArgs [Join args (String nl "")] ]
    ++ (let secretEnvfrom := default "" (SecretProvider component) in
        if decide (secretEnvfrom = "") then [] else [AddEnvFromSecret secretEnvfrom])
    ++ resource_calls (GetContainerName component) (hb_RoleGroupConfig c) in
  Ret {| ctr_Component := hb_Component c; ctr_Image := hb_Image c; ctr_Calls := calls |}.

(** ** The components *)

Definition container_port (name : string) (port : Z) : ContainerPort :=
  {| cp_Name := name; cp_Port := port; cp_Protocol := ProtocolTCP |}.

Definition liveness (cfg : ClusterConfigSpec) (path : string) : Probe :=
  {| FailureThreshold := 5; InitialDelaySeconds := 10; PeriodSeconds := 10;
     SuccessThreshold := 1; TimeoutSeconds := 1;
     Handler := HTTPGet (TlsHttpGetAction cfg path) |}.

Definition readiness (port : string) : Probe :=
  {| FailureThreshold := 3; InitialDelaySeconds := 10; PeriodSeconds := 10;
     SuccessThreshold := 1; TimeoutSeconds := 1; Handler := TCPSocket port |}.

(** The [maps.Copy] of the ticket data into the realm data. *)
Definition kerberos_data (cfg : ClusterConfigSpec) (principal : string) : gmap string TmplValue :=
  CreateGetKerberosTicketData principal ∪ CreateExportKrbRealmEnvData cfg.

(** The start script of the three main containers, which differ in the name of
    the daemon. *)
Definition daemon_args (cfg : ClusterConfigSpec) (name : string) : outcome (list string) :=
  let args :=
    [ lines [ "mkdir -p /kubedoop/config/" +:+ name;
              "cp /kubedoop/mount/config/" +:+ name +:+ "/*.xml /kubedoop/config/" +:+ name;
              "cp /kubedoop/mount/config/" +:+ name +:+ "/" +:+ name
              +:+ ".log4j.properties /kubedoop/config/" +:+ name +:+ "/log4j.properties" ] ]
    ++ (if IsKerberosEnabled cfg
        then [ lines [ "{{ if .kerberosEnabled}}"; "{{- .kerberosEnv}}"; "{{- end}}" ] ] else [])
    ++ [ CommonBashTrapFunctions; RemoveVectorShutdownFileCommand; InvokePrepareSignalHandlers;
         ExportPodAddress; "/kubedoop/hadoop/bin/hdfs " +:+ name +:+ " &";
         InvokeWaitForTermination; CreateVectorShutdownFileCommand ] in
  ParseTemplate (lines args) (CreateExportKrbRealmEnvData cfg).

(** Config and log mounts of a container. *)
Definition config_mounts (configVolume logVolume name : string) : list VolumeMount :=
  [ mount configVolume (path_Join [KubedoopConfigDirMount; name]);
    mount logVolume (path_Join [KubedoopLogDirMount; name]) ].

Definition nameNodeComponent (cfg : ClusterConfigSpec) : ContainerComponentInterface :=
  {| GetContainerName := NameNodeComponent;
     GetCommand := Some GetCommonCommand;
     GetArgs := daemon_args cfg "namenode";
     GetEnvVars := GetCommonContainerEnv cfg NameNodeComponent (Some NameNodeRole);
     GetVolumeMounts := GetCommonVolumeMounts cfg
       ++ config_mounts HdfsConfigVolumeMountName HdfsLogVolumeMountName NameNodeComponent
       ++ [ mount ListenerVolumeName KubedoopListenerDir; mount DataVolumeMountName KubedoopDataDir ];
     PortsProvider := Some [ container_port RpcName NameNodeRpcPort;
                             container_port MetricName NameNodeMetricPort;
                             HttpPort cfg NameNodeHttpsPort NameNodeHttpPort ];
     HealthCheckProvider := Some (liveness cfg "dfshealth.html", readiness RpcName);
     SecretProvider := None |}.

Definition dataNodeComponent (cfg : ClusterConfigSpec) : ContainerComponentInterface :=
  {| GetContainerName := DataNodeComponent;
     GetCommand := Some GetCommonCommand;
     GetArgs := daemon_args cfg "datanode";
     GetEnvVars := GetCommonContainerEnv cfg DataNodeComponent (Some DataNodeRole);
     GetVolumeMounts := GetCommonVolumeMounts cfg
       ++ config_mounts HdfsConfigVolumeMountName HdfsLogVolumeMountName DataNodeComponent
       ++ [ mount ListenerVolumeName KubedoopListenerDir;
            mount DataVolumeMountName (path_Join [DataNodeRootDataDirPrefix; DataVolumeMountName]) ];
     PortsProvider := Some [ container_port MetricName DataNodeMetricPort;
                             container_port DataName DataNodeDataPort;
                             container_port IpcName DataNodeIpcPort;
                             HttpPort cfg DataNodeHttpsPort DataNodeHttpPort ];
     HealthCheckProvider := Some (liveness cfg "/datanode.html", readiness IpcName);
     SecretProvider := None |}.

(** [GetStartupProbe] of the data node: no interface asks for it. *)
Definition dataNode_GetStartupProbe (cfg : ClusterConfigSpec) : Probe :=
  {| FailureThreshold := 30; InitialDelaySeconds := 10; PeriodSeconds := 10;
     SuccessThreshold := 0; TimeoutSeconds := 5;
     Handler := HTTPGet (TlsHttpGetAction cfg "/datanode.html") |}.

Definition journalNodeComponent (cfg : ClusterConfigSpec) : ContainerComponentInterface :=
  {| GetContainerName := JournalNodeComponent;
     GetCommand := Some GetCommonCommand;
     GetArgs := daemon_args cfg "journalnode";
     GetEnvVars := GetCommonContainerEnv cfg JournalNodeComponent (Some JournalNodeRole);
     GetVolumeMounts := GetCommonVolumeMounts cfg
       ++ config_mounts HdfsConfigVolumeMountName HdfsLogVolumeMountName JournalNodeComponent
       ++ [ mount DataVolumeMountName KubedoopDataDir ];
     PortsProvider := Some [ container_port RpcName JournalNodeRpcPort;
                             container_port MetricName JournalNodeMetricPort;
                             HttpPort cfg JournalNodeHttpsPort JournalNodeHttpPort ];
     HealthCheckProvider := Some (liveness cfg "/journalnode.html", readiness RpcName);
     SecretProvider := None |}.

(** The components without ports and probes. *)
Definition plain_component (name : ContainerComponent) (args : outcome (list string))
    (envs : list EnvVar) (mounts : list VolumeMount) : ContainerComponentInterface :=
  {| GetContainerName := name; GetCommand := Some GetCommonCommand; GetArgs := args;
     GetEnvVars := envs; GetVolumeMounts := mounts;
     PortsProvider := None; HealthCheckProvider := None; SecretProvider := None |}.

Definition format_namenode_template (namenodeIds : string) : string :=
  script
    [ "mkdir -p /kubedoop/config/format-namenodes";
          "cp /kubedoop/mount/config/format-namenodes/*.xml /kubedoop/config/format-namenodes";
          "cp /kubedoop/mount/config/format-namenodes/format-namenodes.log4j.properties /kubedoop/config/format-namenodes/log4j.properties";
          "";
          "{{ if .kerberosEnabled }}";
          "{{- .kerberosEnv }}";
          "";
          "{{- .kinitScript }}";
          "";
          "{{- end }}";
          "";
          "";
          "echo `Start formatting namenode $POD_NAME. Checking for active namenodes:`";
          "" ]
  +:+ "for namenode_id in " +:+ namenodeIds +:+ String nl "" +:+
  script
    [ "do";
          "    echo -n `Checking pod $namenode_id... `";
          "    SERVICE_STATE=$(/kubedoop/hadoop/bin/hdfs haadmin -getServiceState $namenode_id | tail -n1 || true)";
          "    if [ `$SERVICE_STATE` == `active` ]";
          "    then";
          "        ACTIVE_NAMENODE=$namenode_id";
          "        echo `active`";
          "        break";
          "    fi";
          "    echo ``";
          "done";
          "";
          "if [ ! -f `/kubedoop/data/namenode/current/VERSION` ]";
          "then";
          "    if [ -z ${ACTIVE_NAMENODE+x} ]";
          "    then";
          "        echo `Create pod $POD_NAME as active namenode.`";
          "        /kubedoop/hadoop/bin/hdfs namenode -format -noninteractive";
          "    else";
          "        echo `Create pod $POD_NAME as standby namenode.`";
          "        /kubedoop/hadoop/bin/hdfs namenode -bootstrapStandby -nonInteractive";
          "    fi";
          "else";
          "    cat `/kubedoop/data/namenode/current/VERSION`";
          "    echo `Pod $POD_NAME already formatted. Skipping...`";
          "fi";
          "" ].

Definition formatNameNode_GetArgs (instance : HdfsCluster) (cfg : ClusterConfigSpec)
    (nameNodeReplicates : Z) (statefulSetName : string) : outcome (list string) :=
  pods ← CreatePodNamesByReplicas nameNodeReplicates statefulSetName;
  let namenodeIds := Join pods " " in
  principal ← CreateKerberosPrincipal (hc_Name instance) (hc_Namespace instance) NameNodeRole;
  ParseTemplate (format_namenode_template namenodeIds) (kerberos_data cfg principal).

Definition formatNameNodeComponent (instance : HdfsCluster) (cfg : ClusterConfigSpec)
    (nameNodeReplicates : Z) (statefulSetName : string) : ContainerComponentInterface :=
  plain_component FormatNameNodeComponent
    (formatNameNode_GetArgs instance cfg nameNodeReplicates statefulSetName)
    (GetCommonContainerEnv cfg FormatNameNodeComponent None)
    (GetCommonVolumeMounts cfg
     ++ config_mounts FormatNamenodesConfigVolumeMountName FormatNamenodesLogVolumeMountName
          FormatNameNodeComponent
     ++ [ mount DataVolumeMountName KubedoopDataDir ]).

Definition format_zk_template : string :=
  script
    [ "mkdir -p /kubedoop/config/format-zookeeper";
          "cp /kubedoop/mount/config/format-zookeeper/*.xml /kubedoop/config/format-zookeeper";
          "cp /kubedoop/mount/config/format-zookeeper/format-zookeeper.log4j.properties /kubedoop/config/format-zookeeper/log4j.properties";
          "";
          "{{ if .kerberosEnabled }}";
          "{{- .kerberosEnv }}";
          "{{- end }}";
          "";
          "echo `Attempt to format ZooKeeper...`";
          "if [[ `0` -eq `$(echo $POD_NAME | sed -e 's/.*-//')` ]] ; then";
          "    set +e";
          "    /kubedoop/hadoop/bin/hdfs zkfc -formatZK -nonInteractive";
          "    EXITCODE=$?";
          "    set -e";
          "    if [[ $EXITCODE -eq 0 ]]; then";
          "        echo `Successfully formatted`";
          "    elif [[ $EXITCODE -eq 2 ]]; then";
          "        echo `ZNode already existed, did nothing`";
          "    else";
          "        echo `Zookeeper format failed with exit code $EXITCODE`";
          "        exit $EXITCODE";
          "    fi";
          "";
          "else";
          "    echo `ZooKeeper already formatted!`";
          "fi";
          "" ].

Definition formatZookeeperComponent (cfg : ClusterConfigSpec) : ContainerComponentInterface :=
  plain_component FormatZookeeperComponent
    (ParseTemplate format_zk_template (CreateExportKrbRealmEnvData cfg))
    (GetCommonContainerEnv cfg FormatZookeeperComponent None)
    (GetCommonVolumeMounts cfg
     ++ config_mounts FormatZookeeperConfigVolumeMountName FormatZookeeperLogVolumeMountName
          FormatZookeeperComponent).

Definition zkfc_template : string :=
  script
    [ "mkdir -p /kubedoop/config/zkfc";
          "cp /kubedoop/mount/config/zkfc/*.xml /kubedoop/config/zkfc";
          "cp /kubedoop/mount/config/zkfc/zkfc.log4j.properties /kubedoop/config/zkfc/log4j.properties";
          "";
          "{{ if .kerberosEnabled }}";
          "{{- .kerberosEnv }}";
          "{{- end }}";
          "";
          "/kubedoop/hadoop/bin/hdfs zkfc";
          "" ].

Definition zkfcComponent (cfg : ClusterConfigSpec) : ContainerComponentInterface :=
  plain_component ZkfcComponent
    (ParseTemplate zkfc_template (CreateExportKrbRealmEnvData cfg))
    (GetCommonContainerEnv cfg ZkfcComponent None)
    (GetCommonVolumeMounts cfg
     ++ config_mounts HdfsConfigVolumeMountName HdfsLogVolumeMountName ZkfcComponent).

Definition wait_for_namenodes_template (nameNodeIds : string) : string :=
  script
    [ "mkdir -p /kubedoop/config/wait-for-namenodes";
          "cp /kubedoop/mount/config/wait-for-namenodes/*.xml /kubedoop/config/wait-for-namenodes";
          "cp /kubedoop/mount/config/wait-for-namenodes/wait-for-namenodes.log4j.properties /kubedoop/config/wait-for-namenodes/log4j.properties";
          "";
          "{{ if .kerberosEnabled }}";
          "{{- .kerberosEnv }}";
          "";
          "{{- .kinitScript }}";
          "{{- end }}";
          "";
          "echo `Waiting for namenodes to get ready:`";
          "n=0";
          "while [ ${n} -lt 12 ];";
          "do";
          "    ALL_NODES_READY=true";
          "    for namenode_id in " ]
  +:+ nameNodeIds +:+
  script
    [ ";";
          "    do";
          "        echo -n `Checking pod $namenode_id... `";
          "        SERVICE_STATE=$(/kubedoop/hadoop/bin/hdfs haadmin -getServiceState $namenode_id | tail -n1 || true)";
          "        if [ `$SERVICE_STATE` = `active` ] || [ `$SERVICE_STATE` = `standby` ]; then";
          "            echo `$SERVICE_STATE`";
          "        else";
          "            echo `not ready`";
          "            ALL_NODES_READY=false";
          "        fi";
          "    done";
          "    if [ `$ALL_NODES_READY` == `true` ]; then";
          "        echo `All namenodes ready!`";
          "        break";
          "    fi";
          "    echo ``";
          "    n=$((n + 1))";
          "    sleep 5";
          "done";
          "" ].

(** One group of the loop of [nameNodeIds]. *)
Definition name_node_ids_step (ci : ClusterInfo) (podNames : list string)
    (g : string * RoleGroupSpec) : outcome (list string) :=
  let statefulSetName :=
    GetFullName {| rg_RoleInfo := {| ri_ClusterInfo := ci; RoleName := NameNodeRole |};
                   RoleGroupName := g.1 |} in
  replicas ← deref (Replicas g.2);
  groupPodNames ← CreatePodNamesByReplicas replicas statefulSetName;
  Ret (podNames ++ groupPodNames).

Definition nameNodeIds (instance : HdfsCluster) (roleGroupInfo : RoleGroupInfo) : outcome string :=
  nn ← deref (NameNode (Spec instance));
  podNames ← mfold (name_node_ids_step (rg_ClusterInfo roleGroupInfo)) [] (range (RoleGroups nn));
  Ret (Join podNames " ").

Definition waitForNameNodes_GetArgs (instance : HdfsCluster) (cfg : ClusterConfigSpec)
    (roleGroupInfo : RoleGroupInfo) : outcome (list string) :=
  ids ← nameNodeIds instance roleGroupInfo;
  principal ← CreateKerberosPrincipal (hc_Name instance) (hc_Namespace instance) DataNodeRole;
  ParseTemplate (wait_for_namenodes_template ids) (kerberos_data cfg principal).

Definition waitForNameNodesComponent (instance : HdfsCluster) (cfg : ClusterConfigSpec)
    (roleGroupInfo : RoleGroupInfo) : ContainerComponentInterface :=
  plain_component WaitForNameNodesComponent
    (waitForNameNodes_GetArgs instance cfg roleGroupInfo)
    (GetCommonContainerEnv cfg WaitForNameNodesComponent None)
    (GetCommonVolumeMounts cfg
     ++ config_mounts WaitForNamenodesConfigVolumeMountName WaitForNamenodesLogVolumeMountName
          WaitForNameNodesComponent).

(** [Build] of the container builders: a common builder and the component. *)
Definition build_container (name : ContainerComponent) (cfg : ClusterConfigSpec)
    (component : ContainerComponentInterface) (roleGroupInfo : RoleGroupInfo)
    (roleGroupConfig : option RoleGroupConfigSpec) (image : ContainerImage) : outcome Container :=
  BuildWithComponent
    (NewHdfsContainerBuilder name image (ZookeeperConfigMapName cfg) roleGroupInfo roleGroupConfig)
    component.

(** The container builders; all but one have the same fields. *)
Record ContainerBuilder := {
  cb_instance : HdfsCluster;
  cb_roleGroupInfo : RoleGroupInfo;
  cb_roleGroupConfig : option RoleGroupConfigSpec;
  cb_image : ContainerImage;
}.

Definition NewNameNodeContainerBuilder (instance : HdfsCluster) (roleGroupInfo : RoleGroupInfo)
    (roleGroupConfig : option RoleGroupConfigSpec) (image : ContainerImage) : ContainerBuilder :=
  {| cb_instance := instance; cb_roleGroupInfo := roleGroupInfo;
     cb_roleGroupConfig := roleGroupConfig; cb_image := image |}.

Definition NameNodeContainer_Build (b : ContainerBuilder) : outcome Container :=
  cfg ← deref (ClusterConfig (Spec (cb_instance b)));
  build_container NameNodeComponent cfg (nameNodeComponent cfg) (cb_roleGroupInfo b)
    (cb_roleGroupConfig b) (cb_image b).

Definition NewZkfcContainerBuilder (instance : HdfsCluster) (roleGroupInfo : RoleGroupInfo)
    (roleGroupConfig : option RoleGroupConfigSpec) (image : ContainerImage) : ContainerBuilder :=
  {| cb_instance := instance; cb_roleGroupInfo := roleGroupInfo;
     cb_roleGroupConfig := roleGroupConfig; cb_image := image |}.

Definition ZkfcContainer_Build (b : ContainerBuilder) : outcome Container :=
  cfg ← deref (ClusterConfig (Spec (cb_instance b)));
  build_container ZkfcComponent cfg (zkfcComponent cfg) (cb_roleGroupInfo b)
    (cb_roleGroupConfig b) (cb_image b).

Definition NewFormatZookeeperContainerBuilder (instance : HdfsCluster) (roleGroupInfo : RoleGroupInfo)
    (roleGroupConfig : option RoleGroupConfigSpec) (image : ContainerImage) : ContainerBuilder :=
  {| cb_instance := instance; cb_roleGroupInfo := roleGroupInfo;
     cb_roleGroupConfig := roleGroupConfig; cb_image := image |}.

Definition FormatZookeeperContainer_Build (b : ContainerBuilder) : outcome Container :=
  cfg ← deref (ClusterConfig (Spec (cb_instance b)));
  build_container FormatZookeeperComponent cfg (formatZookeeperComponent cfg) (cb_roleGroupInfo b)
    (cb_roleGroupConfig b) (cb_image b).

Definition NewDataNodeContainerBuilder (instance : HdfsCluster) (roleGroupInfo : RoleGroupInfo)
    (roleGroupConfig : option RoleGroupConfigSpec) (image : ContainerImage) : ContainerBuilder :=
  {| cb_instance := instance; cb_roleGroupInfo := roleGroupInfo;
     cb_roleGroupConfig := roleGroupConfig; cb_image := image |}.

Definition DataNodeContainer_Build (b : ContainerBuilder) : outcome Container :=
  cfg ← deref (ClusterConfig (Spec (cb_instance b)));
  build_container DataNodeComponent cfg (dataNodeComponent cfg) (cb_roleGroupInfo b)
    (cb_roleGroupConfig b) (cb_image b).

Definition NewWaitForNameNodesContainerBuilder (instance : HdfsCluster) (roleGroupInfo : RoleGroupInfo)
    (roleGroupConfig : option RoleGroupConfigSpec) (image : ContainerImage) : ContainerBuilder :=
  {| cb_instance := instance; cb_roleGroupInfo := roleGroupInfo;
     cb_roleGroupConfig := roleGroupConfig; cb_image := image |}.

Definition WaitForNameNodesContainer_Build (b : ContainerBuilder) : outcome Container :=
  let instance := cb_instance b in
  cfg ← deref (ClusterConfig (Spec (cb_instance b)));
  build_container WaitForNameNodesComponent cfg (waitForNameNodesComponent instance cfg (cb_roleGroupInfo b)) (cb_roleGroupInfo b)
    (cb_roleGroupConfig b) (cb_image b).

Definition NewJournalNodeContainerBuilder (instance : HdfsCluster) (roleGroupInfo : RoleGroupInfo)
    (roleGroupConfig : option RoleGroupConfigSpec) (image : ContainerImage) : ContainerBuilder :=
  {| cb_instance := instance; cb_roleGroupInfo := roleGroupInfo;
     cb_roleGroupConfig := roleGroupConfig; cb_image := image |}.

Definition JournalNodeContainer_Build (b : ContainerBuilder) : outcome Container :=
  cfg ← deref (ClusterConfig (Spec (cb_instance b)));
  build_container JournalNodeComponent cfg (journalNodeComponent cfg) (cb_roleGroupInfo b)
    (cb_roleGroupConfig b) (cb_image b).

Record FormatNameNodeContainerBuilder := {
  fb_builder : ContainerBuilder;
  fb_nameNodeReplicates : Z;
  fb_statefulSetName : string;
}.

Definition NewFormatNameNodeContainerBuilder (instance : HdfsCluster) (roleGroupInfo : RoleGroupInfo)
    (roleGroupConfig : option RoleGroupConfigSpec) (image : ContainerImage)
    (nameNodeReplicates : Z) (namenodeStsName : string) : FormatNameNodeContainerBuilder :=
  {| fb_builder := {| cb_instance := instance; cb_roleGroupInfo := roleGroupInfo;
                      cb_roleGroupConfig := roleGroupConfig; cb_image := image |};
     fb_nameNodeReplicates := nameNodeReplicates; fb_statefulSetName := namenodeStsName |}.

Definition FormatNameNodeContainer_Build (f : FormatNameNodeContainerBuilder) : outcome Container :=
  let b := fb_builder f in
  cfg ← deref (ClusterConfig (Spec (cb_instance b)));
  build_container FormatNameNodeComponent cfg
    (formatNameNodeComponent (cb_instance b) cfg (fb_nameNodeReplicates f) (fb_statefulSetName f))
    (cb_roleGroupInfo b) (cb_roleGroupConfig b) (cb_image b).

End with_platform.

Create HintDb builders.
#[export] Hint Unfold NameNodeContainer_Build ZkfcContainer_Build FormatZookeeperContainer_Build
  DataNodeContainer_Build WaitForNameNodesContainer_Build JournalNodeContainer_Build
  FormatNameNodeContainer_Build : builders.

(** ** Claims *)

(** No container gets two environment variables of the same name, whatever
    the component, the role and the Kerberos setting; and exactly the three
    daemons get their options variable. *)
Theorem env_names_distinct {P : Platform} cfg container role :
  NoDup (ev_Name <$> GetCommonContainerEnv cfg container role) ∧
  (∀ n, n ∈ ["HDFS_NAMENODE_OPTS"; "HDFS_DATANODE_OPTS"; "HDFS_JOURNALNODE_OPTS"] →
        n ∈ ev_Name <$> GetCommonContainerEnv cfg container role ↔
        getEnvNameByContainerComponent container = n).
Proof.
  unfold GetCommonContainerEnv, getEnvNameByContainerComponent.
  destruct (IsKerberosEnabled cfg); simpl; repeat case_decide; subst; simpl in *;
    try (exfalso; naive_solver (simpl in *; lia));
    (split; [apply (bool_decide_eq_true_1 (NoDup _)); vm_compute; reflexivity|]);
    intros n Hn; apply list_elem_of_In in Hn; simpl in Hn;
    destruct Hn as [<-|[<-|[<-|[]]]]; apply (iff_by_decision _ _); vm_compute; reflexivity.
Qed.

(** The port a probe asks. *)
Definition probe_port (p : Probe) : string :=
  match Handler p with HTTPGet a => hg_Port a | TCPSocket port => port end.

(** C26. The probes of the three daemons ask ports that their container
    declares, under the name it has with and without TLS; no port name or number
    is declared twice; and the metrics port is the one the metrics agent is
    told to listen on. *)
Theorem probes_ask_declared_ports {P : Platform} cfg :
  Forall (λ '(component, role),
    ∃ ports live ready p,
      PortsProvider component = Some ports ∧ HealthCheckProvider component = Some (live, ready) ∧
      probe_port live ∈ cp_Name <$> ports ∧ probe_port ready ∈ cp_Name <$> ports ∧
      NoDup (cp_Name <$> ports) ∧ NoDup (cp_Port <$> ports) ∧
      GetMetricsPort role = Ret p ∧ container_port MetricName p ∈ ports)
  [ (nameNodeComponent cfg, NameNodeRole); (dataNodeComponent cfg, DataNodeRole);
    (journalNodeComponent cfg, JournalNodeRole) ].
Proof.
  unfold nameNodeComponent, dataNodeComponent, journalNodeComponent, liveness, HttpPort, TlsHttpGetAction.
  destruct (IsTlsEnabled cfg); repeat constructor; simpl; do 4 eexists;
    split_and!; try reflexivity; cbn [probe_port Handler readiness hg_Port];
    try (apply (bool_decide_eq_true_1 (NoDup _)); vm_compute; reflexivity);
    try (apply (bool_decide_eq_true_1 (_ ∈ _)); vm_compute; reflexivity).
  all: set_solver.
Qed.

(** The pods of a name node group, and of all groups of the role in the order Go
    visits them. *)
Definition group_pods {P : Platform} (ci : ClusterInfo) (g : string * RoleGroupSpec) : list string :=
  map (pod_name (GetFullName {| rg_RoleInfo := {| ri_ClusterInfo := ci; RoleName := NameNodeRole |};
                                RoleGroupName := g.1 |}))
    (indices (default 0%Z (Replicas g.2))).

Definition name_node_pods {P : Platform} {MR : MapRange} (ci : ClusterInfo) (nn : RoleSpec)
    : list string := concat (map (group_pods ci) (range (RoleGroups nn))).

(** Every group has a replica count that is not negative. *)
Definition replicas_ok {P : Platform} (nn : RoleSpec) : Prop :=
  map_Forall (λ _ g, ∃ n, Replicas g = Some n ∧ (0 ≤ n)%Z) (RoleGroups nn).

(** The wait for name nodes asks all pods of all name node groups, in the
    order Go visits the groups. *)
Theorem wait_lists_all_name_nodes {P : Platform} {MR : MapRange} instance info nn :
  NameNode (Spec instance) = Some nn → replicas_ok nn →
  nameNodeIds instance info = Ret (Join (name_node_pods (rg_ClusterInfo info) nn) " ").
Proof.
  intros Hnn Hr. unfold nameNodeIds, name_node_pods. rewrite Hnn. cbn [mbind outcome_bind deref].
  assert (Hl : Forall (λ g, ∃ n, Replicas g.2 = Some n ∧ (0 ≤ n)%Z) (range (RoleGroups nn))).
  { apply Forall_forall. intros [g s] Hg. apply elem_of_range in Hg. by apply (Hr g s). }
  assert (Hrun : ∀ l acc, Forall (λ g : string * RoleGroupSpec, ∃ n, Replicas g.2 = Some n ∧ (0 ≤ n)%Z) l →
    mfold (name_node_ids_step (rg_ClusterInfo info)) acc l
    = Ret (acc ++ concat (map (group_pods (rg_ClusterInfo info)) l))).
  { induction l as [|g l IH]; intros acc Hf; [by rewrite app_nil_r|].
    apply Forall_cons in Hf as [(n & Hn & Hpos) Hf]. cbn [mfold].
    replace (name_node_ids_step (rg_ClusterInfo info) acc g) with
      (Ret (acc ++ group_pods (rg_ClusterInfo info) g)).
    - simpl. rewrite IH by done. by rewrite <- app_assoc.
    - unfold name_node_ids_step, CreatePodNamesByReplicas, group_pods. rewrite Hn. simpl.
      by rewrite make_slice_ret by done. }
  by rewrite Hrun.
Qed.

Lemma wait_lists_all_name_nodes_witness :
  nameNodeIds (P := sample_platform) (MR := sorted_range) (sample_instance None)
    {| rg_RoleInfo := {| ri_ClusterInfo := sample_cluster_info; RoleName := DataNodeRole |};
       RoleGroupName := "default" |}
  = Ret "simple-hdfs-namenode-default-0 simple-hdfs-namenode-default-1".
Proof.
  rewrite (@wait_lists_all_name_nodes sample_platform sorted_range (sample_instance None) _
    (sample_role 2) eq_refl).
  - vm_compute. reflexivity.
  - apply map_Forall_singleton. exists 2%Z. split; [reflexivity|lia].
Defined.
