(* ===== verification/Oidc.v ===== *)
(** * The OIDC proxy: [internal/common/oidc.go]

    The container of the OAuth2 proxy and the decision whether a pod gets one.
    The cookie secret is computed with SHA-256, hexadecimal and base64 as the
    Go standard library does it. *)

From S2P Require Import Prelude GoStd GoXml XmlUtil Api Util Security Components RoleConfig Containers.

(** ** crypto/sha256 *)

Section sha256.
Local Open Scope Z_scope.

Definition w32 (x : Z) : Z := x mod 2 ^ 32.
Definition rotr (n x : Z) : Z := Z.lor (Z.shiftr x n) (w32 (Z.shiftl x (32 - n))).
Definition not32 (x : Z) : Z := 2 ^ 32 - 1 - x.
Definition ch (x y z : Z) : Z := Z.lxor (Z.land x y) (Z.land (not32 x) z).
Definition maj (x y z : Z) : Z := Z.lxor (Z.lxor (Z.land x y) (Z.land x z)) (Z.land y z).
Definition bsig0 (x : Z) : Z := Z.lxor (Z.lxor (rotr 2 x) (rotr 13 x)) (rotr 22 x).
Definition bsig1 (x : Z) : Z := Z.lxor (Z.lxor (rotr 6 x) (rotr 11 x)) (rotr 25 x).
Definition ssig0 (x : Z) : Z := Z.lxor (Z.lxor (rotr 7 x) (rotr 18 x)) (Z.shiftr x 3).
Definition ssig1 (x : Z) : Z := Z.lxor (Z.lxor (rotr 17 x) (rotr 19 x)) (Z.shiftr x 10).

(** The constants as the standard defines them, from the first prime numbers. *)
Definition first_primes (n : nat) : list Z :=
  let divides (d : nat) (m : Z) := Z.eqb (m mod Z.of_nat d) 0 in
  take n (map Z.of_nat (filter (λ m, forallb (λ d, negb (divides d (Z.of_nat m))) (seq 2 (m - 2)))
                          (seq 2 320))).

(** The integer cube root, by bits from 2^38. *)
Definition icbrt (x : Z) : Z :=
  foldl (λ r b, let r' := r + 2 ^ Z.of_nat b in if r' * r' * r' <=? x then r' else r) 0 (rev (seq 0 39)).

(** The round constants are 32 bits of the fractional parts of the cube roots
    of the first 64 primes, *)
Definition sha_k : list Z :=
  Eval vm_compute in map (λ p, Z.modulo (icbrt (p * 2 ^ 96)) (2 ^ 32)) (first_primes 64).

(** ... and the initial state those of the square roots of the first 8. *)
Definition sha_h0 : list Z :=
  Eval vm_compute in map (λ p, Z.modulo (Z.sqrt (p * 2 ^ 64)) (2 ^ 32)) (first_primes 8).

(** The message schedule, newest word first. *)
Definition schedule_step (ws : list Z) : list Z :=
  w32 (ssig1 (nth 1 ws 0) + nth 6 ws 0 + ssig0 (nth 14 ws 0) + nth 15 ws 0) :: ws.

Definition schedule (block : list Z) : list Z :=
  rev (Nat.iter 48 schedule_step (rev block)).

Definition round (st : list Z) (kw : Z * Z) : list Z :=
  match st with
  | [a; b; c; d; e; f; g; h] =>
      let t1 := h + bsig1 e + ch e f g + kw.1 + kw.2 in
      let t2 := bsig0 a + maj a b c in
      [w32 (t1 + t2); a; b; c; w32 (d + t1); e; f; g]
  | _ => st
  end.

Definition compress (st : list Z) (block : list Z) : list Z :=
  zip_with (λ x y, w32 (x + y)) st (foldl round st (zip sha_k (schedule block))).

Definition bytes_of (s : string) : list Z := map byte_of (String.list_ascii_of_string s).

(** Big-endian bytes of a number. *)
Fixpoint be_bytes (n : nat) (x : Z) : list Z :=
  match n with
  | O => []
  | S n' => be_bytes n' (x / 256) ++ [x mod 256]
  end.

Definition pad (msg : list Z) : list Z :=
  let len := Z.of_nat (length msg) in
  msg ++ [0x80] ++ replicate (Z.to_nat ((55 - len) mod 64)) 0 ++ be_bytes 8 (8 * len).

Definition be_word (l : list Z) : Z := foldl (λ acc b, acc * 256 + b) 0 l.

Fixpoint chunks (fuel n : nat) (l : list Z) : list (list Z) :=
  match fuel, l with
  | O, _ | _, [] => []
  | S fuel', _ => take n l :: chunks fuel' n (drop n l)
  end.

(** A list is cut in at most as many pieces as it has elements. *)
Definition cut (n : nat) (l : list Z) : list (list Z) := chunks (length l) n l.

Definition Sum256 (msg : list Z) : list Z :=
  concat (map (be_bytes 4)
    (foldl (λ st b, compress st (map be_word (cut 4 b))) sha_h0 (cut 64 (pad msg)))).

(** ** encoding/hex and encoding/base64 *)

Definition hex_digit (x : Z) : ascii :=
  ascii_of_N (Z.to_N (if x <? 10 then 48 + x else 87 + x)).

Definition hex_EncodeToString (l : list Z) : string :=
  String.string_of_list_ascii (concat (map (λ b, [hex_digit (b / 16); hex_digit (b mod 16)]) l)).

Definition base64_char (x : Z) : ascii :=
  ascii_of_N (Z.to_N (if x <? 26 then 65 + x else if x <? 52 then 71 + x
                      else if x <? 62 then x - 4 else if x =? 62 then 43 else 47)).

Fixpoint base64_bytes (l : list Z) : string :=
  match l with
  | a :: b :: c :: rest =>
      String (base64_char (a / 4)) (String (base64_char (a mod 4 * 16 + b / 16))
      (String (base64_char (b mod 16 * 4 + c / 64)) (String (base64_char (c mod 64))
      (base64_bytes rest))))
  | [a; b] =>
      String (base64_char (a / 4)) (String (base64_char (a mod 4 * 16 + b / 16))
      (String (base64_char (b mod 16 * 4)) "="))
  | [a] => String (base64_char (a / 4)) (String (base64_char (a mod 4 * 16)) "==")
  | [] => ""
  end.

Definition base64_EncodeToString (s : string) : string := base64_bytes (bytes_of s).

End sha256.

Example sha256_abc :
  hex_EncodeToString (Sum256 (bytes_of "abc"))
  = "ba7816bf8f01cfea414140de5dae2223b00361a396177a9cb410ff61f20015ad".
Proof. vm_compute. reflexivity. Qed.

Example base64_foobar : base64_EncodeToString "foobar" = "Zm9vYmFy" ∧ base64_EncodeToString "fo" = "Zm8=".
Proof. split; reflexivity. Qed.

(** ** net/url *)

(** Bytes that [URL.String] writes as they are in a host and in a path. *)
Definition url_byte (c : ascii) : bool :=
  in_range 97 122 c || in_range 65 90 c || in_range 48 57 c
  || existsb (Ascii.eqb c) ["-"; "."; "_"; "~"; ":"; "/"]%char.

(** [(&url.URL{Scheme: "http", Host: host, Path: path}).String()]. *)
Definition http_URL_String (host path : string) : outcome string :=
  if str_forall url_byte host && str_forall url_byte path then
    Ret ("http:" +:+ (if decide (host = "" ∧ path = "") then "" else "//") +:+ host
         +:+ (if decide (path ≠ "" ∧ HasPrefix path "/" = false ∧ host ≠ "") then "/" else "")
         +:+ path)
  else Beyond "url: escaping".

(** ** oidc.go *)

Section with_platform.
Context {P : Platform} {MR : MapRange}.

(** The provider of an authentication class of operator-go. *)
Record OIDCProvider := {
  Hostname : string;
  RootPath : string;
  op_Port : Z;
  ProviderHint : string;
}.

Definition cookie_secret (uid : string) : string :=
  let hashStr := hex_EncodeToString (Sum256 (bytes_of uid)) in
  let tokenBytes := String.substring 0 16 hashStr in
  base64_EncodeToString (base64_EncodeToString tokenBytes).

Definition oidc_GetEnvVars (instance : HdfsCluster) (port : Z) (oidcProvider : OIDCProvider)
    (oidc : OidcSpec) : outcome (list EnvVar) :=
  let scopes := ["openid"; "email"; "profile"] ++ ExtraScopes oidc in
  let host := Hostname oidcProvider
    +:+ (if decide (op_Port oidcProvider ≠ 0%Z ∧ op_Port oidcProvider ≠ 80%Z)
         then ":" +:+ Itoa (op_Port oidcProvider) else "") in
  let providerHint := if decide (ProviderHint oidcProvider = "keycloak") then "keycloak-oidc"
                      else ProviderHint oidcProvider in
  let secret := ClientCredentialsSecret oidc in
  issuer ← http_URL_String host (RootPath oidcProvider);
  Ret [ env "OAUTH2_PROXY_COOKIE_SECRET" (cookie_secret (hc_UID instance));
        env_from "OAUTH2_PROXY_CLIENT_ID" (SecretKeyRef secret "CLIENT_ID");
        env_from "OAUTH2_PROXY_CLIENT_SECRET" (SecretKeyRef secret "CLIENT_SECRET");
        env_from "POD_IP" (FieldRef "status.podIP");
        env "OAUTH2_PROXY_OIDC_ISSUER_URL" issuer;
        env "OAUTH2_PROXY_SCOPE" (Join scopes " ");
        env "OAUTH2_PROXY_PROVIDER" providerHint;
        env "UPSTREAM" ("http://$(POD_IP):" +:+ Itoa port);
        env "OAUTH2_PROXY_HTTP_ADDRESS" "0.0.0.0:4180";
        env "OAUTH2_PROXY_CODE_CHALLENGE_METHOD" "S256";
        env "OAUTH2_PROXY_EMAIL_DOMAINS" "*";
        env "OAUTH2_PROXY_COOKIE_SECURE" "false";
        env "OAUTH2_PROXY_WHITELIST_DOMAINS" "*" ].

Definition oidc_GetPorts : list ContainerPort := [container_port "oidc" 4180].

Definition oidcComponent (envs : list EnvVar) : ContainerComponentInterface :=
  {| GetContainerName := "oidc";
     GetCommand := Some ["sh"; "-c"];
     GetArgs := Ret ["/kubedoop/oauth2-proxy/oauth2-proxy --upstream=${UPSTREAM}"];
     GetEnvVars := envs;
     GetVolumeMounts := [];
     PortsProvider := Some oidc_GetPorts;
     HealthCheckProvider := None;
     SecretProvider := None |}.

Record OidcContainerBuilder := {
  ob_instance : HdfsCluster;
  ob_roleGroupInfo : RoleGroupInfo;
  ob_roleGroupConfig : option RoleGroupConfigSpec;
  ob_image : ContainerImage;
  ob_port : Z;
  ob_oidcProvider : OIDCProvider;
  ob_oidc : OidcSpec;
}.

Definition NewOidcContainerBuilder (instance : HdfsCluster) (roleGroupInfo : RoleGroupInfo)
    (roleGroupConfig : option RoleGroupConfigSpec) (image : ContainerImage) (port : Z)
    (oidcProvider : OIDCProvider) (oidc : OidcSpec) : OidcContainerBuilder :=
  {| ob_instance := instance; ob_roleGroupInfo := roleGroupInfo; ob_roleGroupConfig := roleGroupConfig;
     ob_image := image; ob_port := port; ob_oidcProvider := oidcProvider; ob_oidc := oidc |}.

(** [Build] of [OidcContainerBuilder]. *)
Definition Oidc_Build (b : OidcContainerBuilder) : outcome Container :=
  cfg ← deref (ClusterConfig (Spec (ob_instance b)));
  envs ← oidc_GetEnvVars (ob_instance b) (ob_port b) (ob_oidcProvider b) (ob_oidc b);
  build_container OidcComponent cfg (oidcComponent envs) (ob_roleGroupInfo b) (ob_roleGroupConfig b)
    (ob_image b).

(** [auth_class] is what the API server answers for an authentication class, by
    namespace and name: its OIDC provider, if it has one. *)
Definition MakeOidcContainer (auth_class : string → string → outcome (option OIDCProvider))
    (instance : HdfsCluster) (roleGroupInfo : RoleGroupInfo)
    (roleGroupConfig : option RoleGroupConfigSpec) (port : Z) (image : ContainerImage)
    : outcome (option Container) :=
  cfg ← deref (ClusterConfig (Spec instance));
  a ← deref (Authentication cfg);
  match auth_class (hc_Namespace instance) (AuthenticationClass a) with
  | Err (ENotFound _) => Ret None
  | Err e => Err e
  | Panic w => Panic w
  | Beyond w => Beyond w
  | Ret provider =>
      match provider, Oidc a with
      | Some p, Some oidc =>
          c ← Oidc_Build (NewOidcContainerBuilder instance roleGroupInfo roleGroupConfig image port p oidc);
          Ret (Some c)
      | _, _ => Ret None
      end
  end.

End with_platform.

(** ** The length of the cookie secret *)

Lemma length_base64_3 a b c l :
  String.length (base64_bytes (a :: b :: c :: l)) = 4 + String.length (base64_bytes l).
Proof. reflexivity. Qed.

Lemma base64_length n (l : list Z) :
  length l = 3 * n → String.length (base64_bytes l) = 4 * n.
Proof.
  revert l. induction n as [|n IH]; intros l Hl.
  - by destruct l.
  - destruct l as [|a [|b [|c l]]]; simpl in Hl; try lia.
    rewrite length_base64_3, (IH l) by lia. lia.
Qed.

Lemma length_bytes_of s : length (bytes_of s) = String.length s.
Proof. unfold bytes_of. rewrite length_map. induction s; simpl; auto. Qed.

Lemma length_compress_8 st b : length st = 8 → length (compress st b) = 8.
Proof.
  intros Hst. unfold compress. rewrite length_zip_with, Hst.
  assert (Hr : ∀ l s, length s = 8 → length (foldl round s l) = 8).
  { induction l as [|kw l IH]; intros s Hl; simpl; [done|]. apply IH.
    do 8 (destruct s as [|? s]; [done|]). destruct s; done. }
  rewrite Hr by done. lia.
Qed.

Lemma length_Sum256 msg : length (Sum256 msg) = 32.
Proof.
  unfold Sum256.
  assert (H : ∀ bs st, length st = 8 →
    length (foldl (λ st b, compress st (map be_word (cut 4 b))) st bs) = 8).
  { induction bs as [|b bs IH]; intros st Hst; simpl; [done|]. by apply IH, length_compress_8. }
  specialize (H (cut 64 (pad msg)) sha_h0 eq_refl). revert H.
  generalize (foldl (λ st b, compress st (map be_word (cut 4 b))) sha_h0 (cut 64 (pad msg))).
  intros st Hst. do 8 (destruct st as [|? st]; [done|]). destruct st; [|done].
  reflexivity.
Qed.

Lemma length_string_of_list l : String.length (String.string_of_list_ascii l) = length l.
Proof. induction l; simpl; auto. Qed.

Lemma length_hex l : String.length (hex_EncodeToString l) = 2 * length l.
Proof.
  unfold hex_EncodeToString. rewrite length_string_of_list.
  induction l as [|b l IH]; simpl; [done|]. rewrite IH. lia.
Qed.

Lemma length_substring n s : n ≤ String.length s → String.length (String.substring 0 n s) = n.
Proof.
  revert n. induction s as [|c s IH]; intros [|n] H; simpl in *; try lia.
  rewrite IH by lia. done.
Qed.

(** ** Claims *)

(** The cookie secret handed to the OAuth2 proxy has 32 characters for
    every cluster: the proxy accepts secrets of 16, 24 or 32 bytes only. The
    [hashStr[:16]] of its computation is always in range. *)
Theorem cookie_secret_length uid :
  String.length (hex_EncodeToString (Sum256 (bytes_of uid))) = 64 ∧
  String.length (cookie_secret uid) = 32.
Proof.
  assert (Hh : String.length (hex_EncodeToString (Sum256 (bytes_of uid))) = 64)
    by (by rewrite length_hex, length_Sum256).
  split; [done|]. unfold cookie_secret, base64_EncodeToString.
  assert (Ht : String.length (String.substring 0 16 (hex_EncodeToString (Sum256 (bytes_of uid)))) = 16)
    by (apply length_substring; lia).
  revert Ht. generalize (String.substring 0 16 (hex_EncodeToString (Sum256 (bytes_of uid)))).
  intros t Ht. apply (base64_length 8). rewrite length_bytes_of.
  rewrite <- (length_bytes_of t) in Ht. revert Ht. generalize (bytes_of t).
  intros l Hl. do 16 (destruct l as [|? l]; [done|]). destruct l; [reflexivity|done].
Qed.

(** C28. When a pod gets an OIDC proxy: exactly when the authentication class
    exists and has an OIDC provider and the cluster has OIDC credentials. A
    missing class is not an error; any other failure to read it is. *)
Theorem oidc_container_decision {P : Platform} auth_class instance info rgc port image cfg a :
  ClusterConfig (Spec instance) = Some cfg → Authentication cfg = Some a →
  let r := MakeOidcContainer auth_class instance info rgc port image in
  match auth_class (hc_Namespace instance) (AuthenticationClass a), Oidc a with
  | Err (ENotFound _), _ => r = Ret None
  | Err (EMsg m), _ => r = Err (EMsg m)
  | Ret (Some p), Some o =>
      (∀ issuer, http_URL_String
         (Hostname p +:+ (if decide (op_Port p ≠ 0%Z ∧ op_Port p ≠ 80%Z)
                          then ":" +:+ Itoa (op_Port p) else "")) (RootPath p) = Ret issuer →
       ∃ c, r = Ret (Some c) ∧ SetName "oidc" ∈ ctr_Calls c ∧
            AddPorts [container_port "oidc" 4180] ∈ ctr_Calls c)
  | Ret _, _ => r = Ret None
  | Panic w, _ => r = Panic w
  | Beyond w, _ => r = Beyond w
  end.
Proof.
  intros Hcfg Ha r. unfold r, MakeOidcContainer. rewrite Hcfg. simpl. rewrite Ha. simpl.
  destruct (auth_class _ _) as [[p|]|[]| |]; simpl; try done; [|by destruct (Oidc a)..].
  destruct (Oidc a) as [o|]; [|done]. intros issuer Hi.
  unfold Oidc_Build, oidc_GetEnvVars. simpl. rewrite Hcfg. simpl. rewrite Hi. simpl. eexists. split; [done|].
  simpl. set_solver.
Qed.

Definition sample_oidc_auth : option AuthenticationSpec := Some {|
  AuthenticationClass := "oidc"; Oidc := Some {| ClientCredentialsSecret := "creds"; ExtraScopes := [] |};
  Tls := None; Kerberos := None;
|}.

Definition sample_class (_ _ : string) : outcome (option OIDCProvider) :=
  Ret (Some {| Hostname := "keycloak.default"; RootPath := "/realms/kubedoop";
               op_Port := 8080; ProviderHint := "keycloak" |}).

Definition sample_image : ContainerImage :=
  {| img_ProductName := "hadoop"; img_KubedoopVersion := "0.0.0"; img_ProductVersion := "3.4.1";
     img_Custom := ""; img_Repo := "quay.io/zncdatadev"; img_PullPolicy := "IfNotPresent" |}.

Definition sample_group_info : RoleGroupInfo :=
  {| rg_RoleInfo := {| ri_ClusterInfo := sample_cluster_info; RoleName := NameNodeRole |};
     RoleGroupName := "default" |}.

Lemma oidc_container_decision_witness :
  ∃ c, MakeOidcContainer (P := sample_platform) sample_class (sample_instance sample_oidc_auth)
         sample_group_info None 9870 sample_image = Ret (Some c) ∧
    SetName "oidc" ∈ ctr_Calls c ∧ AddPorts [container_port "oidc" 4180] ∈ ctr_Calls c.
Proof.
  pose proof (@oidc_container_decision sample_platform sample_class
    (sample_instance sample_oidc_auth) sample_group_info None 9870 sample_image
    (sample_cluster_config sample_oidc_auth) _ eq_refl eq_refl) as H.
  apply (H "http://keycloak.default:8080/realms/kubedoop"). vm_compute. reflexivity.
Defined.
