(* ===== verification/StatefulSets.v ===== *)
(** * Stateful sets: [internal/common/statefulset.go] and the builders of the
    roles, [internal/controller/{name,data,journal}/statefulset_builder.go]

    [Build] turns the parts of a role into calls of operator-go's stateful set
    builder; a stateful set is its name, replicas and the list of these calls,
    with the two fields the code sets afterwards. *)

From S2P Require Import Prelude GoStd GoXml XmlUtil Api Util Security Components RoleConfig.
From S2P Require Import ConfigMaps Containers Oidc.

(** What a pod gets of operator-go's vector factory: the volumes its container
    mounts, and the volumes it brings along. *)
Record VectorFactory {P : Platform} := {
  vector_mounts : list VolumeMount;
  vector_volumes : list Volume;
}.

(** What operator-go and the API server contribute: the vector factory for the
    two volumes and the image it is given (it may be nil), the object the builder
    makes of the calls (or its error), the security context its builder
    returns, and the authentication classes. *)
Class StatefulSetEnv {P : Platform} (SecurityContext : Type) := {
  NewVector : string → string → ContainerImage → option VectorFactory;
  sts_object_ok : outcome unit;
  inherited_security_context : option SecurityContext;
  auth_class : string → string → outcome (option OIDCProvider);
}.

Section with_platform.
Context {P : Platform} {MR : MapRange} {SecurityContext : Type} {E : StatefulSetEnv SecurityContext}.

(** A container of a pod: one the operator builds, or that of a vector factory. *)
Inductive PodContainer :=
  | Built (c : Container)
  | Vector (factory : VectorFactory).

Inductive sts_call :=
  | AddContainer (c : PodContainer)
  | AddInitContainer (c : Container)
  | AddVolumes (vs : list Volume)
  | AddVolumeClaimTemplates (cs : list PersistentVolumeClaim).

Record StatefulSet := {
  sts_Name : string;
  sts_Replicas : option Z;
  sts_Labels : gmap string string;
  sts_Annotations : gmap string string;
  sts_RoleGroupConfig : option RoleGroupConfigSpec;
  sts_Overrides : option OverridesSpec;
  sts_Calls : list sts_call;
  sts_SecurityContext : option SecurityContext;
  sts_ServiceAccountName : option string;
}.

Record StatefulSetComponentBuilder := {
  GetMainContainers : outcome (list Container);
  GetInitContainers : outcome (list Container);
  GetVolumes : outcome (list Volume);
  GetVolumeClaimTemplates : outcome (list PersistentVolumeClaim);
  GetSecurityContext : option SecurityContext;
  GetServiceAccountName : outcome string;
  GetHttpPort : outcome Z;
}.

Record StatefulSetBuilder := {
  sb_instance : HdfsCluster;
  sb_roleGroupInfo : RoleGroupInfo;
  sb_image : ContainerImage;
  sb_replicas : option Z;
  sb_RoleGroupConfig : option RoleGroupConfigSpec;
  sb_Overrides : option OverridesSpec;
  sb_roleType : Role;
  sb_component : StatefulSetComponentBuilder;
}.

(** The name, the labels and the annotations that operator-go's builder gets are
    those of [roleGroupInfo]; [StatefulSet_Build] reads them from there. *)
Definition NewStatefulSetBuilder (roleGroupInfo : RoleGroupInfo) (image : ContainerImage)
    (replicas : option Z) (roleConfig : option RoleGroupConfigSpec) (overrides : option OverridesSpec)
    (instance : HdfsCluster) (roleType : Role) (component : StatefulSetComponentBuilder)
    : StatefulSetBuilder :=
  {| sb_instance := instance; sb_roleGroupInfo := roleGroupInfo; sb_image := image;
     sb_replicas := replicas; sb_RoleGroupConfig := roleConfig; sb_Overrides := overrides;
     sb_roleType := roleType; sb_component := component |}.

(** [common.GetVectorFactory]. *)
Definition GetVectorFactory (image : ContainerImage) : option VectorFactory :=
  NewVector HdfsConfigVolumeMountName KubedoopLogVolumeMountName image.

Definition addVectorContainer (b : StatefulSetBuilder) : outcome (list sts_call) :=
  match sb_RoleGroupConfig b with
  | Some {| Logging := Some l |} =>
      vectorEnable ← IsVectorEnable (Some l);
      Ret (if vectorEnable : bool then
             match GetVectorFactory (sb_image b) with
             | Some vectorFactory => [ AddContainer (Vector vectorFactory);
                                       AddVolumes (vector_volumes vectorFactory) ]
             | None => []
             end
           else [])
  | _ => Ret []
  end.

Definition addOIDCContainer (b : StatefulSetBuilder) : outcome (list sts_call) :=
  cfg ← deref (ClusterConfig (Spec (sb_instance b)));
  match Authentication cfg with
  | Some a =>
      if decide (AuthenticationClass a = "") then Ret []
      else
        port ← GetHttpPort (sb_component b);
        oidcContainer ← MakeOidcContainer auth_class (sb_instance b) (sb_roleGroupInfo b)
                          (sb_RoleGroupConfig b) port (sb_image b);
        Ret (match oidcContainer with
             | Some c => [AddContainer (Built c)]
             | None => []
             end)
  | None => Ret []
  end.

Definition StatefulSet_Build (b : StatefulSetBuilder) : outcome StatefulSet :=
  let component := sb_component b in
  mains ← GetMainContainers component;
  inits ← GetInitContainers component;
  cfg ← deref (ClusterConfig (Spec (sb_instance b)));
  commonVolumes ← GetCommonVolumes cfg (hc_Name (sb_instance b)) (sb_roleGroupInfo b);
  volumes ← GetVolumes component;
  claims ← GetVolumeClaimTemplates component;
  vector ← addVectorContainer b;
  oidc ← addOIDCContainer b;
  _ ← sts_object_ok;
  serviceAccountName ← GetServiceAccountName component;
  Ret {| sts_Name := GetFullName (sb_roleGroupInfo b);
         sts_Replicas := sb_replicas b;
         sts_Labels := GetLabels (sb_roleGroupInfo b);
         sts_Annotations := GetAnnotations (sb_roleGroupInfo b);
         sts_RoleGroupConfig := sb_RoleGroupConfig b;
         sts_Overrides := sb_Overrides b;
         sts_Calls := map (λ c, AddContainer (Built c)) mains ++ map AddInitContainer inits
           ++ [AddVolumes commonVolumes; AddVolumes volumes; AddVolumeClaimTemplates claims]
           ++ vector ++ oidc;
         sts_SecurityContext := GetSecurityContext component;
         sts_ServiceAccountName :=
           if decide (serviceAccountName = "") then None else Some serviceAccountName |}.

(** ** Claims and volumes *)

Definition ListenerPvcStorage := "10Mi".

Definition GetListenerLabels (listenerClass : string) : gmap string string :=
  {[ AnnotationListenersClass := listenerClass ]}.

Definition data_claim (storageSize : Quantity) : PersistentVolumeClaim :=
  {| pvc_Name := DataVolumeMountName; pvc_Annotations := ∅;
     pvc_Spec := {| AccessModes := ["ReadWriteOnce"]; StorageClassName := None;
                    VolumeMode := Some "Filesystem"; StorageRequest := storageSize |} |}.

(** [b.config.Resources] goes through the embedded pointer. *)
Definition config_resources (config : ConfigSpec) : outcome (option ResourcesSpec) :=
  rg ← deref (cs_RoleGroupConfigSpec config); Ret (Resources rg).

(** [createDataPvcTemplate] of the name and journal nodes. *)
Definition createDataPvcTemplate (config : option ConfigSpec) : outcome PersistentVolumeClaim :=
  match config with
  | None => Ret (data_claim (MustParse "10Gi"))
  | Some c =>
      rs ← config_resources c;
      Ret (data_claim (match rs ≫= Storage with
                       | Some s => Capacity s
                       | None => MustParse "10Gi"
                       end))
  end.

Definition data_createDataPvcTemplate (config : option ConfigSpec)
    : outcome PersistentVolumeClaim :=
  c ← deref config;
  rs ← config_resources c;
  r ← deref rs;
  s ← deref (Storage r);
  Ret (data_claim (Capacity s)).

Definition listener_claim (name : string) (mode : option string) (listenerClass : string)
    : PersistentVolumeClaim :=
  {| pvc_Name := name; pvc_Annotations := GetListenerLabels listenerClass;
     pvc_Spec := {| AccessModes := ["ReadWriteOnce"]; StorageClassName := Some ListenerStorageClass;
                    VolumeMode := mode; StorageRequest := MustParse ListenerPvcStorage |} |}.

Definition name_createListenPvcTemplate (config : option ConfigSpec)
    : outcome PersistentVolumeClaim :=
  c ← deref config;
  let listenerClass := match ListenerClass c with
                       | None => ClusterInternal
                       | Some l => if decide (l = "") then ClusterInternal else l
                       end in
  Ret (listener_claim ListenerVolumeName (Some "Filesystem") listenerClass).

Definition data_createListenPvcTemplate (config : option ConfigSpec)
    : outcome PersistentVolumeClaim :=
  c ← deref config;
  l ← deref (ListenerClass c);
  let listenerClass := if decide (l = "") then ClusterInternal else l in
  Ret (listener_claim "" None listenerClass).

(** The volumes of the role group's config map. *)
Definition config_volume (info : RoleGroupInfo) (name : string) : Volume :=
  {| vol_Name := name; vol_Source := ConfigMapSource (GetFullName info) |}.

Definition name_GetVolumes (info : RoleGroupInfo) : list Volume :=
  map (config_volume info)
    [ HdfsConfigVolumeMountName; HdfsLogVolumeMountName;
      FormatNamenodesConfigVolumeMountName; FormatNamenodesLogVolumeMountName;
      FormatZookeeperConfigVolumeMountName; FormatZookeeperLogVolumeMountName ].

Definition data_GetVolumes (info : RoleGroupInfo) (config : option ConfigSpec)
    : outcome (list Volume) :=
  listener ← data_createListenPvcTemplate config;
  Ret (map (config_volume info)
         [ HdfsConfigVolumeMountName; HdfsLogVolumeMountName;
           WaitForNamenodesConfigVolumeMountName; WaitForNamenodesLogVolumeMountName ]
       ++ [ {| vol_Name := ListenerVolumeName; vol_Source := Ephemeral listener |} ]).

Definition journal_GetVolumes (info : RoleGroupInfo) : list Volume :=
  map (config_volume info) [ HdfsConfigVolumeMountName; HdfsLogVolumeMountName ].

(** ** The builders of the roles

    Every container builder dereferences the cluster configuration. *)

Definition http_port_of (instance : HdfsCluster) (httpsPort httpPort : Z) : outcome Z :=
  cfg ← deref (ClusterConfig (Spec instance)); Ret (cp_Port (HttpPort cfg httpsPort httpPort)).

Definition name_sts_component (info : RoleGroupInfo) (image : ContainerImage) (replicas : option Z)
    (roleConfig : option RoleGroupConfigSpec) (instance : HdfsCluster)
    (mergedCfg : option ConfigSpec) : StatefulSetComponentBuilder :=
  {| GetMainContainers :=
       nn ← NameNodeContainer_Build (NewNameNodeContainerBuilder instance info roleConfig image);
       zkfc ← ZkfcContainer_Build (NewZkfcContainerBuilder instance info roleConfig image);
       Ret [nn; zkfc];
     GetInitContainers :=
       replicas ← deref replicas;
       format ← FormatNameNodeContainer_Build
                  (NewFormatNameNodeContainerBuilder instance info roleConfig image replicas
                     (GetFullName info));
       zk ← FormatZookeeperContainer_Build
              (NewFormatZookeeperContainerBuilder instance info roleConfig image);
       Ret [format; zk];
     GetVolumes := Ret (name_GetVolumes info);
     GetVolumeClaimTemplates :=
       data ← createDataPvcTemplate mergedCfg;
       listener ← name_createListenPvcTemplate mergedCfg;
       Ret [data; listener];
     GetSecurityContext := inherited_security_context;
     GetServiceAccountName := CreateServiceAccountName (hc_Name instance);
     GetHttpPort := http_port_of instance NameNodeHttpsPort NameNodeHttpPort |}.

Definition data_sts_component (info : RoleGroupInfo) (image : ContainerImage)
    (config : option ConfigSpec) (instance : HdfsCluster) : StatefulSetComponentBuilder :=
  {| GetMainContainers :=
       c ← deref config;
       dn ← DataNodeContainer_Build
              (NewDataNodeContainerBuilder instance info (cs_RoleGroupConfigSpec c) image);
       Ret [dn];
     GetInitContainers :=
       c ← deref config;
       wait ← WaitForNameNodesContainer_Build
                (NewWaitForNameNodesContainerBuilder instance info (cs_RoleGroupConfigSpec c) image);
       Ret [wait];
     GetVolumes := data_GetVolumes info config;
     GetVolumeClaimTemplates := data ← data_createDataPvcTemplate config; Ret [data];
     GetSecurityContext := inherited_security_context;
     GetServiceAccountName := CreateServiceAccountName (hc_Name instance);
     GetHttpPort := http_port_of instance DataNodeHttpsPort DataNodeHttpPort |}.

Definition journal_sts_component (info : RoleGroupInfo) (image : ContainerImage)
    (config : option ConfigSpec) (instance : HdfsCluster) : StatefulSetComponentBuilder :=
  {| GetMainContainers :=
       c ← deref config;
       jn ← JournalNodeContainer_Build
              (NewJournalNodeContainerBuilder instance info (cs_RoleGroupConfigSpec c) image);
       Ret [jn];
     GetInitContainers := Ret [];
     GetVolumes := Ret (journal_GetVolumes info);
     GetVolumeClaimTemplates := data ← createDataPvcTemplate config; Ret [data];
     GetSecurityContext := None;
     GetServiceAccountName := CreateServiceAccountName (hc_Name instance);
     GetHttpPort := http_port_of instance JournalNodeHttpsPort JournalNodeHttpPort |}.

Definition NewNamenodeStatefulSetBuilder (info : RoleGroupInfo) (image : ContainerImage)
    (replicas : option Z) (roleConfig : option RoleGroupConfigSpec) (overrides : option OverridesSpec)
    (instance : HdfsCluster) (mergedCfg : option ConfigSpec) : StatefulSetBuilder :=
  NewStatefulSetBuilder info image replicas roleConfig overrides instance NameNodeRole
    (name_sts_component info image replicas roleConfig instance mergedCfg).

(** [config.RoleGroupConfigSpec] dereferences [config]. *)
Definition NewDataNodeStatefulSetBuilder (info : RoleGroupInfo) (image : ContainerImage)
    (replicas : option Z) (config : option ConfigSpec) (overrides : option OverridesSpec)
    (instance : HdfsCluster) : outcome StatefulSetBuilder :=
  c ← deref config;
  Ret (NewStatefulSetBuilder info image replicas (cs_RoleGroupConfigSpec c) overrides instance DataNodeRole
         (data_sts_component info image config instance)).

Definition NewJournalnodeStatefulSetBuilder (info : RoleGroupInfo) (image : ContainerImage)
    (replicas : option Z) (config : option ConfigSpec) (overrides : option OverridesSpec)
    (instance : HdfsCluster) : outcome StatefulSetBuilder :=
  c ← deref config;
  Ret (NewStatefulSetBuilder info image replicas (cs_RoleGroupConfigSpec c) overrides instance JournalNodeRole
         (journal_sts_component info image config instance)).

(** ** Reading a pod *)

Definition container_mounts (c : Container) : list string :=
  concat (map (λ call, match call with
                       | AddVolumeMounts ms => map vm_Name ms
                       | _ => []
                       end) (ctr_Calls c)).

(** The volumes the containers of the pod mount by name. *)
Definition pod_mounts (s : StatefulSet) : list string :=
  concat (map (λ call, match call with
                       | AddContainer (Built c) => container_mounts c
                       | AddContainer (Vector f) => map vm_Name (vector_mounts f)
                       | AddInitContainer c => container_mounts c
                       | _ => []
                       end) (sts_Calls s)).

(** The volumes of the pod: its own and those of the claim templates. *)
Definition pod_volumes (s : StatefulSet) : list string :=
  concat (map (λ call, match call with
                       | AddVolumes vs => map vol_Name vs
                       | AddVolumeClaimTemplates cs => map pvc_Name cs
                       | _ => []
                       end) (sts_Calls s)).

Lemma build_container_mounts name cfg component info rgc image c :
  build_container name cfg component info rgc image = Ret c →
  container_mounts c = map vm_Name (GetVolumeMounts component).
Proof.
  unfold build_container, BuildWithComponent. intros H. go_inv. unfold container_mounts. simpl.
  case_decide; simpl; unfold resource_calls; destruct rgc as [rg|]; simpl;
    try case_decide; try destruct (Resources rg); simpl; by rewrite app_nil_r.
Qed.

Definition krb_volume (cfg : ClusterConfigSpec) : list string :=
  if IsKerberosEnabled cfg then [KrbVolumeName] else [].

Definition tls_volume (cfg : ClusterConfigSpec) : list string :=
  if IsTlsEnabled cfg then [TlsVolumeName] else [].

Lemma common_volume_names cfg name info vs :
  GetCommonVolumes cfg name info = Ret vs →
  map vol_Name vs = KubedoopLogVolumeMountName :: krb_volume cfg ++ tls_volume cfg ++ tls_volume cfg.
Proof.
  unfold GetCommonVolumes, krb_volume, tls_volume, CreateKerberosSecretPvc.
  destruct (IsKerberosEnabled cfg), (IsTlsEnabled cfg); intros H; go_inv; done.
Qed.

(** The vector factory of the pods of a builder, if they have a log agent. *)
Definition vector_of (b : StatefulSetBuilder) : option VectorFactory :=
  match addVectorContainer b with
  | Ret (AddContainer (Vector f) :: _) => Some f
  | _ => None
  end.

Definition vector_volumes_of (b : StatefulSetBuilder) : list Volume :=
  match vector_of b with Some f => vector_volumes f | None => [] end.

(** What the optional containers add. *)
Lemma vector_calls b calls :
  addVectorContainer b = Ret calls →
  (vector_of b = None ∧ calls = []) ∨
  ∃ f, vector_of b = Some f ∧ GetVectorFactory (sb_image b) = Some f
    ∧ calls = [AddContainer (Vector f); AddVolumes (vector_volumes f)].
Proof.
  intros H. unfold vector_of. rewrite H. revert H. unfold addVectorContainer.
  destruct (sb_RoleGroupConfig b) as [[rs [l|]]|]; [|intros [= <-]; by left..].
  intros (e & _ & [= <-])%bind_ret_inv. destruct e; [|by left].
  destruct (GetVectorFactory _) as [f|]; [right; by exists f|by left].
Qed.

Lemma oidc_calls b calls :
  addOIDCContainer b = Ret calls →
  calls = [] ∨ ∃ c, calls = [AddContainer (Built c)] ∧ container_mounts c = [].
Proof.
  unfold addOIDCContainer, MakeOidcContainer, Oidc_Build.
  destruct (ClusterConfig _) as [cfg|]; simpl; [|done].
  destruct (Authentication cfg) as [auth|]; simpl; [|intros H; go_inv; auto].
  case_decide as Hd; intros H; go_inv; [auto|].
  repeat (case_match; simplify_eq); go_inv; auto; right;
    eexists; (split; [done|]); by erewrite build_container_mounts by done.
Qed.

(** The pod of a stateful set, from the parts of its builder. *)
Lemma pod_parts b s :
  StatefulSet_Build b = Ret s →
  ∃ mains inits cfg vs cs,
    GetMainContainers (sb_component b) = Ret mains ∧
    GetInitContainers (sb_component b) = Ret inits ∧
    ClusterConfig (Spec (sb_instance b)) = Some cfg ∧
    GetVolumes (sb_component b) = Ret vs ∧
    GetVolumeClaimTemplates (sb_component b) = Ret cs ∧
    pod_volumes s = (KubedoopLogVolumeMountName :: krb_volume cfg ++ tls_volume cfg ++ tls_volume cfg)
                    ++ map vol_Name vs ++ map pvc_Name cs ++ map vol_Name (vector_volumes_of b) ∧
    ∀ v, v ∈ pod_mounts s →
      v ∈ concat (map container_mounts mains) ++ concat (map container_mounts inits)
      ∨ ∃ f, vector_of b = Some f ∧ GetVectorFactory (sb_image b) = Some f ∧
             v ∈ map vm_Name (vector_mounts f).
Proof.
  unfold StatefulSet_Build. intros H.
  destruct (GetMainContainers _) as [mains| | |]; cbn [mbind outcome_bind] in H; try done.
  destruct (GetInitContainers _) as [inits| | |]; cbn [mbind outcome_bind] in H; try done.
  destruct (ClusterConfig (Spec (sb_instance b))) as [cfg|] eqn:Hcfg; [|done].
  cbn [mbind outcome_bind deref] in H.
  destruct (GetCommonVolumes cfg _ _) as [cvs| | |] eqn:Hcv; cbn [mbind outcome_bind] in H; try done.
  destruct (GetVolumes (sb_component b)) as [vs| | |]; cbn [mbind outcome_bind] in H; try done.
  destruct (GetVolumeClaimTemplates (sb_component b)) as [cs| | |];
    cbn [mbind outcome_bind] in H; try done.
  destruct (addVectorContainer b) as [vc| | |] eqn:Hv; cbn [mbind outcome_bind] in H; try done.
  destruct (addOIDCContainer b) as [oc| | |] eqn:Ho; cbn [mbind outcome_bind] in H; try done.
  destruct sts_object_ok; cbn [mbind outcome_bind] in H; try done.
  destruct (GetServiceAccountName _); cbn [mbind outcome_bind] in H; try done.
  injection H as <-. exists mains, inits, cfg, vs, cs. split_and!; try done.
  - unfold pod_volumes. simpl. rewrite !map_app, !concat_app. simpl.
    assert (Hz : ∀ {A} (f : A → sts_call) l, (∀ a, match f a with
      AddVolumes vs => map vol_Name vs | AddVolumeClaimTemplates cs => map pvc_Name cs | _ => [] end = [])
      → concat (map (λ call, match call with
      AddVolumes vs => map vol_Name vs | AddVolumeClaimTemplates cs => map pvc_Name cs | _ => [] end)
      (map f l)) = []).
    { intros A f l Hf. induction l as [|x l IH]; simpl; [done|]. by rewrite Hf, IH. }
    rewrite !Hz by done. simpl. erewrite common_volume_names by done.
    unfold vector_volumes_of.
    apply vector_calls in Hv as [[-> ->]|(f & -> & _ & ->)];
      apply oidc_calls in Ho as [->|(c & -> & _)]; simpl; rewrite ?app_nil_r; done.
  - intros v Hin. unfold pod_mounts in Hin. simpl in Hin.
    rewrite !map_app, !concat_app, !map_map, !elem_of_app in Hin. simpl in Hin.
    apply vector_calls in Hv as [[Hf ->]|(f & Hf & Hg & ->)];
      apply oidc_calls in Ho as [->|(c & -> & Hc)]; simpl in Hin;
      rewrite ?Hc, ?app_nil_r in Hin; rewrite !elem_of_app; set_solver.
Qed.

End with_platform.

(** ** Claims *)

(** The three ways the operator makes a stateful set builder. *)
Definition role_builder {P : Platform} {MR : MapRange} {SC : Type} {E : StatefulSetEnv SC}
    (info : RoleGroupInfo) (image : ContainerImage) (replicas : option Z) (config : ConfigSpec)
    (overrides : option OverridesSpec) (instance : HdfsCluster) (role : Role)
    : outcome StatefulSetBuilder :=
  if decide (role = NameNodeRole) then
    Ret (NewNamenodeStatefulSetBuilder info image replicas (cs_RoleGroupConfigSpec config) overrides
           instance (Some config))
  else if decide (role = DataNodeRole) then
    NewDataNodeStatefulSetBuilder info image replicas (Some config) overrides instance
  else NewJournalnodeStatefulSetBuilder info image replicas (Some config) overrides instance.

Section pods.
Context {P : Platform} {MR : MapRange} {SC : Type} {E : StatefulSetEnv SC}.

(** The volumes and the mounts of the pods of a role. *)
Definition role_volume_names (role : Role) : list string :=
  if decide (role = NameNodeRole) then
    [ HdfsConfigVolumeMountName; HdfsLogVolumeMountName;
      FormatNamenodesConfigVolumeMountName; FormatNamenodesLogVolumeMountName;
      FormatZookeeperConfigVolumeMountName; FormatZookeeperLogVolumeMountName;
      DataVolumeMountName; ListenerVolumeName ]
  else if decide (role = DataNodeRole) then
    [ HdfsConfigVolumeMountName; HdfsLogVolumeMountName;
      WaitForNamenodesConfigVolumeMountName; WaitForNamenodesLogVolumeMountName;
      ListenerVolumeName; DataVolumeMountName ]
  else [ HdfsConfigVolumeMountName; HdfsLogVolumeMountName; DataVolumeMountName ].

(** The mounts of built containers, where their components are known. *)
Ltac built_mounts :=
  repeat match goal with
  | H : build_container _ _ _ _ _ _ = Ret _ |- _ => apply build_container_mounts in H
  end;
  repeat match goal with
  | H : container_mounts ?c = _, Hin : context [container_mounts ?c] |- _ => rewrite H in Hin
  end.

Lemma role_pod info image replicas config overrides instance role b s :
  role_builder info image replicas config overrides instance role = Ret b → StatefulSet_Build b = Ret s →
  ∃ cfg, ClusterConfig (Spec instance) = Some cfg ∧
    pod_volumes s = ((KubedoopLogVolumeMountName :: krb_volume cfg ++ tls_volume cfg ++ tls_volume cfg)
                     ++ role_volume_names role) ++ map vol_Name (vector_volumes_of b) ∧
    ∀ v, v ∈ pod_mounts s →
      v ∈ (KubedoopLogVolumeMountName :: krb_volume cfg ++ tls_volume cfg) ++ role_volume_names role
      ∨ ∃ f, vector_of b = Some f ∧ GetVectorFactory (sb_image b) = Some f ∧
             v ∈ map vm_Name (vector_mounts f).
Proof.
  intros Hb Hs. unfold role_builder in Hb.
  destruct (pod_parts b s Hs) as (mains & inits & cfg & vs & cs & Hm & Hi & Hcfg & Hv & Hc & Hvols & Hmounts).
  unfold role_volume_names.
  case_decide; [|case_decide];
    unfold NewDataNodeStatefulSetBuilder, NewJournalnodeStatefulSetBuilder in Hb; go_inv;
    simpl in Hm, Hi, Hcfg, Hv, Hc; autounfold with builders in Hm; autounfold with builders in Hi;
    simpl in Hm, Hi; rewrite Hcfg in Hm; try rewrite Hcfg in Hi; simpl in Hm, Hi;
    unfold data_GetVolumes, data_createDataPvcTemplate in *; go_inv;
    unfold createDataPvcTemplate, name_createListenPvcTemplate, data_createListenPvcTemplate in *;
    go_inv; exists cfg; (split; [exact Hcfg|split; [rewrite Hvols, <- !app_assoc; done|]]);
    (intros v [Hin|Hin]%Hmounts; [left|by right]); simpl in Hin; built_mounts; simpl in Hin;
    unfold krb_volume, tls_volume; destruct (IsKerberosEnabled cfg), (IsTlsEnabled cfg);
    simpl in Hin; revert v Hin; apply elem_of_included; vm_compute; reflexivity.
Qed.

(** Every pod has a volume for its configuration. *)
Lemma config_volume_of_role role : HdfsConfigVolumeMountName ∈ role_volume_names role.
Proof. unfold role_volume_names. repeat case_decide; by left. Qed.

(** The names of the operator's own volumes. *)
Lemma own_volumes_distinct cfg role :
  NoDup ((KubedoopLogVolumeMountName :: krb_volume cfg ++ tls_volume cfg ++ tls_volume cfg)
         ++ role_volume_names role) ↔ IsTlsEnabled cfg = false.
Proof.
  unfold krb_volume, tls_volume, role_volume_names. destruct (IsTlsEnabled cfg).
  - split; [|done]. intros Hnd. exfalso. revert Hnd.
    destruct (IsKerberosEnabled cfg); repeat case_decide;
      apply (bool_decide_eq_false_1 (NoDup _)); vm_compute; reflexivity.
  - split; [done|]. intros _. destruct (IsKerberosEnabled cfg); repeat case_decide;
      apply (bool_decide_eq_true_1 (NoDup _)); vm_compute; reflexivity.
Qed.

(** With TLS no pod has distinct volume names. *)
Lemma tls_volume_twice info image replicas config overrides instance role b s cfg :
  role_builder info image replicas config overrides instance role = Ret b → StatefulSet_Build b = Ret s →
  ClusterConfig (Spec instance) = Some cfg → IsTlsEnabled cfg = true → ¬ NoDup (pod_volumes s).
Proof.
  intros Hb Hs Hcfg Htls Hnd.
  destruct (role_pod info image replicas config overrides instance role b s Hb Hs) as (cfg' & Hcfg' & Hv & _).
  rewrite Hcfg in Hcfg'. injection Hcfg' as <-. rewrite Hv in Hnd.
  apply NoDup_app in Hnd as [Hnd _]. apply own_volumes_distinct in Hnd. congruence.
Qed.
End pods.

(** What the operator relies on in operator-go's vector factory: the container
    mounts the two volumes the factory is given, and volumes of its own. *)
Definition vector_mounts_spec {P : Platform} {SC : Type} (E : StatefulSetEnv SC) : Prop :=
  ∀ configVolume logVolume image f, NewVector configVolume logVolume image = Some f →
  ∀ m, m ∈ vector_mounts f →
    vm_Name m = configVolume ∨ vm_Name m = logVolume ∨ vm_Name m ∈ map vol_Name (vector_volumes f).

(** C7. Every volume that a container of a role's pod mounts, init containers
    and the optional vector and OIDC containers included, is a volume of the
    pod or a claim template of its stateful set; no pod is built with a mount
    that has no volume. Of operator-go's vector container it is assumed that it
    mounts the two volumes it is told of, which every pod must then have, and
    volumes of its own. *)
Theorem mounts_have_volumes {P : Platform} {MR : MapRange} {SC : Type} {E : StatefulSetEnv SC}
    info image replicas config overrides instance role b s :
  vector_mounts_spec E →
  role_builder info image replicas config overrides instance role = Ret b → StatefulSet_Build b = Ret s →
  ∀ v, v ∈ pod_mounts s → v ∈ pod_volumes s.
Proof.
  intros HE Hb Hs v Hin.
  destruct (role_pod info image replicas config overrides instance role b s Hb Hs) as (cfg & _ & -> & Hm).
  destruct (Hm v Hin) as [Hv|(f & Hf & Hnew & (m & -> & Hmf)%list_elem_of_fmap)].
  - revert Hv. rewrite !elem_of_app, !elem_of_cons, !elem_of_app. tauto.
  - rewrite !elem_of_app. destruct (HE _ _ _ _ Hnew m Hmf) as [->|[->|Hown]].
    + left. right. apply config_volume_of_role.
    + left. left. by left.
    + right. unfold vector_volumes_of. by rewrite Hf.
Qed.

(** C27. The volumes of a pod have distinct names exactly when TLS is off and
    the log agent, if there is one, brings distinct names that the operator does
    not use: with TLS on, [GetCommonVolumes] adds the volume [tls] twice, which
    the API server refuses. *)
Theorem pod_volume_names_distinct {P : Platform} {MR : MapRange} {SC : Type} {E : StatefulSetEnv SC}
    info image replicas config overrides instance role b s :
  role_builder info image replicas config overrides instance role = Ret b → StatefulSet_Build b = Ret s →
  ∃ cfg, ClusterConfig (Spec instance) = Some cfg ∧
    (NoDup (pod_volumes s) ↔
       IsTlsEnabled cfg = false ∧
       NoDup (map vol_Name (vector_volumes_of b)) ∧
       ∀ v, v ∈ map vol_Name (vector_volumes_of b) →
         v ∉ KubedoopLogVolumeMountName :: krb_volume cfg ++ role_volume_names role).
Proof.
  intros Hb Hs.
  destruct (role_pod info image replicas config overrides instance role b s Hb Hs) as (cfg & Hcfg & -> & _).
  exists cfg. split; [done|]. rewrite NoDup_app, own_volumes_distinct. unfold tls_volume.
  destruct (IsTlsEnabled cfg); [naive_solver|]. rewrite !app_nil_r. set_solver.
Qed.

(** C33. A role group whose resources give only a storage size loses it: after
    the merge with the defaults the name and journal nodes claim the built-in
    10Gi whatever the user asked for, and building the data node's claim
    panics. *)
Theorem storage_only_is_lost {P : Platform} n cfg rg size :
  cs_RoleGroupConfigSpec cfg = Some rg →
  Resources rg = Some {| CPU := None; Memory := None; Storage := Some size |} →
  createDataPvcTemplate (Some (MergeDefaultConfig n cfg)) = Ret (data_claim (MustParse "10Gi")) ∧
  data_createDataPvcTemplate (Some (MergeDefaultConfig n cfg))
  = Panic "invalid memory address or nil pointer dereference".
Proof.
  intros Hrg Hr. unfold createDataPvcTemplate, data_createDataPvcTemplate, config_resources,
    MergeDefaultConfig. rewrite Hrg. simpl. rewrite Hr. done.
Qed.

(** In every other case the claims follow the configuration: when the user
    gives CPU or memory, or no resources at all, all three roles claim the
    user's storage size, or the role's default when there is none. *)
Theorem storage_claim_follows_config {P : Platform} clusterName role n cfg :
  DefaultRoleConfig clusterName role = Ret n →
  let user := cs_RoleGroupConfigSpec cfg ≫= Resources in
  (∀ u, user = Some u → CPU u ≠ None ∨ Memory u ≠ None ∨ Storage u = None) →
  ∃ size, (user ≫= Storage) ∪ Storage (resources n) = Some size ∧
    createDataPvcTemplate (Some (MergeDefaultConfig n cfg)) = Ret (data_claim (Capacity size)) ∧
    data_createDataPvcTemplate (Some (MergeDefaultConfig n cfg)) = Ret (data_claim (Capacity size)).
Proof.
  intros Hn user Hu.
  assert (Hd : ∃ d, Storage (resources n) = Some d).
  { unfold DefaultRoleConfig, DefaultNameNodeConfig, DefaultDataNodeConfig,
      DefaultJournalNodeConfig, DefaultNodeConfig, newDefaultResourceSpec, GetContainerResource in Hn.
    repeat case_decide; simplify_eq; simpl in Hn; simplify_eq; simpl; eauto. }
  destruct Hd as [d Hd]. unfold createDataPvcTemplate, data_createDataPvcTemplate, config_resources,
    MergeDefaultConfig. unfold user in *. clear user.
  destruct (cs_RoleGroupConfigSpec cfg) as [[[[c m s]|] lg]|]; simpl in *;
    [|rewrite Hd; eauto..].
  specialize (Hu _ eq_refl). simpl in Hu.
  destruct c, m, s; simpl; rewrite ?Hd; eauto; naive_solver.
Qed.

(** The zkfc container never gets the small resources that the code sets
    for it when none are configured: [MergeDefaultConfig] always configures
    some, so it gets the resources of the name node, twice per pod. *)
Theorem zkfc_gets_name_node_resources {P : Platform} n cfg :
  ∃ r, resource_calls ZkfcComponent (cs_RoleGroupConfigSpec (MergeDefaultConfig n cfg))
       = [SetResources (Some r)] ∧
       resource_calls NameNodeComponent (cs_RoleGroupConfigSpec (MergeDefaultConfig n cfg))
       = [SetResources (Some r)].
Proof. eexists. split; reflexivity. Qed.

(** ** Witnesses *)

(** A vector factory with a data directory of its own. *)
Definition sample_vector (configVolume logVolume : string) : VectorFactory (P := sample_platform) :=
  {| vector_mounts :=
       [ {| vm_Name := configVolume; vm_MountPath := "/kubedoop/config/vector" |};
         {| vm_Name := logVolume; vm_MountPath := "/kubedoop/log" |};
         {| vm_Name := "vector-data"; vm_MountPath := "/kubedoop/vector" |} ];
     vector_volumes :=
       [ {| vol_Name := "vector-data"; vol_Source := EmptyDir (P := sample_platform) "100Mi" |} ] |}.

Definition sample_env : StatefulSetEnv (P := sample_platform) string :=
  {| NewVector := λ c l _, Some (sample_vector c l); sts_object_ok := Ret tt; inherited_security_context := Some "root"; auth_class := sample_class |}.

Lemma sample_env_spec : vector_mounts_spec sample_env.
Proof. intros c l i f [= <-] m Hm. simpl in *. set_solver. Qed.

Definition sample_sts_config : ConfigSpec (P := sample_platform) :=
  {| cs_RoleGroupConfigSpec :=
       Some {| Resources := Some {| CPU := None; Memory := None;
                 Storage := Some {| Capacity := "5Gi" : Quantity (Platform := sample_platform) |} |};
               Logging := Some {| EnableVectorAgent := Some true |} |};
     ListenerClass := Some "cluster-internal" |}.

Definition sample_sts_builder (auth : option AuthenticationSpec)
    : outcome (StatefulSetBuilder (P := sample_platform)) :=
  role_builder (P := sample_platform) (MR := sorted_range) (E := sample_env) sample_group_info
    sample_image (Some 2%Z) sample_sts_config None (sample_instance auth) NameNodeRole.

Lemma sample_sts auth :
  is_ret (b ← sample_sts_builder auth;
          StatefulSet_Build (P := sample_platform) (E := sample_env) b) = true →
  ∃ b s, sample_sts_builder auth = Ret b ∧
         StatefulSet_Build (P := sample_platform) (E := sample_env) b = Ret s.
Proof.
  intros H. apply is_ret_inv in H as [s Hs]. apply bind_ret_inv in Hs as (b & Hb & Hs). eauto.
Qed.

Lemma mounts_have_volumes_witness :
  ∃ b s, sample_sts_builder None = Ret b ∧
    StatefulSet_Build (P := sample_platform) (E := sample_env) b = Ret s ∧
    vector_of (P := sample_platform) (E := sample_env) b
    = Some (sample_vector HdfsConfigVolumeMountName KubedoopLogVolumeMountName) ∧
    ∀ v, v ∈ pod_mounts s → v ∈ pod_volumes s.
Proof.
  destruct (sample_sts None) as (b & s & Hb & Hs); [vm_compute; reflexivity|].
  exists b, s. split; [exact Hb|]. split; [exact Hs|]. split.
  - revert Hb. intros [= <-]. reflexivity.
  - exact (@mounts_have_volumes sample_platform sorted_range string sample_env _ _ _ _ _ _ _ b s
             sample_env_spec Hb Hs).
Defined.

Lemma pod_volume_names_distinct_witness :
  ∃ b s, sample_sts_builder sample_auth = Ret b ∧
    StatefulSet_Build (P := sample_platform) (E := sample_env) b = Ret s ∧
    ∃ cfg, ClusterConfig (Spec (sample_instance sample_auth)) = Some cfg ∧
      IsTlsEnabled cfg = true ∧ ¬ NoDup (pod_volumes s).
Proof.
  destruct (sample_sts sample_auth) as (b & s & Hb & Hs); [vm_compute; reflexivity|].
  exists b, s. split; [exact Hb|]. split; [exact Hs|].
  destruct (@pod_volume_names_distinct sample_platform sorted_range string sample_env _ _ _ _ _ _ _
    b s Hb Hs) as (cfg & Hcfg & Hiff).
  exists cfg. split; [exact Hcfg|]. revert Hcfg Hiff. intros [= <-] Hiff.
  split; [reflexivity|]. intros [Hoff _]%Hiff. discriminate Hoff.
Defined.

Lemma storage_only_is_lost_witness :
  ∃ n, DefaultRoleConfig (P := sample_platform) "simple-hdfs" NameNodeRole = Ret n ∧
    createDataPvcTemplate (P := sample_platform) (Some (MergeDefaultConfig n sample_sts_config))
    = Ret (data_claim (P := sample_platform) (MustParse "10Gi")).
Proof.
  eexists. split; [reflexivity|].
  exact (proj1 (@storage_only_is_lost sample_platform _ sample_sts_config _ _ eq_refl eq_refl)).
Defined.

Lemma storage_claim_follows_config_witness :
  ∃ n size, DefaultRoleConfig (P := sample_platform) "simple-hdfs" DataNodeRole = Ret n ∧
    data_createDataPvcTemplate (P := sample_platform)
      (Some (MergeDefaultConfig n {| cs_RoleGroupConfigSpec := None; ListenerClass := None |}))
    = Ret (data_claim (P := sample_platform) size).
Proof.
  destruct (@storage_claim_follows_config sample_platform "simple-hdfs" DataNodeRole _
    {| cs_RoleGroupConfigSpec := None; ListenerClass := None |} eq_refl) as (size & _ & _ & H).
  - intros u Hu. discriminate Hu.
  - eexists _, _. split; [reflexivity|]. exact H.
Defined.
