(* ===== verification/Services.v ===== *)
(** * Services: [internal/common/service.go] and
    [internal/controller/{name,data,journal}/svc_headless.go]

    What a service builder of operator-go is asked to build. *)

From S2P Require Import Prelude GoStd GoXml XmlUtil Api Util Security Components Containers.

Section with_platform.
Context {P : Platform} {MR : MapRange}.

(** The arguments and options of [builder.NewServiceBuilder], and the field
    that [HdfsServiceBuilder.Build] sets on the object. *)
Record ServiceObject := {
  so_Name : string;
  so_Ports : list ContainerPort;
  so_Headless : bool;
  so_ListenerClass : string;
  so_Labels : gmap string string;
  so_MatchingLabels : gmap string string;
  so_Annotations : gmap string string;
  PublishNotReadyAddresses : bool;
}.

(** [HdfsServiceBuilder.Build] on a builder made with these arguments. *)
Definition Service_Build (b : ServiceObject) : ServiceObject :=
  {| so_Name := so_Name b; so_Ports := so_Ports b; so_Headless := so_Headless b;
     so_ListenerClass := so_ListenerClass b; so_Labels := so_Labels b;
     so_MatchingLabels := so_MatchingLabels b; so_Annotations := so_Annotations b;
     PublishNotReadyAddresses := true |}.

Definition NewHdfsServiceBuilder (roleGroupInfo : RoleGroupInfo) (listenerClass : string)
    (headless : bool) (ports : list ContainerPort) : ServiceObject :=
  {| so_Name := GetFullName roleGroupInfo;
     so_Ports := ports;
     so_Headless := headless;
     so_ListenerClass := listenerClass;
     so_Labels := GetLabels roleGroupInfo;
     so_MatchingLabels := GetLabels roleGroupInfo;
     so_Annotations := GetAnnotations roleGroupInfo;
     PublishNotReadyAddresses := false |}.

(** ** The ports of the roles *)

Definition name_GetServicePorts (cfg : ClusterConfigSpec) : list ContainerPort :=
  [ container_port RpcName NameNodeRpcPort;
    container_port MetricName NameNodeMetricPort;
    container_port "oidc" 4180;
    HttpPort cfg NameNodeHttpsPort NameNodeHttpPort ].

Definition data_GetServicePorts : list ContainerPort :=
  [ container_port "data" 9866; container_port "http" 9864; container_port "ipc" 9867 ].

Definition journal_GetServicePorts (cfg : ClusterConfigSpec) : list ContainerPort :=
  [ container_port RpcName JournalNodeRpcPort;
    container_port MetricName JournalNodeMetricPort;
    container_port "oidc" 4180;
    HttpPort cfg JournalNodeHttpsPort JournalNodeHttpPort ].

Definition NewNameNodeServiceBuilder (roleGroupInfo : RoleGroupInfo)
    (cfg : option ClusterConfigSpec) : outcome ServiceObject :=
  cfg ← deref cfg;
  Ret (NewHdfsServiceBuilder roleGroupInfo ClusterInternal true (name_GetServicePorts cfg)).

Definition NewDataNodeServiceBuilder (roleGroupInfo : RoleGroupInfo) : ServiceObject :=
  NewHdfsServiceBuilder roleGroupInfo ClusterInternal true data_GetServicePorts.

Definition NewJournalNodeServiceBuilder (roleGroupInfo : RoleGroupInfo)
    (cfg : option ClusterConfigSpec) : outcome ServiceObject :=
  cfg ← deref cfg;
  Ret (NewHdfsServiceBuilder roleGroupInfo ClusterInternal true (journal_GetServicePorts cfg)).

(** ** The service of a role group *)

(** The dynamic values of the interface [ServicePortProvider]: those that are
    service builders too, and those that only have ports. *)
Inductive ServicePortProvider :=
  | ServiceBuilder (b : ServiceObject)
  | PortsOnly (ports : list ContainerPort).

(** Nothing but the type assertion on [portsProvider] decides; the other
    arguments are not looked at. *)
Definition NewRoleGroupService (roleGroupInfo : RoleGroupInfo) (listenerClass : string)
    (headless : bool) (portsProvider : ServicePortProvider) : outcome ServiceObject :=
  match portsProvider with
  | ServiceBuilder serviceBuilder => Ret serviceBuilder
  | PortsOnly _ => Panic "portsProvider does not implement builder.ServiceBuilder"
  end.

(** ** The metrics service *)

(** The copying loop over a map. *)
Definition copy_map (m : gmap string string) : gmap string string :=
  foldl (λ acc kv, <[kv.1 := kv.2]> acc) ∅ (range m).

(** [None] is the nil reconciler of an unknown role, for which
    [GetNativeMetricsPort] fails before it reads the configuration. *)
Definition NewRoleGroupMetricsService (roleGroupInfo : RoleGroupInfo)
    (clusterConfig : option ClusterConfigSpec) : outcome (option ServiceObject) :=
  let role := RoleName (rg_RoleInfo roleGroupInfo) in
  if decide (role ∈ [NameNodeRole; DataNodeRole; JournalNodeRole]) then
    cfg ← deref clusterConfig;
    metricsPort ← GetNativeMetricsPort role cfg;
    let scheme := if IsTlsEnabled cfg then "https" else "http" in
    let labels := <["prometheus.io/scrape" := xmlTrue]> (copy_map (GetLabels roleGroupInfo)) in
    let annotations :=
      <["prometheus.io/scheme" := scheme]>
      (<["prometheus.io/port" := Itoa metricsPort]>
      (<["prometheus.io/path" := "/prom"]>
      (<["prometheus.io/scrape" := xmlTrue]> (copy_map (GetAnnotations roleGroupInfo))))) in
    Ret (Some {| so_Name := CreateServiceMetricsName roleGroupInfo;
                 so_Ports := [container_port MetricName metricsPort];
                 so_Headless := true;
                 so_ListenerClass := ClusterInternal;
                 so_Labels := labels;
                 so_MatchingLabels := GetLabels roleGroupInfo;
                 so_Annotations := annotations;
                 PublishNotReadyAddresses := false |})
  else Ret None.

Lemma copy_map_id m : copy_map m = m.
Proof.
  unfold copy_map. rewrite foldl_insert_union by apply NoDup_fst_range.
  by rewrite range_list_to_map, map_union_empty.
Qed.

End with_platform.

(** ** Claims *)

(** C34. The ports of the role services reach the containers: every port of a
    name or journal node service is the OIDC proxy's or a port of that name and
    number of the daemon's container, with TLS and without. For the data nodes
    this holds exactly without TLS: the service always offers [http] 9864,
    which the container does not open when TLS is on. *)
Theorem service_ports_reach_containers {P : Platform} cfg :
  let reached ports component :=
    ∀ p, p ∈ ports → p = container_port "oidc" 4180 ∨ p ∈ default [] (PortsProvider component) in
  reached (name_GetServicePorts cfg) (nameNodeComponent cfg) ∧
  reached (journal_GetServicePorts cfg) (journalNodeComponent cfg) ∧
  (reached data_GetServicePorts (dataNodeComponent cfg) ↔ IsTlsEnabled cfg = false).
Proof.
  intros reached. unfold reached, name_GetServicePorts, journal_GetServicePorts,
    data_GetServicePorts, nameNodeComponent, journalNodeComponent, dataNodeComponent, HttpPort.
  simpl. split; [set_solver|]. split; [set_solver|]. destruct (IsTlsEnabled cfg).
  - split; [|done]. intros H. destruct (H (container_port "http" 9864)) as [H'|H'];
      [set_solver|discriminate|].
    repeat (apply elem_of_cons in H' as [H'|H']; [discriminate|]). by apply not_elem_of_nil in H'.
  - split; [done|]. intros _ p Hp. right.
    repeat (apply elem_of_cons in Hp as [->|Hp]; [set_solver|]). by apply not_elem_of_nil in Hp.
Qed.


