(* ===== verification/Roles.v ===== *)
(** * Roles, cluster and controller

    [internal/common/role.go], [internal/controller/{name,data,journal}/role.go],
    [cluster.go], [sa.go] and [hdfscluster_controller.go]: which resources a
    reconciliation registers, in which order, and when it stops. What
    operator-go does with the registered resources, and how it merges the
    configuration of a role into that of a group, is the class [Operator]. *)

From S2P Require Import Prelude GoStd GoXml XmlUtil Api Util Security Components HdfsConf.
From S2P Require Import ConfigMaps Discovery RoleConfig Containers Oidc StatefulSets Services.

Section with_platform.
Context {P : Platform} {MR : MapRange} {O : ConfigMapOps} {SC : Type} {E : StatefulSetEnv SC}.

(** ** Registered resources *)

Inductive Resource :=
  | ServiceResource (s : ServiceObject)
  | StatefulSetResource (b : StatefulSetBuilder (SecurityContext := SC)) (stopped : bool)
  | ConfigMapResource (b : ConfigMapBuilder).

Inductive ClusterResource :=
  | ServiceAccountResource (name : string)
  | RoleResource (role : Role) (stopped : bool) (resources : list Resource)
  | DiscoveryResource (instance : HdfsCluster).

(** [controller-runtime]'s [Result]; the zero result is [false] and [0]. *)
Record Result := { Requeue : bool; RequeueAfter : Z }.

Definition result_IsZero (r : Result) : bool :=
  negb (Requeue r) && bool_decide (RequeueAfter r = 0%Z).

Class Operator := {
  (** [util.MergeObject] on the two types it is used with. *)
  MergeConfig : option ConfigSpec → option ConfigSpec → outcome (option ConfigSpec);
  MergeOverrides : option OverridesSpec → option OverridesSpec → outcome (option OverridesSpec);
  (** [Reconcile] and [Ready] of the base cluster, on the registered resources. *)
  reconcile_resources : list ClusterResource → outcome Result;
  ready_resources : list ClusterResource → outcome Result;
}.

Context {Op : Operator}.

(** ** role.go *)

Record RoleReconciler := {
  rr_RoleInfo : RoleInfo;
  rr_Spec : RoleSpec;
  rr_Stopped : bool;
  rr_HdfsCluster : HdfsCluster;
  rr_Image : ContainerImage;
  rr_ComponentType : Role;
  rr_Components : ClusterComponentsInfo;
}.

Definition NewBaseHdfsRoleReconciler (roleInfo : RoleInfo) (spec : RoleSpec)
    (hdfsCluster : HdfsCluster) (image : ContainerImage) (componentType : Role)
    (components : ClusterComponentsInfo) : RoleReconciler :=
  let stopped := match spec_ClusterOperation (Spec hdfsCluster) with
                 | Some o => Stopped o
                 | None => false
                 end in
  {| rr_RoleInfo := roleInfo; rr_Spec := spec; rr_Stopped := stopped;
     rr_HdfsCluster := hdfsCluster; rr_Image := image; rr_ComponentType := componentType;
     rr_Components := components |}.

(** The interface [HdfsComponentResourceBuilder]. *)
Record HdfsComponentResourceBuilder := {
  CreateServiceReconcilers : RoleGroupInfo → outcome (list Resource);
  CreateStatefulSetReconciler :
    ContainerImage → option Z → RoleGroupInfo → option ConfigSpec → option OverridesSpec →
    outcome Resource;
  CreateConfigMapReconciler :
    RoleGroupInfo → option Z → option ConfigSpec → option OverridesSpec → outcome Resource;
}.

Definition name_resources (r : RoleReconciler) : HdfsComponentResourceBuilder :=
  let instance := rr_HdfsCluster r in
  {| CreateServiceReconcilers info :=
       svcBuilder ← NewNameNodeServiceBuilder info (ClusterConfig (Spec instance));
       s ← NewRoleGroupService info ClusterInternal true (ServiceBuilder svcBuilder);
       Ret [ServiceResource (Service_Build s)];
     CreateStatefulSetReconciler image replicas info config overrides :=
       c ← deref config;
       Ret (StatefulSetResource
              (NewNamenodeStatefulSetBuilder info image replicas (cs_RoleGroupConfigSpec c) overrides
                 instance config) (rr_Stopped r));
     CreateConfigMapReconciler info replicas config overrides :=
       b ← NewNamenodeConfigMapBuilder info replicas overrides config instance (rr_Components r);
       Ret (ConfigMapResource b) |}.

(** [r.ClusterConfig.VectorAggregatorConfigMapName] is an argument the
    constructor ignores; reading it dereferences the configuration. *)
Definition data_resources (r : RoleReconciler) : HdfsComponentResourceBuilder :=
  let instance := rr_HdfsCluster r in
  {| CreateServiceReconcilers info :=
       let svcBuilder := NewDataNodeServiceBuilder info in
       s ← NewRoleGroupService info ClusterInternal true (ServiceBuilder svcBuilder);
       Ret [ServiceResource (Service_Build s)];
     CreateStatefulSetReconciler image replicas info config overrides :=
       b ← NewDataNodeStatefulSetBuilder info image replicas config overrides instance;
       Ret (StatefulSetResource b (rr_Stopped r));
     CreateConfigMapReconciler info replicas config overrides :=
       _ ← deref (ClusterConfig (Spec instance));
       Ret (ConfigMapResource
              (NewDataNodeConfigMapBuilder instance info overrides config (rr_Components r))) |}.

Definition journal_resources (r : RoleReconciler) : HdfsComponentResourceBuilder :=
  let instance := rr_HdfsCluster r in
  {| CreateServiceReconcilers info :=
       svcBuilder ← NewJournalNodeServiceBuilder info (ClusterConfig (Spec instance));
       s ← NewRoleGroupService info ClusterInternal true (ServiceBuilder svcBuilder);
       Ret [ServiceResource (Service_Build s)];
     CreateStatefulSetReconciler image replicas info config overrides :=
       b ← NewJournalnodeStatefulSetBuilder info image replicas config overrides instance;
       Ret (StatefulSetResource b (rr_Stopped r));
     CreateConfigMapReconciler info replicas config overrides :=
       Ret (ConfigMapResource
              (NewJournalnodeConfigMapBuilder info overrides config instance (rr_Components r))) |}.

(** An error of the last step is wrapped. *)
Definition wrap_error {A} (prefix : string) (o : outcome A) : outcome A :=
  match o with
  | Err (EMsg m) => Err (EMsg (prefix +:+ m))
  | Err (ENotFound m) => Err (ENotFound (prefix +:+ m))
  | _ => o
  end.

Definition RegisterStandardResources (builder : HdfsComponentResourceBuilder)
    (replicas : option Z) (image : ContainerImage) (hdfsCluster : HdfsCluster)
    (info : RoleGroupInfo) (config : option ConfigSpec) (overrides : option OverridesSpec)
    : outcome (list Resource) :=
  services ← CreateServiceReconcilers builder info;
  metrics ← NewRoleGroupMetricsService info (ClusterConfig (Spec hdfsCluster));
  statefulSet ← CreateStatefulSetReconciler builder image replicas info config overrides;
  configMap ← wrap_error "failed to create ConfigMap reconciler: "
                (CreateConfigMapReconciler builder info replicas config overrides);
  Ret (services
       ++ match metrics with Some s => [ServiceResource (Service_Build s)] | None => [] end
       ++ [statefulSet; configMap]).

(** The [RegisterResourceWithRoleGroup] of the three roles. *)
Definition role_resources (r : RoleReconciler) : HdfsComponentResourceBuilder :=
  if decide (rr_ComponentType r = NameNodeRole) then name_resources r
  else if decide (rr_ComponentType r = DataNodeRole) then data_resources r
  else journal_resources r.

Definition RegisterResourceWithRoleGroup (r : RoleReconciler) (replicas : option Z)
    (info : RoleGroupInfo) (overrides : option OverridesSpec) (config : option ConfigSpec)
    : outcome (list Resource) :=
  RegisterStandardResources (role_resources r) replicas (rr_Image r) (rr_HdfsCluster r) info
    config overrides.

Definition empty_config : ConfigSpec :=
  {| cs_RoleGroupConfigSpec := None; ListenerClass := None |}.

(** The body of the loop over the role groups. *)
Definition register_group (r : RoleReconciler) (g : string * RoleGroupSpec)
    : outcome (list Resource) :=
  mergedConfig ← MergeConfig (rs_Config (rr_Spec r)) (rgs_Config g.2);
  overrides ← MergeOverrides (rs_OverridesSpec (rr_Spec r)) (rgs_OverridesSpec g.2);
  let overrides := default {| ConfigOverrides := ∅ |} overrides in
  defaultInstance ← DefaultRoleConfig (ClusterName (ri_ClusterInfo (rr_RoleInfo r)))
                      (rr_ComponentType r);
  let mergedConfig := MergeDefaultConfig defaultInstance (default empty_config mergedConfig) in
  let info := {| rg_RoleInfo := rr_RoleInfo r; RoleGroupName := g.1 |} in
  RegisterResourceWithRoleGroup r (Replicas g.2) info (Some overrides) (Some mergedConfig).

Definition Role_RegisterResources (r : RoleReconciler) : outcome (list Resource) :=
  mfold (λ acc g, rs ← register_group r g; Ret (acc ++ rs)) [] (range (RoleGroups (rr_Spec r))).

(** ** cluster.go *)

Definition DefaultProductVersion := "3.4.1".
Definition DefaultProductName := "hadoop".

(** [buildVersion] is [version.BuildVersion], set when the operator is built. *)
Definition GetImage (buildVersion : string) (instance : HdfsCluster) : outcome ContainerImage :=
  img ← deref (Image (Spec instance));
  let productVersion := if decide (ProductVersion img = "") then DefaultProductVersion
                        else ProductVersion img in
  Ret {| img_ProductName := DefaultProductName;
         img_KubedoopVersion := if decide (KubedoopVersion img = "") then buildVersion
                                else KubedoopVersion img;
         img_ProductVersion := productVersion;
         img_Custom := Custom img;
         img_Repo := Repo img;
         img_PullPolicy := PullPolicy img |}.

Definition NewServiceAccountReconciler (instance : HdfsCluster) : outcome ClusterResource :=
  name ← CreateServiceAccountName (hc_Name instance);
  Ret (ServiceAccountResource name).

(** One of the three role blocks: nothing for a role that is not specified. *)
Definition register_role (buildVersion : string) (clusterInfo : ClusterInfo)
    (instance : HdfsCluster) (components : ClusterComponentsInfo) (role : Role)
    (spec : option RoleSpec) (acc : list ClusterResource) : outcome (list ClusterResource) :=
  match spec with
  | None => Ret acc
  | Some rs =>
      image ← GetImage buildVersion instance;
      let r := NewBaseHdfsRoleReconciler {| ri_ClusterInfo := clusterInfo; RoleName := role |} rs
                 instance image role components in
      resources ← Role_RegisterResources r;
      Ret (acc ++ [RoleResource role (rr_Stopped r) resources])
  end.

Definition Cluster_RegisterResources (buildVersion : string) (clusterInfo : ClusterInfo)
    (instance : HdfsCluster) : outcome (list ClusterResource) :=
  sa ← NewServiceAccountReconciler instance;
  let spec := Spec instance in
  components ← PopulateClusterComponents instance
    (NewClusterComponentsInfo (hc_Name instance) (hc_Namespace instance) (ClusterConfig spec))
    clusterInfo;
  let role := register_role buildVersion clusterInfo instance components in
  rs ← role NameNodeRole (NameNode spec) [sa];
  rs ← role JournalNodeRole (JournalNode spec) rs;
  rs ← role DataNodeRole (DataNode spec) rs;
  Ret (rs ++ [DiscoveryResource instance]).

(** ** hdfscluster_controller.go *)

Definition zero_result : Result := {| Requeue := false; RequeueAfter := 0 |}.

Lemma result_zero r : result_IsZero r = true ↔ r = zero_result.
Proof.
  destruct r as [q a]. unfold result_IsZero, zero_result. simpl.
  rewrite andb_true_iff, negb_true_iff, bool_decide_eq_true. naive_solver.
Qed.

(** [get] is what the API server answers for the request. *)
Definition Reconcile (buildVersion : string) (gvk : GroupVersionKind)
    (get : outcome HdfsCluster) : outcome Result :=
  match get with
  | Err (ENotFound _) => Ret zero_result
  | Err e => Err e
  | Panic w => Panic w
  | Beyond w => Beyond w
  | Ret instance =>
      let clusterInfo := {| GVK := Some gvk; ClusterName := hc_Name instance |} in
      resources ← Cluster_RegisterResources buildVersion clusterInfo instance;
      result ← reconcile_resources resources;
      if negb (result_IsZero result) then Ret result
      else
        result ← ready_resources resources;
        if negb (result_IsZero result) then Ret result else Ret zero_result
  end.

(** ** What a role group registers *)

(** The four resources of a role group: its headless service, its metrics
    service, its stateful set and its config map, all under its identity. *)
Definition group_resources (stopped : bool) (info : RoleGroupInfo) (rs : list Resource) : Prop :=
  ∃ s m b c, rs = [ServiceResource s; ServiceResource m; StatefulSetResource b stopped; ConfigMapResource c] ∧
    so_Name s = GetFullName info ∧ so_Headless s = true ∧ PublishNotReadyAddresses s = true ∧
    so_MatchingLabels s = GetLabels info ∧
    so_Name m = CreateServiceMetricsName info ∧ PublishNotReadyAddresses m = true ∧
    sb_roleGroupInfo b = info ∧ b_roleGroupInfo c = info.

(** A role reconciler as [cluster.go] makes it. *)
Definition role_ok (r : RoleReconciler) : Prop :=
  rr_ComponentType r = RoleName (rr_RoleInfo r) ∧
  rr_ComponentType r ∈ [NameNodeRole; DataNodeRole; JournalNodeRole].

(** The merges of operator-go succeed. *)
Definition merges_ok : Prop :=
  (∀ a b, ∃ c, MergeConfig a b = Ret c) ∧ (∀ a b, ∃ c, MergeOverrides a b = Ret c).

Lemma DefaultRoleConfig_ok name role :
  role ∈ [NameNodeRole; DataNodeRole; JournalNodeRole] →
  ∃ n, DefaultRoleConfig name role = Ret n.
Proof.
  intros H. apply list_elem_of_In in H. simpl in H.
  destruct H as [<-|[<-|[<-|[]]]]; eexists; reflexivity.
Qed.

Lemma metrics_service_some info cfg :
  RoleName (rg_RoleInfo info) ∈ [NameNodeRole; DataNodeRole; JournalNodeRole] →
  ∃ m, NewRoleGroupMetricsService info (Some cfg) = Ret (Some m) ∧
       so_Name m = CreateServiceMetricsName info.
Proof.
  intros H. unfold NewRoleGroupMetricsService. rewrite decide_True by done.
  apply list_elem_of_In in H. simpl in H.
  destruct H as [Hr|[Hr|[Hr|[]]]]; rewrite <- Hr; eexists; split; reflexivity.
Qed.

Lemma register_group_ok r g cfg :
  role_ok r → merges_ok → ClusterConfig (Spec (rr_HdfsCluster r)) = Some cfg →
  ∃ rs, register_group r g = Ret rs ∧
    group_resources (rr_Stopped r) {| rg_RoleInfo := rr_RoleInfo r; RoleGroupName := g.1 |} rs.
Proof.
  intros [Hrole Hin] [Hm1 Hm2] Hcfg. unfold register_group.
  destruct (Hm1 (rs_Config (rr_Spec r)) (rgs_Config g.2)) as [c ->]. cbn [mbind outcome_bind].
  destruct (Hm2 (rs_OverridesSpec (rr_Spec r)) (rgs_OverridesSpec g.2)) as [o ->].
  cbn [mbind outcome_bind].
  destruct (DefaultRoleConfig_ok (ClusterName (ri_ClusterInfo (rr_RoleInfo r))) _ Hin) as [n ->].
  cbn [mbind outcome_bind].
  set (info := {| rg_RoleInfo := rr_RoleInfo r; RoleGroupName := g.1 |}).
  destruct (metrics_service_some info cfg) as (m & Hm & Hname).
  { simpl. by rewrite <- Hrole. }
  unfold RegisterResourceWithRoleGroup, RegisterStandardResources. rewrite Hcfg.
  unfold role_resources, name_resources, data_resources, journal_resources.
  repeat case_decide; cbn [CreateServiceReconcilers CreateStatefulSetReconciler CreateConfigMapReconciler];
    rewrite ?Hcfg; cbn [mbind outcome_bind deref NewNameNodeServiceBuilder NewJournalNodeServiceBuilder NewRoleGroupService];
    rewrite Hm; simpl; eexists; (split; [reflexivity|]); do 4 eexists; split_and!; reflexivity || done.
Qed.

Lemma Role_RegisterResources_ok r cfg :
  role_ok r → merges_ok → ClusterConfig (Spec (rr_HdfsCluster r)) = Some cfg →
  ∃ rss, Role_RegisterResources r = Ret (concat rss) ∧
    Forall2 (λ g rs, group_resources (rr_Stopped r)
               {| rg_RoleInfo := rr_RoleInfo r; RoleGroupName := g.1 |} rs)
      (range (RoleGroups (rr_Spec r))) rss.
Proof.
  intros Hr Hm Hcfg. unfold Role_RegisterResources.
  assert (Hrun : ∀ l acc, ∃ rss,
    mfold (λ acc g, rs ← register_group r g; Ret (acc ++ rs)) acc l = Ret (acc ++ concat rss) ∧
    Forall2 (λ g rs, group_resources (rr_Stopped r)
               {| rg_RoleInfo := rr_RoleInfo r; RoleGroupName := g.1 |} rs) l rss).
  { induction l as [|g l IH]; intros acc.
    - exists []. simpl. rewrite app_nil_r. split; [done|constructor].
    - destruct (register_group_ok r g cfg Hr Hm Hcfg) as (rs & Hg & Hrs).
      destruct (IH (acc ++ rs)) as (rss & Hl & Hrss). exists (rs :: rss). split.
      + cbn [mfold]. rewrite Hg. cbn [mbind outcome_bind]. rewrite Hl. simpl. by rewrite app_assoc.
      + by constructor. }
  destruct (Hrun (range (RoleGroups (rr_Spec r))) []) as (rss & Hl & Hrss). eauto.
Qed.

Lemma register_role_ok v ci instance components role spec acc cfg img :
  role ∈ [NameNodeRole; DataNodeRole; JournalNodeRole] → merges_ok →
  ClusterConfig (Spec instance) = Some cfg → Image (Spec instance) = Some img →
  ∃ new, register_role v ci instance components role spec acc = Ret (acc ++ new) ∧
    match spec with
    | None => new = []
    | Some rs => ∃ rss,
        new = [RoleResource role (match spec_ClusterOperation (Spec instance) with
                                  | Some o => Stopped o | None => false end) (concat rss)] ∧
        Forall2 (λ g grs, group_resources (match spec_ClusterOperation (Spec instance) with
                                           | Some o => Stopped o | None => false end)
                   {| rg_RoleInfo := {| ri_ClusterInfo := ci; RoleName := role |};
                      RoleGroupName := g.1 |} grs) (range (RoleGroups rs)) rss
    end.
Proof.
  intros Hrole Hm Hcfg Himg. unfold register_role. destruct spec as [rs|].
  2: { exists []. by rewrite app_nil_r. }
  unfold GetImage. rewrite Himg. cbn [mbind outcome_bind deref].
  match goal with |- context [Role_RegisterResources ?r] =>
    destruct (Role_RegisterResources_ok r cfg) as (rss & Hr & Hrss) end; [by split|done|done|].
  rewrite Hr. cbn [mbind outcome_bind]. eexists. split; [reflexivity|]. eauto.
Qed.

End with_platform.

Definition cluster_stopped {P : Platform} (instance : HdfsCluster) : bool :=
  match spec_ClusterOperation (Spec instance) with Some o => Stopped o | None => false end.

(** Registration of a well-formed cluster. *)
Lemma register_cluster {P : Platform} {MR : MapRange} {O : ConfigMapOps} {SC : Type}
    {E : StatefulSetEnv SC} {Op : Operator} v ci instance cfg img :
  hc_Name instance ≠ "" → instance_replicas_set instance → merges_ok →
  ClusterConfig (Spec instance) = Some cfg → Image (Spec instance) = Some img →
  let role_part role spec part :=
    match spec with
    | None => part = []
    | Some rs => ∃ rss,
        part = [RoleResource role (cluster_stopped instance) (concat rss)] ∧
        Forall2 (λ g grs, group_resources (cluster_stopped instance) (group_info ci role g.1) grs)
          (range (RoleGroups rs)) rss
    end in
  ∃ nn jn dn,
    Cluster_RegisterResources v ci instance
    = Ret ([ServiceAccountResource (hc_Name instance +:+ "-sa")] ++ nn ++ jn ++ dn
           ++ [DiscoveryResource instance]) ∧
    role_part NameNodeRole (NameNode (Spec instance)) nn ∧
    role_part JournalNodeRole (JournalNode (Spec instance)) jn ∧
    role_part DataNodeRole (DataNode (Spec instance)) dn.
Proof.
  intros Hname Hreps Hm Hcfg Himg role_part. unfold Cluster_RegisterResources,
    NewServiceAccountReconciler. rewrite CreateServiceAccountName_ret by done.
  cbn [mbind outcome_bind]. rewrite populate_components, decide_True by done.
  cbn [mbind outcome_bind].
  edestruct (register_role_ok v ci instance (components_of instance ci) NameNodeRole
    (NameNode (Spec instance))) as (nn & -> & Hnn); [set_solver|done..|]. cbn [mbind outcome_bind].
  edestruct (register_role_ok v ci instance (components_of instance ci) JournalNodeRole
    (JournalNode (Spec instance))) as (jn & -> & Hjn); [set_solver|done..|]. cbn [mbind outcome_bind].
  edestruct (register_role_ok v ci instance (components_of instance ci) DataNodeRole
    (DataNode (Spec instance))) as (dn & -> & Hdn); [set_solver|done..|]. cbn [mbind outcome_bind].
  exists nn, jn, dn. split_and!; [|done..]. by rewrite <- !app_assoc.
Qed.

(** ** Claims *)

(** C3. A cluster whose role groups have replica counts and whose merges
    succeed is registered completely, for every order of the role groups: the
    service account, the name node, journal node and data node roles that are
    specified, in this order and each with the cluster's stopped flag, and the
    discovery last. Each role group contributes its headless service, its
    metrics service, its stateful set and its config map, under the one name
    that the addresses of [hdfs-site.xml] are made of. *)
Theorem cluster_registration_complete {P : Platform} {MR : MapRange} {O : ConfigMapOps} {SC : Type}
    {E : StatefulSetEnv SC} {Op : Operator} v ci instance cfg img :
  hc_Name instance ≠ "" → instance_replicas_set instance → merges_ok →
  ClusterConfig (Spec instance) = Some cfg → Image (Spec instance) = Some img →
  let role_part role spec part :=
    match spec with
    | None => part = []
    | Some rs => ∃ rss,
        part = [RoleResource role (cluster_stopped instance) (concat rss)] ∧
        Forall2 (λ g grs, group_resources (cluster_stopped instance) (group_info ci role g.1) grs)
          (range (RoleGroups rs)) rss
    end in
  ∃ nn jn dn,
    Cluster_RegisterResources v ci instance
    = Ret ([ServiceAccountResource (hc_Name instance +:+ "-sa")] ++ nn ++ jn ++ dn
           ++ [DiscoveryResource instance]) ∧
    role_part NameNodeRole (NameNode (Spec instance)) nn ∧
    role_part JournalNodeRole (JournalNode (Spec instance)) jn ∧
    role_part DataNodeRole (DataNode (Spec instance)) dn.
Proof. apply register_cluster. Qed.

(** A cluster that is gone ends the reconciliation without an error and a
    failed read ends it with that error; a cluster with a role group that has no
    replica count makes it panic, before any resource is reconciled. *)
Theorem reconcile_early_ends {P : Platform} {MR : MapRange} {O : ConfigMapOps} {SC : Type}
    {E : StatefulSetEnv SC} {Op : Operator} v gvk :
  (∀ what, Reconcile v gvk (Err (ENotFound what)) = Ret zero_result) ∧
  (∀ m, Reconcile v gvk (Err (EMsg m)) = Err (EMsg m)) ∧
  (∀ instance, hc_Name instance ≠ "" → ¬ instance_replicas_set instance →
     Reconcile v gvk (Ret instance) = Panic "invalid memory address or nil pointer dereference").
Proof.
  split; [done|]. split; [done|]. intros instance Hname Hr. simpl.
  unfold Cluster_RegisterResources, NewServiceAccountReconciler.
  rewrite CreateServiceAccountName_ret by done. cbn [mbind outcome_bind].
  by rewrite populate_components, decide_False by done.
Qed.

(** A reconciliation whose registration succeeds waits for the resources: it
    asks whether they are ready only when nothing is left to reconcile, hands a
    request to come back on unchanged, and reports a finished cluster (the zero
    result) only when both answers are zero. *)
Theorem reconcile_waits {P : Platform} {MR : MapRange} {O : ConfigMapOps} {SC : Type}
    {E : StatefulSetEnv SC} {Op : Operator} v gvk instance rs :
  Cluster_RegisterResources v {| GVK := Some gvk; ClusterName := hc_Name instance |} instance = Ret rs →
  (Reconcile v gvk (Ret instance) = Ret zero_result ↔
     reconcile_resources rs = Ret zero_result ∧ ready_resources rs = Ret zero_result) ∧
  (∀ r, reconcile_resources rs = Ret r → r ≠ zero_result → Reconcile v gvk (Ret instance) = Ret r) ∧
  (∀ r, reconcile_resources rs = Ret zero_result → ready_resources rs = Ret r →
        Reconcile v gvk (Ret instance) = Ret r) ∧
  (∀ e, reconcile_resources rs = Err e → Reconcile v gvk (Ret instance) = Err e).
Proof.
  intros Hrs.
  unfold Reconcile. rewrite Hrs. cbn [mbind outcome_bind].
  destruct (reconcile_resources rs) as [r| | |] eqn:Hr; cbn [mbind outcome_bind];
    [|split_and!; naive_solver..].
  destruct (result_IsZero r) eqn:Hrz; simpl.
  - apply result_zero in Hrz as ->. destruct (ready_resources rs) as [r'| | |] eqn:Hr'; simpl;
      [|split_and!; naive_solver..].
    destruct (result_IsZero r') eqn:Hrz'; simpl.
    + apply result_zero in Hrz' as ->. split_and!; naive_solver.
    + split_and!; naive_solver.
  - assert (r ≠ zero_result) by (intros ->; discriminate Hrz).
    split_and!; naive_solver.
Qed.

(** ** Witnesses *)

Definition sample_operator : Operator (P := sample_platform) (O := sample_cm_ops) (SC := string) := {|
  MergeConfig a b := Ret (match b with Some _ => b | None => a end);
  MergeOverrides a b := Ret (match b with Some _ => b | None => a end);
  reconcile_resources _ := Ret zero_result;
  ready_resources _ := Ret {| Requeue := false; RequeueAfter := 5 |};
|}.

(** The sample cluster with an image, stopped or not. *)
Definition sample_cluster (stopped : bool) : HdfsCluster (P := sample_platform) := {|
  hc_Name := "simple-hdfs"; hc_Namespace := "default"; hc_UID := "7f3c";
  Spec := {|
    Image := Some {| Custom := ""; Repo := "quay.io/zncdatadev"; KubedoopVersion := "0.0.0-dev";
                     ProductVersion := ""; PullPolicy := "IfNotPresent"; PullSecretName := "" |};
    spec_ClusterOperation := Some {| Stopped := stopped |};
    ClusterConfig := Some (sample_cluster_config None);
    NameNode := Some (sample_role 2); DataNode := Some (sample_role 1);
    JournalNode := Some (sample_role 3);
  |};
|}.

Lemma sample_cluster_replicas stopped : instance_replicas_set (sample_cluster stopped).
Proof. repeat split; apply map_Forall_singleton; by eexists. Qed.

Lemma sample_merges : merges_ok (Op := sample_operator).
Proof. split; intros a b; eexists; reflexivity. Qed.

Lemma cluster_registration_complete_witness :
  ∃ nn jn dn,
    Cluster_RegisterResources (MR := sorted_range) (E := sample_env) (Op := sample_operator) "0.0.0"
      sample_cluster_info (sample_cluster true)
    = Ret ([ServiceAccountResource "simple-hdfs-sa"] ++ nn ++ jn ++ dn
           ++ [DiscoveryResource (sample_cluster true)]).
Proof.
  destruct (@cluster_registration_complete sample_platform sorted_range sample_cm_ops string
    sample_env sample_operator "0.0.0" sample_cluster_info (sample_cluster true)
    (sample_cluster_config None) _ ltac:(discriminate) (sample_cluster_replicas true) sample_merges
    eq_refl eq_refl) as (nn & jn & dn & H & _).
  exists nn, jn, dn. exact H.
Defined.

Lemma reconcile_early_ends_witness :
  let bare := {| hc_Name := "bare"; hc_Namespace := "default"; hc_UID := "1";
    Spec := {| Image := None; spec_ClusterOperation := None; ClusterConfig := None;
               NameNode := Some {| rs_Config := None; rs_OverridesSpec := None;
                 RoleGroups := {[ "default" := {| Replicas := None; rgs_Config := None;
                                                  rgs_OverridesSpec := None |} ]} |};
               DataNode := None; JournalNode := None |} |} in
  Reconcile (P := sample_platform) (MR := sorted_range) (E := sample_env) (Op := sample_operator)
    "0.0.0" {| Group := ""; Version := ""; Kind := "" |} (Ret bare)
  = Panic "invalid memory address or nil pointer dereference".
Proof.
  intros bare.
  apply (@reconcile_early_ends sample_platform sorted_range sample_cm_ops string sample_env
    sample_operator "0.0.0" {| Group := ""; Version := ""; Kind := "" |}); [discriminate|].
  intros [H _]. destruct (H "default" _ eq_refl) as [n Hn]. discriminate Hn.
Defined.
