(* ===== verification/Cluster.v ===== *)
(** * The objects of a cluster together

    What the parts say when they are put together: the objects registered for
    a role group refer to one another by the names under which they are
    registered, and every role finds the name nodes at the addresses that
    their stateful sets and services give them. *)

From S2P Require Import Prelude GoStd GoXml XmlUtil Api Util Security Components HdfsConf.
From S2P Require Import ConfigMaps Discovery RoleConfig Containers Oidc StatefulSets Services Roles.

Section cluster.
Context {P : Platform} {MR : MapRange} {O : ConfigMapOps} {L : ConfigMapLaws O} {SC : Type}
  {E : StatefulSetEnv SC} {Op : Operator (SC := SC)}.

(** ** What registration made *)

Definition role_spec (instance : HdfsCluster) (role : Role) : option RoleSpec :=
  if decide (role = NameNodeRole) then NameNode (Spec instance)
  else if decide (role = DataNodeRole) then DataNode (Spec instance)
  else if decide (role = JournalNodeRole) then JournalNode (Spec instance)
  else None.

(** The part of a role's config map builder that differs between the roles. *)
Definition role_component (instance : HdfsCluster) (info : RoleGroupInfo) (replicas : option Z)
    (overrides : OverridesSpec) (components : ClusterComponentsInfo) (role : Role)
    : ConfigMapComponentBuilder :=
  if decide (role = NameNodeRole) then name_component instance info replicas (Some overrides) components
  else if decide (role = DataNodeRole) then data_component instance info components
  else journal_component instance info (Some overrides) components.

(** The four resources of a role group with all their parts. *)
Record group_made (instance : HdfsCluster) (components : ClusterComponentsInfo) (stopped : bool)
    (role : Role) (info : RoleGroupInfo) (spec : RoleGroupSpec) (svc metrics : ServiceObject)
    (b : StatefulSetBuilder (SecurityContext := SC)) (c : ConfigMapBuilder)
    (overrides : OverridesSpec) : Prop := {
  gm_service : so_Name svc = GetFullName info ∧ so_MatchingLabels svc = GetLabels info ∧
               so_Headless svc = true;
  gm_metrics : so_Name metrics = CreateServiceMetricsName info ∧
               so_MatchingLabels metrics = GetLabels info;
  gm_builders : ∃ image config,
    role_builder info image (Replicas spec) config (Some overrides) instance role = Ret b ∧
    c = NewConfigMapBuilder info (Some overrides) (Some config) instance
          (role_component instance info (Replicas spec) overrides components role);
}.

Lemma metrics_service_inv info cfg m :
  NewRoleGroupMetricsService info cfg = Ret (Some m) →
  so_Name m = CreateServiceMetricsName info ∧ so_MatchingLabels m = GetLabels info.
Proof.
  unfold NewRoleGroupMetricsService. case_decide; intros Hm; go_inv; done.
Qed.

Lemma register_group_inv r g rs :
  role_ok r → register_group r g = Ret rs →
  let info := {| rg_RoleInfo := rr_RoleInfo r; RoleGroupName := g.1 |} in
  ∃ svc m b c o,
    rs = [ServiceResource svc; ServiceResource m; StatefulSetResource b (rr_Stopped r);
          ConfigMapResource c] ∧
    group_made (rr_HdfsCluster r) (rr_Components r) (rr_Stopped r) (rr_ComponentType r) info g.2
      svc m b c o.
Proof.
  intros [Hrole Hin] H info. unfold register_group in H.
  apply bind_ret_inv in H as (config & _ & H). apply bind_ret_inv in H as (o & _ & H).
  apply bind_ret_inv in H as (n & _ & H). cbv zeta in H. fold info in H.
  set (o' := default _ o) in H. set (config' := MergeDefaultConfig n _) in H.
  unfold RegisterResourceWithRoleGroup, RegisterStandardResources in H.
  apply bind_ret_inv in H as (svcs & Hsvcs & H). apply bind_ret_inv in H as (m & Hm & H).
  apply bind_ret_inv in H as (sts & Hsts & H). apply bind_ret_inv in H as (cm & Hcm & H).
  injection H as <-. destruct m as [m|].
  2: { unfold NewRoleGroupMetricsService in Hm. simpl in Hm. rewrite <- Hrole, decide_True in Hm by done.
       go_inv. }
  apply metrics_service_inv in Hm.
  assert (∃ svc b c, svcs = [ServiceResource svc] ∧ sts = StatefulSetResource b (rr_Stopped r) ∧
    cm = ConfigMapResource c ∧ so_Name svc = GetFullName info ∧ so_MatchingLabels svc = GetLabels info ∧
    so_Headless svc = true ∧
    role_builder info (rr_Image r) (Replicas g.2) config' (Some o') (rr_HdfsCluster r)
      (rr_ComponentType r) = Ret b ∧
    c = NewConfigMapBuilder info (Some o') (Some config') (rr_HdfsCluster r)
          (role_component (rr_HdfsCluster r) info (Replicas g.2) o' (rr_Components r)
             (rr_ComponentType r))) as (svc & b & c & -> & -> & -> & H1 & H2 & H0 & H3 & H4).
  { unfold role_resources, role_builder, role_component in *.
    case_decide; [|case_decide]; simpl in Hsvcs, Hsts, Hcm; unfold wrap_error in Hcm;
      destruct (ClusterConfig _) as [cfg|]; simpl in Hsvcs, Hsts, Hcm; simplify_eq/=;
      do 3 eexists; split_and!; reflexivity. }
  exists svc, (Service_Build m), b, c, o'. split; [done|]. split; [done|exact Hm|eauto].
Qed.

(** The four resources of a role group, in a list of resources. *)
Definition four (svc m : ServiceObject) (b : StatefulSetBuilder (SecurityContext := SC))
    (stopped : bool) (c : ConfigMapBuilder) : list Resource :=
  [ServiceResource svc; ServiceResource m; StatefulSetResource b stopped; ConfigMapResource c].

(** What a role registered: the four resources of each of its groups. *)
Definition role_made (ci : ClusterInfo) (instance : HdfsCluster) (role : Role) (stopped : bool)
    (spec : RoleSpec) (res : list Resource) : Prop :=
  ∃ rss, res = concat rss ∧
    Forall2 (λ g rs, ∃ svc m b c o, rs = four svc m b stopped c ∧
      group_made instance (components_of instance ci) stopped role (group_info ci role g.1) g.2
        svc m b c o) (range (RoleGroups spec)) rss.

Lemma Role_RegisterResources_inv r res :
  role_ok r → Role_RegisterResources r = Ret res →
  ∃ rss, res = concat rss ∧
    Forall2 (λ g rs, register_group r g = Ret rs) (range (RoleGroups (rr_Spec r))) rss.
Proof.
  intros Hr. unfold Role_RegisterResources. generalize (range (RoleGroups (rr_Spec r))).
  assert (∀ l acc, mfold (λ acc g, rs ← register_group r g; Ret (acc ++ rs)) acc l = Ret res →
    ∃ rss, res = acc ++ concat rss ∧ Forall2 (λ g rs, register_group r g = Ret rs) l rss) as Hrun.
  { induction l as [|g l IH]; intros acc H; simpl in H.
    - injection H as <-. exists []. split; [by rewrite app_nil_r|constructor].
    - destruct (register_group r g) as [rs| | |] eqn:Hg; try discriminate H. simpl in H.
      destruct (IH _ H) as (rss & -> & Hrss). exists (rs :: rss).
      split; [simpl; by rewrite app_assoc|by constructor]. }
  intros l H. by apply Hrun in H.
Qed.

Lemma register_role_inv v ci instance role spec acc rs :
  role ∈ [NameNodeRole; DataNodeRole; JournalNodeRole] →
  register_role v ci instance (components_of instance ci) role spec acc = Ret rs →
  (∀ x, x ∈ acc → x ∈ rs) ∧
  ∀ role' stopped res, RoleResource role' stopped res ∈ rs → RoleResource role' stopped res ∈ acc ∨
    role' = role ∧ ∃ s, spec = Some s ∧ stopped = cluster_stopped instance ∧
      role_made ci instance role stopped s res.
Proof.
  intros Hin. unfold register_role. destruct spec as [s|]; [|intros [= <-]; by eauto].
  intros H. apply bind_ret_inv in H as (image & _ & H). apply bind_ret_inv in H as (res & Hres & H).
  injection H as <-. split; [intros x Hx; apply elem_of_app; by left|].
  intros role' stopped res' [Hacc|Hnew%list_elem_of_singleton]%elem_of_app; [by left|].
  injection Hnew as -> -> ->. right. split; [done|]. exists s. split; [done|]. split; [done|].
  apply Role_RegisterResources_inv in Hres as (rss & -> & Hrss); [|by split].
  exists rss. split; [done|]. eapply Forall2_impl; [exact Hrss|].
  intros g rs Hg. apply register_group_inv in Hg; [|by split].
  destruct Hg as (svc & m & b & c & o & Hrs & Hmade). by exists svc, m, b, c, o.
Qed.

Lemma registered_role v ci instance rs role stopped res :
  Cluster_RegisterResources v ci instance = Ret rs → RoleResource role stopped res ∈ rs →
  ∃ sa spec, CreateServiceAccountName (hc_Name instance) = Ret sa ∧ ServiceAccountResource sa ∈ rs ∧
    role_spec instance role = Some spec ∧ stopped = cluster_stopped instance ∧
    instance_replicas_set instance ∧ role_made ci instance role stopped spec res.
Proof.
  unfold Cluster_RegisterResources, NewServiceAccountReconciler. intros H Hin.
  apply bind_ret_inv in H as (sa & Hsa & H). apply bind_ret_inv in Hsa as (name & Hname & [= <-]).
  rewrite populate_components in H. case_decide as Hset; [|done]. cbn [mbind outcome_bind] in H.
  apply bind_ret_inv in H as (nn & Hnn & H). apply bind_ret_inv in H as (jn & Hjn & H).
  apply bind_ret_inv in H as (dn & Hdn & [= <-]).
  apply register_role_inv in Hnn as [Hn1 Hn2]; [|set_solver].
  apply register_role_inv in Hjn as [Hj1 Hj2]; [|set_solver].
  apply register_role_inv in Hdn as [Hd1 Hd2]; [|set_solver].
  assert (∃ spec, role_spec instance role = Some spec ∧ stopped = cluster_stopped instance ∧
            role_made ci instance role stopped spec res) as (spec & ? & ? & ?).
  { apply elem_of_app in Hin as [Hin|Hin%list_elem_of_singleton]; [|discriminate Hin].
    unfold role_spec. apply Hd2 in Hin as [Hin|[-> (s & Hs & ?)]]; [|by exists s].
    apply Hj2 in Hin as [Hin|[-> (s & Hs & ?)]]; [|by exists s].
    apply Hn2 in Hin as [Hin%list_elem_of_singleton|[-> (s & Hs & ?)]]; [done|by exists s]. }
  exists name, spec. split; [done|]. split; [|done].
  apply elem_of_app. left. apply Hd1, Hj1, Hn1. by apply list_elem_of_singleton.
Qed.

(** ** What the objects refer to *)

(** The config maps that volumes are made of, and those of a pod. *)
Definition config_maps_of (vs : list Volume) : list string :=
  omap (λ v, match vol_Source v with ConfigMapSource n => Some n | _ => None end) vs.

Definition config_map_sources (s : StatefulSet (SecurityContext := SC)) : list string :=
  concat (map (λ call, match call with
    | AddVolumes vs => config_maps_of vs
    | _ => []
    end) (sts_Calls s)).

(** The annotations of the claims that the volumes of a name are made of. *)
Definition annotations_of (name : string) (vs : list Volume) : list (gmap string string) :=
  omap (λ v, if decide (vol_Name v = name) then
    match vol_Source v with Ephemeral c => Some (pvc_Annotations c) | _ => None end else None) vs.

Definition volume_annotations (name : string) (s : StatefulSet (SecurityContext := SC))
    : list (gmap string string) :=
  concat (map (λ call, match call with
    | AddVolumes vs => annotations_of name vs
    | _ => []
    end) (sts_Calls s)).

(** The containers of a pod that copy their configuration when they start: all
    but the proxy and the log agent. *)
Definition script_containers (s : StatefulSet (SecurityContext := SC)) : list ContainerComponent :=
  concat (map (λ call, match call with
    | AddContainer (Built c) => if decide (ctr_Component c = OidcComponent) then [] else [ctr_Component c]
    | AddInitContainer c => [ctr_Component c]
    | _ => []
    end) (sts_Calls s)).

Definition role_containers (role : Role) : list ContainerComponent :=
  if decide (role = NameNodeRole) then
    [NameNodeComponent; ZkfcComponent; FormatNameNodeComponent; FormatZookeeperComponent]
  else if decide (role = DataNodeRole) then [DataNodeComponent; WaitForNameNodesComponent]
  else [JournalNodeComponent].

Lemma StatefulSet_Build_inv b s :
  StatefulSet_Build b = Ret s →
  ∃ mains inits cfg cvs vs cs vec oidc sa,
    GetMainContainers (sb_component b) = Ret mains ∧ GetInitContainers (sb_component b) = Ret inits ∧
    ClusterConfig (Spec (sb_instance b)) = Some cfg ∧
    GetCommonVolumes cfg (hc_Name (sb_instance b)) (sb_roleGroupInfo b) = Ret cvs ∧
    GetVolumes (sb_component b) = Ret vs ∧ GetVolumeClaimTemplates (sb_component b) = Ret cs ∧
    addVectorContainer b = Ret vec ∧ addOIDCContainer b = Ret oidc ∧
    GetServiceAccountName (sb_component b) = Ret sa ∧
    sts_Name s = GetFullName (sb_roleGroupInfo b) ∧ sts_Replicas s = sb_replicas b ∧
    sts_Labels s = GetLabels (sb_roleGroupInfo b) ∧
    sts_ServiceAccountName s = (if decide (sa = "") then None else Some sa) ∧
    sts_Calls s = map (λ c, AddContainer (Built c)) mains ++ map AddInitContainer inits
      ++ [AddVolumes cvs; AddVolumes vs; AddVolumeClaimTemplates cs] ++ vec ++ oidc.
Proof.
  unfold StatefulSet_Build. intros H.
  apply bind_ret_inv in H as (mains & ? & H). apply bind_ret_inv in H as (inits & ? & H).
  apply bind_ret_inv in H as (cfg & ?%deref_ret_inv & H). apply bind_ret_inv in H as (cvs & ? & H).
  apply bind_ret_inv in H as (vs & ? & H). apply bind_ret_inv in H as (cs & ? & H).
  apply bind_ret_inv in H as (vec & ? & H). apply bind_ret_inv in H as (oidc & ? & H).
  apply bind_ret_inv in H as (? & _ & H). apply bind_ret_inv in H as (sa & ? & H).
  injection H as <-. exists mains, inits, cfg, cvs, vs, cs, vec, oidc, sa. done.
Qed.

(** The config map volumes of a role group. *)
Lemma config_volume_in info names v :
  bool_decide (TlsVolumeName ∈ names) = false → v ∈ map (config_volume info) names →
  vol_Name v ≠ TlsVolumeName ∧
  match vol_Source v with ConfigMapSource n => n = GetFullName info | _ => True end.
Proof.
  intros Hno%bool_decide_eq_false_1 (n & -> & Hn)%list_elem_of_fmap. split; [|done].
  simpl. congruence.
Qed.

(** The components of containers that are built. *)
Local Ltac built_components :=
  intros mains inits Hm Hi; autounfold with builders in Hm; autounfold with builders in Hi;
  unfold build_container, BuildWithComponent in Hm, Hi; go_inv; done.

Lemma role_builder_parts info image replicas config overrides instance role b :
  role_builder info image replicas config overrides instance role = Ret b →
  sb_instance b = instance ∧ sb_roleGroupInfo b = info ∧ sb_replicas b = replicas ∧
  GetServiceAccountName (sb_component b) = CreateServiceAccountName (hc_Name instance) ∧
  (∀ mains inits, GetMainContainers (sb_component b) = Ret mains →
     GetInitContainers (sb_component b) = Ret inits →
     map ctr_Component (mains ++ inits) = role_containers role) ∧
  (∀ vs v, GetVolumes (sb_component b) = Ret vs → v ∈ vs →
     vol_Name v ≠ TlsVolumeName ∧
     match vol_Source v with ConfigMapSource n => n = GetFullName info | _ => True end).
Proof.
  unfold role_builder, role_containers. intros H.
  case_decide; [|case_decide];
    unfold NewDataNodeStatefulSetBuilder, NewJournalnodeStatefulSetBuilder in H; simpl in H; simplify_eq/=;
    (split; [done|]); (split; [done|]); (split; [done|]); (split; [done|]).
  - split.
    + built_components.
    + intros vs v [= <-] Hv. by refine (config_volume_in info _ v _ Hv).
  - split.
    + built_components.
    + intros vs v Hvs Hv. unfold data_GetVolumes in Hvs.
      apply bind_ret_inv in Hvs as (l & _ & [= <-]). apply (elem_of_app (map _ [_; _; _; _])) in Hv as [Hv|Hv%list_elem_of_singleton]; [by refine (config_volume_in info _ v _ Hv)|].
      by subst v.
  - split.
    + built_components.
    + intros vs v [= <-] Hv. by refine (config_volume_in info _ v _ Hv).
Qed.

(** The volumes that all pods have: no config maps, and a certificate for the
    metrics service. *)
Lemma common_volumes_parts cfg name info cvs v :
  AnnotationSecretsClass ≠ AnnotationSecretsScope →
  GetCommonVolumes cfg name info = Ret cvs → v ∈ cvs →
  match vol_Source v with
  | ConfigMapSource _ => False
  | Ephemeral c => vol_Name v = TlsVolumeName →
      pvc_Annotations c !! AnnotationSecretsScope
      = Some ("pod,node,service=" +:+ CreateServiceMetricsName info)
  | _ => True
  end.
Proof.
  intros Hne. unfold GetCommonVolumes, CreateKerberosSecretPvc. intros H Hv.
  assert (∀ x, x ∈ cvs → x = {| vol_Name := KubedoopLogVolumeMountName;
                                vol_Source := EmptyDir (MustParse "150Mi") |} ∨
            (vol_Name x = KrbVolumeName ∧ ∃ a, vol_Source x = Ephemeral (secrets_claim a)) ∨
            ∃ c p, x = CreateTlsSecretPvc c p info) as Hx.
  { destruct (IsKerberosEnabled cfg), (IsTlsEnabled cfg); go_inv; intros x Hx; cbn [app] in Hx;
      repeat (apply elem_of_cons in Hx as [->|Hx];
        [first [by left | right; left; split; [done|by eexists] | right; right; by eexists _, _]|]);
      by apply elem_of_nil in Hx. }
  apply Hx in Hv as [->|[(Hn & a & ->)|(c & p & ->)]]; simpl; [done| |].
  - rewrite Hn. discriminate 1.
  - intros _. by rewrite lookup_insert_ne, lookup_insert_eq.
Qed.

(** ** The claims on built objects *)

Lemma oidc_component (b : StatefulSetBuilder (SecurityContext := SC)) calls :
  addOIDCContainer b = Ret calls →
  calls = [] ∨ ∃ c, calls = [AddContainer (Built c)] ∧ ctr_Component c = OidcComponent.
Proof.
  unfold addOIDCContainer, MakeOidcContainer, Oidc_Build, build_container, BuildWithComponent.
  destruct (ClusterConfig _) as [cfg|]; simpl; [|done].
  destruct (Authentication cfg) as [auth|]; simpl; [|intros H; go_inv; auto].
  case_decide as Hd; intros H; go_inv; [auto|].
  repeat (case_match; simplify_eq); go_inv; auto; right; eexists; (split; [done|]); done.
Qed.

Lemma elem_of_calls (b : StatefulSetBuilder (SecurityContext := SC)) mains inits cvs vs cs vec oidc call :
  addVectorContainer b = Ret vec → addOIDCContainer b = Ret oidc →
  call ∈ map (λ c, AddContainer (Built c)) mains ++ map AddInitContainer inits
      ++ [AddVolumes cvs; AddVolumes vs; AddVolumeClaimTemplates cs] ++ vec ++ oidc →
  match call with
  | AddContainer (Built c) => c ∈ mains ∨ ctr_Component c = OidcComponent
  | AddInitContainer c => c ∈ inits
  | AddVolumes l => l = cvs ∨ l = vs ∨ l = vector_volumes_of b
  | _ => True
  end.
Proof.
  intros Hvec Hoidc. rewrite !elem_of_app. intros [H|[H|[H|[H|H]]]].
  - apply list_elem_of_fmap in H as (c & -> & Hc). by left.
  - by apply list_elem_of_fmap in H as (c & -> & Hc).
  - repeat (apply elem_of_cons in H as [->|H]; [auto|]). by apply elem_of_nil in H.
  - apply vector_calls in Hvec as [[_ ->]|(f & Hf & _ & ->)]; [by apply elem_of_nil in H|].
    unfold vector_volumes_of. rewrite Hf.
    repeat (apply elem_of_cons in H as [->|H]; [by auto|]). by apply elem_of_nil in H.
  - apply oidc_component in Hoidc as [->|(c & -> & Hc)]; [by apply elem_of_nil in H|].
    apply list_elem_of_singleton in H as ->. by right.
Qed.

Definition log4j_file (container : ContainerComponent) : string := container +:+ ".log4j.properties".

(** The objects of a role group that are built from its resources fit together;
    what the volumes of the log agent refer to is operator-go's affair. *)
Definition objects_agree (sa ns : string) (svc m : ServiceObject)
    (b : StatefulSetBuilder (SecurityContext := SC)) (c : ConfigMapBuilder) : Prop :=
  ∀ s cm, StatefulSet_Build b = Ret s → Build ns c = Ret cm →
    sts_Name s = so_Name svc ∧
    so_MatchingLabels svc = sts_Labels s ∧ so_MatchingLabels m = sts_Labels s ∧
    sts_ServiceAccountName s = Some sa ∧
    (∀ n, n ∈ config_map_sources s → n = cm_Name cm ∨ n ∈ config_maps_of (vector_volumes_of b)) ∧
    (∀ x, x ∈ script_containers s → is_Some (cm_Data cm !! log4j_file x)) ∧
    (∀ a, a ∈ volume_annotations TlsVolumeName s →
       a !! AnnotationSecretsScope = Some ("pod,node,service=" +:+ so_Name m)
       ∨ a ∈ annotations_of TlsVolumeName (vector_volumes_of b)).

(** The files of a role's config map. *)
Lemma role_files instance info replicas overrides components role configs :
  BuildConfig (role_component instance info replicas overrides components role) = Ret configs →
  (∀ x, x ∈ role_containers role → is_Some (configs !! log4j_file x)) ∧
  ∃ site, configs !! HdfsSiteFileName = Some site ∧
    (if decide (role = NameNodeRole) then name_makeHdfsSiteData instance (RoleGroupName info) replicas components
     else if decide (role = DataNodeRole) then data_makeHdfsSiteData instance (RoleGroupName info) components
     else journal_makeHdfsSiteData instance (RoleGroupName info) components) = Ret site.
Proof.
  unfold role_component, role_containers. intros H.
  case_decide; [|case_decide]; simpl in H; unfold config_files in H;
    apply bind_ret_inv in H as (core & _ & H); apply bind_ret_inv in H as (site & Hsite & H);
    apply bind_ret_inv in H as (cfg & _ & H); apply bind_ret_inv in H as (ssl1 & _ & H);
    apply bind_ret_inv in H as (ssl2 & _ & [= <-]);
    (split; [|exists site; split; [vm_compute; reflexivity|done]]);
    intros x Hx; repeat (apply elem_of_cons in Hx as [->|Hx]; [eexists; vm_compute; reflexivity|]);
    by apply elem_of_nil in Hx.
Qed.

Lemma Build_keeps ns info overrides rc instance component cm :
  Build ns (NewConfigMapBuilder info overrides rc instance component) = Ret cm →
  cm_Name cm = GetFullName info ∧
  ∃ configs, BuildConfig component = Ret configs ∧
    (∀ k, is_Some (configs !! k) → is_Some (cm_Data cm !! k)).
Proof.
  intros H. destruct (BuildConfig component) as [configs| | |] eqn:Hc;
    [|unfold Build in H; simpl in H; rewrite Hc in H; discriminate H..].
  rewrite (Build_new _ _ _ _ _ _ configs Hc) in H.
  apply bind_ret_inv in H as (vf & _ & [= <-]). split; [done|].
  exists configs. split; [done|]. intros k Hk. simpl.
  rewrite lookup_union_is_Some, lookup_union_is_Some. auto.
Qed.

Lemma group_objects_agree instance components stopped role info spec svc m b c o sa ns :
  AnnotationSecretsClass ≠ AnnotationSecretsScope →
  CreateServiceAccountName (hc_Name instance) = Ret sa → sa ≠ "" →
  group_made instance components stopped role info spec svc m b c o →
  objects_agree sa ns svc m b c.
Proof.
  intros Hann Hsa Hne [(Hsvc & Hsl & _) [Hm Hml] (image & config & Hb & ->)] s cm Hs Hcm.
  apply role_builder_parts in Hb as (Hinst & Hinfo & Hrep & Hsab & Hctr & Hvol).
  apply StatefulSet_Build_inv in Hs as (mains & inits & cfg & cvs & vs & cs & vec & oidc & sa' & Hmains
    & Hinits & Hcfg & Hcvs & Hvs & Hcs & Hvec & Hoidc & Hsa' & Hname & Hreps & Hlabels & Hacc & Hcalls).
  apply Build_keeps in Hcm as (Hcm & configs & Hconf & Hkeep).
  apply role_files in Hconf as [Hlog _].
  pose proof (elem_of_calls b mains inits cvs vs cs vec oidc) as Hin.
  rewrite Hinfo in Hname, Hlabels, Hcvs. rewrite Hname, Hlabels, Hsvc, Hsl, Hml, Hm, Hcm.
  split_and!; [done..| | | |].
  - rewrite Hsab, Hsa in Hsa'. injection Hsa' as <-. by rewrite Hacc, decide_False.
  - intros n (call & Hcall & Hn)%elem_of_concat_map. rewrite Hcalls in Hcall.
    apply Hin in Hcall; [|done..]. destruct call as [| |l|]; try by apply elem_of_nil in Hn.
    destruct Hcall as [Hl|[Hl| ->]]; [left|left|by right]; subst l;
      apply list_elem_of_omap in Hn as (v & Hv & Hsrc).
    + pose proof (common_volumes_parts _ _ _ _ v Hann Hcvs Hv) as Hc. by destruct (vol_Source v).
    + destruct (Hvol vs v Hvs Hv) as [_ Hc]. destruct (vol_Source v); by simplify_eq.
  - intros x (call & Hcall & Hx)%elem_of_concat_map. rewrite Hcalls in Hcall.
    apply Hin in Hcall; [|done..]. apply Hkeep, Hlog.
    rewrite <- (Hctr mains inits Hmains Hinits).
    destruct call as [[c|]|c| |]; try by apply elem_of_nil in Hx.
    + case_decide as Hd; [by apply elem_of_nil in Hx|]. apply list_elem_of_singleton in Hx as ->.
      destruct Hcall as [Hc|Hc]; [|done]. apply list_elem_of_fmap. exists c. set_solver.
    + apply list_elem_of_singleton in Hx as ->. apply list_elem_of_fmap. exists c. set_solver.
  - intros a (call & Hcall & Ha)%elem_of_concat_map. rewrite Hcalls in Hcall.
    apply Hin in Hcall; [|done..]. destruct call as [| |l|]; try by apply elem_of_nil in Ha.
    destruct Hcall as [Hl|[Hl| ->]]; [left|left|by right]; subst l;
      (apply list_elem_of_omap in Ha as (v & Hv & Hsrc); case_decide as Hd; [|done]).
    + pose proof (common_volumes_parts _ _ _ _ v Hann Hcvs Hv) as Hc.
      destruct (vol_Source v); simplify_eq. auto.
    + by destruct (Hvol vs v Hvs Hv) as [? _].
Qed.

(** A user's override that replaces the whole site file. *)
Definition site_override (c : ConfigMapBuilder) : option string :=
  default ∅ (ConfigOverrides <$> b_overrides c) !! HdfsSiteFileName ≫= (.!! HdfsSiteFileName).

Lemma Build_site ns info overrides rc instance component cm configs :
  BuildConfig component = Ret configs →
  let c := NewConfigMapBuilder info overrides rc instance component in
  Build ns c = Ret cm → site_override c = None → VectorConfigFileName ≠ HdfsSiteFileName →
  cm_Data cm !! HdfsSiteFileName = configs !! HdfsSiteFileName.
Proof.
  intros Hc c H Hov Hne. unfold c in H. rewrite (Build_new _ _ _ _ _ _ configs Hc) in H.
  apply bind_ret_inv in H as (vf & Hvf & [= <-]). cbn [cm_Data].
  assert (vf !! HdfsSiteFileName = None) as Hv.
  { unfold vector_file in Hvf. destruct (b_roleConfig _) as [c'|]; [|by injection Hvf as <-].
    apply bind_ret_inv in Hvf as (rg & _ & Hvf). apply bind_ret_inv in Hvf as (en & _ & Hvf).
    destruct en; [|by injection Hvf as <-]. apply bind_ret_inv in Hvf as (y & _ & Hvf).
    case_decide; injection Hvf as <-; [done|]. by apply lookup_singleton_ne. }
  rewrite lookup_union_r by done. apply lookup_union_r.
  unfold file_overrides. rewrite map_lookup_imap. exact Hov.
Qed.

(** A group of a registered role, from one of its resources or by its name. *)
Lemma config_map_made ci instance role stopped spec res c :
  role_made ci instance role stopped spec res → ConfigMapResource c ∈ res →
  ∃ g gs svc m b o, RoleGroups spec !! g = Some gs ∧
    group_made instance (components_of instance ci) stopped role (group_info ci role g) gs svc m b c o.
Proof.
  intros (rss & -> & Hrss) Hin. apply list_elem_of_In, in_concat in Hin as (rs & Hrs & Hc).
  apply list_elem_of_In, list_elem_of_lookup_1 in Hrs as [i Hi].
  destruct (Forall2_lookup_r _ _ _ _ _ Hrss Hi) as ([g gs] & Hg & svc & m & b & c' & o & -> & Hmade).
  apply list_elem_of_lookup_2, elem_of_range in Hg. simpl in Hc, Hmade.
  destruct Hc as [?|[?|[?|[[= ->]|[]]]]]; [done..|]. by exists g, gs, svc, m, b, o.
Qed.

Lemma group_made_of ci instance role stopped spec res g gs :
  role_made ci instance role stopped spec res → RoleGroups spec !! g = Some gs →
  ∃ svc m b c o, (∀ x, x ∈ four svc m b stopped c → x ∈ res) ∧
    group_made instance (components_of instance ci) stopped role (group_info ci role g) gs svc m b c o.
Proof.
  intros (rss & -> & Hrss) Hg. apply elem_of_range, list_elem_of_lookup_1 in Hg as [i Hi].
  destruct (Forall2_lookup_l _ _ _ _ _ Hrss Hi) as (rs & Hrs & svc & m & b & c & o & -> & Hmade).
  exists svc, m, b, c, o. split; [|done]. intros x Hx. apply list_elem_of_In, in_concat.
  exists (four svc m b stopped c). split; apply list_elem_of_In; [by eapply list_elem_of_lookup_2|done].
Qed.

Lemma NameNode_registered instance spec :
  role_spec instance NameNodeRole = Some spec → NameNode (Spec instance) = Some spec.
Proof. done. Qed.

(** The site file of every role group that has the name [g] of a name node group. *)
Lemma group_site ci instance cfg stopped role gs svc m b c o g s n ns cm :
  full_name_spec P → safe_paths → instance_ok instance ci cfg →
  VectorConfigFileName ≠ HdfsSiteFileName → replicas_int32 (NameNode (Spec instance)) →
  groups_of (NameNode (Spec instance)) !! g = Some s → Replicas s = Some n → (0 ≤ n)%Z →
  (role = NameNodeRole → gs = s) →
  group_made instance (components_of instance ci) stopped role (group_info ci role g) gs svc m b c o →
  Build ns c = Ret cm → site_override c = None →
  ∃ doc, cm_Data cm !! HdfsSiteFileName = Some doc ∧
    name_makeHdfsSiteData instance g (Replicas s) (components_of instance ci) = Ret doc.
Proof.
  intros HP Hpaths Hi Hvec H32 Hg Hn Hpos Hgs [_ _ (image & config & _ & ->)] Hcm Hov.
  pose proof (Build_keeps _ _ _ _ _ _ _ Hcm) as (_ & configs & Hconf & _).
  rewrite (Build_site _ _ _ _ _ _ _ configs Hconf Hcm Hov Hvec).
  apply role_files in Hconf as (_ & doc & Hdoc & Hsite). exists doc. split; [done|].
  destruct (hdfs_site_shared instance ci g s Hg (mk_is_Some _ _ Hn) H32) as [Hd Hj].
  cbn [group_info RoleGroupName] in Hsite.
  case_decide as Hr; [by rewrite <- (Hgs Hr)|]. case_decide; [by rewrite <- Hd|by rewrite <- Hj].
Qed.

End cluster.

(** ** Theorems *)

(** C4. The objects of a cluster fit together, for every order of its role
    groups: in each registered role group, when the stateful set and the config
    map are built, the stateful set has the name of the headless service, both
    services select the labels of its pods, its pods run under the service
    account registered for the cluster, every config map they mount (other than
    by volumes of operator-go's log agent) is the one of the group, that config
    map holds the log file that each of their
    containers copies when it starts, and a TLS certificate they ask for covers
    the metrics service. *)
Theorem registered_objects_agree {P : Platform} {MR : MapRange} {O : ConfigMapOps}
    {L : ConfigMapLaws O} {SC : Type} {E : StatefulSetEnv SC} {Op : Operator} v ci instance rs
    role stopped res :
  hc_Name instance ≠ "" → AnnotationSecretsClass ≠ AnnotationSecretsScope →
  Cluster_RegisterResources v ci instance = Ret rs → RoleResource role stopped res ∈ rs →
  ∃ sa spec rss, ServiceAccountResource sa ∈ rs ∧ role_spec instance role = Some spec ∧
    res = concat rss ∧
    Forall2 (λ g group, ∃ svc m b c, group = four svc m b stopped c ∧
               sb_replicas b = Replicas g.2 ∧ ∀ ns, objects_agree sa ns svc m b c)
      (range (RoleGroups spec)) rss.
Proof.
  intros Hname Hann Hreg Hin.
  destruct (registered_role _ _ _ _ _ _ _ Hreg Hin) as (sa & spec & Hsa & Hsain & Hspec & _ & _ & rss & -> & Hrss).
  exists sa, spec, rss. split_and!; [done..|]. eapply Forall2_impl; [exact Hrss|].
  intros g group (svc & m & b & c & o & -> & Hmade). exists svc, m, b, c. split; [done|]. split.
  - destruct Hmade as [_ _ (image & config & Hb & _)]. by apply role_builder_parts in Hb as (_ & _ & ? & _).
  - intros ns. eapply group_objects_agree; [done|exact Hsa| |exact Hmade].
    rewrite CreateServiceAccountName_ret in Hsa by done. injection Hsa as <-.
    destruct (hc_Name instance); [done|]. discriminate 1.
Qed.

(** C2. Every role finds the name nodes. For a group of [n] name nodes the
    operator registers a stateful set and a headless service of one name, and
    in the [hdfs-site.xml] of the config map of every group of that name, of
    any role, the list of name nodes is that of the pods of the stateful set,
    and each pod has its RPC address and its web address at the DNS name that
    the service gives it, and its storage directory: unless the user replaces
    the whole file. *)
Theorem roles_find_name_nodes {P : Platform} {MR : MapRange} {O : ConfigMapOps}
    {L : ConfigMapLaws O} {SC : Type} {E : StatefulSetEnv SC} {Op : Operator} v ci instance cfg rs
    stopped nnres g s n :
  full_name_spec P → safe_paths → instance_ok instance ci cfg →
  VectorConfigFileName ≠ HdfsSiteFileName → replicas_int32 (NameNode (Spec instance)) →
  Cluster_RegisterResources v ci instance = Ret rs →
  RoleResource NameNodeRole stopped nnres ∈ rs →
  groups_of (NameNode (Spec instance)) !! g = Some s → Replicas s = Some n → (0 ≤ n)%Z →
  ∃ svc b, ServiceResource svc ∈ nnres ∧ StatefulSetResource b stopped ∈ nnres ∧
    so_Headless svc = true ∧
    (∀ set, StatefulSet_Build b = Ret set → sts_Name set = so_Name svc ∧ sts_Replicas set = Some n) ∧
    ∀ role stopped' res c ns cm,
      RoleResource role stopped' res ∈ rs → ConfigMapResource c ∈ res →
      RoleGroupName (b_roleGroupInfo c) = g → site_override c = None → Build ns c = Ret cm →
      ∃ doc ps, cm_Data cm !! HdfsSiteFileName = Some doc ∧ Unmarshal doc = Ret ps ∧
      let conf := effective ps in
      let pods := map (pod_name (so_Name svc)) (indices n) in
      let host pod := pod +:+ "." +:+ so_Name svc +:+ "." +:+ hc_Namespace instance +:+ ".svc."
                      +:+ ClusterDomain cfg in
      conf !! ("dfs.ha.namenodes." +:+ hc_Name instance) = Some (Join pods ",") ∧
      ∀ pod, pod ∈ pods →
        conf !! ("dfs.namenode.rpc-address." +:+ hc_Name instance +:+ "." +:+ pod)
        = Some (host pod +:+ ":8020") ∧
        conf !! (http_key cfg +:+ hc_Name instance +:+ "." +:+ pod)
        = Some (host pod +:+ (if IsTlsEnabled cfg then ":9871" else ":9870")) ∧
        conf !! ("dfs.namenode.name.dir." +:+ hc_Name instance +:+ "." +:+ pod)
        = Some NameNodeRootDataDir.
Proof.
  intros HP Hpaths Hi Hvec H32 Hreg Hnn Hg Hn Hpos.
  destruct (registered_role _ _ _ _ _ _ _ Hreg Hnn) as (_ & spec & _ & _ & Hspec & _ & _ & Hmade).
  apply NameNode_registered in Hspec. rewrite Hspec in Hg. simpl in Hg.
  destruct (group_made_of _ _ _ _ _ _ _ _ Hmade Hg) as (svc & m & b & c0 & o & Hfour & [(Hsvc & _ & Hless) _ Hb]).
  destruct Hb as (image & config & Hb & _).
  apply role_builder_parts in Hb as (_ & Hinfo & Hrep & _).
  exists svc, b. split; [apply Hfour; set_solver|]. split; [apply Hfour; set_solver|].
  split; [done|]. split.
  { intros set Hset. apply StatefulSet_Build_inv in Hset as (? & ? & ? & ? & ? & ? & ? & ? & ? & Hset).
    destruct_and! Hset. rewrite Hsvc. split; congruence. }
  intros role stopped' res c ns cm Hrole Hc Hcg Hov Hcm.
  destruct (registered_role _ _ _ _ _ _ _ Hreg Hrole) as (_ & spec' & _ & _ & Hspec' & _ & _ & Hmade').
  destruct (config_map_made _ _ _ _ _ _ _ Hmade' Hc) as (g' & gs & svc' & m' & b' & o' & Hg' & Hgm).
  assert (g' = g) as ->.
  { destruct Hgm as [_ _ (? & ? & _ & ->)]. exact Hcg. }
  destruct (group_site ci instance cfg stopped' role gs svc' m' b' c o' g s n ns cm)
    as (doc & Hdoc & Hsite); try done.
  { by rewrite Hspec. }
  { intros ->. apply NameNode_registered in Hspec'. congruence. }
  destruct (listed_name_nodes_configured instance ci cfg g s n doc) as (ps & Hread & _ & Hconf);
    try done; [by rewrite Hspec|].
  exists doc, ps. split; [done|]. split; [done|]. rewrite Hsvc. exact Hconf.
Qed.

(** ** Witnesses *)

Definition get {A} (d : A) (m : outcome A) : A := match m with Ret a => a | _ => d end.

Lemma get_ret {A} (d : A) m : is_ret m = true → m = Ret (get d m).
Proof. by destruct m. Qed.

(** The sample cluster, registered. *)
Definition sample_registration : outcome (list (ClusterResource (P := sample_platform)
    (O := sample_cm_ops) (SC := string))) :=
  Cluster_RegisterResources (MR := sorted_range) (E := sample_env) (Op := sample_operator) "0.0.0"
    sample_cluster_info (sample_cluster false).

Definition sample_resources := get [] sample_registration.

Lemma sample_registers : sample_registration = Ret sample_resources.
Proof. apply get_ret. vm_compute. reflexivity. Qed.

(** The role at an index of a list of resources. *)
Section lists.
Context {P : Platform} {O : ConfigMapOps} {SC : Type}.
Implicit Types rs : list (ClusterResource (SC := SC)).

Definition resources_at rs (i : nat) : list Resource :=
  match rs !! i with Some (RoleResource _ _ res) => res | _ => [] end.

Definition role_at rs (i : nat) (role : Role) : bool :=
  match rs !! i with
  | Some (RoleResource r stopped _) => bool_decide (r = role) && negb stopped
  | _ => false
  end.

Lemma role_at_spec rs i role :
  role_at rs i role = true → RoleResource role false (resources_at rs i) ∈ rs.
Proof.
  unfold role_at, resources_at. destruct (rs !! i) as [[|r stopped res|]|] eqn:Hi; try done.
  intros [->%bool_decide_eq_true_1 ->%negb_true_iff]%andb_true_iff. by eapply list_elem_of_lookup_2.
Qed.
End lists.

Lemma registered_objects_agree_witness :
  ∃ sa spec rss, ServiceAccountResource sa ∈ sample_resources ∧
    role_spec (sample_cluster false) DataNodeRole = Some spec ∧ resources_at sample_resources 3 = concat rss ∧
    length rss = 1.
Proof.
  destruct (@registered_objects_agree sample_platform sorted_range sample_cm_ops sample_cm_laws
    string sample_env sample_operator "0.0.0" sample_cluster_info (sample_cluster false)
    sample_resources DataNodeRole false (resources_at sample_resources 3))
    as (sa & spec & rss & Hsa & Hspec & Hres & Hrss); [discriminate|discriminate|exact sample_registers|apply role_at_spec; vm_compute; reflexivity|].
  exists sa, spec, rss. split; [exact Hsa|]. split; [exact Hspec|]. split; [exact Hres|].
  apply Forall2_length in Hrss. rewrite <- Hrss.
  injection Hspec as <-. reflexivity.
Defined.

(** The config map of the data node group of the sample cluster. *)
Definition sample_config_map : option (ConfigMapBuilder (P := sample_platform) (O := sample_cm_ops)) :=
  match resources_at sample_resources 3 !! 3 with Some (ConfigMapResource c) => Some c | _ => None end.

Lemma config_map_at {P : Platform} {O : ConfigMapOps} {SC : Type} (res : list (Resource (SC := SC))) i c :
  match res !! i with Some (ConfigMapResource c) => Some c | _ => None end = Some c →
  ConfigMapResource c ∈ res.
Proof.
  destruct (res !! i) as [[| |c']|] eqn:Hi; try discriminate 1. intros [= ->].
  by eapply list_elem_of_lookup_2.
Qed.

Definition sample_config_map_ok : bool :=
  match sample_config_map with
  | Some c => bool_decide (RoleGroupName (b_roleGroupInfo c) = "default")
              && bool_decide (site_override c = None)
              && is_ret (Build (P := sample_platform) (MR := sorted_range) "default" c)
  | None => false
  end.

Lemma sample_config_map_spec :
  ∃ c cm, sample_config_map = Some c ∧ RoleGroupName (b_roleGroupInfo c) = "default" ∧
    site_override c = None ∧ Build (MR := sorted_range) "default" c = Ret cm.
Proof.
  assert (sample_config_map_ok = true) as H by (vm_compute; reflexivity).
  unfold sample_config_map_ok in H. destruct sample_config_map as [c|]; [|discriminate H].
  apply andb_true_iff in H as [[H1%bool_decide_eq_true_1 H2%bool_decide_eq_true_1]%andb_true_iff H3].
  apply is_ret_inv in H3 as [cm H3]. by exists c, cm.
Qed.

Lemma roles_find_name_nodes_witness :
  ∃ svc cm doc ps, ServiceResource svc ∈ resources_at sample_resources 1 ∧
    cm_Data cm !! HdfsSiteFileName = Some doc ∧ Unmarshal doc = Ret ps ∧
    effective ps !! "dfs.ha.namenodes.simple-hdfs"
    = Some (Join (map (pod_name (so_Name svc)) (indices 2)) ",") ∧
    effective ps !! ("dfs.namenode.rpc-address.simple-hdfs." +:+ pod_name (so_Name svc) 1)
    = Some (pod_name (so_Name svc) 1 +:+ "." +:+ so_Name svc +:+ ".default.svc.cluster.local:8020").
Proof.
  destruct sample_config_map_spec as (c & cm & Hc & Hg & Hov & Hcm).
  assert (instance_ok (P := sample_platform) (sample_cluster false) sample_cluster_info
            (sample_cluster_config None)) as Hi.
  { split; [reflexivity|done..| |]; apply map_Forall_singleton; done. }
  destruct (@roles_find_name_nodes sample_platform sorted_range sample_cm_ops sample_cm_laws
    string sample_env sample_operator "0.0.0" sample_cluster_info (sample_cluster false)
    (sample_cluster_config None) sample_resources false (resources_at sample_resources 1) "default"
    (sample_group 2) 2 sample_full_name sample_paths Hi ltac:(discriminate) (sample_int32 None)
    sample_registers ltac:(apply role_at_spec; vm_compute; reflexivity) eq_refl eq_refl Z.le_0_2)
    as (svc & b & Hsvc & _ & _ & _ & Hfind).
  destruct (Hfind DataNodeRole false (resources_at sample_resources 3) c "default" cm)
    as (doc & ps & Hdoc & Hread & Hlist & Hpods);
    [apply role_at_spec; vm_compute; reflexivity|exact (config_map_at (resources_at sample_resources 3) 3 c Hc)|exact Hg|exact Hov|exact Hcm|].
  exists svc, cm, doc, ps. split; [exact Hsvc|]. split; [exact Hdoc|]. split; [exact Hread|].
  split; [exact Hlist|]. destruct (Hpods (pod_name (so_Name svc) 1)) as [Hrpc _].
  { apply list_elem_of_fmap. exists 1%Z. split; [reflexivity|]. right. left. }
  etrans; [exact Hrpc|]. rewrite !append_assoc. reflexivity.
Defined.
