(* ===== verification/ResourceUtil.v ===== *)
(** * Creating or updating an object: [internal/util/resource_util.go]

    [CreateOrUpdate] against an API server whose answers are the function's
    reads. What the call leaves behind is the list of the writes it made. The
    object matcher ([patch.DefaultPatchMaker], [patch.DefaultAnnotator]) is not
    in the repository: its answers are the class [PatchMaker]. *)

From S2P Require Import Prelude GoStd Api.

(** A port of a service and the parts of an object that the function looks at
    or changes; the rest of the object is its [content]. *)
Record SvcPort := { svcp_Name : string; svcp_Port : Z; NodePort : Z }.

Inductive ObjectKind :=
  | ServiceKind (serviceType : string) (clusterIP : string) (ports : list SvcPort)
  | StatefulSetKind
  | OtherKind.

Section with_content.
Context {content : Type}.

Record object := {
  obj_Kind : ObjectKind;
  obj_Annotated : bool;
  obj_ResourceVersion : string;
  obj_Content : content;
}.

Inductive CalculateOption := IgnoreStatusFields | IgnoreVolumeClaimTemplateTypeMetaAndStatus.

(** [Calculate] says whether the patch is empty; [SetLastAppliedAnnotation]
    annotates or fails. *)
Class PatchMaker := {
  patch_IsEmpty : object → object → list CalculateOption → outcome bool;
  annotation_error : object → option error;
}.

Context {PM : PatchMaker}.

Inductive api_call := Create (o : object) | Update (o : object).

(** The answers of the server to the two writes. *)
Record ApiServer := {
  create_error : object → option error;
  update_error : object → option error;
}.

Definition SetLastAppliedAnnotation (o : object) : object * option error :=
  match annotation_error o with
  | Some e => (o, Some e)
  | None => ({| obj_Kind := obj_Kind o; obj_Annotated := true;
                obj_ResourceVersion := obj_ResourceVersion o; obj_Content := obj_Content o |}, None)
  end.

Definition SetResourceVersion (v : string) (o : object) : object :=
  {| obj_Kind := obj_Kind o; obj_Annotated := obj_Annotated o; obj_ResourceVersion := v;
     obj_Content := obj_Content o |}.

Definition set_kind (k : ObjectKind) (o : object) : object :=
  {| obj_Kind := k; obj_Annotated := obj_Annotated o;
     obj_ResourceVersion := obj_ResourceVersion o; obj_Content := obj_Content o |}.

(** [for i := range svc.Spec.Ports]: the node port of the current port of the
    same index, which panics when there are fewer. *)
Fixpoint keep_node_ports (ports current : list SvcPort) : outcome (list SvcPort) :=
  match ports, current with
  | [], _ => Ret []
  | p :: ports', c :: current' =>
      rest ← keep_node_ports ports' current';
      Ret ({| svcp_Name := svcp_Name p; svcp_Port := svcp_Port p; NodePort := NodePort c |} :: rest)
  | _ :: _, [] => Panic "index out of range"
  end.

(** The type switch: the cluster IP and the node ports of a service are those
    of the server; [current.( *corev1.Service)] panics on another type. *)
Definition preserve (current obj : object) : outcome object :=
  match obj_Kind obj with
  | ServiceKind t _ ports =>
      match obj_Kind current with
      | ServiceKind _ ip cports =>
          ports' ← (if decide (t = "NodePort" ∨ t = "LoadBalancer")
                    then keep_node_ports ports cports else Ret ports);
          Ret (set_kind (ServiceKind t ip ports') obj)
      | _ => Panic "interface conversion"
      end
  | _ => Ret obj
  end.

Definition calculate_options (obj : object) : list CalculateOption :=
  IgnoreStatusFields
  :: match obj_Kind obj with
     | StatefulSetKind => [IgnoreVolumeClaimTemplateTypeMetaAndStatus]
     | _ => []
     end.

Definition write_result (err : option error) : outcome bool :=
  match err with Some e => Err e | None => Ret true end.

(** [found] is the answer of [c.Get] for the key of [obj]. The result is the
    outcome of the function and the write it sent, if any. *)
Definition CreateOrUpdate (S : ApiServer) (found : outcome object) (obj : object)
    : outcome bool * list api_call :=
  match found with
  | Err (ENotFound _) =>
      let '(obj, err) := SetLastAppliedAnnotation obj in
      match err with
      | Some e => (Err e, [])
      | None => (write_result (create_error S obj), [Create obj])
      end
  | Err e => (Err e, [])
  | Panic w => (Panic w, [])
  | Beyond w => (Beyond w, [])
  | Ret current =>
      match preserve current obj with
      | Ret obj =>
          match patch_IsEmpty current obj (calculate_options obj) with
          | Err _ =>
              let obj := SetResourceVersion (obj_ResourceVersion current) obj in
              (write_result (update_error S obj), [Update obj])
          | Ret true => (Ret false, [])
          | Ret false =>
              let '(obj, _) := SetLastAppliedAnnotation obj in
              let obj := SetResourceVersion (obj_ResourceVersion current) obj in
              (write_result (update_error S obj), [Update obj])
          | Panic w => (Panic w, [])
          | Beyond w => (Beyond w, [])
          end
      | Err e => (Err e, [])
      | Panic w => (Panic w, [])
      | Beyond w => (Beyond w, [])
      end
  end.

(** ** Lemmas *)

Lemma keep_node_ports_ret ports current out :
  keep_node_ports ports current = Ret out →
  length ports ≤ length current ∧ svcp_Name <$> out = svcp_Name <$> ports ∧
  svcp_Port <$> out = svcp_Port <$> ports ∧
  NodePort <$> out = take (length ports) (NodePort <$> current).
Proof.
  revert current out. induction ports as [|p ports IH]; intros [|c current] out;
    cbn [keep_node_ports length]; try (intros [= <-]; simpl; split_and!; (done || lia)).
  destruct (keep_node_ports ports current) as [rest| | |] eqn:Hk; try discriminate 1.
  intros [= <-]. destruct (IH _ _ Hk) as (? & Hn & Hp & Hnp).
  rewrite !fmap_cons, Hn, Hp, Hnp. split_and!; (done || lia).
Qed.

Lemma keep_node_ports_short ports current :
  length current < length ports → keep_node_ports ports current = Panic "index out of range".
Proof.
  revert current. induction ports as [|p ports IH]; intros [|c current]; simpl; try lia; [done|].
  intros H. by rewrite IH by lia.
Qed.

Lemma preserve_content current obj o :
  preserve current obj = Ret o →
  obj_Content o = obj_Content obj ∧ obj_ResourceVersion o = obj_ResourceVersion obj ∧
  obj_Annotated o = obj_Annotated obj ∧
  match obj_Kind obj with
  | ServiceKind t _ ports =>
      ∃ t' ip ports' cports, obj_Kind current = ServiceKind t' ip cports ∧
        obj_Kind o = ServiceKind t ip ports' ∧
        svcp_Name <$> ports' = svcp_Name <$> ports ∧ svcp_Port <$> ports' = svcp_Port <$> ports ∧
        (t = "NodePort" ∨ t = "LoadBalancer" →
         NodePort <$> ports' = take (length ports) (NodePort <$> cports))
  | k => obj_Kind o = k
  end.
Proof.
  unfold preserve. destruct (obj_Kind obj) as [t ip ports| |] eqn:Hk;
    [|intros [= <-]; by rewrite Hk..].
  destruct (obj_Kind current) as [t' ip' cports| |] eqn:Hc; [|discriminate 1..].
  case_decide as Ht.
  - destruct (keep_node_ports ports cports) as [out| | |] eqn:Ho; try discriminate 1.
    intros [= <-]. apply keep_node_ports_ret in Ho as (_ & Hn & Hp & Hnp).
    split_and!; [done..|]. exists t', ip', out, cports. split_and!; try done.
  - intros [= <-]. split_and!; [done..|]. exists t', ip', ports, cports. split_and!; done.
Qed.

Lemma SetLastAppliedAnnotation_keeps o o' err :
  SetLastAppliedAnnotation o = (o', err) → obj_Content o' = obj_Content o ∧ obj_Kind o' = obj_Kind o.
Proof. unfold SetLastAppliedAnnotation. destruct (annotation_error o); intros [= <- <-]; done. Qed.

End with_content.

(** The cases of [CreateOrUpdate]: no write, a creation or an update, once the
    answer of the server to it is known. *)
Ltac solve_writes :=
  cbn beta iota zeta;
  repeat match goal with
         | |- context [write_result (create_error ?S ?o)] => destruct (create_error S o) eqn:?
         | |- context [write_result (update_error ?S ?o)] => destruct (update_error S o) eqn:?
         end; cbn [write_result];
  (split_and!;
  [ simpl; lia
  | split; [intros [=]; eauto 6|intros (? & [[Heq ?]|[Heq ?]]); simplify_eq/=; congruence]
  | intros ? [=]; subst; eauto 6
  | intros ? [=]; subst; eauto
  | intros ? Heq Hother; simplify_eq/=; try (by destruct (Hother _ eq_refl)); done ]).

(** ** Theorems *)

(** What [CreateOrUpdate] writes, on every path: nothing when the read
    fails or the matcher finds no difference; one creation, of the annotated
    object, when the object does not exist; one update otherwise, also when
    the matcher fails. It reports [true] exactly when a write was sent and
    accepted, and an error of a write is its error. *)
Theorem create_or_update_writes {content} {PM : PatchMaker (content := content)} S found obj :
  let '(r, calls) := CreateOrUpdate S found obj in
  length calls ≤ 1 ∧
  (r = Ret true ↔ ∃ o, (calls = [Create o] ∧ create_error S o = None) ∨
                       (calls = [Update o] ∧ update_error S o = None)) ∧
  (∀ o, calls = [Create o] → (∃ what, found = Err (ENotFound what)) ∧
        obj_Annotated o = true ∧ obj_Kind o = obj_Kind obj ∧ obj_Content o = obj_Content obj) ∧
  (∀ o, calls = [Update o] → ∃ current, found = Ret current) ∧
  (∀ e, found = Err e → (∀ what, e ≠ ENotFound what) → r = Err e ∧ calls = []).
Proof.
  unfold CreateOrUpdate. destruct found as [current|[what|m]|w|w].
  - destruct (preserve current obj) as [o| | |]; [|solve_writes..].
    destruct (patch_IsEmpty _ _ _) as [[]| | |]; [solve_writes| |solve_writes..].
    destruct (SetLastAppliedAnnotation o) as [o' err]. solve_writes.
  - unfold SetLastAppliedAnnotation. destruct (annotation_error obj); solve_writes.
  - solve_writes.
  - solve_writes.
  - solve_writes.
Qed.

(** C35. An update keeps what the server assigned: it carries the current
    resource version, and for a service the current cluster IP and, when the
    service has node ports, the current node port of every port; names, port
    numbers and the rest of the object are the desired ones. It panics on a
    service of that kind that has more ports than the current one. *)
Theorem update_preserves_server_fields {content} {PM : PatchMaker (content := content)} S current obj :
  match obj_Kind obj, obj_Kind current with
  | ServiceKind t _ ports, ServiceKind _ _ cports =>
      t = "NodePort" ∨ t = "LoadBalancer" → length cports < length ports →
      CreateOrUpdate S (Ret current) obj = (Panic "index out of range", [])
  | _, _ => True
  end ∧
  ∀ r o, CreateOrUpdate S (Ret current) obj = (r, [Update o]) →
  obj_ResourceVersion o = obj_ResourceVersion current ∧ obj_Content o = obj_Content obj ∧
  match obj_Kind obj, obj_Kind o with
  | ServiceKind t _ ports, ServiceKind t' ip' ports' =>
      t' = t ∧ svcp_Name <$> ports' = svcp_Name <$> ports ∧
      svcp_Port <$> ports' = svcp_Port <$> ports ∧
      ∃ t0 cports, obj_Kind current = ServiceKind t0 ip' cports ∧
        (t = "NodePort" ∨ t = "LoadBalancer" →
         NodePort <$> ports' = take (length ports) (NodePort <$> cports))
  | k, k' => k = k'
  end.
Proof.
  split.
  - destruct (obj_Kind obj) as [t ip ports| |] eqn:Hk; [|done..].
    destruct (obj_Kind current) as [t' ip' cports| |] eqn:Hc; [|done..].
    intros Ht Hlen. unfold CreateOrUpdate, preserve. rewrite Hk, Hc, decide_True by done.
    by rewrite keep_node_ports_short.
  - intros r o. unfold CreateOrUpdate.
    destruct (preserve current obj) as [p| | |] eqn:Hp; [|discriminate 1..].
    intros Hw. apply preserve_content in Hp as (Hc & _ & _ & Hk).
    assert (obj_ResourceVersion o = obj_ResourceVersion current ∧ obj_Content o = obj_Content p ∧
            obj_Kind o = obj_Kind p) as (Hv & Hc' & Hk').
    { destruct (patch_IsEmpty _ _ _) as [[]| | |]; try discriminate Hw;
        [destruct (SetLastAppliedAnnotation p) as [p' err] eqn:Ha;
         apply SetLastAppliedAnnotation_keeps in Ha as []|]; simplify_eq/=; done. }
    rewrite Hv, Hc', Hk', Hc. split_and!; [done..|].
    destruct (obj_Kind obj) as [t ip ports| |]; [|by rewrite Hk..].
    destruct Hk as (t' & ip' & ports' & cports & -> & -> & ? & ? & ?). eauto 10.
Qed.
