(* ===== verification/Shell.v ===== *)
(** * The shell language of the container scripts

    The constructs of bash that the scripts of the init containers use, with a
    printer that gives their text as it stands in the templates, and an
    interpreter for [bash -euo pipefail]: a failing command outside a condition
    ends the script ([errexit], which [set +e] and [set -e] switch), an unset
    variable may not be expanded, and the status of a pipeline is the last
    failure in it. Commands other than the few built-in ones, and the files,
    are the class [World]. What bash does outside this fragment (splitting of
    words, globbing, octal numbers) is [Beyond]. *)

From S2P Require Import Prelude GoStd.

(** ** Syntax *)

(** What a word is made of: text, [$x], [${x}], [${x+alt}], [$?] and
    [$((x + n))]. *)
Inductive atom :=
  | Lit (s : string)
  | Var (x : string)
  | Brace (x : string)
  | IfSet (x alt : string)
  | Status
  | Arith (x : string) (n : Z).

(** A part of a word: an atom or [$(words | filter)] or [$(words | filter || true)];
    the filter is given by its text. *)
Inductive part :=
  | Atom (a : atom)
  | Subst (words : list (list atom)) (filter : string) (or_true : bool).

Record word := { quoted_word : bool; parts : list part }.

Inductive condition :=
  | Test (ws : list word)
  | ArithEq (a b : word)
  | OrElse (c d : condition).

(** How the head of a compound command is laid out: [then] or [do] on its own
    line, after a semicolon, after a blank and a semicolon, or on its own line
    after a semicolon. *)
Inductive layout := OwnLine | Semi | SpaceSemi | SemiOwnLine.

(** [Cmd] is a command of words without expansions other than that of file names,
    [Export] is [export x=$(words)], where a word may be in single quotes;
    [Fi], [Else] and [Elif] only occur as the last argument of [If] and [Elif]. *)
Inductive command :=
  | Blank
  | Simple (ws : list word)
  | Cmd (ws : list string)
  | Assign (x : string) (w : word)
  | Export (x : string) (argv : list (bool * string))
  | Seq (c d : command)
  | If (l : layout) (c : condition) (a e : command)
  | Elif (l : layout) (c : condition) (a e : command)
  | Else (a : command)
  | Fi
  | For (l : layout) (x : string) (items : list string) (body : command)
  | While (l : layout) (c : condition) (body : command)
  | Break
  | Exit (w : word)
  | SetE (on : bool).

(** Commands in a row. *)
Fixpoint block (l : list command) : command :=
  match l with
  | [] => Blank
  | [c] => c
  | c :: l' => Seq c (block l')
  end.

Definition lit (s : string) : word := {| quoted_word := false; parts := [Atom (Lit s)] |}.
Definition var (x : string) : word := {| quoted_word := false; parts := [Atom (Var x)] |}.
Definition str (l : list atom) : word := {| quoted_word := true; parts := map Atom l |}.

(** ** The text of a program *)

Definition print_atom (a : atom) : string :=
  match a with
  | Lit s => s
  | Var x => "$" +:+ x
  | Brace x => "${" +:+ x +:+ "}"
  | IfSet x alt => "${" +:+ x +:+ "+" +:+ alt +:+ "}"
  | Status => "$?"
  | Arith x n => "$((" +:+ x +:+ " + " +:+ Itoa n +:+ "))"
  end.

Definition print_part (p : part) : string :=
  match p with
  | Atom a => print_atom a
  | Subst ws f or_true =>
      "$(" +:+ Join (map (λ w, Join (map print_atom w) "") ws) " " +:+ " | " +:+ f
      +:+ (if or_true then " || true" else "") +:+ ")"
  end.

Definition print_word (w : word) : string :=
  let s := Join (map print_part (parts w)) "" in
  if quoted_word w then quoted s else s.

Fixpoint print_condition (c : condition) : string :=
  match c with
  | Test ws => "[ " +:+ Join (map print_word ws) " " +:+ " ]"
  | ArithEq a b => "[[ " +:+ print_word a +:+ " -eq " +:+ print_word b +:+ " ]]"
  | OrElse c d => print_condition c +:+ " || " +:+ print_condition d
  end.

Definition print_head (l : layout) (indent head keyword : string) : list string :=
  match l with
  | OwnLine => [indent +:+ head; indent +:+ keyword]
  | Semi => [indent +:+ head +:+ "; " +:+ keyword]
  | SpaceSemi => [indent +:+ head +:+ " ; " +:+ keyword]
  | SemiOwnLine => [indent +:+ head +:+ ";"; indent +:+ keyword]
  end.

(** The lines of a command at an indentation. *)
Fixpoint print (indent : string) (c : command) : list string :=
  let inner := "    " +:+ indent in
  match c with
  | Blank => [""]
  | Simple ws => [indent +:+ Join (map print_word ws) " "]
  | Cmd ws => [indent +:+ Join ws " "]
  | Assign x w => [indent +:+ x +:+ "=" +:+ print_word w]
  | Export x argv =>
      [indent +:+ "export " +:+ x +:+ "=$("
       +:+ Join (map (λ w, if w.1 : bool then "'" +:+ w.2 +:+ "'" else w.2) argv) " " +:+ ")"]
  | Seq c d => print indent c ++ print indent d
  | If l c a e =>
      print_head l indent ("if " +:+ print_condition c) "then" ++ print inner a
      ++ print indent e ++ [indent +:+ "fi"]
  | Elif l c a e =>
      print_head l indent ("elif " +:+ print_condition c) "then" ++ print inner a
      ++ print indent e
  | Else a => [indent +:+ "else"] ++ print inner a
  | Fi => []
  | For l x items body =>
      print_head l indent ("for " +:+ x +:+ " in " +:+ Join items " ") "do"
      ++ print inner body ++ [indent +:+ "done"]
  | While l c body =>
      print_head l indent ("while " +:+ print_condition c) "do" ++ print inner body
      ++ [indent +:+ "done"]
  | Break => [indent +:+ "break"]
  | Exit w => [indent +:+ "exit " +:+ print_word w]
  | SetE on => [indent +:+ (if on then "set -e" else "set +e")]
  end.

Definition program_text (c : command) : string := lines (print "" c ++ [""]).

(** ** Numbers, lines and filters *)

(** The value of a string of digits, added to [acc] shifted. *)
Fixpoint dec (s : string) (acc : N) : option N :=
  match s with
  | EmptyString => Some acc
  | String c s' => if is_digit c then dec s' (acc * 10 + (N_of_ascii c - 48))%N else None
  end.

(** The value of an operand of [-eq] in [[[ ]]]: nothing counts as 0, a leading
    zero would make the number octal. *)
Definition arith_value (s : string) : outcome Z :=
  match s with
  | EmptyString => Ret 0%Z
  | String c s' =>
      if Ascii.eqb c "0" && negb (bool_decide (s' = "")) then Beyond "octal literal"
      else match dec s 0 with Some n => Ret (Z.of_N n) | None => Beyond "shell arithmetic" end
  end.

(** [sed -e 's/.*-//'] on a line: what follows the last dash, or everything. *)
Fixpoint after_last_dash (s : string) : string :=
  match s with
  | EmptyString => ""
  | String c s' =>
      if Contains s' "-" then after_last_dash s'
      else if Ascii.eqb c "-" then s' else s
  end.

(** The last line of a text; a final newline does not start another one. *)
Definition last_line (s : string) : string :=
  match rev (Split s nl) with
  | "" :: l :: _ => l
  | l :: _ => l
  | [] => ""
  end.

(** [$( )] drops the newlines at the end. *)
Fixpoint strip_newlines (s : string) : string :=
  match s with
  | EmptyString => ""
  | String c s' =>
      match strip_newlines s' with
      | EmptyString => if Ascii.eqb c nl then "" else String c ""
      | t => String c t
      end
  end.

Definition run_filter (f input : string) : outcome string :=
  if decide (f = "tail -n1") then Ret (last_line input)
  else if decide (f = "sed -e 's/.*-//'") then
    Ret (Join (map after_last_dash (Split input nl)) (String nl ""))
  else Beyond "filter".

(** A byte that neither splits nor expands a word. *)
Definition word_byte (c : ascii) : bool :=
  negb (existsb (Ascii.eqb c) [" "; "009"; nl; "*"; "?"; "["; "\"])%char.

Definition plain_word (s : string) : Prop := s ≠ "" ∧ str_forall word_byte s = true.

#[export] Instance plain_word_dec s : Decision (plain_word s).
Proof. unfold plain_word. apply _. Defined.

(** ** Semantics *)

Definition is_pattern (s : string) : bool :=
  negb (str_forall (λ c, negb (existsb (Ascii.eqb c) ["*"; "?"; "["])%char) s).

(** The commands of the container and its files: what a command prints, its
    exit status, which is a byte, and the world it leaves; the files that match
    a pattern. *)
Class World := {
  world : Type;
  exec : list string → world → string * Z * world;
  file_exists : string → world → bool;
  glob : string → world → list string;
  exec_status argv w : (0 ≤ (exec argv w).1.2 < 256)%Z;
}.

Section semantics.
Context {Wd : World}.

Record shell := {
  vars : gmap string string;
  errexit : bool;
  last_status : Z;
  sh_world : world;
}.

Definition with_status (k : Z) (w : world) (s : shell) : shell :=
  {| vars := vars s; errexit := errexit s; last_status := k; sh_world := w |}.
Definition set_var (x v : string) (s : shell) : shell :=
  {| vars := <[x := v]> (vars s); errexit := errexit s; last_status := last_status s;
     sh_world := sh_world s |}.
Definition set_errexit (b : bool) (s : shell) : shell :=
  {| vars := vars s; errexit := b; last_status := 0; sh_world := sh_world s |}.

Definition lookup_var (s : shell) (x : string) : outcome string :=
  match vars s !! x with Some v => Ret v | None => Beyond "unbound variable" end.

Definition eval_atom (s : shell) (a : atom) : outcome string :=
  match a with
  | Lit t => Ret t
  | Var x => lookup_var s x
  | Brace x => lookup_var s x
  | IfSet x alt => Ret (match vars s !! x with Some _ => alt | None => "" end)
  | Status => Ret (Itoa (last_status s))
  | Arith x n => v ← lookup_var s x; k ← arith_value v; Ret (Itoa (k + n))
  end.

(** A pattern stands for the files that match it, or for itself. *)
Definition expand (w : world) (s : string) : list string :=
  if is_pattern s then match glob s w with [] => [s] | l => l end else [s].

(** A command of a pipeline; [echo] and [true] are built in. *)
Definition run_argv (argv : list string) (w : world) : string * Z * world :=
  match argv with
  | "echo" :: "-n" :: args => (Join args " ", 0%Z, w)
  | "echo" :: args => (Join args " " +:+ String nl "", 0%Z, w)
  | ["true"] => ("", 0%Z, w)
  | _ => exec argv w
  end.

Definition is_literal (a : atom) : bool := match a with Lit _ => true | _ => false end.

(** The fields an unquoted expansion gives: none when it is empty. *)
Definition split_field (literal : bool) (v : string) : outcome (list string) :=
  if literal then Ret [v]
  else if decide (v = "") then Ret []
  else if str_forall word_byte v then Ret [v] else Beyond "word splitting".

Definition eval_field (s : shell) (w : list atom) : outcome (list string) :=
  vs ← mmap (eval_atom s) w;
  split_field (forallb is_literal w) (Join vs "").

(** A part: its text, and the status and world of the commands it ran. *)
Definition eval_part (s : shell) (p : part) : outcome (string * Z * world) :=
  match p with
  | Atom a => v ← eval_atom s a; Ret (v, 0%Z, sh_world s)
  | Subst ws f or_true =>
      argv ← mmap (eval_field s) ws;
      let '(out, code, w) := run_argv (concat argv) (sh_world s) in
      out ← run_filter f out;
      Ret (strip_newlines out, if or_true then 0%Z else code, w)
  end.

(** The text of a word; parts are evaluated from left to right. *)
Fixpoint eval_parts (s : shell) (ps : list part) : outcome (string * Z * world) :=
  match ps with
  | [] => Ret ("", 0%Z, sh_world s)
  | p :: ps' =>
      r ← eval_part s p;
      let '(v, code, w) := r in
      r' ← eval_parts (with_status (last_status s) w s) ps';
      let '(v', code', w') := r' in
      Ret (v +:+ v', match ps' with [] => code | _ => code' end, w')
  end.

Definition literal_part (p : part) : bool :=
  match p with Atom a => is_literal a | Subst _ _ _ => false end.

(** The fields of a word in a command. *)
Definition eval_word (s : shell) (w : word) : outcome (list string * world) :=
  r ← eval_parts s (parts w);
  let '(v, _, w') := r in
  fields ← (if quoted_word w then Ret [v] else split_field (forallb literal_part (parts w)) v);
  Ret (fields, w').

Fixpoint eval_words (s : shell) (ws : list word) : outcome (list string * world) :=
  match ws with
  | [] => Ret ([], sh_world s)
  | w :: ws' =>
      r ← eval_word s w;
      let '(fields, wd) := r in
      r' ← eval_words (with_status (last_status s) wd s) ws';
      let '(fields', wd') := r' in
      Ret (fields ++ fields', wd')
  end.

(** The builtin [[ ]], by the number of its arguments. *)
Definition test_builtin (args : list string) (w : world) : outcome bool :=
  match args with
  | [] => Ret false
  | [a] => Ret (negb (bool_decide (a = "")))
  | [op; a] =>
      if decide (op = "-z") then Ret (bool_decide (a = ""))
      else if decide (op = "-f") then Ret (file_exists a w)
      else Beyond "test"
  | [a; op; b] =>
      if decide (op = "=" ∨ op = "==") then Ret (bool_decide (a = b))
      else if decide (op = "-lt") then
        match dec a 0, dec b 0 with
        | Some m, Some n => if decide (a = "" ∨ b = "") then Beyond "test" else Ret (N.ltb m n)
        | _, _ => Beyond "test"
        end
      else if decide (a = "!" ∧ op = "-f") then Ret (negb (file_exists b w))
      else Beyond "test"
  | _ => Beyond "test"
  end.

Fixpoint eval_condition (s : shell) (c : condition) : outcome (bool * shell) :=
  match c with
  | Test ws =>
      r ← eval_words s ws;
      let '(args, w) := r in
      b ← test_builtin args w;
      Ret (b, with_status (if b : bool then 0 else 1)%Z w s)
  | ArithEq a b =>
      r ← eval_parts s (parts a);
      let '(va, _, w) := r in
      r' ← eval_parts (with_status (last_status s) w s) (parts b);
      let '(vb, _, w') := r' in
      x ← arith_value va; y ← arith_value vb;
      Ret (bool_decide (x = y), with_status (if decide (x = y) then 0 else 1)%Z w' s)
  | OrElse c d =>
      r ← eval_condition s c;
      let '(b, s') := r in
      if b : bool then Ret (true, s') else eval_condition s' d
  end.

(** The status of a loop that runs no command, that ends by [break], and of an
    [if] without a branch to run. A loop whose condition fails has the status
    of the last command of its body. *)
Definition succeed (s : shell) : shell := with_status 0 (sh_world s) s.

Inductive control := Go | Broke | Stopped (code : Z).

(** A command ended with a status. *)
Definition finish (code : Z) (w : world) (s : shell) : control * shell :=
  let s' := with_status code w s in
  (if errexit s && negb (bool_decide (code = 0%Z)) then Stopped code else Go, s').

(** The loops, with the body as a function. *)
Fixpoint for_loop (body : shell → outcome (control * shell)) (x : string) (items : list string)
    (s : shell) : outcome (control * shell) :=
  match items with
  | [] => Ret (Go, s)
  | i :: items' =>
      r ← body (set_var x i s);
      match r with
      | (Go, s') => for_loop body x items' s'
      | (Broke, s') => Ret (Go, succeed s')
      | _ => Ret r
      end
  end.

Fixpoint while_loop (cond : shell → outcome (bool * shell))
    (body : shell → outcome (control * shell)) (fuel : nat) (s : shell)
    : outcome (control * shell) :=
  match fuel with
  | O => Beyond "out of fuel"
  | S fuel' =>
      r ← cond s;
      let '(b, s') := r in
      if b : bool then
        r ← body s';
        match r with
        | (Go, s'') => while_loop cond body fuel' s''
        | (Broke, s'') => Ret (Go, succeed s'')
        | _ => Ret r
        end
      else Ret (Go, with_status (last_status s) (sh_world s') s')
  end.

(** [fuel] bounds the rounds of each [while]. *)
Fixpoint run (fuel : nat) (c : command) (s : shell) : outcome (control * shell) :=
  match c with
  | Blank => Ret (Go, s)
  | Simple ws =>
      r ← eval_words s ws;
      let '(argv, w) := r in
      let '(_, code, w') := run_argv argv w in
      Ret (finish code w' s)
  | Cmd ws =>
      let '(_, code, w') := run_argv (concat (map (expand (sh_world s)) ws)) (sh_world s) in
      Ret (finish code w' s)
  | Assign x w =>
      r ← eval_parts s (parts w);
      let '(v, code, wd) := r in
      Ret (finish code wd (set_var x v s))
  | Export x argv =>
      let '(out, _, w') := run_argv (map snd argv) (sh_world s) in
      Ret (finish 0 w' (set_var x (strip_newlines out) s))
  | Seq c d =>
      r ← run fuel c s;
      match r with
      | (Go, s') => run fuel d s'
      | _ => Ret r
      end
  | If _ c a e | Elif _ c a e =>
      r ← eval_condition s c;
      let '(b, s') := r in
      if b : bool then run fuel a s' else run fuel e s'
  | Else a => run fuel a s
  | Fi => Ret (Go, succeed s)
  | For _ x items body => for_loop (run fuel body) x items (succeed s)
  | While _ c body =>
      while_loop (λ s, eval_condition s c) (run fuel body) fuel (succeed s)
  | Break => Ret (Broke, s)
  | Exit w =>
      r ← eval_parts s (parts w);
      let '(v, _, wd) := r in
      k ← arith_value v;
      Ret (Stopped k, with_status k wd s)
  | SetE on => Ret (Go, set_errexit on s)
  end.

(** A script as [bash -euo pipefail] starts it: its exit code and the world. *)
Definition run_script (fuel : nat) (c : command) (env : gmap string string) (w : world)
    : outcome (Z * world) :=
  r ← run fuel c {| vars := env; errexit := true; last_status := 0; sh_world := w |};
  match r with
  | (Stopped k, s) => Ret (k, sh_world s)
  | (_, s) => Ret (last_status s, sh_world s)
  end.

End semantics.

(** ** Lemmas *)

Lemma pretty_N_char_value x :
  (x < 10)%N → (N_of_ascii (pretty_N_char x) - 48)%N = x.
Proof.
  intros H. destruct x as [|p]; [done|].
  destruct p as [[[[p|p|]|[p|p|]|]|[[p|p|]|[p|p|]|]|]|[[[p|p|]|[p|p|]|]|[[p|p|]|[p|p|]|]|]|];
    (reflexivity || lia).
Qed.

Lemma dec_pretty_N_go x t : dec (pretty_N_go x t) 0 = dec t x.
Proof.
  revert t. induction (N.lt_wf_0 x) as [x _ IH]; intros t.
  destruct (decide (x = 0)%N) as [->|Hx]; [done|].
  rewrite pretty_N_go_step by lia. rewrite IH by (apply N.div_lt; lia). cbn [dec].
  assert (x `mod` 10 < 10)%N as Hm by (apply N.mod_lt; lia).
  rewrite pretty_N_char_digit, pretty_N_char_value by done. f_equal.
  pose proof (N.div_mod x 10 ltac:(lia)). lia.
Qed.

(** Reading a decimal number that was printed gives it back. *)
Lemma dec_Itoa z : (0 ≤ z)%Z → dec (Itoa z) 0 = Some (Z.to_N z).
Proof.
  intros Hz. destruct z as [|p|p]; [done| |lia].
  change (Itoa (Zpos p)) with (pretty_N_go (Npos p) ""). by rewrite dec_pretty_N_go.
Qed.

Lemma Itoa_nonempty z : (0 ≤ z)%Z → Itoa z ≠ "".
Proof.
  intros Hz. destruct (decide (z = 0)%Z) as [->|]; [done|].
  destruct (Itoa_head z ltac:(lia)) as (c & s & -> & _). done.
Qed.

Lemma arith_value_Itoa z : (0 ≤ z)%Z → arith_value (Itoa z) = Ret z.
Proof.
  intros Hz. pose proof (dec_Itoa z Hz) as Hd. destruct (decide (z = 0)%Z) as [->|Hne]; [done|].
  destruct (Itoa_head z ltac:(lia)) as (c & s & Heq & Hc). rewrite Heq in Hd |- *.
  unfold arith_value. destruct (Ascii.eqb_spec c "0"); [done|]. cbn [andb].
  rewrite Hd. f_equal. lia.
Qed.

Lemma Contains_dash_digits s : str_forall is_digit s = true → Contains s "-" = false.
Proof.
  induction s as [|c s IH]; [done|]. cbn [str_forall Contains]. rewrite andb_true_iff.
  intros [Hc Hs]. rewrite IH by done. rewrite HasPrefix_head.
  destruct (Ascii.eqb_spec "-" c) as [<-|]; [discriminate Hc|done].
Qed.

Lemma after_last_dash_Itoa ss i :
  (0 ≤ i)%Z → after_last_dash (ss +:+ "-" +:+ Itoa i) = Itoa i.
Proof.
  intros Hi. pose proof (Itoa_digits i Hi) as Hd.
  induction ss as [|c ss IH].
  - change ("" +:+ "-" +:+ Itoa i) with (String "-" (Itoa i)). simpl.
    by rewrite (Contains_dash_digits (Itoa i) Hd).
  - rewrite append_cons. cbn [after_last_dash].
    rewrite Contains_app_r by (apply (Contains_app_l "-")). exact IH.
Qed.

Lemma strip_newlines_id s : str_forall (λ c, negb (Ascii.eqb c nl)) s = true → strip_newlines s = s.
Proof.
  induction s as [|c s IH]; [done|]. cbn [str_forall strip_newlines]. rewrite andb_true_iff.
  intros [Hc Hs]. rewrite IH by done. destruct s; [|done].
  destruct (Ascii.eqb c nl); done.
Qed.

Lemma strip_newlines_end s :
  str_forall (λ c, negb (Ascii.eqb c nl)) s = true → strip_newlines (s +:+ String nl "") = s.
Proof.
  induction s as [|c s IH]; [done|]. rewrite append_cons. cbn [str_forall strip_newlines].
  rewrite andb_true_iff. intros [Hc Hs]. rewrite IH by done. destruct s; [|done].
  destruct (Ascii.eqb c nl); done.
Qed.

Section runs.
Context {Wd : World}.

Lemma run_Seq fuel c d s :
  run fuel (Seq c d) s
  = r ← run fuel c s; match r with (Go, s') => run fuel d s' | _ => Ret r end.
Proof. done. Qed.

Lemma finish_ok w s : finish 0 w s = (Go, with_status 0 w s).
Proof. unfold finish. by rewrite andb_comm. Qed.

Lemma with_status_same s : with_status (last_status s) (sh_world s) s = s.
Proof. by destruct s. Qed.

Lemma eval_parts_atoms s l vs :
  mmap (eval_atom s) l = Ret vs →
  eval_parts s (map Atom l) = Ret (foldr String.append "" vs, 0%Z, sh_world s).
Proof.
  revert vs. induction l as [|a l IH]; intros vs; simpl; [by intros [= <-]|].
  destruct (eval_atom s a) as [v| | |]; try discriminate 1. simpl.
  destruct (mmap (eval_atom s) l) as [vs'| | |]; try discriminate 1.
  intros [= <-]. rewrite with_status_same, (IH vs') by done. simpl. by destruct l.
Qed.

Lemma run_argv_echo args w : (run_argv ("echo" :: args) w).1.2 = 0%Z ∧ (run_argv ("echo" :: args) w).2 = w.
Proof.
  destruct args as [|a args]; [done|].
  destruct (decide (a = "-n")) as [->|Hne]; [done|].
  unfold run_argv. repeat (case_match; try done).
Qed.

Lemma eval_words_cons s w fs ws gs :
  eval_word s w = Ret (fs, sh_world s) → eval_words s ws = Ret (gs, sh_world s) →
  eval_words s (w :: ws) = Ret (fs ++ gs, sh_world s).
Proof. intros Hw Hws. simpl. rewrite Hw. simpl. by rewrite with_status_same, Hws. Qed.

(** A command of literal words. *)
Lemma eval_words_lit s ws : eval_words s (map lit ws) = Ret (ws, sh_world s).
Proof.
  induction ws as [|w ws IH]; [done|]. simpl. unfold eval_word. cbn.
  rewrite !with_status_same, IH. simpl. by rewrite append_nil_r.
Qed.

(** Literal words and a quoted string of atoms at the end. *)
Lemma eval_words_str s ws l vs :
  mmap (eval_atom s) l = Ret vs →
  eval_words s (map lit ws ++ [str l]) = Ret (ws ++ [foldr String.append "" vs], sh_world s).
Proof.
  intros H. induction ws as [|w ws IH].
  - cbn. unfold eval_word. cbn [parts str quoted_word].
    rewrite (eval_parts_atoms s l vs H). done.
  - cbn [map app eval_words]. unfold eval_word. cbn. rewrite !with_status_same, IH. simpl.
    by rewrite append_nil_r.
Qed.

Lemma run_echo_words fuel ws l s vs :
  mmap (eval_atom s) l = Ret vs →
  run fuel (Simple (map lit ("echo" :: ws) ++ [str l])) s = Ret (Go, with_status 0 (sh_world s) s).
Proof.
  intros H. cbn [run]. rewrite (eval_words_str s _ l vs H). cbn [mbind outcome_bind app].
  destruct (run_argv_echo (ws ++ [foldr String.append "" vs]) (sh_world s)) as [H1 H2].
  destruct (run_argv _ _) as [[out code] w'].
  simpl in H1, H2. subst. by rewrite finish_ok.
Qed.

Lemma run_literal fuel ws s :
  run fuel (Simple (map lit ws)) s
  = let '(_, code, w) := run_argv ws (sh_world s) in Ret (finish code w s).
Proof. cbn [run]. by rewrite eval_words_lit. Qed.

Lemma split_field_plain v : plain_word v → split_field false v = Ret [v].
Proof. intros [Hne Hb]. unfold split_field. rewrite decide_False by done. by rewrite Hb. Qed.

End runs.
