(* ===== verification/Scripts.v ===== *)
(** * The scripts of the init containers

    The shell programs in the argument templates of
    [name/container/format_namenode.go], [format_zk.go] and
    [data/container/wait_for_namenodes.go], as functions of what the commands
    they run answer. *)

From S2P Require Import Prelude GoStd GoXml Api Components Shell.

(** ** format_namenode.go *)

(** The [for] loop: the first id whose last line of output is [active]. *)
Fixpoint active_namenode (service_state : string → string) (ids : list string) : option string :=
  match ids with
  | [] => None
  | namenode_id :: rest =>
      if decide (service_state namenode_id = "active") then Some namenode_id
      else active_namenode service_state rest
  end.

Inductive format_action := Format | BootstrapStandby (active : string) | Skip.

#[export] Instance format_action_eq_dec : EqDecision format_action.
Proof. solve_decision. Defined.

(** [formatted]: the file [current/VERSION] exists. *)
Definition format_namenode (service_state : string → string) (ids : list string)
    (formatted : bool) : format_action :=
  let ACTIVE_NAMENODE := active_namenode service_state ids in
  if negb formatted then
    match ACTIVE_NAMENODE with
    | None => Format
    | Some a => BootstrapStandby a
    end
  else Skip.

(** ** format_zk.go *)

(** [[ "0" -eq "s" ]] of the shell. *)
Definition equals_zero (s : string) : outcome bool :=
  v ← arith_value s; Ret (bool_decide (0 = v)%Z).

(** The exit code of the script, and whether it ran [zkfc -formatZK];
    [exitcode] is what that command returns. *)
Definition format_zookeeper (POD_NAME : string) (exitcode : Z) : outcome (bool * Z) :=
  first ← equals_zero (after_last_dash POD_NAME);
  if first : bool then
    if decide (exitcode = 0%Z) then Ret (true, 0%Z)
    else if decide (exitcode = 2%Z) then Ret (true, 0%Z)
    else Ret (true, exitcode)
  else Ret (false, 0%Z).

(** ** wait_for_namenodes.go *)

Definition ready_state (s : string) : bool := bool_decide (s = "active") || bool_decide (s = "standby").

(** The [while] loop from round [n] with [left] rounds to go: the number of
    rounds slept through, and whether all name nodes were ready. *)
Fixpoint wait_loop (service_state : nat → string → string) (ids : list string) (n left : nat)
    : nat * bool :=
  match left with
  | O => (n, false)
  | S left' =>
      if forallb (λ id, ready_state (service_state n id)) ids then (n, true)
      else wait_loop service_state ids (S n) left'
  end.

(** ** Lemmas *)

Lemma active_namenode_Some f ids a :
  active_namenode f ids = Some a → a ∈ ids ∧ f a = "active".
Proof.
  induction ids as [|id ids IH]; simpl; [done|]. case_decide; [naive_solver set_solver|].
  intros Ha. destruct (IH Ha). set_solver.
Qed.

Lemma active_namenode_None f ids a :
  active_namenode f ids = None → a ∈ ids → f a ≠ "active".
Proof.
  induction ids as [|id ids IH]; simpl; [set_solver|]. case_decide; [done|]. set_solver.
Qed.

Lemma after_last_dash_pod ss i : (0 ≤ i)%Z → after_last_dash (pod_name ss i) = Itoa i.
Proof. apply after_last_dash_Itoa. Qed.

Lemma equals_zero_Itoa i : (0 ≤ i)%Z → equals_zero (Itoa i) = Ret (bool_decide (0 = i)%Z).
Proof. intros Hi. unfold equals_zero. by rewrite arith_value_Itoa. Qed.

Lemma wait_loop_spec f ids n left :
  let ready k := forallb (λ id, ready_state (f k id)) ids in
  (wait_loop f ids n left).1 ≤ n + left ∧
  ((wait_loop f ids n left).2 = true ↔ ∃ k, n ≤ k < n + left ∧ ready k = true) ∧
  ((wait_loop f ids n left).2 = true → ready (wait_loop f ids n left).1 = true) ∧
  (∀ k, n ≤ k < (wait_loop f ids n left).1 → ready k = false).
Proof.
  intros ready. revert n. induction left as [|left IH]; intros n; simpl.
  { split_and!; [lia|split; [done|intros (k & ? & ?); lia]|done|lia]. }
  fold (ready n). destruct (ready n) eqn:Hn; simpl.
  - split_and!; [lia|split; [intros _; exists n; split; [lia|done]|done]|done|lia].
  - destruct (IH (S n)) as (H1 & H2 & H3 & H4). split_and!.
    + lia.
    + rewrite H2. split; intros (k & Hk & Hr); exists k; (split; [|done]); [lia|].
      destruct (decide (k = n)) as [->|]; [congruence|lia].
    + exact H3.
    + intros k Hk. destruct (decide (k = n)) as [->|]; [done|]. apply H4. lia.
Qed.

(** ** Theorems *)

(** What the format-namenodes container of a pod does is decided by the
    pod's own disk and the state of the listed name nodes: it formats exactly
    when the disk is empty and no listed name node is active, it copies from
    an active name node of the list when the disk is empty and there is one,
    and it touches nothing when the disk was formatted before. *)
Lemma format_decision service_state ids formatted :
  (format_namenode service_state ids formatted = Format ↔
     formatted = false ∧ ∀ id, id ∈ ids → service_state id ≠ "active") ∧
  (∀ a, format_namenode service_state ids formatted = BootstrapStandby a →
     formatted = false ∧ a ∈ ids ∧ service_state a = "active") ∧
  (format_namenode service_state ids formatted = Skip ↔ formatted = true).
Proof.
  unfold format_namenode.
  destruct formatted; simpl; [split_and!; naive_solver|].
  destruct (active_namenode service_state ids) as [a|] eqn:Ha.
  - apply active_namenode_Some in Ha as [Hin Hact]. split_and!; naive_solver.
  - split_and!; try done. split; [|done]. intros _. split; [done|].
    intros id Hid. by eapply active_namenode_None.
Qed.

(** Of the pods [ss-0], [ss-1], ... of a stateful set only the one with
    ordinal 0 formats ZooKeeper. Its init container fails exactly when the
    command returns neither 0 nor 2, with that exit code, and the init
    containers of the other pods succeed without running it. *)
Lemma only_first_pod_formats_zookeeper ss i exitcode :
  (0 ≤ i)%Z →
  format_zookeeper (pod_name ss i) exitcode =
    Ret (if decide (i = 0)%Z
         then (true, if decide (exitcode = 2%Z) then 0%Z else exitcode)
         else (false, 0%Z)).
Proof.
  intros Hi. unfold format_zookeeper. rewrite after_last_dash_pod, equals_zero_Itoa by done.
  simpl. destruct (decide (i = 0)%Z); [rewrite bool_decide_eq_true_2 by done|
    rewrite bool_decide_eq_false_2 by congruence; done].
  repeat case_decide; simplify_eq; done.
Qed.
