(* ===== verification/ScriptRuns.v ===== *)
(** * The scripts as programs

    The scripts in the templates of [Containers] are the text of programs of
    the shell language, and running these programs does what the functions of
    [Scripts] say. What precedes them in the templates (copying of the
    configuration, the Kerberos ticket) is the preamble. *)

From S2P Require Import Prelude GoStd GoXml Api Security Components RoleConfig Containers Shell Scripts.

Definition hdfs_bin := "/kubedoop/hadoop/bin/hdfs".
Definition version_file := "/kubedoop/data/namenode/current/VERSION".

Definition echo (l : list atom) : command := Simple [lit "echo"; str l].
Definition echo_n (l : list atom) : command := Simple [lit "echo"; lit "-n"; str l].
Definition hdfs (args : list string) : command := Simple (map lit (hdfs_bin :: args)).

(** [x=$(hdfs haadmin -getServiceState $namenode_id | tail -n1 || true)] *)
Definition ask_state : command :=
  Assign "SERVICE_STATE"
    {| quoted_word := false;
       parts := [Subst [[Lit hdfs_bin]; [Lit "haadmin"]; [Lit "-getServiceState"]; [Var "namenode_id"]]
                   "tail -n1" true] |}.

(** ** The programs *)

Definition format_check : command :=
  block [
    echo_n [Lit "Checking pod "; Var "namenode_id"; Lit "... "];
    ask_state;
    If OwnLine (Test [str [Var "SERVICE_STATE"]; lit "=="; str [Lit "active"]])
      (block [ Assign "ACTIVE_NAMENODE" (var "namenode_id"); echo [Lit "active"]; Break ])
      Fi;
    echo [] ].

Definition format_act : command :=
  If OwnLine (Test [lit "!"; lit "-f"; str [Lit version_file]])
    (If OwnLine (Test [lit "-z"; {| quoted_word := false;
                                    parts := [Atom (IfSet "ACTIVE_NAMENODE" "x")] |}])
       (Seq (echo [Lit "Create pod "; Var "POD_NAME"; Lit " as active namenode."])
            (hdfs ["namenode"; "-format"; "-noninteractive"]))
       (Else (Seq (echo [Lit "Create pod "; Var "POD_NAME"; Lit " as standby namenode."])
                  (hdfs ["namenode"; "-bootstrapStandby"; "-nonInteractive"]))))
    (Else (Seq (Simple [lit "cat"; str [Lit version_file]])
               (echo [Lit "Pod "; Var "POD_NAME"; Lit " already formatted. Skipping..."]))).

Definition format_program (ids : list string) : command :=
  block [
    echo [Lit "Start formatting namenode "; Var "POD_NAME"; Lit ". Checking for active namenodes:"];
    For OwnLine "namenode_id" ids format_check;
    Blank;
    format_act ].

Definition zookeeper_program : command :=
  Seq (echo [Lit "Attempt to format ZooKeeper..."])
  (If SpaceSemi
    (ArithEq (str [Lit "0"])
       {| quoted_word := true;
          parts := [Subst [[Lit "echo"]; [Var "POD_NAME"]] "sed -e 's/.*-//'" false] |})
    (block [
       SetE false;
       hdfs ["zkfc"; "-formatZK"; "-nonInteractive"];
       Assign "EXITCODE" {| quoted_word := false; parts := [Atom Status] |};
       SetE true;
       If Semi (ArithEq (var "EXITCODE") (lit "0")) (echo [Lit "Successfully formatted"])
       (Elif Semi (ArithEq (var "EXITCODE") (lit "2"))
          (echo [Lit "ZNode already existed, did nothing"])
       (Else (Seq (echo [Lit "Zookeeper format failed with exit code "; Var "EXITCODE"])
                  (Exit (var "EXITCODE")))));
       Blank ])
    (Else (echo [Lit "ZooKeeper already formatted!"]))).

Definition wait_check : command :=
  block [
    echo_n [Lit "Checking pod "; Var "namenode_id"; Lit "... "];
    ask_state;
    If Semi (OrElse (Test [str [Var "SERVICE_STATE"]; lit "="; str [Lit "active"]])
                    (Test [str [Var "SERVICE_STATE"]; lit "="; str [Lit "standby"]]))
      (echo [Var "SERVICE_STATE"])
      (Else (Seq (echo [Lit "not ready"]) (Assign "ALL_NODES_READY" (lit "false")))) ].

Definition wait_round (ids : list string) : command :=
  block [
    Assign "ALL_NODES_READY" (lit "true");
    For SemiOwnLine "namenode_id" ids wait_check;
    If Semi (Test [str [Var "ALL_NODES_READY"]; lit "=="; str [Lit "true"]])
      (Seq (echo [Lit "All namenodes ready!"]) Break) Fi;
    echo [];
    Assign "n" {| quoted_word := false; parts := [Atom (Arith "n" 1)] |};
    Simple [lit "sleep"; lit "5"] ].

Definition wait_program (ids : list string) : command :=
  block [
    echo [Lit "Waiting for namenodes to get ready:"];
    Assign "n" (lit "0");
    While SemiOwnLine (Test [{| quoted_word := false; parts := [Atom (Brace "n")] |};
                             lit "-lt"; lit "12"]) (wait_round ids) ].

(** ** Their text *)

Definition format_preamble : string :=
  script
    [ "mkdir -p /kubedoop/config/format-namenodes";
      "cp /kubedoop/mount/config/format-namenodes/*.xml /kubedoop/config/format-namenodes";
      "cp /kubedoop/mount/config/format-namenodes/format-namenodes.log4j.properties /kubedoop/config/format-namenodes/log4j.properties";
      ""; "{{ if .kerberosEnabled }}"; "{{- .kerberosEnv }}"; ""; "{{- .kinitScript }}"; "";
      "{{- end }}"; ""; ""; "" ].

Definition zookeeper_preamble : string :=
  script
    [ "mkdir -p /kubedoop/config/format-zookeeper";
      "cp /kubedoop/mount/config/format-zookeeper/*.xml /kubedoop/config/format-zookeeper";
      "cp /kubedoop/mount/config/format-zookeeper/format-zookeeper.log4j.properties /kubedoop/config/format-zookeeper/log4j.properties";
      ""; "{{ if .kerberosEnabled }}"; "{{- .kerberosEnv }}"; "{{- end }}"; ""; "" ].

Definition wait_preamble : string :=
  script
    [ "mkdir -p /kubedoop/config/wait-for-namenodes";
      "cp /kubedoop/mount/config/wait-for-namenodes/*.xml /kubedoop/config/wait-for-namenodes";
      "cp /kubedoop/mount/config/wait-for-namenodes/wait-for-namenodes.log4j.properties /kubedoop/config/wait-for-namenodes/log4j.properties";
      ""; "{{ if .kerberosEnabled }}"; "{{- .kerberosEnv }}"; ""; "{{- .kinitScript }}";
      "{{- end }}"; ""; "" ].

Lemma zookeeper_text : format_zk_template = zookeeper_preamble +:+ program_text zookeeper_program.
Proof. vm_compute. reflexivity. Qed.

Lemma format_text ids :
  format_namenode_template (Join ids " ") = format_preamble +:+ program_text (format_program ids).
Proof.
  unfold program_text, format_program. cbn [block print print_head].
  generalize (Join ids " "). intros t. vm_compute. reflexivity.
Qed.

Lemma wait_text ids :
  wait_for_namenodes_template (Join ids " ") = wait_preamble +:+ program_text (wait_program ids).
Proof.
  unfold program_text, wait_program, wait_round, wait_check, ask_state, echo_n, echo, lines.
  cbn [block print print_head]. generalize (Join ids " "). intros t.
  cbn [app]. unfold Join at 1. cbn [String.concat]. rewrite !append_assoc.
  vm_compute. reflexivity.
Qed.

(** ** What they do *)

Definition haadmin (id : string) : list string := [hdfs_bin; "haadmin"; "-getServiceState"; id].

Section runs.
Context {Wd : World}.

(** What the scripts take for the state of a name node. *)
Definition state_of (w : world) (id : string) : string :=
  strip_newlines (last_line (exec (haadmin id) w).1.1).

(** Asking for it changes nothing. *)
Definition haadmin_reads : Prop := ∀ id w, (exec (haadmin id) w).2 = w.

Context (Hreads : haadmin_reads).

Lemma run_ask_state fuel s id :
  vars s !! "namenode_id" = Some id → plain_word id →
  run fuel ask_state s
  = Ret (Go, with_status 0 (sh_world s) (set_var "SERVICE_STATE" (state_of (sh_world s) id) s)).
Proof.
  intros Hid Hp. unfold ask_state. cbn. unfold eval_field. cbn. unfold lookup_var. rewrite Hid.
  cbn [mbind outcome_bind Join String.concat]. fold (split_field false id).
  rewrite (split_field_plain id Hp). cbn.
  pose proof (Hreads id (sh_world s)) as Hw. unfold state_of, haadmin in *.
  destruct (exec _ _) as [[out code] w]. simpl in Hw |- *. subst w.
  by rewrite append_nil_r, finish_ok.
Qed.

Lemma eval_var_test s x op t v :
  op ∈ ["="; "=="] → vars s !! x = Some v →
  eval_condition s (Test [str [Var x]; lit op; str [Lit t]])
  = Ret (bool_decide (v = t), with_status (if bool_decide (v = t) then 0 else 1) (sh_world s) s).
Proof.
  intros Hop Hv. cbn. unfold eval_word. cbn. unfold lookup_var. rewrite Hv. cbn.
  rewrite !append_nil_r, decide_True by set_solver. done.
Qed.

(** The text of these atoms can be made. *)
Definition printable (s : shell) (l : list atom) : Prop := is_ret (mmap (eval_atom s) l) = true.

Lemma run_echo fuel l s :
  printable s l → run fuel (echo l) s = Ret (Go, with_status 0 (sh_world s) s).
Proof. intros [vs Hvs]%is_ret_inv. exact (run_echo_words fuel [] l s vs Hvs). Qed.

Lemma run_echo_n fuel l s :
  printable s l → run fuel (echo_n l) s = Ret (Go, with_status 0 (sh_world s) s).
Proof. intros [vs Hvs]%is_ret_inv. exact (run_echo_words fuel ["-n"] l s vs Hvs). Qed.

Lemma printable_var s x pre post : is_Some (vars s !! x) → printable s [Lit pre; Var x; Lit post].
Proof. intros [v Hv]. unfold printable. cbn. unfold lookup_var. by rewrite Hv. Qed.

(** Simplifies the shell after a step. *)
Local Ltac sh :=
  cbn [mbind outcome_bind with_status set_var set_errexit succeed vars errexit last_status sh_world].

(** One turn of the loop of format-namenodes. *)
Lemma run_format_check fuel s id :
  vars s !! "namenode_id" = Some id → plain_word id →
  let active := bool_decide (state_of (sh_world s) id = "active") in
  ∃ s', run fuel format_check s = Ret (if active then Broke else Go, s') ∧
    sh_world s' = sh_world s ∧ errexit s' = errexit s ∧
    vars s' !! "POD_NAME" = vars s !! "POD_NAME" ∧
    vars s' !! "ACTIVE_NAMENODE" = if active then Some id else vars s !! "ACTIVE_NAMENODE".
Proof.
  intros Hid Hp active. unfold format_check. cbn [block].
  rewrite run_Seq, run_echo_n by (apply printable_var; eauto). sh.
  rewrite run_Seq, (run_ask_state _ _ id) by done. sh.
  rewrite run_Seq. cbn [run]. erewrite eval_var_test by (set_solver || apply lookup_insert_eq). sh.
  fold active. destruct active eqn:Ha.
  - rewrite (eval_parts_atoms _ [Var "namenode_id"] [id]); last first.
    { cbn. unfold lookup_var. sh. by rewrite lookup_insert_ne, Hid. }
    sh. rewrite finish_ok. sh. rewrite run_echo by done. sh.
    eexists. split; [reflexivity|]. sh. simplify_map_eq. rewrite append_nil_r. done.
  - sh. rewrite run_echo by done. sh. eexists. split; [reflexivity|]. sh. by simplify_map_eq.
Qed.

Lemma run_format_loop fuel ids s :
  Forall plain_word ids → vars s !! "ACTIVE_NAMENODE" = None →
  ∃ s', for_loop (run fuel format_check) "namenode_id" ids s = Ret (Go, s') ∧
    sh_world s' = sh_world s ∧ errexit s' = errexit s ∧
    vars s' !! "POD_NAME" = vars s !! "POD_NAME" ∧
    vars s' !! "ACTIVE_NAMENODE" = active_namenode (state_of (sh_world s)) ids.
Proof.
  intros Hids. revert s. induction Hids as [|id ids Hid _ IH]; intros s Hnone; cbn [for_loop].
  { eauto 10. }
  destruct (run_format_check fuel (set_var "namenode_id" id s) id) as (s1 & Hrun & Hw & He & Hpod & Hact);
    [apply lookup_insert_eq|done|].
  rewrite Hrun. cbn [mbind outcome_bind active_namenode]. sh. simpl in Hw, He, Hpod, Hact.
  rewrite lookup_insert_ne in Hpod, Hact by done.
  destruct (decide (state_of (sh_world s) id = "active")) as [Ha|Ha].
  - rewrite bool_decide_eq_true_2 in Hact |- * by done.
    eexists. split; [reflexivity|]. sh. by rewrite Hw, He, Hpod, Hact.
  - rewrite bool_decide_eq_false_2 in Hact |- * by done.
    destruct (IH s1) as (s' & Hl & Hw' & He' & Hpod' & Hact'); [congruence|].
    exists s'. rewrite Hl, Hw', He', Hpod', Hact'. by rewrite Hw, He, Hpod.
Qed.

(** The command that format-namenodes ends with. *)
Definition format_command (a : format_action) : list string :=
  match a with
  | Format => [hdfs_bin; "namenode"; "-format"; "-noninteractive"]
  | BootstrapStandby _ => [hdfs_bin; "namenode"; "-bootstrapStandby"; "-nonInteractive"]
  | Skip => ["cat"; version_file]
  end.

(** The exit code and world that a shell ends with. *)
Definition ends (r : outcome (control * shell)) : outcome (Z * world) :=
  r ← r;
  match r with
  | (Stopped k, s) => Ret (k, sh_world s)
  | (_, s) => Ret (last_status s, sh_world s)
  end.

Lemma ends_finish code w s : ends (Ret (finish code w s)) = Ret (code, w).
Proof. unfold ends, finish. cbn. by destruct (errexit s && _). Qed.

(** A command, and an [echo] after it, with [errexit] on. *)
Lemma ends_finish_echo fuel code w s l :
  errexit s = true → printable (with_status 0 w s) l →
  ends (r ← Ret (finish code w s);
        match r with (Go, s') => run fuel (echo l) s' | _ => Ret r end) = Ret (code, w).
Proof.
  intros He Hl. unfold finish. rewrite He. cbn [andb mbind outcome_bind].
  destruct (decide (code = 0%Z)) as [->|Hne].
  - rewrite bool_decide_eq_true_2 by done. cbn [negb]. by rewrite run_echo.
  - by rewrite bool_decide_eq_false_2.
Qed.

Lemma ends_exec fuel argv s :
  run_argv argv = exec argv →
  ends (run fuel (Simple (map lit argv)) s)
  = let '(_, code, w) := exec argv (sh_world s) in Ret (code, w).
Proof.
  intros Hx. rewrite run_literal, Hx. destruct (exec _ _) as [[out code] w]. apply ends_finish.
Qed.

Lemma run_If fuel l c a e s :
  run fuel (If l c a e) s
  = r ← eval_condition s c; let '(b, s') := r in
    if b : bool then run fuel a s' else run fuel e s'.
Proof. done. Qed.

Definition status_of (b : bool) : Z := if b then 0 else 1.

Lemma eval_words_text s ws t :
  eval_words s (map lit ws ++ [str [Lit t]]) = Ret (ws ++ [t], sh_world s).
Proof. rewrite (eval_words_str s ws _ [t]) by done. simpl. by rewrite append_nil_r. Qed.

Lemma eval_no_file s f :
  let b := negb (file_exists f (sh_world s)) in
  eval_condition s (Test [lit "!"; lit "-f"; str [Lit f]])
  = Ret (b, with_status (status_of b) (sh_world s) s).
Proof.
  cbn [eval_condition].
  by rewrite (eval_words_text s ["!"; "-f"] f : eval_words s [_; _; _] = _).
Qed.

(** [[ -z ${x+alt} ]]: an unset variable leaves the test with one argument. *)
Lemma eval_unset s x alt :
  plain_word alt →
  let b := bool_decide (vars s !! x = None) in
  eval_condition s (Test [lit "-z"; {| quoted_word := false; parts := [Atom (IfSet x alt)] |}])
  = Ret (b, with_status (status_of b) (sh_world s) s).
Proof.
  intros Hp. pose proof (split_field_plain alt Hp) as Hf. destruct Hp as [Hne _].
  cbn [eval_condition eval_words]. unfold eval_word at 2. cbn [parts eval_parts eval_part eval_atom].
  cbn [sh_world lit]. 
  cbn -[split_field]. destruct (vars s !! x) as [v|]; cbn -[split_field]; [|done].
  rewrite append_nil_r, Hf. cbn. by rewrite bool_decide_eq_false_2.
Qed.

Lemma run_format_act fuel s ids :
  errexit s = true → is_Some (vars s !! "POD_NAME") →
  vars s !! "ACTIVE_NAMENODE" = active_namenode (state_of (sh_world s)) ids →
  ends (run fuel format_act s)
  = let '(_, code, w') :=
      exec (format_command (format_namenode (state_of (sh_world s)) ids
              (file_exists version_file (sh_world s)))) (sh_world s) in Ret (code, w').
Proof.
  intros He Hpod Hact. unfold format_act, format_namenode. rewrite run_If, eval_no_file. sh.
  destruct (file_exists version_file (sh_world s)); cbn [negb format_command].
  - change (run fuel (Else ?c)) with (run fuel c). rewrite run_Seq. cbn [run].
    rewrite (eval_words_text _ ["cat"] version_file : eval_words _ [_; _] = _).
    sh. change (run_argv (["cat"] ++ [version_file])) with (exec ["cat"; version_file]).
    destruct (exec _ _) as [[out code] w']. sh.
    apply (ends_finish_echo fuel code w' (with_status _ _ s)); [done|]. by apply printable_var.
  - rewrite run_If, eval_unset by done. sh. rewrite Hact.
    destruct (active_namenode _ ids) as [a|];
      [rewrite bool_decide_eq_false_2 by done|rewrite bool_decide_eq_true_2 by done];
      cbn [format_command];
      [change (run fuel (Else ?c)) with (run fuel c)|];
      (rewrite run_Seq, run_echo by (by apply printable_var)); sh;
      (etrans; [by apply (ends_exec fuel (hdfs_bin :: _))|done]).
Qed.

(** *** format-namenodes *)

Lemma run_format_program fuel ids env w :
  Forall plain_word ids → env !! "ACTIVE_NAMENODE" = None → is_Some (env !! "POD_NAME") →
  run_script fuel (format_program ids) env w
  = let '(_, code, w') :=
      exec (format_command (format_namenode (state_of w) ids (file_exists version_file w))) w in
    Ret (code, w').
Proof.
  intros Hids Hnone Hpod.
  change (run_script fuel (format_program ids) env w)
    with (ends (run fuel (format_program ids)
                  {| vars := env; errexit := true; last_status := 0; sh_world := w |})).
  unfold format_program. cbn [block]. rewrite run_Seq, run_echo by (by apply printable_var). sh.
  rewrite run_Seq. change (run fuel (For ?l ?x ?items ?b) ?s)
    with (for_loop (run fuel b) x items (succeed s)).
  destruct (run_format_loop fuel ids (succeed (with_status 0 w
     {| vars := env; errexit := true; last_status := 0; sh_world := w |})))
    as (s' & -> & Hw & He & Hp & Ha); [done|done|]. sh.
  rewrite run_Seq. change (run fuel Blank s') with (Ret (Go, s')). sh.
  simpl in Hw. rewrite (run_format_act fuel s' ids), Hw; [done|done| |].
  - by rewrite Hp.
  - by rewrite Ha, Hw.
Qed.

(** *** format-zookeeper *)

Definition format_zk_command : list string := [hdfs_bin; "zkfc"; "-formatZK"; "-nonInteractive"].

Lemma plain_word_line s : plain_word s → no_byte nl s = true.
Proof.
  intros [_ H]. revert H. unfold no_byte. apply str_forall_impl. intros c. unfold word_byte.
  destruct (Ascii.eqb_spec c nl) as [->|]; [discriminate 1|done].
Qed.

Lemma after_last_dash_line s : no_byte nl s = true → no_byte nl (after_last_dash s) = true.
Proof.
  unfold no_byte. induction s as [|c s IH]; [done|]. cbn [str_forall after_last_dash].
  intros [Hc Hs]%andb_true_iff. repeat case_match; auto. cbn [str_forall]. by rewrite Hc, Hs.
Qed.

(** What [$(echo $POD_NAME | sed -e 's/.*-//')] gives. *)
Lemma eval_ordinal_text s pod :
  vars s !! "POD_NAME" = Some pod → plain_word pod → pod ≠ "-n" →
  eval_parts s [Subst [[Lit "echo"]; [Var "POD_NAME"]] "sed -e 's/.*-//'" false]
  = Ret (after_last_dash pod, 0%Z, sh_world s).
Proof.
  intros Hpod Hp Hn. pose proof (plain_word_line pod Hp) as Hl.
  assert (run_argv ["echo"; pod] (sh_world s) = (pod +:+ String nl "", 0%Z, sh_world s)) as He.
  { unfold run_argv. repeat (case_match; try done). }
  cbn [eval_parts eval_part mmap]. unfold eval_field. cbn [mmap eval_atom]. unfold lookup_var.
  rewrite Hpod. cbn [mbind outcome_bind Join String.concat forallb is_literal andb].
  rewrite (split_field_plain pod Hp). cbn [mbind outcome_bind split_field concat app].
  change (String.concat "" ["echo"]) with "echo". rewrite He. unfold run_filter.
  rewrite decide_False, decide_True by done. rewrite Split_app by done. cbn.
  rewrite strip_newlines_end by (by apply after_last_dash_line). by rewrite append_nil_r.
Qed.

Lemma eval_ordinal s pod :
  vars s !! "POD_NAME" = Some pod → plain_word pod → pod ≠ "-n" →
  eval_condition s
    (ArithEq (str [Lit "0"])
       {| quoted_word := true;
          parts := [Subst [[Lit "echo"]; [Var "POD_NAME"]] "sed -e 's/.*-//'" false] |})
  = b ← equals_zero (after_last_dash pod); Ret (b, with_status (status_of b) (sh_world s) s).
Proof.
  intros Hpod Hp Hn. cbn [eval_condition parts str map].
  rewrite (eval_parts_atoms s [Lit "0"] ["0"] eq_refl : eval_parts s [_] = _).
  cbn [mbind outcome_bind]. rewrite with_status_same, (eval_ordinal_text s pod) by done.
  cbn [mbind outcome_bind]. unfold equals_zero.
  change (arith_value (foldr _ _ ["0"])) with (Ret 0%Z). cbn [mbind outcome_bind].
  destruct (arith_value (after_last_dash pod)) as [v| | |]; [|done..].
  cbn [mbind outcome_bind]. unfold status_of. by destruct (decide (0%Z = v)) as [->|];
    [rewrite bool_decide_eq_true_2 by done|rewrite bool_decide_eq_false_2 by done].
Qed.

(** What follows [zkfc -formatZK], with its exit code in a variable. *)
Lemma eval_exitcode s k t n :
  vars s !! "EXITCODE" = Some (Itoa k) → (0 ≤ k)%Z → arith_value t = Ret n →
  eval_condition s (ArithEq (var "EXITCODE") (lit t))
  = Ret (bool_decide (k = n), with_status (status_of (bool_decide (k = n))) (sh_world s) s).
Proof.
  intros Hv Hk Hn. cbn [eval_condition parts var lit].
  rewrite (eval_parts_atoms s [Var "EXITCODE"] [Itoa k] : _ -> eval_parts s [_] = _)
    by (cbn; unfold lookup_var; by rewrite Hv).
  cbn [mbind outcome_bind]. rewrite with_status_same.
  rewrite (eval_parts_atoms s [Lit t] [t] eq_refl : eval_parts s [_] = _).
  cbn [mbind outcome_bind foldr]. rewrite !append_nil_r, arith_value_Itoa, Hn by done.
  cbn [mbind outcome_bind]. unfold status_of. by destruct (decide (k = n)) as [->|];
    [rewrite bool_decide_eq_true_2 by done|rewrite bool_decide_eq_false_2 by done].
Qed.

Definition zookeeper_report : command :=
  If Semi (ArithEq (var "EXITCODE") (lit "0")) (echo [Lit "Successfully formatted"])
  (Elif Semi (ArithEq (var "EXITCODE") (lit "2"))
     (echo [Lit "ZNode already existed, did nothing"])
  (Else (Seq (echo [Lit "Zookeeper format failed with exit code "; Var "EXITCODE"])
             (Exit (var "EXITCODE"))))).

Lemma run_zookeeper_report fuel s k :
  vars s !! "EXITCODE" = Some (Itoa k) → (0 ≤ k)%Z →
  ends (run fuel (Seq zookeeper_report Blank) s)
  = Ret (if decide (k = 0 ∨ k = 2)%Z then 0%Z else k, sh_world s).
Proof.
  intros Hv Hk. unfold zookeeper_report.
  rewrite run_Seq, run_If, (eval_exitcode s k "0" 0) by done. cbn [mbind outcome_bind].
  case_bool_decide as H0; [rewrite run_echo by done; by rewrite decide_True by tauto|].
  change (run fuel (Elif ?l ?c ?a ?e)) with (run fuel (If l c a e)).
  rewrite run_If, (eval_exitcode _ k "2" 2) by done. cbn [mbind outcome_bind].
  case_bool_decide as H2; [rewrite run_echo by done; by rewrite decide_True by tauto|].
  change (run fuel (Else ?c)) with (run fuel c). rewrite run_Seq, run_echo.
  2: { unfold printable. cbn. unfold lookup_var. sh. by rewrite Hv. }
  cbn [mbind outcome_bind run]. 
  rewrite (eval_parts_atoms _ [Var "EXITCODE"] [Itoa k] : _ -> eval_parts _ [_] = _)
    by (cbn; unfold lookup_var; sh; by rewrite Hv).
  cbn [mbind outcome_bind foldr]. rewrite append_nil_r, arith_value_Itoa by done.
  cbn. by rewrite decide_False by tauto.
Qed.

Lemma run_zookeeper_program fuel env w pod :
  env !! "POD_NAME" = Some pod → plain_word pod → pod ≠ "-n" →
  run_script fuel zookeeper_program env w
  = let '(_, exitcode, w') := exec format_zk_command w in
    r ← format_zookeeper pod exitcode; let '(ran, code) := r in
    Ret (code, if ran : bool then w' else w).
Proof.
  intros Hpod Hp Hn. pose proof (exec_status format_zk_command w) as Hk.
  destruct (exec format_zk_command w) as [[out k] w'] eqn:Hx. simpl in Hk.
  change (run_script fuel ?c env w)
    with (ends (run fuel c
                  {| vars := env; errexit := true; last_status := 0; sh_world := w |})).
  unfold zookeeper_program. rewrite run_Seq, run_echo by done. sh.
  rewrite run_If, (eval_ordinal _ pod) by done. unfold format_zookeeper.
  destruct (equals_zero (after_last_dash pod)) as [b| | |]; [|done..]. sh.
  destruct b; cbn [status_of].
  2: { change (run fuel (Else ?c)) with (run fuel c). by rewrite run_echo. }
  cbn [block]. rewrite run_Seq. change (run fuel (SetE false) ?s) with (Ret (Go, set_errexit false s)). sh.
  rewrite run_Seq. unfold hdfs. rewrite run_literal. sh.
  change (run_argv _ w) with (exec format_zk_command w). rewrite Hx.
  unfold finish at 1. sh. cbn [andb].
  rewrite run_Seq. change (run fuel (Assign ?x _) ?s) with
    (Ret (finish 0 (sh_world s) (set_var x (Itoa (last_status s) +:+ "") s))).
  rewrite append_nil_r, finish_ok. sh.
  rewrite run_Seq. change (run fuel (SetE true) ?s) with (Ret (Go, set_errexit true s)). sh.
  rewrite (run_zookeeper_report fuel _ k); [|by apply lookup_insert_eq|lia].
  cbn. repeat case_decide; naive_solver.
Qed.

(** *** wait-for-namenodes *)

Lemma eval_ready s v :
  vars s !! "SERVICE_STATE" = Some v →
  eval_condition s (OrElse (Test [str [Var "SERVICE_STATE"]; lit "="; str [Lit "active"]])
                           (Test [str [Var "SERVICE_STATE"]; lit "="; str [Lit "standby"]]))
  = Ret (ready_state v, with_status (status_of (ready_state v)) (sh_world s) s).
Proof.
  intros Hv. change (eval_condition s (OrElse ?c ?d)) with
    (r ← eval_condition s c; let '(b, s') := r in
     if b : bool then Ret (true, s') else eval_condition s' d).
  erewrite eval_var_test by (set_solver || exact Hv). sh. unfold ready_state.
  case_bool_decide; [done|].
  erewrite eval_var_test by (set_solver || exact Hv). sh. by case_bool_decide.
Qed.

Lemma run_wait_check fuel s id :
  vars s !! "namenode_id" = Some id → plain_word id →
  let ready := ready_state (state_of (sh_world s) id) in
  ∃ s', run fuel wait_check s = Ret (Go, s') ∧
    sh_world s' = sh_world s ∧ errexit s' = errexit s ∧ vars s' !! "n" = vars s !! "n" ∧
    vars s' !! "ALL_NODES_READY" = if ready then vars s !! "ALL_NODES_READY" else Some "false".
Proof.
  intros Hid Hp ready. unfold wait_check. cbn [block].
  rewrite run_Seq, run_echo_n by (apply printable_var; eauto). sh.
  rewrite run_Seq, (run_ask_state _ _ id) by done. sh.
  rewrite run_If, (eval_ready _ (state_of (sh_world s) id)) by (apply lookup_insert_eq). sh.
  fold ready. destruct ready; cbn [status_of].
  - rewrite run_echo by (unfold printable; cbn; unfold lookup_var; sh; by rewrite lookup_insert_eq).
    eexists. split; [reflexivity|]. sh. by simplify_map_eq.
  - change (run fuel (Else ?c)) with (run fuel c). rewrite run_Seq, run_echo by done. sh.
    change (run fuel (Assign ?x (lit ?t)) ?s) with (Ret (finish 0 (sh_world s) (set_var x (t +:+ "") s))).
    rewrite finish_ok. eexists. split; [reflexivity|]. sh. by simplify_map_eq.
Qed.

Lemma run_wait_for fuel ids s b :
  Forall plain_word ids → vars s !! "ALL_NODES_READY" = Some (if b : bool then "true" else "false") →
  let ready := forallb (λ id, ready_state (state_of (sh_world s) id)) ids in
  ∃ s', for_loop (run fuel wait_check) "namenode_id" ids s = Ret (Go, s') ∧
    sh_world s' = sh_world s ∧ errexit s' = errexit s ∧ vars s' !! "n" = vars s !! "n" ∧
    vars s' !! "ALL_NODES_READY" = Some (if b && ready then "true" else "false").
Proof.
  intros Hids. revert s b. induction Hids as [|id ids Hid _ IH]; intros s b Hb; cbn [for_loop forallb].
  { exists s. by rewrite andb_true_r. }
  destruct (run_wait_check fuel (set_var "namenode_id" id s) id)
    as (s1 & -> & Hw & He & Hn & Hr); [apply lookup_insert_eq|done|].
  simpl in Hw, He, Hn, Hr. rewrite lookup_insert_ne in Hn, Hr by done. sh.
  set (r := ready_state (state_of (sh_world s) id)) in *.
  destruct (IH s1 (b && r)) as (s' & Hl & Hw' & He' & Hn' & Hr').
  { rewrite Hr, Hb. by destruct b, r. }
  exists s'. rewrite Hl, Hw', He', Hn', Hr', Hw, He, Hn, andb_assoc. done.
Qed.

Definition sleep5 : list string := ["sleep"; "5"].
Definition after_sleep (w : world) : world := (exec sleep5 w).2.

Context (Hsleep : ∀ w, (exec sleep5 w).1.2 = 0%Z).

(** A round that finds all name nodes ready leaves the loop, another one
    counts and sleeps. *)
Lemma run_wait_round fuel ids s n :
  Forall plain_word ids → vars s !! "n" = Some (Itoa n) → (0 ≤ n)%Z →
  let ready := forallb (λ id, ready_state (state_of (sh_world s) id)) ids in
  ∃ s', run fuel (wait_round ids) s = Ret (if ready then Broke else Go, s') ∧
    last_status s' = 0%Z ∧
    vars s' !! "n" = Some (Itoa (if ready then n else n + 1)) ∧
    sh_world s' = if ready then sh_world s else after_sleep (sh_world s).
Proof.
  intros Hids Hn Hpos ready. unfold wait_round. cbn [block].
  rewrite run_Seq. change (run fuel (Assign ?x (lit ?t)) ?s) with
    (Ret (finish 0 (sh_world s) (set_var x (t +:+ "") s))). rewrite finish_ok. sh.
  rewrite run_Seq. change (run fuel (For ?l ?x ?items ?b) ?s)
    with (for_loop (run fuel b) x items (succeed s)).
  destruct (run_wait_for fuel ids (succeed (with_status 0 (sh_world s)
     (set_var "ALL_NODES_READY" ("true" +:+ "") s))) true)
    as (s1 & -> & Hw & _ & Hn1 & Hr); [done|apply lookup_insert_eq|].
  simpl in Hw, Hn1, Hr. rewrite lookup_insert_ne, Hn in Hn1 by done. fold ready in Hr. sh.
  rewrite run_Seq, run_If. erewrite eval_var_test by (set_solver || exact Hr). sh.
  destruct ready.
  - rewrite bool_decide_eq_true_2 by done. rewrite run_Seq, run_echo by done. sh.
    eexists. split; [reflexivity|]. done.
  - rewrite bool_decide_eq_false_2 by done. change (run fuel Fi ?s) with (Ret (Go, succeed s)). sh.
    rewrite run_Seq, run_echo by done. sh. rewrite run_Seq. cbn [run parts].
    rewrite (eval_parts_atoms _ [Arith "n" 1] [Itoa (n + 1)] : _ → eval_parts _ [_] = _).
    2: { cbn. unfold lookup_var. sh. rewrite Hn1. cbn. by rewrite arith_value_Itoa. }
    sh. rewrite finish_ok, (eval_words_lit _ sleep5 : eval_words _ [_; _] = _). sh.
    change (run_argv sleep5 ?w) with (exec sleep5 w). rewrite Hw.
    pose proof (Hsleep (sh_world s)) as H0. unfold after_sleep.
    destruct (exec sleep5 _) as [[out code] w']. simpl in H0. subst code. rewrite finish_ok.
    eexists. split; [reflexivity|]. sh. cbn [foldr]. rewrite append_nil_r. by simplify_map_eq.
Qed.

Lemma Itoa_plain n : (0 ≤ n)%Z → plain_word (Itoa n).
Proof.
  intros Hn. split; [by apply Itoa_nonempty|].
  eapply str_forall_impl; [|by apply Itoa_digits]. intros c. unfold word_byte.
  destruct (existsb _ _) eqn:He; [|done]. apply existsb_exists in He as (d & Hd & <-%Ascii.eqb_eq).
  simpl in Hd. naive_solver.
Qed.

Lemma eval_less s x n t m :
  vars s !! x = Some (Itoa n) → (0 ≤ n)%Z → dec t 0 = Some m → t ≠ "" →
  let b := (n <? Z.of_N m)%Z in
  eval_condition s (Test [{| quoted_word := false; parts := [Atom (Brace x)] |}; lit "-lt"; lit t])
  = Ret (b, with_status (status_of b) (sh_world s) s).
Proof.
  intros Hv Hn Ht Hne b. pose proof (split_field_plain _ (Itoa_plain n Hn)) as Hf.
  assert (eval_word s {| quoted_word := false; parts := [Atom (Brace x)] |} = Ret ([Itoa n], sh_world s)) as Hw.
  { unfold eval_word. cbn [parts quoted_word].
    rewrite (eval_parts_atoms s [Brace x] [Itoa n] : _ → eval_parts _ [_] = _)
      by (cbn; unfold lookup_var; by rewrite Hv).
    cbn [mbind outcome_bind foldr forallb literal_part is_literal andb].
    by rewrite append_nil_r, Hf. }
  assert (eval_words s [{| quoted_word := false; parts := [Atom (Brace x)] |}; lit "-lt"; lit t]
          = Ret ([Itoa n; "-lt"; t], sh_world s)) as Hws.
  { apply (eval_words_cons s _ [Itoa n] _ ["-lt"; t] Hw). apply (eval_words_lit s ["-lt"; t]). }
  cbn [eval_condition]. rewrite Hws. sh.
  unfold test_builtin. cbn [app]. rewrite decide_False by naive_solver. rewrite decide_True by done.
  rewrite dec_Itoa, Ht by done. rewrite decide_False by (pose proof (Itoa_nonempty n Hn); naive_solver).
  cbn [mbind outcome_bind]. replace (Z.to_N n <? m)%N with b; [done|]. unfold b.
  destruct (Z.ltb_spec n (Z.of_N m)), (N.ltb_spec (Z.to_N n) m); (done || lia).
Qed.

Definition wait_body (ids : list string) (fuel : nat) :=
  while_loop (λ s, eval_condition s (Test [{| quoted_word := false; parts := [Atom (Brace "n")] |};
                             lit "-lt"; lit "12"])) (run fuel (wait_round ids)).

(** The rounds from number [n] on. *)
Lemma run_wait_while fuel0 ids w n left fuel s :
  Forall plain_word ids → n + left = 12 → left < fuel →
  vars s !! "n" = Some (Itoa (Z.of_nat n)) → last_status s = 0%Z →
  sh_world s = Nat.iter n after_sleep w →
  let rounds := (wait_loop (λ k, state_of (Nat.iter k after_sleep w)) ids n left).1 in
  ∃ s', wait_body ids fuel0 fuel s = Ret (Go, s') ∧
    last_status s' = 0%Z ∧ sh_world s' = Nat.iter rounds after_sleep w.
Proof.
  intros Hids. unfold wait_body. revert n fuel s.
  induction left as [|left IH]; intros n fuel s Hsum Hfuel Hn Hlast Hw;
    (destruct fuel as [|fuel]; [lia|]); cbn [while_loop].
  - rewrite (eval_less s "n" (Z.of_nat n) "12" 12) by (done || lia). sh. change (Z.of_N 12) with 12%Z.
    destruct (Z.ltb_spec (Z.of_nat n) 12); [lia|]. eauto.
  - rewrite (eval_less s "n" (Z.of_nat n) "12" 12) by (done || lia). sh. change (Z.of_N 12) with 12%Z.
    destruct (Z.ltb_spec (Z.of_nat n) 12); [|lia]. cbn [wait_loop].
    destruct (run_wait_round fuel0 ids (with_status (status_of true) (sh_world s) s) (Z.of_nat n))
      as (s1 & -> & Hl1 & Hn1 & Hw1); [done|done|lia|]. sh. simpl in Hw1, Hn1.
    rewrite <- Hw. destruct (forallb _ ids).
    + eexists. split; [reflexivity|]. simpl. by rewrite Hw1.
    + apply IH; [lia|lia| |done|by rewrite Hw1, Hw].
      rewrite Hn1. do 2 f_equal. lia.
Qed.

Lemma run_wait_program fuel ids env w :
  Forall plain_word ids → 12 < fuel →
  let rounds := (wait_loop (λ k, state_of (Nat.iter k after_sleep w)) ids 0 12).1 in
  run_script fuel (wait_program ids) env w = Ret (0%Z, Nat.iter rounds after_sleep w).
Proof.
  intros Hids Hfuel rounds.
  change (run_script fuel ?c env w)
    with (ends (run fuel c {| vars := env; errexit := true; last_status := 0; sh_world := w |})).
  unfold wait_program. cbn [block]. rewrite run_Seq, run_echo by done. sh.
  rewrite run_Seq. change (run fuel (Assign ?x (lit ?t)) ?s) with
    (Ret (finish 0 (sh_world s) (set_var x (t +:+ "") s))). rewrite finish_ok. sh.
  change (run fuel (While ?l ?c ?b) ?s) with (wait_body ids fuel fuel (succeed s)).
  edestruct (run_wait_while fuel ids w 0 12 fuel) as (s' & -> & Hl & Hw);
    [done|done|done|apply lookup_insert_eq|done|done|].
  unfold ends. sh. by rewrite Hl, Hw.
Qed.
End runs.

(** ** Theorems *)

Lemma plain_word_pod ss i : plain_word ss → (0 ≤ i)%Z → plain_word (pod_name ss i).
Proof.
  intros [Hne Hss] Hi. destruct (Itoa_plain i Hi) as [_ Hd]. unfold pod_name. split.
  - by destruct ss.
  - by rewrite !str_forall_app, Hss, Hd.
Qed.

Lemma plain_word_pods ss n : plain_word ss → Forall plain_word (map (pod_name ss) (indices n)).
Proof.
  intros Hss. apply Forall_fmap, Forall_forall. intros i Hi%elem_of_indices.
  apply plain_word_pod; [done|lia].
Qed.

(** Of the pods of a stateful set only the one with ordinal 0 runs
    [zkfc -formatZK]. *)
Lemma zookeeper_program_runs {Wd : World} ss i fuel env w :
  plain_word ss → (0 ≤ i)%Z → env !! "POD_NAME" = Some (pod_name ss i) →
  run_script fuel zookeeper_program env w
  = Ret (if decide (i = 0)%Z then
           let '(_, exitcode, w') := exec format_zk_command w in
           (if decide (exitcode = 2)%Z then 0%Z else exitcode, w')
         else (0%Z, w)).
Proof.
  intros Hss Hi Hpod. rewrite (run_zookeeper_program fuel env w (pod_name ss i)).
  - destruct (exec format_zk_command w) as [[out k] w'].
    rewrite only_first_pod_formats_zookeeper by done. by case_decide.
  - done.
  - by apply plain_word_pod.
  - intros Hd. pose proof (after_last_dash_pod ss i Hi) as Ha. rewrite Hd in Ha.
    pose proof (Itoa_digits i Hi) as Hdig. rewrite <- Ha in Hdig. discriminate Hdig.
Qed.

Lemma wait_loop_gave_up f ids n left :
  (wait_loop f ids n left).2 = false → (wait_loop f ids n left).1 = n + left.
Proof.
  revert n. induction left as [|left IH]; intros n; simpl; [lia|].
  case_match; [done|]. intros Hf. rewrite IH by done. lia.
Qed.

(** The wait ends: it sleeps until the first round, of at most 12, in which all
    name nodes are ready. *)
Lemma wait_program_runs {Wd : World} ids fuel env w :
  haadmin_reads → (∀ w, (exec sleep5 w).1.2 = 0%Z) → Forall plain_word ids → 12 < fuel →
  let ready k := forallb (λ id, ready_state (state_of (Nat.iter k after_sleep w) id)) ids in
  ∃ n, run_script fuel (wait_program ids) env w = Ret (0%Z, Nat.iter n after_sleep w) ∧
    n ≤ 12 ∧ (∀ k, k < n → ready k = false) ∧ (n < 12 → ready n = true).
Proof.
  intros Hreads Hsleep Hids Hfuel ready.
  pose (f := λ k, state_of (Nat.iter k after_sleep w)).
  exists (wait_loop f ids 0 12).1. split; [by apply run_wait_program|].
  destruct (wait_loop_spec f ids 0 12) as (H1 & H2 & H3 & H4).
  split_and!; [done|intros k Hk; apply H4; lia|]. intros Hlt. apply H3.
  destruct (wait_loop f ids 0 12) as [n ok] eqn:Hl. simpl in Hlt |- *.
  destruct ok; [done|]. pose proof (wait_loop_gave_up f ids 0 12) as Hg. rewrite Hl in Hg.
  specialize (Hg eq_refl). simpl in Hg. lia.
Qed.
