(* ===== verification/ContainerScripts.v ===== *)
(** * The scripts of the init containers, from template to execution

    The argument of each init container is what text/template makes of its
    template; it is the text of a program, which copies the configuration, gets
    a Kerberos ticket when Kerberos is enabled, and then runs the program of
    [ScriptRuns]. *)

From S2P Require Import Prelude GoStd GoTemplate GoXml Api Security Components RoleConfig Containers.
From S2P Require Import Shell Scripts ScriptRuns.

(** ** What precedes the programs *)

Definition config_dir (name : string) : string := "/kubedoop/config/" +:+ name.
Definition mount_dir (name : string) : string := "/kubedoop/mount/config/" +:+ name.

(** The commands that copy the configuration of a container. *)
Definition setup_argv (name : string) : list (list string) :=
  [ ["mkdir"; "-p"; config_dir name];
    ["cp"; mount_dir name +:+ "/*.xml"; config_dir name];
    ["cp"; mount_dir name +:+ "/" +:+ name +:+ ".log4j.properties";
     config_dir name +:+ "/log4j.properties"] ].

Section kerberos.
Context {P : Platform}.

Definition krb5_conf : string := path_Join [KubedoopKerberosDir; "krb5.conf"].
Definition keytab : string := path_Join [KubedoopKerberosDir; "keytab"].
Definition grep_argv : list (bool * string) :=
  [(false, "grep"); (false, "-oP"); (true, "default_realm = \K.*"); (false, krb5_conf)].

Definition export_realm : command := Export "KERBEROS_REALM" grep_argv.

(** The principal up to its realm. *)
Definition principal_prefix (instance : HdfsCluster) (service : string) : string :=
  service +:+ "/" +:+ hc_Name instance +:+ "." +:+ hc_Namespace instance +:+ ".svc.cluster.local@".

Definition ticket (prefix : string) : list command :=
  [ Blank;
    Simple [lit "echo"; str [Lit ("Getting ticket for " +:+ prefix); Brace "KERBEROS_REALM"];
            lit "from"; lit keytab];
    Simple [lit "kinit"; str [Lit prefix; Brace "KERBEROS_REALM"]; lit "-kt"; lit keytab] ].

(** A container with a ticket has the prefix of its principal. *)
Definition kerberos_part (cfg : ClusterConfigSpec) (prefix : option string) : list command :=
  if IsKerberosEnabled cfg then
    export_realm :: match prefix with Some p => ticket p | None => [] end
  else [].

(** A whole script: the templates differ in the number of empty lines. *)
Definition script_of (cfg : ClusterConfigSpec) (name : string) (prefix : option string)
    (blanks : nat) (main : command) : command :=
  block ((map Cmd (setup_argv name) ++ [Blank] ++ kerberos_part cfg prefix ++ repeat Blank blanks)
         ++ [main]).

End kerberos.

(** ** Their text *)

Lemma plain_text_cons c t : Ascii.eqb c "{" = false → plain_text t → plain_text (String c t).
Proof. unfold plain_text. intros Hc Ht. cbn [pieces]. rewrite Hc, Ht. by destruct t. Qed.

Lemma plain_lines l : Forall plain_text l → plain_text (lines l).
Proof.
  intros Hl. induction Hl as [|x l Hx Hl IH]; [done|]. destruct l as [|y l].
  { done. }
  change (lines (x :: y :: l)) with (x +:+ String nl (lines (y :: l))).
  by apply plain_text_app, plain_text_cons.
Qed.

Lemma no_byte_Join c l : no_byte c " " = true → Forall (λ x, no_byte c x = true) l → no_byte c (Join l " ") = true.
Proof.
  intros Hc Hl. unfold no_byte in *. induction Hl as [|x l Hx Hl IH]; [done|]. destruct l as [|y l]; [done|].
  change (Join (x :: y :: l) " ") with (x +:+ " " +:+ Join (y :: l) " ").
  rewrite !str_forall_app, Hx, Hc, IH. done.
Qed.

(** The text of a program after commands of one line each. *)
Definition one_line (c : command) : option string :=
  match print "" c with [s] => Some s | _ => None end.

Fixpoint with_lines (l : list command) (t : string) : option string :=
  match l with
  | [] => Some t
  | c :: l' => s ← one_line c; r ← with_lines l' t; Some (s +:+ String nl r)
  end.

Lemma block_text l main t :
  with_lines l (program_text main) = Some t → program_text (block (l ++ [main])) = t.
Proof.
  revert t. induction l as [|c l IH]; intros t H; simpl in H; [by simplify_eq|].
  unfold one_line in H. destruct (print "" c) as [|s [|]] eqn:Hc; try done. simpl in H.
  destruct (with_lines l (program_text main)) as [r|]; [|done]. injection H as <-.
  rewrite <- (IH r eq_refl). cbn [app block].
  destruct (l ++ [main]) as [|d l'] eqn:Hl; [by destruct l|]. rewrite <- Hl. clear -Hc.
  unfold program_text. cbn [print]. rewrite Hc. set (rest := print "" (block (l ++ [main])) ++ [""]).
  assert (rest ≠ []) as Hne by (unfold rest; by destruct (print "" (block (l ++ [main])))).
  change (([s] ++ print "" (block (l ++ [main]))) ++ [""]) with (s :: rest).
  by destruct rest.
Qed.

Section texts.
Context {P : Platform}.

(** The data of the templates. *)
Lemma env_data_lookups cfg :
  CreateExportKrbRealmEnvData cfg !! "kerberosEnabled" = Some (TBool (IsKerberosEnabled cfg)) ∧
  CreateExportKrbRealmEnvData cfg !! "kerberosEnv" = Some (TString (ExportKrbRealmFromConfig krb5_conf)).
Proof. done. Qed.

Lemma kerberos_data_lookups cfg principal :
  kerberos_data cfg principal !! "kerberosEnabled" = Some (TBool (IsKerberosEnabled cfg)) ∧
  kerberos_data cfg principal !! "kerberosEnv" = Some (TString (ExportKrbRealmFromConfig krb5_conf)) ∧
  kerberos_data cfg principal !! "kinitScript" = Some (TString (GetKerberosTicket principal)).
Proof. done. Qed.

Lemma principal_of instance role service :
  GetKerberosServiceName role = Ret service →
  CreateKerberosPrincipal (hc_Name instance) (hc_Namespace instance) role
  = Ret (principal_prefix instance service +:+ "${KERBEROS_REALM}").
Proof.
  intros Hs. unfold CreateKerberosPrincipal, principal_prefix. rewrite Hs. cbn [mbind outcome_bind].
  by rewrite !append_assoc.
Qed.

(** A preamble that executes, before a program. *)
Lemma render_script tmpl preamble data main l r :
  template_spec P → tmpl = preamble +:+ program_text main →
  plain_text (program_text main) → no_open (program_text main) = true →
  no_right_trim preamble = true → Template_Execute preamble data = Ret r →
  with_lines l (program_text main) = Some (r +:+ program_text main) →
  ParseTemplate tmpl data = Ret [program_text (block (l ++ [main]))].
Proof.
  intros HT -> Hplain Hopen Htrim Hr Hl. unfold ParseTemplate. rewrite HT.
  rewrite (execute_app _ _ _ r) by done. by rewrite (block_text _ _ _ Hl).
Qed.

(** What a preamble executes to, and the commands it is the text of. *)
Ltac preamble_text preamble :=
  unfold Template_Execute;
  let ks := eval vm_compute in (lex preamble) in
    assert (lex preamble = ks) as -> by (vm_compute; reflexivity);
  cbn [mbind outcome_bind execute forallb id truth show andb].

Ltac preamble_lines :=
  unfold ExportKrbRealmFromConfig, quoted, export_realm, grep_argv, ticket, keytab, krb5_conf;
  generalize (path_Join [KubedoopKerberosDir; "keytab"]), (path_Join [KubedoopKerberosDir; "krb5.conf"]);
  intros k c; rewrite ?append_assoc; cbn; unfold quoted; rewrite ?append_assoc; cbn;
  rewrite ?append_nil_r, ?append_assoc; reflexivity.

Lemma ticket_preamble_text cfg prefix t :
  let data := kerberos_data cfg (prefix +:+ "${KERBEROS_REALM}") in
  (∃ r, Template_Execute format_preamble data = Ret r ∧
     with_lines (map Cmd (setup_argv "format-namenodes") ++ [Blank]
                 ++ kerberos_part cfg (Some prefix) ++ repeat Blank 3) t = Some (r +:+ t)) ∧
  (∃ r, Template_Execute wait_preamble data = Ret r ∧
     with_lines (map Cmd (setup_argv "wait-for-namenodes") ++ [Blank]
                 ++ kerberos_part cfg (Some prefix) ++ repeat Blank 2) t = Some (r +:+ t)).
Proof.
  intros data. destruct (kerberos_data_lookups cfg (prefix +:+ "${KERBEROS_REALM}")) as (H1 & H2 & H3).
  fold data in H1, H2, H3. unfold kerberos_part. split.
  - preamble_text format_preamble. rewrite H1, H2, H3. clear.
    destruct (IsKerberosEnabled cfg); (eexists; split; [cbn; reflexivity|]); preamble_lines.
  - preamble_text wait_preamble. rewrite H1, H2, H3. clear.
    destruct (IsKerberosEnabled cfg); (eexists; split; [cbn; reflexivity|]); preamble_lines.
Qed.

Definition zkfc_preamble : string :=
  script
    [ "mkdir -p /kubedoop/config/zkfc";
      "cp /kubedoop/mount/config/zkfc/*.xml /kubedoop/config/zkfc";
      "cp /kubedoop/mount/config/zkfc/zkfc.log4j.properties /kubedoop/config/zkfc/log4j.properties";
      ""; "{{ if .kerberosEnabled }}"; "{{- .kerberosEnv }}"; "{{- end }}"; ""; "" ].

Lemma plain_preamble_text cfg t :
  let data := CreateExportKrbRealmEnvData cfg in
  (∃ r, Template_Execute zookeeper_preamble data = Ret r ∧
     with_lines (map Cmd (setup_argv "format-zookeeper") ++ [Blank]
                 ++ kerberos_part cfg None ++ repeat Blank 2) t = Some (r +:+ t)) ∧
  (∃ r, Template_Execute zkfc_preamble data = Ret r ∧
     with_lines (map Cmd (setup_argv "zkfc") ++ [Blank]
                 ++ kerberos_part cfg None ++ repeat Blank 2) t = Some (r +:+ t)).
Proof.
  intros data. destruct (env_data_lookups cfg) as (H1 & H2).
  fold data in H1, H2. unfold kerberos_part. split.
  - preamble_text zookeeper_preamble. rewrite H1, H2. clear.
    destruct (IsKerberosEnabled cfg); (eexists; split; [cbn; reflexivity|]); preamble_lines.
  - preamble_text zkfc_preamble. rewrite H1, H2. clear.
    destruct (IsKerberosEnabled cfg); (eexists; split; [cbn; reflexivity|]); preamble_lines.
Qed.

Lemma plain_for_line head ids tail :
  plain_text head → plain_text tail → no_open tail = true → Forall (λ x, no_byte "{" x = true) ids →
  plain_text (head +:+ Join ids " " +:+ tail).
Proof.
  intros Hh Ht Hto Hids. apply (no_byte_Join "{") in Hids; [|done].
  apply plain_text_no_brace in Hids as [Hp Ho]. apply plain_text_app; [|done|by apply plain_text_app].
  unfold no_open in *. destruct (Join ids " "); [done|]. by rewrite append_cons, HasPrefix_head in *.
Qed.

(** The lines of a program: closed ones are evaluated. *)
Ltac plain_program ids :=
  repeat first [apply Forall_nil_2 | apply Forall_app_2 | apply Forall_cons_2];
  try (vm_compute; reflexivity).

Lemma format_program_plain ids :
  Forall (λ x, no_byte "{" x = true) ids → plain_text (program_text (format_program ids)).
Proof.
  intros Hids. apply plain_lines. unfold format_program. cbn [block print print_head].
  plain_program ids. change ("" +:+ ?x) with x. rewrite <- (append_nil_r (Join ids " ")).
  by apply (plain_for_line "for namenode_id in ").
Qed.

Lemma wait_program_plain ids :
  Forall (λ x, no_byte "{" x = true) ids → plain_text (program_text (wait_program ids)).
Proof.
  intros Hids. apply plain_lines. unfold wait_program, wait_round. cbn [block print print_head].
  plain_program ids. rewrite append_assoc. rewrite <- !append_assoc, append_assoc.
  by apply (plain_for_line "    for namenode_id in ").
Qed.

End texts.

(** ** Their execution *)

Section execution.
Context {P : Platform} {Wd : World}.

(** Commands one after the other, until one fails. *)
Fixpoint do_all (l : list (list string)) (w : world) : Z * world :=
  match l with
  | [] => (0%Z, w)
  | argv :: l' =>
      let '(_, code, w') := exec (concat (map (expand w) argv)) w in
      if decide (code = 0)%Z then do_all l' w' else (code, w')
  end.

(** The realm of the Kerberos configuration, and getting a ticket with it. *)
Definition realm_of (w : world) : string * world :=
  let '(out, _, w') := exec (map snd grep_argv) w in (strip_newlines out, w').

(** The preparation of a container: whether it succeeded (code 0), the variables
    and the world it leaves. A failing [grep] is not noticed: [export] succeeds. *)
Definition prepared (cfg : ClusterConfigSpec) (name : string) (prefix : option string)
    (env : gmap string string) (w : world) : Z * gmap string string * world :=
  let '(code, w1) := do_all (setup_argv name) w in
  if decide (code = 0)%Z then
    if IsKerberosEnabled cfg then
      let '(realm, w2) := realm_of w1 in
      let env := <["KERBEROS_REALM" := realm]> env in
      match prefix with
      | Some p =>
          let '(_, code, w3) := exec ["kinit"; p +:+ realm; "-kt"; keytab] w2 in (code, env, w3)
      | None => (0%Z, env, w2)
      end
    else (0%Z, env, w1)
  else (code, env, w1).

Definition started (env : gmap string string) (w : world) : shell :=
  {| vars := env; errexit := true; last_status := 0; sh_world := w |}.

Definition ended (r : outcome (control * shell)) : outcome (Z * world) :=
  r ← r; match r with (Stopped k, s) => Ret (k, sh_world s) | (_, s) => Ret (last_status s, sh_world s) end.

Lemma run_script_ended fuel c env w : run_script fuel c env w = ended (run fuel c (started env w)).
Proof. done. Qed.

Lemma run_block_cons fuel c l s :
  l ≠ [] →
  run fuel (block (c :: l)) s
  = r ← run fuel c s; match r with (Go, s') => run fuel (block l) s' | _ => Ret r end.
Proof. by destruct l. Qed.

Lemma run_setup fuel argvs l env w :
  Forall (λ argv, match argv with c :: _ => c ∈ ["mkdir"; "cp"] | [] => False end) argvs → l ≠ [] →
  ended (run fuel (block (map Cmd argvs ++ l)) (started env w))
  = let '(code, w') := do_all argvs w in
    if decide (code = 0)%Z then ended (run fuel (block l) (started env w')) else Ret (code, w').
Proof.
  intros Hargv Hl. revert w. induction Hargv as [|argv argvs Hc Hargv IH]; intros w.
  { done. }
  cbn [map app do_all]. rewrite run_block_cons by (by destruct argvs).
  cbn [run]. assert (run_argv (concat (map (expand w) argv)) w = exec (concat (map (expand w) argv)) w) as Hrun.
  { destruct argv as [|c argv]; [done|]. rewrite !elem_of_cons, elem_of_nil in Hc.
    destruct Hc as [->|[->|[]]]; cbn [map concat];
      [change (expand w "mkdir") with ["mkdir"] | change (expand w "cp") with ["cp"]]; reflexivity. }
  cbn [sh_world started]. rewrite Hrun.
  destruct (exec _ w) as [[out code] w']. unfold finish. cbn [errexit started andb].
  case_decide as Hd.
  - subst. rewrite bool_decide_true by done. cbn [negb mbind outcome_bind]. exact (IH w').
  - rewrite bool_decide_false by done. by rewrite decide_False.
Qed.

Lemma run_blanks fuel n l s : l ≠ [] → run fuel (block (repeat Blank n ++ l)) s = run fuel (block l) s.
Proof.
  intros Hl. induction n as [|n IH]; [done|]. cbn [repeat app]. rewrite run_block_cons; [exact IH|].
  by destruct n, l.
Qed.

Lemma eval_words_mixed s a l vs ws :
  mmap (eval_atom s) l = Ret vs →
  eval_words s (lit a :: str l :: map lit ws)
  = Ret (a :: foldr String.append "" vs :: ws, sh_world s).
Proof.
  intros Hl. change (a :: ?x :: ws) with ([a] ++ [x] ++ ws). apply eval_words_cons.
  - pose proof (eval_words_lit s [a]) as H. cbn [map eval_words] in H.
    destruct (eval_word s (lit a)) as [[fs w]| | |]; try done. cbn in H. injection H as H <-.
    by rewrite app_nil_r in H; subst.
  - apply eval_words_cons; [|apply eval_words_lit]. unfold eval_word. cbn [parts str quoted_word].
    by rewrite (eval_parts_atoms s l vs Hl).
Qed.

Lemma run_kerberos fuel cfg prefix l env w :
  l ≠ [] →
  ended (run fuel (block (kerberos_part cfg prefix ++ l)) (started env w))
  = if IsKerberosEnabled cfg then
      let '(realm, w2) := realm_of w in
      let env := <["KERBEROS_REALM" := realm]> env in
      match prefix with
      | Some p =>
          let '(_, code, w3) := exec ["kinit"; p +:+ realm; "-kt"; keytab] w2 in
          if decide (code = 0)%Z then ended (run fuel (block l) (started env w3)) else Ret (code, w3)
      | None => ended (run fuel (block l) (started env w2))
      end
    else ended (run fuel (block l) (started env w)).
Proof.
  intros Hl. unfold kerberos_part. destruct (IsKerberosEnabled cfg); [|done].
  cbn [app]. rewrite run_block_cons by (by destruct prefix, l).
  unfold export_realm. cbn [run sh_world started].
  change (run_argv (map snd grep_argv) w) with (exec (map snd grep_argv) w). unfold realm_of.
  destruct (exec (map snd grep_argv) w) as [[out code] w2]. rewrite finish_ok. cbn [mbind outcome_bind].
  set (realm := strip_newlines out).
  change (with_status 0 w2 (set_var "KERBEROS_REALM" realm (started env w)))
    with (started (<["KERBEROS_REALM" := realm]> env) w2).
  destruct prefix as [p|]; [|done]. unfold ticket. cbn [app].
  set (env' := <["KERBEROS_REALM" := realm]> env).
  assert (∀ x, mmap (eval_atom (started env' w2)) [Lit x; Brace "KERBEROS_REALM"] = Ret [x; realm]) as Hatoms.
  { intros x. cbn. unfold lookup_var. cbn [vars started]. unfold env'. by rewrite lookup_insert_eq. }
  rewrite run_block_cons by done. cbn [run mbind outcome_bind].
  rewrite run_block_cons by done. cbn [run].
  pose proof (eval_words_mixed (started env' w2) "echo" _ _ ["from"; keytab]
    (Hatoms ("Getting ticket for " +:+ p))) as He. cbn [map] in He. rewrite He. clear He.
  cbn [mbind outcome_bind].
  destruct (run_argv_echo [("Getting ticket for " +:+ p) +:+ realm +:+ ""; "from"; keytab] w2) as [H1 H2].
  cbn [foldr sh_world started]. destruct (run_argv _ w2) as [[o1 c1] w1]. cbn in H1, H2. subst.
  rewrite finish_ok. cbn [mbind outcome_bind].
  change (with_status 0 w2 (started env' w2)) with (started env' w2).
  rewrite run_block_cons by done. cbn [run].
  pose proof (eval_words_mixed (started env' w2) "kinit" _ _ ["-kt"; keytab] (Hatoms p)) as He.
  cbn [map] in He. rewrite He. clear He. cbn [mbind outcome_bind].
  cbn [foldr sh_world started]. rewrite append_nil_r.
  change (run_argv ["kinit"; p +:+ realm; "-kt"; keytab] w2)
    with (exec ["kinit"; p +:+ realm; "-kt"; keytab] w2).
  destruct (exec ["kinit"; p +:+ realm; "-kt"; keytab] w2) as [[o2 c2] w3].
  unfold finish. cbn [errexit started andb]. case_decide as Hd.
  - subst. rewrite bool_decide_true by done. done.
  - rewrite bool_decide_false by done. done.
Qed.

(** A whole script prepares the container and then runs its program. *)
Lemma run_script_of fuel cfg name prefix blanks main env w :
  run_script fuel (script_of cfg name prefix blanks main) env w
  = let '(code, env', w') := prepared cfg name prefix env w in
    if decide (code = 0)%Z then run_script fuel main env' w' else Ret (code, w').
Proof.
  rewrite run_script_ended. unfold script_of. rewrite <- !app_assoc. rewrite run_setup; [|repeat constructor|done].
  unfold prepared. destruct (do_all (setup_argv name) w) as [code w1].
  case_decide as Hd; [|by rewrite decide_False].
  assert (∀ l : list command, l ++ repeat Blank blanks ++ [main] ≠ []) as Hne
    by (intros [|]; by destruct blanks).
  change ([Blank] ++ ?l) with (Blank :: l). rewrite run_block_cons by apply Hne. cbn [run mbind outcome_bind].
  rewrite run_kerberos by apply (Hne []). destruct (IsKerberosEnabled cfg).
  - destruct (realm_of w1) as [realm w2]. destruct prefix as [p|].
    + destruct (exec ["kinit"; p +:+ realm; "-kt"; keytab] w2) as [[o c] w3].
      case_decide; [|done]. cbv zeta. by rewrite run_blanks.
    + cbv zeta. by rewrite run_blanks, decide_True.
  - by rewrite run_blanks, decide_True.
Qed.

End execution.

(** ** Claims *)

(** A name that can stand in a script: no blanks, patterns or braces. *)
Definition shell_name (s : string) : Prop := plain_word s ∧ no_byte "{" s = true.

#[export] Instance shell_name_dec s : Decision (shell_name s).
Proof. unfold shell_name. apply _. Defined.

Lemma Itoa_no_brace i : (0 ≤ i)%Z → no_byte "{" (Itoa i) = true.
Proof.
  intros Hi. pose proof (Itoa_digits i Hi) as Hd. unfold no_byte.
  induction (Itoa i) as [|c s IH]; [done|]. cbn [str_forall] in *.
  apply andb_true_iff in Hd as [Hc Hs]. rewrite IH by done. rewrite andb_true_r.
  destruct (Ascii.eqb_spec c "{") as [->|]; [discriminate Hc|done].
Qed.

Lemma shell_name_pods ss n : shell_name ss → Forall shell_name (map (pod_name ss) (indices n)).
Proof.
  intros [Hw Hb]. apply Forall_fmap, Forall_forall. intros i Hi%elem_of_indices. split.
  - apply plain_word_pod; [done|lia].
  - unfold pod_name, no_byte in *. rewrite !str_forall_app, Hb. cbn [andb].
    apply andb_true_iff. split; [done|]. apply Itoa_no_brace. lia.
Qed.

Lemma shell_names_plain ids :
  Forall shell_name ids → Forall plain_word ids ∧ Forall (λ x, no_byte "{" x = true) ids.
Proof. intros H. split; eapply Forall_impl; try exact H; by intros x []. Qed.

Lemma prepared_env {P : Platform} {Wd : World} cfg name prefix env w x :
  x ≠ "KERBEROS_REALM" → (prepared cfg name prefix env w).1.2 !! x = env !! x.
Proof.
  intros Hx. unfold prepared. destruct (do_all _ w) as [code w1]. case_decide; [|done].
  destruct (IsKerberosEnabled cfg); [|done]. destruct (realm_of w1) as [realm w2].
  destruct prefix as [p|]; [destruct (exec _ w2) as [[o c] w3]|]; simpl; by rewrite lookup_insert_ne.
Qed.

Section format_script.
Context {P : Platform} {Wd : World}.

Definition format_script (instance : HdfsCluster) (cfg : ClusterConfigSpec) (ids : list string)
    : command :=
  script_of cfg "format-namenodes" (Some (principal_prefix instance "nn")) 3 (format_program ids).

Lemma format_args instance cfg n ss :
  template_spec P → shell_name ss → (0 ≤ n)%Z →
  formatNameNode_GetArgs instance cfg n ss
  = Ret [program_text (format_script instance cfg (map (pod_name ss) (indices n)))].
Proof.
  intros HT Hss Hn. set (ids := map (pod_name ss) (indices n)).
  destruct (shell_names_plain ids (shell_name_pods ss n Hss)) as [_ Hbrace].
  unfold formatNameNode_GetArgs, CreatePodNamesByReplicas. rewrite make_slice_ret by done.
  cbn [mbind outcome_bind]. change (pod_name ss <$> indices n) with ids.
  rewrite (principal_of instance NameNodeRole "nn") by done. cbn [mbind outcome_bind].
  destruct (ticket_preamble_text cfg (principal_prefix instance "nn") (program_text (format_program ids)))
    as [(r & Hr & Hl) _].
  by eapply (render_script _ format_preamble); [done|apply format_text|apply format_program_plain|..].
Qed.

Lemma run_format_script instance cfg ids fuel env w :
  haadmin_reads → Forall plain_word ids →
  env !! "ACTIVE_NAMENODE" = None → is_Some (env !! "POD_NAME") →
  run_script fuel (format_script instance cfg ids) env w
  = let '(code, _, w1) :=
      prepared cfg "format-namenodes" (Some (principal_prefix instance "nn")) env w in
    if decide (code = 0)%Z then
      let '(_, code, w2) :=
        exec (format_command (format_namenode (state_of w1) ids (file_exists version_file w1))) w1 in
      Ret (code, w2)
    else Ret (code, w1).
Proof.
  intros Hreads Hplain Hnone Hpod. unfold format_script. rewrite run_script_of.
  pose proof (prepared_env cfg "format-namenodes" (Some (principal_prefix instance "nn")) env w) as Henv.
  destruct (prepared _ _ _ _ _) as [[code env'] w1]. cbn [fst snd] in Henv. case_decide; [|done].
  apply run_format_program; [done|done|by rewrite Henv|by rewrite Henv].
Qed.

(** The commands of the script that have no business with the data directory:
    [cat], [grep] and [kinit], and [mkdir] and [cp] of other paths. *)
Definition spares_data (argv : list string) : bool :=
  match argv with
  | [] => false
  | c :: args =>
      bool_decide (c ∈ ["cat"; "grep"; "kinit"]) ||
      bool_decide (c ∈ ["mkdir"; "cp"]) && forallb (λ a, negb (HasPrefix a "/kubedoop/data")) args
  end.

(** The data directory of a name node, as far as the script can tell: [data] is
    its content in a world, [version] whether that has the file [VERSION]. The
    two formatting commands leave the file when they succeed. *)
Record data_dir_spec {D : Type} (data : world → D) (version : D → bool) : Prop := {
  dd_version w : file_exists version_file w = version (data w);
  dd_spared argv w : spares_data argv = true → data (exec argv w).2 = data w;
  dd_formats a w : a ≠ Skip → (exec (format_command a) w).1.2 = 0%Z →
    version (data (exec (format_command a) w).2) = true;
  dd_glob dir f w : f ∈ glob (dir +:+ "/*.xml") w → HasPrefix f (dir +:+ "/") = true;
}.

Lemma do_all_spares {D : Type} (data : world → D) l w :
  (∀ argv w, argv ∈ l → data (exec (concat (map (expand w) argv)) w).2 = data w) →
  data (do_all l w).2 = data w.
Proof.
  revert w. induction l as [|argv l IH]; intros w Hl; [done|]. cbn [do_all].
  pose proof (Hl argv w (list_elem_of_here _ _)) as Hx.
  destruct (exec _ w) as [[out code] w']. simpl in Hx. case_decide; [|done].
  rewrite IH; [done|]. intros argv' w'' Hin. apply Hl. by right.
Qed.

Lemma prepared_spares {D : Type} (data : world → D) version cfg prefix env w :
  data_dir_spec data version →
  data (prepared cfg "format-namenodes" prefix env w).2 = data w.
Proof.
  intros HD. unfold prepared.
  pose proof (do_all_spares data (setup_argv "format-namenodes") w) as Hall.
  destruct (do_all _ w) as [code w1]. simpl in Hall. rewrite <- Hall; clear Hall.
  - case_decide; [|done]. destruct (IsKerberosEnabled cfg); [|done].
    pose proof (dd_spared _ _ HD (map snd grep_argv) w1 eq_refl) as Hg. unfold realm_of.
    destruct (exec (map snd grep_argv) w1) as [[out c] w2]. simpl in Hg. rewrite <- Hg.
    destruct prefix as [p|]; [|done].
    pose proof (dd_spared _ _ HD ["kinit"; p +:+ strip_newlines out; "-kt"; keytab] w2 eq_refl) as Hk.
    by destruct (exec _ w2) as [[o k] w3].
  - intros argv w' Hin. apply (dd_spared _ _ HD). unfold setup_argv in Hin.
    rewrite !elem_of_cons, elem_of_nil in Hin. destruct Hin as [->|[->|[->|[]]]]; [reflexivity| |reflexivity].
    cbn [map concat]. change (expand w' "cp") with ["cp"].
    change (expand w' (config_dir "format-namenodes")) with [config_dir "format-namenodes"].
    unfold spares_data. cbn [app]. rewrite bool_decide_eq_false_2 by set_solver.
    rewrite bool_decide_eq_true_2 by set_solver. cbn [orb andb].
    rewrite forallb_app. apply andb_true_intro. split; [|reflexivity].
    apply forallb_forall. intros f Hf%list_elem_of_In.
    unfold expand in Hf. change (is_pattern _) with true in Hf. cbv iota in Hf.
    destruct (glob _ w') as [|g l] eqn:Hglob; [by apply list_elem_of_singleton in Hf as ->|].
    rewrite <- Hglob in Hf. apply (dd_glob _ _ HD (mount_dir "format-namenodes")) in Hf.
    apply HasPrefix_inv in Hf as [t ->]. reflexivity.
Qed.

End format_script.

(** C17. The argument of the format-namenodes container, as text/template makes
    it with and without Kerberos, is the text of a program that, run by bash in
    any container, copies the configuration, gets a ticket as the name node's
    principal when Kerberos is enabled, stops with the exit code of the first of
    these commands that fails, and otherwise asks the pods of the group in turn
    and runs exactly one more command, whose exit code it ends with: [cat] of
    the version file when the disk was formatted before, [-bootstrapStandby]
    when one of the pods answered [active] and [-format] when none did. *)
Theorem format_script_runs {P : Platform} {Wd : World} instance cfg n ss :
  template_spec P → haadmin_reads → shell_name ss → (0 ≤ n)%Z →
  let ids := map (pod_name ss) (indices n) in
  let prefix := Some (principal_prefix instance "nn") in
  let script := script_of cfg "format-namenodes" prefix 3 (format_program ids) in
  formatNameNode_GetArgs instance cfg n ss = Ret [program_text script] ∧
  ∀ fuel env w, env !! "ACTIVE_NAMENODE" = None → is_Some (env !! "POD_NAME") →
    run_script fuel script env w
    = let '(code, _, w1) := prepared cfg "format-namenodes" prefix env w in
      if decide (code = 0)%Z then
        let '(_, code, w2) :=
          exec (format_command (format_namenode (state_of w1) ids (file_exists version_file w1))) w1 in
        Ret (code, w2)
      else Ret (code, w1).
Proof.
  intros HT Hreads Hss Hn ids prefix script.
  destruct (shell_names_plain ids (shell_name_pods ss n Hss)) as [Hplain _].
  split; [by apply format_args|]. intros fuel env w. by apply run_format_script.
Qed.

(** C10. The format-namenodes container can be started again and again: for the
    program that the operator gives it, in every container in which the two
    formatting commands leave the version file when they succeed and the other
    commands keep out of the data directory, a run that finds the version file
    leaves the data directory exactly as it is, and a run that ends with 0
    leaves the version file, so that every later run does; a run that changes
    the directory has run one of the formatting commands on it, once, and
    [-format] only when no pod of the group answered that it is active. *)
Theorem format_container_restarts {P : Platform} {Wd : World} {D : Type} (data : world → D)
    (version : D → bool) instance cfg n ss :
  template_spec P → haadmin_reads → data_dir_spec data version → shell_name ss → (0 ≤ n)%Z →
  let ids := map (pod_name ss) (indices n) in
  ∃ script, formatNameNode_GetArgs instance cfg n ss = Ret [program_text script] ∧
  ∀ fuel env w, env !! "ACTIVE_NAMENODE" = None → is_Some (env !! "POD_NAME") →
    ∃ code w', run_script fuel script env w = Ret (code, w') ∧
      (version (data w) = true → data w' = data w) ∧
      (code = 0%Z → version (data w') = true) ∧
      (data w' ≠ data w → ∃ w1 a, data w1 = data w ∧ w' = (exec (format_command a) w1).2 ∧
         (a = Format ∧ (∀ id, id ∈ ids → state_of w1 id ≠ "active")
          ∨ ∃ id, a = BootstrapStandby id ∧ id ∈ ids ∧ state_of w1 id = "active")).
Proof.
  intros HT Hreads HD Hss Hn ids. exists (format_script instance cfg ids).
  destruct (shell_names_plain ids (shell_name_pods ss n Hss)) as [Hplain _].
  split; [by apply format_args|]. intros fuel env w Hnone Hpod.
  rewrite run_format_script by done.
  pose proof (prepared_spares data version cfg (Some (principal_prefix instance "nn")) env w HD) as Hprep.
  destruct (prepared _ _ _ _ _) as [[code env'] w1]. simpl in Hprep.
  case_decide as Hcode; [|exists code, w1; split_and!; [done|done|done|by intros []]].
  pose proof (format_decision (state_of w1) ids (file_exists version_file w1)) as (Hf & Hb & Hs).
  rewrite (dd_version _ _ HD), Hprep in Hf, Hb, Hs |- *.
  set (a := format_namenode _ _ _) in *.
  pose proof (dd_formats _ _ HD a w1) as Hok.
  pose proof (dd_spared _ _ HD (format_command Skip) w1 eq_refl) as Hskip.
  destruct (exec (format_command a) w1) as [[out k] w2] eqn:Hx. exists k, w2. split; [done|].
  simpl in Hok. destruct (version (data w)) eqn:Hv.
  - assert (a = Skip) as -> by naive_solver. rewrite Hx in Hskip. simpl in Hskip. rewrite Hskip, Hprep.
    split_and!; [done|done|by intros []].
  - assert (a ≠ Skip) as Hne by naive_solver. split_and!; [done|by apply Hok|].
    intros _. exists w1, a. split_and!; [done|by rewrite Hx|].
    destruct a as [|id|] eqn:Ha; [left|right|done]; naive_solver.
Qed.

(** C19. The argument of the format-zookeeper container, as text/template makes
    it, is the text of a program that copies the configuration, stopping with
    the exit code of a command that fails; of the pods [ss-0], [ss-1], ... of a
    stateful set only the one with ordinal 0 then runs [zkfc -formatZK] and
    ends with its exit code, with 0 for 2 (the znode was there). The others end
    with 0 and run no other command. *)
Theorem zookeeper_script_runs {P : Platform} {Wd : World} cfg ss i :
  template_spec P → plain_word ss → (0 ≤ i)%Z →
  let script := script_of cfg "format-zookeeper" None 2 zookeeper_program in
  GetArgs (formatZookeeperComponent cfg) = Ret [program_text script] ∧
  ∀ fuel env w, env !! "POD_NAME" = Some (pod_name ss i) →
    run_script fuel script env w
    = let '(code, _, w1) := prepared cfg "format-zookeeper" None env w in
      Ret (if decide (code = 0)%Z then
             if decide (i = 0)%Z then
               let '(_, exitcode, w2) := exec format_zk_command w1 in
               (if decide (exitcode = 2)%Z then 0%Z else exitcode, w2)
             else (0%Z, w1)
           else (code, w1)).
Proof.
  intros HT Hss Hi script. split.
  - destruct (plain_preamble_text cfg (program_text zookeeper_program)) as [(r & Hr & Hl) _].
    by eapply (render_script _ zookeeper_preamble); [done|apply zookeeper_text|vm_compute; reflexivity|..].
  - intros fuel env w Hpod. unfold script. rewrite run_script_of.
    pose proof (prepared_env cfg "format-zookeeper" None env w) as Henv.
    destruct (prepared _ _ _ _ _) as [[code env'] w1]. cbn [fst snd] in Henv. case_decide; [|done].
    apply (zookeeper_program_runs ss); [done|done|by rewrite Henv].
Qed.

(** The names of the name node groups are words of the shell. *)
Definition name_nodes_named {P : Platform} (ci : ClusterInfo) (nn : RoleSpec) : Prop :=
  ∀ g s, RoleGroups nn !! g = Some s → shell_name (GetFullName
    {| rg_RoleInfo := {| ri_ClusterInfo := ci; RoleName := NameNodeRole |}; RoleGroupName := g |}).

Lemma name_node_pods_named {P : Platform} {MR : MapRange} ci nn :
  name_nodes_named ci nn → Forall shell_name (name_node_pods ci nn).
Proof.
  intros Hnames. apply Forall_forall. intros x ([g s] & Hg%elem_of_range & Hx)%elem_of_concat_map.
  pose proof (shell_name_pods _ (default 0%Z (Replicas s)) (Hnames g s Hg)) as Hall.
  rewrite Forall_forall in Hall. by apply Hall.
Qed.

Definition wait_script {P : Platform} (instance : HdfsCluster) (cfg : ClusterConfigSpec)
    (ids : list string) : command :=
  script_of cfg "wait-for-namenodes" (Some (principal_prefix instance "dn")) 2 (wait_program ids).

(** The argument, of which only the end depends on the order of the groups. *)
Lemma wait_args {P : Platform} instance cfg nn :
  template_spec P → NameNode (Spec instance) = Some nn → replicas_ok nn →
  ∃ r, ∀ (MR : MapRange) info, name_nodes_named (rg_ClusterInfo info) nn →
    let ids := name_node_pods (rg_ClusterInfo info) nn in
    waitForNameNodes_GetArgs instance cfg info = Ret [program_text (wait_script instance cfg ids)] ∧
    program_text (wait_script instance cfg ids) = r +:+ program_text (wait_program ids).
Proof.
  intros HT Hnn Hrep.
  destruct (ticket_preamble_text cfg (principal_prefix instance "dn") "") as [_ (r & Hr & _)].
  exists r. intros MR info Hnames ids.
  destruct (shell_names_plain ids (name_node_pods_named _ _ Hnames)) as [Hplain Hbrace].
  destruct (ticket_preamble_text cfg (principal_prefix instance "dn") (program_text (wait_program ids)))
    as [_ (r' & Hr' & Hl)]. rewrite Hr in Hr'. injection Hr' as <-. split; [|exact (block_text _ _ _ Hl)].
  unfold waitForNameNodes_GetArgs. rewrite (wait_lists_all_name_nodes _ _ nn) by done.
  rewrite (principal_of instance DataNodeRole "dn") by done. cbn [mbind outcome_bind].
  by eapply (render_script _ wait_preamble); [done|apply wait_text|apply wait_program_plain|..].
Qed.

Lemma wait_text_inj ids1 ids2 :
  program_text (wait_program ids1) = program_text (wait_program ids2) → Join ids1 " " = Join ids2 " ".
Proof.
  intros H. apply (f_equal (String.append wait_preamble)) in H. rewrite <- !wait_text in H.
  unfold wait_for_namenodes_template in H. apply append_inj_l in H. by apply append_inj_r in H.
Qed.

(** C18. The argument of the wait-for-namenodes container, as text/template makes
    it, is the text of a program that lists all pods of all groups of name
    nodes. After the preparation, which ends it when a command fails, it ends
    with fuel for 13 turns of its loop and always with exit code 0, so that the
    data node starts also when the name nodes never became ready. It sleeps
    exactly until the first round, of at most 12, that finds every listed name
    node active or standby; apart from the sleeping it changes nothing. *)
Theorem wait_script_runs {P : Platform} {MR : MapRange} {Wd : World} instance cfg info nn :
  template_spec P → haadmin_reads → (∀ w, (exec sleep5 w).1.2 = 0%Z) →
  NameNode (Spec instance) = Some nn → replicas_ok nn → name_nodes_named (rg_ClusterInfo info) nn →
  let ids := name_node_pods (rg_ClusterInfo info) nn in
  let script := wait_script instance cfg ids in
  waitForNameNodes_GetArgs instance cfg info = Ret [program_text script] ∧
  ∀ fuel env w, 12 < fuel →
    let '(code, _, w1) := prepared cfg "wait-for-namenodes" (Some (principal_prefix instance "dn")) env w in
    let ready k := forallb (λ id, ready_state (state_of (Nat.iter k after_sleep w1) id)) ids in
    if decide (code = 0)%Z then
      ∃ n, run_script fuel script env w = Ret (0%Z, Nat.iter n after_sleep w1) ∧
        n ≤ 12 ∧ (∀ k, k < n → ready k = false) ∧ (n < 12 → ready n = true)
    else run_script fuel script env w = Ret (code, w1).
Proof.
  intros HT Hreads Hsleep Hnn Hrep Hnames ids script. split.
  - destruct (wait_args instance cfg nn HT Hnn Hrep) as (r & Hr). by apply (Hr MR info Hnames).
  - intros fuel env w Hfuel. unfold script, wait_script. rewrite run_script_of.
    destruct (prepared _ _ _ _ _) as [[code env'] w1]. case_decide; [|done].
    destruct (shell_names_plain ids (name_node_pods_named _ _ Hnames)). by apply wait_program_runs.
Qed.

(** The container of the failover controller: it prepares, then runs [hdfs zkfc]. *)
Theorem zkfc_script_runs {P : Platform} {Wd : World} cfg :
  template_spec P →
  let script := script_of cfg "zkfc" None 2 (hdfs ["zkfc"]) in
  GetArgs (zkfcComponent cfg) = Ret [program_text script] ∧
  ∀ fuel env w,
    run_script fuel script env w
    = let '(code, _, w1) := prepared cfg "zkfc" None env w in
      Ret (if decide (code = 0)%Z then
             let '(_, code, w2) := exec [hdfs_bin; "zkfc"] w1 in (code, w2)
           else (code, w1)).
Proof.
  intros HT script. split.
  - destruct (plain_preamble_text cfg (program_text (hdfs ["zkfc"]))) as [_ (r & Hr & Hl)].
    by eapply (render_script _ zkfc_preamble);
      [done|vm_compute; reflexivity|vm_compute; reflexivity|..].
  - intros fuel env w. unfold script. rewrite run_script_of.
    destruct (prepared _ _ _ _ _) as [[code env'] w1]. case_decide; [|done].
    rewrite run_script_ended. unfold hdfs. rewrite run_literal. cbn [sh_world started].
    change (run_argv [hdfs_bin; "zkfc"] w1) with (exec [hdfs_bin; "zkfc"] w1).
    destruct (exec [hdfs_bin; "zkfc"] w1) as [[out k] w2]. unfold finish.
    by destruct (bool_decide (k = 0)%Z).
Qed.

(** ** Witnesses *)

(** A container that logs its commands; its Kerberos realm is [TEST], and the
    second name node is active once there was some sleep. *)
Definition logged (argv : list string) (w : list (list string)) : string * Z * list (list string) :=
  if decide (argv = haadmin "nn-1") then
    ((if decide (sleep5 ∈ w) then "active" else "Call failed") +:+ String nl "", 0%Z, w)
  else if decide (nth 1 argv "" = "haadmin") then ("standby" +:+ String nl "", 0%Z, w)
  else (if decide (nth 0 argv "" = "grep") then "TEST" +:+ String nl "" else "", 0%Z, w ++ [argv]).

#[local] Instance log_world : World :=
  {| world := list (list string); exec := logged; file_exists _ _ := false;
     glob p w := if decide (p = "/kubedoop/mount/config/format-namenodes/*.xml") then
                   ["/kubedoop/mount/config/format-namenodes/core-site.xml";
                    "/kubedoop/mount/config/format-namenodes/hdfs-site.xml"] else [];
     exec_status argv w := ltac:(unfold logged; repeat case_decide; simpl; lia) |}.

Lemma log_world_reads : haadmin_reads.
Proof. intros id w. simpl. unfold logged. repeat case_decide; done. Qed.

Definition sample_krb_config : ClusterConfigSpec :=
  sample_cluster_config (Some {| AuthenticationClass := ""; Oidc := None; Tls := None;
                                 Kerberos := Some {| krb_SecretClass := "kerberos" |} |}).

(** With Kerberos: the last of the commands is the formatting. *)
Lemma format_script_runs_witness :
  ∃ setup, run_script 0 (script_of (P := sample_platform) sample_krb_config "format-namenodes"
      (Some (principal_prefix (sample_instance None) "nn")) 3 (format_program ["nn-0"; "nn-1"]))
    {["POD_NAME" := "nn-0"]} []
  = Ret (0%Z, setup ++ [["kinit"; "nn/simple-hdfs.default.svc.cluster.local@TEST"; "-kt";
                         "/kubedoop/kerberos/keytab"]; format_command Format]) ∧
  length setup = 4.
Proof.
  destruct (@format_script_runs sample_platform log_world (sample_instance None) sample_krb_config 2 "nn"
              sample_template log_world_reads ltac:(by vm_compute) ltac:(lia)) as [_ Hrun].
  eexists [_; _; _; _]. split; [|reflexivity]. etrans; [apply (Hrun 0); [done|by eexists]|].
  vm_compute. reflexivity.
Defined.

(** A container in which formatting leaves the version file: its world is
    whether the disk is formatted. *)
Definition disk_exec (argv : list string) (formatted : bool) : string * Z * bool :=
  if decide (take 2 argv = [hdfs_bin; "namenode"]) then ("", 0%Z, true) else ("", 0%Z, formatted).

Definition disk_world : World :=
  {| world := bool; exec := disk_exec; file_exists _ formatted := formatted; glob _ _ := [];
     exec_status argv w := ltac:(unfold disk_exec; case_decide; simpl; lia) |}.

Lemma disk_world_spec : data_dir_spec (Wd := disk_world) (λ w, w) (λ w, w).
Proof.
  split; [done| | |].
  - intros argv w Hs. simpl. unfold disk_exec. case_decide as Hd; [|done]. exfalso.
    destruct argv as [|c [|d argv]]; [done|done|]. injection Hd as -> ->. discriminate Hs.
  - intros [|id|] w Hne _; done.
  - intros dir f w Hf. by destruct (not_elem_of_nil f Hf).
Qed.

Lemma format_container_restarts_witness :
  ∃ script, formatNameNode_GetArgs (P := sample_platform) (sample_instance None) sample_krb_config 2 "nn"
            = Ret [program_text script] ∧
    ∃ code w', run_script (Wd := disk_world) 0 script {["POD_NAME" := "nn-0"]} false = Ret (code, w') ∧
      (code = 0%Z → w' = true).
Proof.
  destruct (@format_container_restarts sample_platform disk_world bool (λ w, w) (λ w, w)
              (sample_instance None) sample_krb_config 2 "nn" sample_template)
    as (script & Hargs & Hrun); [|exact disk_world_spec|by vm_compute|lia|].
  - intros id w. reflexivity.
  - exists script. split; [exact Hargs|].
    destruct (Hrun 0 {["POD_NAME" := "nn-0"]} false) as (code & w' & H1 & _ & H2 & _);
      [reflexivity|by eexists|].
    exists code, w'. split; [exact H1|exact H2].
Defined.

Lemma zookeeper_script_runs_witness :
  ∃ setup, run_script 0 (script_of (P := sample_platform) (sample_cluster_config None) "format-zookeeper"
      None 2 zookeeper_program) {["POD_NAME" := "nn-0"]} [] = Ret (0%Z, setup ++ [format_zk_command]) ∧
    length setup = 3.
Proof.
  destruct (@zookeeper_script_runs sample_platform log_world (sample_cluster_config None) "nn" 0
              sample_template ltac:(by vm_compute) ltac:(lia)) as [_ Hrun].
  eexists [_; _; _]. split; [|reflexivity]. etrans; [apply (Hrun 0); done|]. vm_compute. reflexivity.
Defined.

Definition sample_data_info : RoleGroupInfo :=
  {| rg_RoleInfo := {| ri_ClusterInfo := sample_cluster_info; RoleName := DataNodeRole |};
     RoleGroupName := "default" |}.

Lemma wait_script_runs_witness :
  run_script 13 (wait_script (P := sample_platform) (sample_instance None) (sample_cluster_config None)
      (name_node_pods (MR := sorted_range) sample_cluster_info (sample_role 2))) ∅ []
  = Ret (0%Z, setup_argv "wait-for-namenodes").
Proof.
  destruct (@wait_script_runs sample_platform sorted_range log_world (sample_instance None)
    (sample_cluster_config None) sample_data_info (sample_role 2) sample_template log_world_reads)
    as [_ Hrun]; [done|done| | |].
  - apply map_Forall_singleton. exists 2%Z. split; [reflexivity|lia].
  - intros g s Hg. assert (g = "default") as ->; [|vm_compute; done].
    unfold RoleGroups, sample_role in Hg. by apply lookup_singleton_Some in Hg as [? _].
  - specialize (Hrun 13 ∅ [] ltac:(lia)). revert Hrun.
    match goal with |- context [let '(_, _) := ?p in _] => set (pr := p) end.
    vm_compute in pr. subst pr. cbn beta iota zeta. rewrite decide_True by done.
    intros ([|n] & Hn & _ & Hbefore & _); [exact Hn|].
    specialize (Hbefore 0 ltac:(lia)). vm_compute in Hbefore. discriminate.
Defined.
