(* ===== verification/Objects.v ===== *)
(** * The objects of a cluster, and the order of maps

    A reconciliation builds the objects of all registered resources and writes
    those that differ from what the API server has. This file collects the
    objects and says when they are a function of the cluster alone: Go visits a
    map in a different order each time, and where the order shows in an object,
    every reconciliation writes it anew. *)

From S2P Require Import Prelude GoStd GoXml XmlUtil Api Util Security Components HdfsConf.
From S2P Require Import ConfigMaps Discovery RoleConfig Containers Oidc StatefulSets Services Roles Cluster.
From S2P Require Import GoTemplate Shell Scripts ScriptRuns ContainerScripts.

(** ** Two orders *)

Lemma range_small {V} (MR1 MR2 : MapRange) (m : gmap string V) :
  size m ≤ 1 → range (MapRange := MR1) m = range (MapRange := MR2) m.
Proof.
  intros Hm. assert (range (MapRange := MR1) m ≡ₚ range (MapRange := MR2) m) as Hp
    by by rewrite !range_perm.
  assert (length (range (MapRange := MR1) m) ≤ 1) as Hl.
  { by rewrite (range_perm (MapRange := MR1)), length_map_to_list. }
  destruct (range (MapRange := MR1) m) as [|x [|y l]]; simpl in Hl; [|by apply Permutation_singleton_l in Hp|lia].
  by apply Permutation_nil_l in Hp.
Qed.

(** Finding the one entry that satisfies a predicate. *)
Lemma find_unique {V} (MR1 MR2 : MapRange) (p : string * V → bool) (m : gmap string V) :
  (∀ k1 v1 k2 v2, m !! k1 = Some v1 → m !! k2 = Some v2 → p (k1, v1) = true → p (k2, v2) = true →
     k1 = k2) →
  find p (range (MapRange := MR1) m) = find p (range (MapRange := MR2) m).
Proof.
  intros Huniq. assert (∀ (A B : MapRange) kv, find p (range (MapRange := A) m) = Some kv →
    find p (range (MapRange := B) m) = Some kv) as Hone.
  { intros A B [k v] Hf. apply find_some in Hf as [Hin Hp]. apply list_elem_of_In, elem_of_range in Hin.
    destruct (find p (range (MapRange := B) m)) as [[k' v']|] eqn:Hf.
    - apply find_some in Hf as [Hin' Hp']. apply list_elem_of_In, elem_of_range in Hin'.
      assert (k = k') as -> by eauto. congruence.
    - assert (p (k, v) = false); [|congruence]. apply (find_none _ _ Hf), list_elem_of_In.
      by apply elem_of_range. }
  destruct (find p (range (MapRange := MR1) m)) as [kv|] eqn:H1; [symmetry; by apply (Hone MR1)|].
  destruct (find p (range (MapRange := MR2) m)) as [kv|] eqn:H2; [|done].
  apply (Hone _ MR1) in H2. congruence.
Qed.

Lemma foldl_perm {A B} (f : A → B → A) (t : A) l1 l2 :
  l1 ≡ₚ l2 → (∀ t a b, f (f t a) b = f (f t b) a) → foldl f t l1 = foldl f t l2.
Proof.
  intros Hp Hf. revert t. induction Hp as [|a l1 l2 _ IH|a b l|l1 l2 l3 _ IH1 _ IH2]; intros t; simpl; auto.
  - by rewrite Hf.
  - by rewrite IH1.
Qed.

Lemma wrap32_add_l a b : wrap32 (wrap32 a + b) = wrap32 (a + b).
Proof.
  unfold wrap32. f_equal.
  replace ((a + 2 ^ 31) mod 2 ^ 32 - 2 ^ 31 + b + 2 ^ 31)%Z
    with ((a + 2 ^ 31) mod 2 ^ 32 + b)%Z by lia.
  rewrite Zplus_mod_idemp_l. f_equal. lia.
Qed.

Lemma elem_of_mmap {A B} (f : A → outcome B) l bs b :
  mmap f l = Ret bs → b ∈ bs ↔ ∃ a, a ∈ l ∧ f a = Ret b.
Proof.
  intros H%mmap_ret_inv. split.
  - intros [i Hi]%list_elem_of_lookup_1. destruct (Forall2_lookup_r _ _ _ _ _ H Hi) as (a & Ha & Hb).
    exists a. split; [by eapply list_elem_of_lookup_2|done].
  - intros (a & [i Hi]%list_elem_of_lookup_1 & Hb).
    destruct (Forall2_lookup_l _ _ _ _ _ H Hi) as (b' & Hi' & Hb'). assert (b' = b) as -> by congruence.
    by eapply list_elem_of_lookup_2.
Qed.

(** ** The objects *)

Section objects.
Context {P : Platform} {MR : MapRange} {O : ConfigMapOps} {L : ConfigMapLaws O} {SC : Type}
  {E : StatefulSetEnv SC} {Op : Operator (SC := SC)}.

Inductive Object :=
  | ServiceAccountObj (name : string)
  | ServiceObj (s : ServiceObject)
  | StatefulSetObj (s : StatefulSet (SecurityContext := SC)) (stopped : bool)
  | ConfigMapObj (cm : ConfigMap).

(** Kind and name; the namespace is the one of the cluster. *)
Definition object_key (o : Object) : string * string :=
  match o with
  | ServiceAccountObj name => ("ServiceAccount", name)
  | ServiceObj s => ("Service", so_Name s)
  | StatefulSetObj s _ => ("StatefulSet", sts_Name s)
  | ConfigMapObj cm => ("ConfigMap", cm_Name cm)
  end.

Definition resource_object (ns : string) (r : Resource) : outcome Object :=
  match r with
  | ServiceResource s => Ret (ServiceObj s)
  | StatefulSetResource b stopped => s ← StatefulSet_Build b; Ret (StatefulSetObj s stopped)
  | ConfigMapResource b => cm ← Build ns b; Ret (ConfigMapObj cm)
  end.

Definition cluster_resource_objects (R : Reads) (ns : string) (r : ClusterResource)
    : outcome (list Object) :=
  match r with
  | ServiceAccountResource name => Ret [ServiceAccountObj name]
  | RoleResource _ _ rs => mmap (resource_object ns) rs
  | DiscoveryResource instance => d ← discovery_Build R instance; Ret [ConfigMapObj d.2]
  end.

(** Building the objects of the registered resources, in order. *)
Definition cluster_objects (R : Reads) (ns : string) (rs : list ClusterResource)
    : outcome (list Object) :=
  ls ← mmap (cluster_resource_objects R ns) rs; Ret (concat ls).

Definition desired_objects (R : Reads) (ns v : string) (ci : ClusterInfo) (instance : HdfsCluster)
    : outcome (list Object) :=
  rs ← Cluster_RegisterResources v ci instance; cluster_objects R ns rs.

(** ** Their names *)

(** What one of the role blocks registers. *)
Definition role_block (ci : ClusterInfo) (instance : HdfsCluster) (role : Role)
    (rs : list ClusterResource) : Prop :=
  match role_spec instance role with
  | None => rs = []
  | Some spec => ∃ res, rs = [RoleResource role (cluster_stopped instance) res] ∧
      role_made ci instance role (cluster_stopped instance) spec res
  end.

Lemma register_role_block v ci instance role acc rs :
  role ∈ [NameNodeRole; DataNodeRole; JournalNodeRole] →
  register_role v ci instance (components_of instance ci) role (role_spec instance role) acc = Ret rs →
  ∃ new, rs = acc ++ new ∧ role_block ci instance role new.
Proof.
  intros Hin. unfold register_role, role_block. destruct (role_spec instance role) as [spec|].
  2: { intros [= <-]. exists []. by rewrite app_nil_r. }
  intros H. apply bind_ret_inv in H as (image & _ & H). apply bind_ret_inv in H as (res & Hres & [= <-]).
  eexists. split; [reflexivity|]. eexists. split; [reflexivity|].
  apply Role_RegisterResources_inv in Hres as (rss & -> & Hrss); [|by split].
  exists rss. split; [done|]. eapply Forall2_impl; [exact Hrss|].
  intros g grs Hg. apply register_group_inv in Hg; [|by split].
  destruct Hg as (svc & m & b & c & o & Hrs & Hmade). by exists svc, m, b, c, o.
Qed.

Lemma registration_shape v ci instance rs :
  Cluster_RegisterResources v ci instance = Ret rs →
  ∃ sa nn jn dn, CreateServiceAccountName (hc_Name instance) = Ret sa ∧
    rs = [ServiceAccountResource sa] ++ nn ++ jn ++ dn ++ [DiscoveryResource instance] ∧
    role_block ci instance NameNodeRole nn ∧ role_block ci instance JournalNodeRole jn ∧
    role_block ci instance DataNodeRole dn.
Proof.
  unfold Cluster_RegisterResources, NewServiceAccountReconciler. intros H.
  apply bind_ret_inv in H as (sa & Hsa & H). apply bind_ret_inv in Hsa as (name & Hname & [= <-]).
  rewrite populate_components in H. case_decide as Hset; [|done]. cbn [mbind outcome_bind] in H.
  apply bind_ret_inv in H as (nn & Hnn & H). apply bind_ret_inv in H as (jn & Hjn & H).
  apply bind_ret_inv in H as (dn & Hdn & [= <-]).
  apply (register_role_block v ci instance NameNodeRole) in Hnn as (nn' & -> & Hnn'); [|set_solver].
  apply (register_role_block v ci instance JournalNodeRole) in Hjn as (jn' & -> & Hjn'); [|set_solver].
  apply (register_role_block v ci instance DataNodeRole) in Hdn as (dn' & -> & Hdn'); [|set_solver].
  exists name, nn', jn', dn'. by rewrite <- !app_assoc.
Qed.

(** The objects of a role group. *)
Definition group_keys (info : RoleGroupInfo) : list (string * string) :=
  [ ("Service", GetFullName info); ("Service", CreateServiceMetricsName info);
    ("StatefulSet", GetFullName info); ("ConfigMap", GetFullName info) ].

Definition role_keys (ci : ClusterInfo) (instance : HdfsCluster) (role : Role)
    : list (string * string) :=
  concat (map (λ g, group_keys (group_info ci role g.1)) (range (groups_of (role_spec instance role)))).

Lemma StatefulSet_Build_name b s :
  StatefulSet_Build b = Ret s → sts_Name s = GetFullName (sb_roleGroupInfo b).
Proof.
  intros H. apply StatefulSet_Build_inv in H as (mains & inits & cfg & cvs & vs & cs & vec & oidc & sa'
    & _ & _ & _ & _ & _ & _ & _ & _ & _ & Hname & _). exact Hname.
Qed.

Lemma group_object_keys ns instance components stopped role info spec svc m b c o os :
  group_made instance components stopped role info spec svc m b c o →
  mmap (resource_object ns) (four svc m b stopped c) = Ret os → map object_key os = group_keys info.
Proof.
  intros [(Hsvc & _) (Hm & _) (image & config & Hb & ->)] H.
  apply role_builder_parts in Hb as (_ & Hinfo & _).
  simpl in H. apply bind_ret_inv in H as (os2 & H & [= <-]). apply bind_ret_inv in H as (os3 & H & [= <-]).
  apply bind_ret_inv in H as (so & Hso & H). apply bind_ret_inv in H as (os4 & H & [= <-]).
  apply bind_ret_inv in H as (co & Hco & [= <-]).
  apply bind_ret_inv in Hso as (s & Hs & [= <-]). apply bind_ret_inv in Hco as (cm & Hcm & [= <-]).
  apply StatefulSet_Build_name in Hs. apply Build_keeps in Hcm as [Hcm _].
  simpl. unfold group_keys. by rewrite Hsvc, Hm, Hs, Hinfo, Hcm.
Qed.

Lemma role_object_keys R ns ci instance role block ls :
  role_block ci instance role block →
  mmap (cluster_resource_objects R ns) block = Ret ls →
  map object_key (concat ls) = role_keys ci instance role.
Proof.
  unfold role_block, role_keys. destruct (role_spec instance role) as [spec|]; simpl.
  2: { intros -> [= <-]. by rewrite range_empty. }
  intros (res & -> & rss & -> & Hmade) H. simpl in H. apply bind_ret_inv in H as (os & Hos & [= <-]).
  apply mmap_concat in Hos as (bss & -> & Hall). simpl. rewrite app_nil_r.
  revert bss Hall. induction Hmade as [|g rs gs rss Hg Hmade IH]; intros bss Hall.
  { inversion Hall; subst. done. }
  apply Forall2_cons_inv_l in Hall as (os & bss' & Hos & Hall & ->). simpl. rewrite map_app, (IH _ Hall).
  destruct Hg as (svc & m & b & c & o & -> & Hmade'). by erewrite group_object_keys by done.
Qed.

(** All objects but the discovery's, which is registered last and is the only
    one to depend on what is read. *)
Definition base_objects (R : Reads) (ns v : string) (ci : ClusterInfo) (instance : HdfsCluster)
    : outcome (list Object) :=
  rs ← Cluster_RegisterResources v ci instance; cluster_objects R ns (removelast rs).

Lemma registration_last v ci instance rs :
  Cluster_RegisterResources v ci instance = Ret rs →
  rs = removelast rs ++ [DiscoveryResource instance] ∧
  ∀ i, DiscoveryResource i ∉ removelast rs.
Proof.
  intros H. apply registration_shape in H as (sa & nn & jn & dn & _ & -> & Hnn & Hjn & Hdn).
  rewrite !app_assoc, !removelast_last. split; [done|]. intros i.
  assert (∀ role block, role_block ci instance role block → DiscoveryResource i ∉ block) as Hno.
  { intros role block. unfold role_block. destruct (role_spec instance role); [|intros ->; by intros ?%elem_of_nil].
    intros (res & -> & _). by intros ?%list_elem_of_singleton. }
  rewrite !elem_of_app, list_elem_of_singleton. intros Hi. destruct_or? Hi; [done|by eapply Hno in Hi..].
Qed.

Lemma cluster_objects_app R ns rs1 rs2 :
  cluster_objects R ns (rs1 ++ rs2)
  = a ← cluster_objects R ns rs1; b ← cluster_objects R ns rs2; Ret (a ++ b).
Proof.
  unfold cluster_objects. rewrite mmap_app.
  destruct (mmap _ rs1) as [l1| | |]; cbn [mbind outcome_bind]; [|done..].
  destruct (mmap _ rs2) as [l2| | |]; cbn [mbind outcome_bind]; [|done..]. by rewrite concat_app.
Qed.

Lemma desired_split R ns v ci instance os :
  desired_objects R ns v ci instance = Ret os →
  ∃ bs d, base_objects R ns v ci instance = Ret bs ∧ discovery_Build R instance = Ret d ∧
    os = bs ++ [ConfigMapObj d.2].
Proof.
  unfold desired_objects, base_objects. intros H. apply bind_ret_inv in H as (rs & Hrs & H). rewrite Hrs.
  cbn [mbind outcome_bind]. apply registration_last in Hrs as [Heq _]. rewrite Heq, cluster_objects_app in H.
  apply bind_ret_inv in H as (bs & Hbs & H). apply bind_ret_inv in H as (ds & Hds & [= <-]).
  unfold cluster_objects in Hds. cbn [mmap cluster_resource_objects] in Hds.
  destruct (discovery_Build R instance) as [d| | |]; try done. injection Hds as <-. by exists bs, d.
Qed.

Lemma desired_join R ns v ci instance bs d :
  base_objects R ns v ci instance = Ret bs → discovery_Build R instance = Ret d →
  desired_objects R ns v ci instance = Ret (bs ++ [ConfigMapObj d.2]).
Proof.
  unfold desired_objects, base_objects. intros H Hd. apply bind_ret_inv in H as (rs & Hrs & H). rewrite Hrs.
  cbn [mbind outcome_bind]. apply registration_last in Hrs as [Heq _]. rewrite Heq, cluster_objects_app, H.
  unfold cluster_objects. cbn [mmap cluster_resource_objects mbind outcome_bind]. by rewrite Hd.
Qed.

Lemma discovery_key R instance d :
  discovery_Build R instance = Ret d → object_key (ConfigMapObj d.2) = ("ConfigMap", hc_Name instance).
Proof.
  unfold discovery_Build. intros Hd. apply bind_ret_inv in Hd as (x & _ & Hd).
  by apply bind_ret_inv in Hd as (y & _ & [= <-]).
Qed.

Lemma base_keys R ns v ci instance bs :
  base_objects R ns v ci instance = Ret bs →
  ∃ sa, map object_key bs
    = ("ServiceAccount", sa) :: role_keys ci instance NameNodeRole ++ role_keys ci instance JournalNodeRole
      ++ role_keys ci instance DataNodeRole.
Proof.
  unfold base_objects. intros H. apply bind_ret_inv in H as (rs & Hrs & H).
  apply registration_shape in Hrs as (sa & nn & jn & dn & _ & -> & Hnn & Hjn & Hdn).
  rewrite !app_assoc, removelast_last, <- !app_assoc, !cluster_objects_app in H.
  apply bind_ret_inv in H as (a & [= <-] & H). apply bind_ret_inv in H as (b & H & [= <-]).
  apply bind_ret_inv in H as (n & Hn & H). apply bind_ret_inv in H as (b' & H & [= <-]).
  apply bind_ret_inv in H as (j & Hj & H). apply bind_ret_inv in H as (d & Hd & [= <-]).
  apply bind_ret_inv in Hn as (ln & Hn & [= <-]). apply bind_ret_inv in Hj as (lj & Hj & [= <-]).
  apply bind_ret_inv in Hd as (ld & Hd & [= <-]).
  exists sa. cbn [map app object_key]. f_equal.
  rewrite !map_app, (role_object_keys R ns ci instance NameNodeRole nn _ Hnn Hn),
    (role_object_keys R ns ci instance JournalNodeRole jn _ Hjn Hj),
    (role_object_keys R ns ci instance DataNodeRole dn _ Hdn Hd). done.
Qed.

Lemma desired_keys R ns v ci instance os :
  desired_objects R ns v ci instance = Ret os →
  ∃ sa, map object_key os
    = ("ServiceAccount", sa) :: role_keys ci instance NameNodeRole ++ role_keys ci instance JournalNodeRole
      ++ role_keys ci instance DataNodeRole ++ [("ConfigMap", hc_Name instance)].
Proof.
  intros (bs & d & (sa & Hbs)%base_keys & Hd & ->)%desired_split. exists sa.
  rewrite map_app, Hbs. cbn [map app]. by rewrite (discovery_key _ _ _ Hd), <- !app_assoc.
Qed.

(** No group is named like the metrics service of another. *)
Definition no_metrics_clash (instance : HdfsCluster) : Prop :=
  ∀ role g, role ∈ [NameNodeRole; JournalNodeRole; DataNodeRole] →
    is_Some (groups_of (role_spec instance role) !! g) →
    groups_of (role_spec instance role) !! (g +:+ "-metrics") = None.

Lemma full_name_inj ci r1 g1 r2 g2 :
  full_name_spec P → r1 ∈ [NameNodeRole; JournalNodeRole; DataNodeRole] →
  r2 ∈ [NameNodeRole; JournalNodeRole; DataNodeRole] →
  GetFullName (group_info ci r1 g1) = GetFullName (group_info ci r2 g2) → r1 = r2 ∧ g1 = g2.
Proof.
  intros HP H1 H2. rewrite !HP. cbn [RoleName rg_RoleInfo RoleGroupName group_info]. unfold rg_ClusterInfo.
  simpl. rewrite <- !append_assoc. intros H. rewrite !append_assoc in H. apply append_inj_l in H.
  apply append_inj_l in H.
  apply list_elem_of_In in H1, H2. simpl in H1, H2.
  destruct H1 as [<-|[<-|[<-|[]]]], H2 as [<-|[<-|[<-|[]]]]; simpl in H;
    injection H; try discriminate; auto.
Qed.

(** The names within one role. *)
Lemma role_keys_NoDup ci instance role :
  full_name_spec P → role ∈ [NameNodeRole; JournalNodeRole; DataNodeRole] →
  NoDup (role_keys ci instance role) ↔
    ∀ g, is_Some (groups_of (role_spec instance role) !! g) →
         groups_of (role_spec instance role) !! (g +:+ "-metrics") = None.
Proof.
  intros HP Hrole. unfold role_keys. set (gs := groups_of (role_spec instance role)).
  rewrite NoDup_concat_map by apply NoDup_range. unfold group_keys, CreateServiceMetricsName.
  assert (∀ a b, GetFullName (group_info ci role a) = GetFullName (group_info ci role b) → a = b) as Hinj
    by (intros a b H; by apply full_name_inj in H as [_ ?]).
  assert (∀ a, GetFullName (group_info ci role a) +:+ "-metrics"
               = GetFullName (group_info ci role (a +:+ "-metrics"))) as Hm.
  { intros a. rewrite !HP. simpl. by rewrite !append_assoc. }
  assert (∀ s, s +:+ "-metrics" ≠ s) as Hne.
  { intros s Hs. rewrite <- (append_nil_r s) in Hs at 2. by apply append_inj_l in Hs. }
  split.
  - intros [_ Huniq] g [x Hx]. destruct (gs !! (g +:+ "-metrics")) as [y|] eqn:Hy; [|done]. exfalso.
    assert ((g, x) = (g +:+ "-metrics", y)) as [= Hg _]; [|by apply (Hne g)].
    apply (Huniq _ _ ("Service", GetFullName (group_info ci role g) +:+ "-metrics"));
      [by apply elem_of_range..|simpl; set_solver|]. simpl. rewrite Hm. set_solver.
  - intros Hno. split.
    + intros [g x] _. simpl. repeat (apply NoDup_cons; split); [| | | |constructor];
        rewrite ?elem_of_cons, elem_of_nil; intros Hk; destruct_or?; simplify_eq.
      symmetry in Hk. by apply Hne in Hk.
    + intros [g x] [g' x'] k Hg Hg' Hk Hk'. apply elem_of_range in Hg, Hg'. simpl in Hk, Hk'.
      assert (g = g') as ->; [|congruence].
      rewrite !elem_of_cons in Hk, Hk'. rewrite Hm in Hk, Hk'.
      assert (gs !! (g +:+ "-metrics") = None) by (apply Hno; by eexists).
      assert (gs !! (g' +:+ "-metrics") = None) by (apply Hno; by eexists).
      destruct Hk as [->|[->|[->|[->|[]%elem_of_nil]]]];
        destruct Hk' as [[= Hk]|[[= Hk]|[[= Hk]|[[= Hk]|[]%elem_of_nil]]]]; apply Hinj in Hk; subst;
        try congruence. by apply append_inj_r in Hk.
Qed.

Lemma elem_of_role_keys ci instance role k :
  full_name_spec P → k ∈ role_keys ci instance role →
  k.1 ∈ ["Service"; "StatefulSet"; "ConfigMap"] ∧ ∃ g, k.2 = GetFullName (group_info ci role g).
Proof.
  intros HP ([g x] & _ & Hk)%elem_of_concat_map. unfold group_keys, CreateServiceMetricsName in Hk.
  rewrite !elem_of_cons, elem_of_nil in Hk. destruct_or? Hk; try done; subst; simpl; (split; [set_solver|]);
    try by eexists.
  exists (g +:+ "-metrics"). rewrite !HP. simpl. by rewrite !append_assoc.
Qed.

Lemma cluster_keys_NoDup sa ci instance :
  full_name_spec P → ClusterName ci = hc_Name instance →
  NoDup (("ServiceAccount", sa) :: role_keys ci instance NameNodeRole
         ++ role_keys ci instance JournalNodeRole ++ role_keys ci instance DataNodeRole
         ++ [("ConfigMap", hc_Name instance)]) ↔ no_metrics_clash instance.
Proof.
  intros HP Hci.
  assert (∀ r1 r2 k, r1 ∈ [NameNodeRole; JournalNodeRole; DataNodeRole] →
    r2 ∈ [NameNodeRole; JournalNodeRole; DataNodeRole] → r1 ≠ r2 →
    k ∈ role_keys ci instance r1 → k ∉ role_keys ci instance r2) as Hdis.
  { intros r1 r2 k Hr1 Hr2 Hne H1 H2.
    apply elem_of_role_keys in H1 as (_ & g1 & H1), H2 as (_ & g2 & H2); [|done..].
    rewrite H1 in H2. by apply full_name_inj in H2 as [? _]. }
  assert (∀ r, ("ServiceAccount", sa) ∉ role_keys ci instance r) as Hsa.
  { intros r [Hk _]%elem_of_role_keys; [|done]. by apply (bool_decide_eq_true _) in Hk. }
  assert (∀ r, ("ConfigMap", hc_Name instance) ∉ role_keys ci instance r) as Hcm.
  { intros r [_ [g Hk]]%elem_of_role_keys; [|done]. simpl in Hk. rewrite HP in Hk. simpl in Hk.
    unfold rg_ClusterInfo in Hk. simpl in Hk. rewrite Hci in Hk.
    rewrite <- (append_nil_r (hc_Name instance)) in Hk at 1. by apply append_inj_l in Hk. }
  assert (∀ r, r ∈ [NameNodeRole; JournalNodeRole; DataNodeRole] → (NoDup (role_keys ci instance r) ↔
    ∀ g, is_Some (groups_of (role_spec instance r) !! g) →
         groups_of (role_spec instance r) !! (g +:+ "-metrics") = None)) as Hrole
    by (intros r Hr; by apply role_keys_NoDup).
  assert (NameNodeRole ∈ [NameNodeRole; JournalNodeRole; DataNodeRole]) as Hin1 by (repeat constructor).
  assert (JournalNodeRole ∈ [NameNodeRole; JournalNodeRole; DataNodeRole]) as Hin2 by (repeat constructor).
  assert (DataNodeRole ∈ [NameNodeRole; JournalNodeRole; DataNodeRole]) as Hin3 by (repeat constructor).
  rewrite NoDup_cons, !NoDup_app, !Hrole by done. unfold no_metrics_clash. split.
  - intros (_ & Hn & _ & Hj & _ & Hd & _) role g Hr. rewrite !elem_of_cons, elem_of_nil in Hr.
    destruct_or? Hr; subst; auto.
  - intros Hno. split_and!; try (intros g; apply Hno; set_solver).
    + rewrite !elem_of_app, list_elem_of_singleton. intros Hk. destruct_or? Hk; try done; by eapply Hsa.
    + intros k Hk. rewrite !elem_of_app, list_elem_of_singleton. intros Hk'.
      destruct_or? Hk'; subst; [by apply (Hdis NameNodeRole JournalNodeRole k)|
        by apply (Hdis NameNodeRole DataNodeRole k)|by eapply Hcm].
    + intros k Hk. rewrite !elem_of_app, list_elem_of_singleton. intros Hk'.
      destruct_or? Hk'; subst; [by apply (Hdis JournalNodeRole DataNodeRole k)|by eapply Hcm].
    + intros k Hk ->%list_elem_of_singleton. by eapply Hcm.
    + apply NoDup_singleton.
Qed.

End objects.

(** ** Where the order does not show *)

Section orders.
Context {P : Platform} {O : ConfigMapOps} {L : ConfigMapLaws O} {SC : Type} {E : StatefulSetEnv SC}
  {Op : Operator (SC := SC)}.
Context (MR1 MR2 : MapRange).

(** At most one group of name nodes and one of journal nodes. *)
Definition order_free (instance : HdfsCluster) : Prop :=
  size (groups_of (NameNode (Spec instance))) ≤ 1 ∧ size (groups_of (JournalNode (Spec instance))) ≤ 1.

Definition one_journal_group (instance : HdfsCluster) : Prop :=
  size (groups_of (JournalNode (Spec instance))) ≤ 1.

(** A pod is labelled with one listener. *)
Definition one_listener (R : Reads) : Prop :=
  ∀ ns pod labels k1 v1 k2 v2, pod_labels R ns pod = Ret labels →
    labels !! k1 = Some v1 → labels !! k2 = Some v2 →
    HasPrefix k1 listener_label_prefix = true → HasPrefix k2 listener_label_prefix = true → k1 = k2.

Lemma size_table instance ci role spec : size (table_of instance ci role spec) = size (groups_of spec).
Proof.
  rewrite <- !size_dom. f_equal. apply set_eq. intros g. rewrite !elem_of_dom, lookup_table_of.
  apply fmap_is_Some.
Qed.

Lemma nameNodeIds_order instance info :
  order_free instance →
  nameNodeIds (MR := MR1) instance info = nameNodeIds (MR := MR2) instance info.
Proof.
  intros [Hn _]. unfold nameNodeIds. destruct (NameNode (Spec instance)) as [nn|]; [|done].
  simpl in *. by rewrite (range_small MR1 MR2).
Qed.

Lemma shared_edits_order instance ci :
  one_journal_group instance →
  GetJournalNodeServicesForSharedEdits (MR := MR1) (components_of instance ci)
  = GetJournalNodeServicesForSharedEdits (MR := MR2) (components_of instance ci).
Proof.
  intros Hj. unfold GetJournalNodeServicesForSharedEdits, GetJournalNodeServiceNames. simpl.
  by rewrite (range_small MR1 MR2) by (by rewrite size_table).
Qed.

Lemma generate_order instance ci c :
  one_journal_group instance → clusterComponentInfo c = components_of instance ci →
  NameNode_Generate (MR := MR1) c = NameNode_Generate (MR := MR2) c.
Proof.
  intros Hf Hc. unfold NameNode_Generate.
  destruct (makeNameNodeHosts _) as [hosts| | |];
    cbn [mbind outcome_bind]; [|reflexivity..].
  destruct (makeNameNodeHttp _) as [http| | |];
    cbn [mbind outcome_bind]; [|reflexivity..].
  destruct (makeNameNodeRpc _) as [rpc| | |];
    cbn [mbind outcome_bind]; [|reflexivity..].
  destruct (makeNameNodeNameDir _) as [dir| | |];
    cbn [mbind outcome_bind]; [|reflexivity..].
  unfold makeNamenodeSharedEditDir. cbn [clusterComponentInfo g_append].
  by rewrite Hc, shared_edits_order.
Qed.

Lemma generate_site_order instance ci cfg c :
  one_journal_group instance → clusterComponentInfo c = components_of instance ci →
  generate_site (MR := MR1) cfg c = generate_site (MR := MR2) cfg c.
Proof.
  intros Hf Hc. unfold generate_site. rewrite (generate_order instance ci); [done|done|].
  unfold EnableHttps, EnablerKerberos. by destruct (IsKerberosEnabled cfg).
Qed.

(** Sums of replicas do not depend on the order, wrap-around included. *)
Lemma total_replicas_order infos g :
  total_replicas (MR := MR1) infos g = total_replicas (MR := MR2) infos g.
Proof.
  unfold total_replicas. apply foldl_perm.
  - by rewrite range_perm, (range_perm (MapRange := MR2)).
  - intros t [k1 i1] [k2 i2]. simpl. repeat case_decide; [|done..].
    rewrite !wrap32_add_l. f_equal. lia.
Qed.

(** The part of the config map that a role contributes. *)
Lemma role_component_order instance ci info replicas overrides role :
  one_journal_group instance →
  role_component (MR := MR1) instance info replicas overrides (components_of instance ci) role
  = role_component (MR := MR2) instance info replicas overrides (components_of instance ci) role.
Proof.
  intros Hf. unfold role_component. case_decide; [|case_decide].
  - unfold name_component. assert (∀ g, name_makeHdfsSiteData (MR := MR1) instance g replicas
      (components_of instance ci) = name_makeHdfsSiteData (MR := MR2) instance g replicas
      (components_of instance ci)) as Hs; [|by rewrite Hs].
    intros g. unfold name_makeHdfsSiteData. destruct (ClusterConfig _) as [cfg|]; cbn [mbind outcome_bind deref]; [|reflexivity].
    destruct replicas; cbn [mbind outcome_bind deref]; [|reflexivity]. by apply (generate_site_order instance ci).
  - unfold data_component. assert (∀ g, data_makeHdfsSiteData (MR := MR1) instance g
      (components_of instance ci) = data_makeHdfsSiteData (MR := MR2) instance g
      (components_of instance ci)) as Hs; [|by rewrite Hs].
    intros g. unfold data_makeHdfsSiteData, NewDataNodeHdfsSiteXmlGenerator, GetNameNodeReplicas.
    rewrite total_replicas_order.
    destruct (ClusterConfig _) as [cfg|]; cbn [mbind outcome_bind deref]; [|reflexivity]. by apply (generate_site_order instance ci).
  - unfold journal_component. assert (∀ g, journal_makeHdfsSiteData (MR := MR1) instance g
      (components_of instance ci) = journal_makeHdfsSiteData (MR := MR2) instance g
      (components_of instance ci)) as Hs; [|by rewrite Hs].
    intros g. unfold journal_makeHdfsSiteData. destruct (getNameNodeReplicas _ g); cbn [mbind outcome_bind]; [|reflexivity..].
    destruct (ClusterConfig _) as [cfg|]; cbn [mbind outcome_bind deref]; [|reflexivity]. by apply (generate_site_order instance ci).
Qed.

(** The pods of the data nodes wait for the name nodes in the order of the map. *)
Lemma data_builder_order info image replicas config overrides instance :
  order_free instance →
  NewDataNodeStatefulSetBuilder (MR := MR1) info image replicas config overrides instance
  = NewDataNodeStatefulSetBuilder (MR := MR2) info image replicas config overrides instance.
Proof.
  intros Hf. unfold NewDataNodeStatefulSetBuilder, data_sts_component,
    WaitForNameNodesContainer_Build, waitForNameNodesComponent, waitForNameNodes_GetArgs.
  destruct config as [c|]; [|reflexivity]. cbn [mbind outcome_bind deref].
  by rewrite nameNodeIds_order.
Qed.

(** The resources a group registers in two orders: the same, but for the stateful
    set of a group of data nodes. *)
Inductive related (ci : ClusterInfo) (instance : HdfsCluster) : Resource → Resource → Prop :=
  | related_same r : related ci instance r r
  | related_data g image replicas config overrides b1 b2 stopped :
      let info := group_info ci DataNodeRole g in
      NewDataNodeStatefulSetBuilder (MR := MR1) info image replicas config overrides instance = Ret b1 →
      NewDataNodeStatefulSetBuilder (MR := MR2) info image replicas config overrides instance = Ret b2 →
      related ci instance (StatefulSetResource b1 stopped) (StatefulSetResource b2 stopped).

Lemma related_eq ci instance a b : order_free instance → related ci instance a b → a = b.
Proof.
  intros Hf [r|g image replicas config overrides b1 b2 stopped info H1 H2]; [done|].
  rewrite (data_builder_order _ _ _ _ _ _ Hf), H2 in H1. by injection H1 as ->.
Qed.

Lemma Forall2_related_refl ci instance l : Forall2 (related ci instance) l l.
Proof. induction l; constructor; [constructor|done]. Qed.

(** The resources of a standard registration, whatever builds them. *)
Lemma register_group_order r g ci rs :
  one_journal_group (rr_HdfsCluster r) → rr_Components r = components_of (rr_HdfsCluster r) ci →
  rr_RoleInfo r = {| ri_ClusterInfo := ci; RoleName := rr_ComponentType r |} →
  register_group (MR := MR1) r g = Ret rs →
  ∃ rs', register_group (MR := MR2) r g = Ret rs' ∧ Forall2 (related ci (rr_HdfsCluster r)) rs rs'.
Proof.
  intros Hf Hc Hinfo. unfold register_group.
  destruct (MergeConfig _ _) as [c| | |]; cbn [mbind outcome_bind]; [|done..].
  destruct (MergeOverrides _ _) as [o| | |]; cbn [mbind outcome_bind]; [|done..].
  destruct (DefaultRoleConfig _ _) as [n| | |]; cbn [mbind outcome_bind]; [|done..].
  set (config := MergeDefaultConfig n _). set (ov := default _ o).
  unfold RegisterResourceWithRoleGroup, RegisterStandardResources.
  set (info := {| rg_RoleInfo := rr_RoleInfo r; RoleGroupName := g.1 |}).
  assert (NewRoleGroupMetricsService (MR := MR1) info (ClusterConfig (Spec (rr_HdfsCluster r)))
    = NewRoleGroupMetricsService (MR := MR2) info (ClusterConfig (Spec (rr_HdfsCluster r)))) as ->.
  { unfold NewRoleGroupMetricsService. by rewrite !copy_map_id. }
  pose proof (role_component_order (rr_HdfsCluster r) ci info (Replicas g.2) ov (rr_ComponentType r) Hf)
    as Hcomp. rewrite <- Hc in Hcomp.
  unfold role_resources, role_component in *. case_decide as Hname; [|case_decide as Hdata].
  - unfold name_resources.
    cbn [CreateServiceReconcilers CreateStatefulSetReconciler CreateConfigMapReconciler].
    unfold NewNamenodeConfigMapBuilder. rewrite Hcomp. intros H. exists rs.
    split; [exact H|apply Forall2_related_refl].
  - unfold data_resources.
    cbn [CreateServiceReconcilers CreateStatefulSetReconciler CreateConfigMapReconciler].
    unfold NewDataNodeConfigMapBuilder. rewrite Hcomp.
    intros H. apply bind_ret_inv in H as (svcs & Hs & H). rewrite Hs. cbn [mbind outcome_bind].
    apply bind_ret_inv in H as (m & Hm & H). rewrite Hm. cbn [mbind outcome_bind].
    apply bind_ret_inv in H as (ss & Hss & H). apply bind_ret_inv in Hss as (b1 & Hb1 & [= <-]).
    apply bind_ret_inv in H as (cm & Hcm & [= <-]). rewrite Hcm.
    assert (info = group_info ci DataNodeRole g.1) as Hgi
      by (unfold info, group_info; by rewrite Hinfo, Hdata).
    unfold NewDataNodeStatefulSetBuilder at 1. cbn [mbind outcome_bind deref].
    eexists. split; [reflexivity|]. apply Forall2_app; [apply Forall2_related_refl|].
    apply Forall2_app; [apply Forall2_related_refl|]. constructor; [|apply Forall2_related_refl].
    rewrite Hgi in Hb1 |- *. by eapply related_data.
  - unfold journal_resources.
    cbn [CreateServiceReconcilers CreateStatefulSetReconciler CreateConfigMapReconciler].
    unfold NewJournalnodeConfigMapBuilder. rewrite Hcomp. intros H. exists rs.
    split; [exact H|apply Forall2_related_refl].
Qed.

Lemma Build_order ns b : Build (MR := MR1) ns b = Build (MR := MR2) ns b.
Proof.
  destruct (BuildConfig (b_component b)) as [configs| | |] eqn:Hc;
    [|unfold Build; by rewrite Hc..].
  set (o := GetObject (b_builder b)).
  assert (GetObject (b_builder b) = with_data o (cm_Data o)) as Hb
    by (unfold with_data, o; by destruct (GetObject (b_builder b))).
  by rewrite (Build_data (MR := MR1) ns b _ _ _ Hb Hc), (Build_data (MR := MR2) ns b _ _ _ Hb Hc).
Qed.

Lemma resource_object_order ns r :
  resource_object (MR := MR1) ns r = resource_object (MR := MR2) ns r.
Proof. destruct r; simpl; [done..|]. by rewrite Build_order. Qed.

(** The objects of related resources: the same, or the stateful sets of a group
    of data nodes. *)
Definition related_objects (ci : ClusterInfo) (instance : HdfsCluster) (o o' : Object (SC := SC)) : Prop :=
  o = o' ∨ ∃ g image replicas config overrides b1 b2 s s' stopped,
    let info := group_info ci DataNodeRole g in
    NewDataNodeStatefulSetBuilder (MR := MR1) info image replicas config overrides instance = Ret b1 ∧
    NewDataNodeStatefulSetBuilder (MR := MR2) info image replicas config overrides instance = Ret b2 ∧
    StatefulSet_Build b1 = Ret s ∧ StatefulSet_Build b2 = Ret s' ∧
    o = StatefulSetObj s stopped ∧ o' = StatefulSetObj s' stopped.

(** A stateful set of data nodes that can be built in one order can in the other. *)
Definition rebuilds (ci : ClusterInfo) (instance : HdfsCluster) : Prop :=
  ∀ g image replicas config overrides b1 b2 s, let info := group_info ci DataNodeRole g in
    NewDataNodeStatefulSetBuilder (MR := MR1) info image replicas config overrides instance = Ret b1 →
    NewDataNodeStatefulSetBuilder (MR := MR2) info image replicas config overrides instance = Ret b2 →
    StatefulSet_Build b1 = Ret s → ∃ s', StatefulSet_Build b2 = Ret s'.

Lemma related_object ci instance ns a b o :
  rebuilds ci instance → related ci instance a b → resource_object (MR := MR1) ns a = Ret o →
  ∃ o', resource_object (MR := MR2) ns b = Ret o' ∧ related_objects ci instance o o'.
Proof.
  intros Hre [r|g image replicas config overrides b1 b2 stopped info H1 H2] Ho.
  - rewrite resource_object_order in Ho. exists o. split; [done|by left].
  - cbn [resource_object] in *. apply bind_ret_inv in Ho as (s & Hs & [= <-]).
    destruct (Hre _ _ _ _ _ _ _ _ H1 H2 Hs) as (s' & Hs'). rewrite Hs'. eexists. split; [done|].
    right. by exists g, image, replicas, config, overrides, b1, b2, s, s', stopped.
Qed.

Lemma related_objects_eq ci instance os os' :
  order_free instance → Forall2 (related_objects ci instance) os os' → os = os'.
Proof.
  intros Hf. induction 1 as [|o o' os os' Ho _ IH]; [done|]. f_equal; [|done].
  destruct Ho as [->|(g & image & rep & c & ov & b1 & b2 & s & s' & st & H1 & H2 & H3 & H4 & -> & ->)]; [done|].
  rewrite (data_builder_order _ _ _ _ _ _ Hf), H2 in H1. injection H1 as ->. rewrite H3 in H4. by injection H4 as ->.
Qed.

(** Going over related lists in an order and in another. *)
Lemma mmap_related {A B A' B'} (R : A → A' → Prop) (Q : B → B' → Prop) (f : A → outcome B)
    (f' : A' → outcome B') l l' bs :
  (∀ a a' b, R a a' → f a = Ret b → ∃ b', f' a' = Ret b' ∧ Q b b') →
  Forall2 R l l' → mmap f l = Ret bs → ∃ bs', mmap f' l' = Ret bs' ∧ Forall2 Q bs bs'.
Proof.
  intros Hf Hl. revert bs. induction Hl as [|a a' l l' Ha Hl IH]; intros bs H; cbn [mmap] in H |- *.
  { injection H as <-. by exists []. }
  apply bind_ret_inv in H as (b & Hb & H). apply bind_ret_inv in H as (bs0 & Hbs & [= <-]).
  destruct (Hf _ _ _ Ha Hb) as (b' & Hb' & HQ). destruct (IH _ Hbs) as (bs' & Hbs' & HQs).
  exists (b' :: bs'). rewrite Hb'. cbn [mbind outcome_bind]. rewrite Hbs'. split; [done|]. constructor; [exact HQ|exact HQs].
Qed.

Lemma discovery_order R instance :
  order_free instance → one_listener R →
  discovery_Build (MR := MR1) R instance = discovery_Build (MR := MR2) R instance.
Proof.
  intros [Hn _] HR.
  assert (∀ pod, getListenerNameByPodName (MR := MR1) R instance pod
                 = getListenerNameByPodName (MR := MR2) R instance pod) as Hname.
  { intros pod. unfold getListenerNameByPodName.
    destruct (pod_labels R _ pod) as [labels| | |] eqn:Hl; cbn [mbind outcome_bind]; [|done..].
    rewrite (find_unique MR1 MR2); [done|]. intros k1 v1 k2 v2 H1 H2. simpl. by eapply HR. }
  assert (∀ a port, getPort (MR := MR1) a port = getPort (MR := MR2) a port) as Hport.
  { intros a port. unfold getPort. rewrite (find_unique MR1 MR2); [done|].
    intros k1 v1 k2 v2 _ _ H1%bool_decide_eq_true_1 H2%bool_decide_eq_true_1. simpl in *. congruence. }
  assert (∀ pods port cache, createPortNameAddress (MR := MR1) R instance pods port cache
                     = createPortNameAddress (MR := MR2) R instance pods port cache) as Haddr.
  { intros pods port cache. unfold createPortNameAddress. apply mfold_ext. intros st pod.
    unfold port_name_step, port_name_address, getListenerAddress. rewrite Hname.
    destruct (getListenerNameByPodName R instance pod) as [l| | |]; cbn [mbind outcome_bind]; [|done..].
    repeat case_match; cbn [mbind outcome_bind]; rewrite ?Hport; done. }
  unfold discovery_Build, makeHdfsSiteXmlData, makeDynamicHdfsSiteXml, createConnections, getPodNames.
  destruct (NameNode (Spec instance)) as [nn|]; cbn [mbind outcome_bind deref]; [|reflexivity].
  rewrite (range_small MR1 MR2) by exact Hn.
  destruct (ClusterConfig (Spec instance)) as [cfg|]; cbn [mbind outcome_bind deref]; [|reflexivity].
  rewrite !Haddr. destruct (createPortNameAddress _ _ _ _ ∅); cbn [mbind outcome_bind]; [|reflexivity..].
  by rewrite Haddr.
Qed.

(** The resources of two registrations: related, up to the order of the groups
    of a role. *)
Definition same_resource ci instance (a b : ClusterResource (SC := SC)) : Prop :=
  match a, b with
  | RoleResource r s l, RoleResource r' s' l' =>
      r = r' ∧ s = s' ∧ ∃ l0, Forall2 (related ci instance) l l0 ∧ l0 ≡ₚ l'
  | _, _ => a = b
  end.

Lemma Forall2_concat {A} (R : A → A → Prop) ls ls' :
  Forall2 (Forall2 R) ls ls' → Forall2 R (concat ls) (concat ls').
Proof. induction 1; simpl; [constructor|by apply Forall2_app]. Qed.

Lemma register_role_order v ci instance role spec acc1 acc2 rs1 :
  one_journal_group instance → Forall2 (same_resource ci instance) acc1 acc2 →
  register_role (MR := MR1) v ci instance (components_of instance ci) role spec acc1 = Ret rs1 →
  ∃ rs2, register_role (MR := MR2) v ci instance (components_of instance ci) role spec acc2 = Ret rs2 ∧
    Forall2 (same_resource ci instance) rs1 rs2.
Proof.
  intros Hf Hacc H. unfold register_role in *. destruct spec as [rs|]; [|simplify_eq; eauto].
  apply bind_ret_inv in H as (image & Himg & H). rewrite Himg. cbn [mbind outcome_bind].
  apply bind_ret_inv in H as (res & Hres & [= <-]).
  unfold Role_RegisterResources in *. rewrite mfold_concat in *.
  apply bind_ret_inv in Hres as (rss & Hrss & [= <-]).
  set (r := NewBaseHdfsRoleReconciler _ _ _ _ _ _) in *.
  destruct (mmap_related eq (Forall2 (related ci instance)) (register_group (MR := MR1) r)
    (register_group (MR := MR2) r) (range (MapRange := MR1) (RoleGroups (rr_Spec r)))
    (range (MapRange := MR1) (RoleGroups (rr_Spec r))) rss)
    as (rss0 & Hrss0 & Hrel).
  { intros g g' gs <- Hg. by apply (register_group_order r). }
  { by apply Forall_Forall2_diag, Forall_true. }
  { done. }
  eapply mmap_perm in Hrss0 as (rss2 & Hrss2 & Hp).
  2: { rewrite range_perm, <- (range_perm (MapRange := MR2)). reflexivity. }
  rewrite Hrss2. simpl. eexists. split; [done|]. apply Forall2_app; [done|].
  repeat constructor. exists (concat rss0). split; [by apply Forall2_concat|]. by rewrite Hp.
Qed.

Lemma registration_order v ci instance rs1 :
  one_journal_group instance →
  Cluster_RegisterResources (MR := MR1) v ci instance = Ret rs1 →
  ∃ rs2, Cluster_RegisterResources (MR := MR2) v ci instance = Ret rs2 ∧
    Forall2 (same_resource ci instance) rs1 rs2.
Proof.
  intros Hf H. unfold Cluster_RegisterResources in *.
  rewrite (populate_components (MR := MR1)) in H. rewrite (populate_components (MR := MR2)).
  apply bind_ret_inv in H as (sa & -> & H). cbn [mbind outcome_bind].
  case_decide; [|done]. cbn [mbind outcome_bind] in *.
  apply bind_ret_inv in H as (a & Ha & H). apply bind_ret_inv in H as (b & Hb & H).
  apply bind_ret_inv in H as (c & Hc & [= <-]).
  eapply (register_role_order _ _ _ _ _ _ [sa]) in Ha as (a2 & -> & Ha); [|done|].
  2: { constructor; [|constructor]. destruct sa; [done| |done]. split_and!; [done..|].
       eexists. split; [apply Forall2_related_refl|done]. }
  eapply (register_role_order _ _ _ _ _ _ a2) in Hb as (b2 & Hb2 & Hb); [|done..].
  eapply (register_role_order _ _ _ _ _ _ b2) in Hc as (c2 & Hc2 & Hc); [|done..].
  cbn [mbind outcome_bind]. rewrite Hb2. cbn [mbind outcome_bind]. rewrite Hc2. cbn [mbind outcome_bind].
  eexists. split; [done|]. apply Forall2_app; [done|]. by repeat constructor.
Qed.

(** Their objects, other than the discovery's. *)
Lemma same_resource_objects R ns ci instance a b os :
  rebuilds ci instance → (∀ i, a ≠ DiscoveryResource i) →
  same_resource ci instance a b → cluster_resource_objects (MR := MR1) R ns a = Ret os →
  ∃ os' os0, cluster_resource_objects (MR := MR2) R ns b = Ret os' ∧
    Forall2 (related_objects ci instance) os os0 ∧ os0 ≡ₚ os'.
Proof.
  intros Hre Hno Hab H. destruct a as [name|r s l|i]; simpl in Hab, H; [subst b| |by destruct (Hno i)].
  - exists os, os. split_and!; [done| |done]. injection H as <-. by repeat constructor.
  - destruct b as [|r' s' l'|]; [done| |done]. destruct Hab as (-> & -> & l0 & Hl & Hp). simpl.
    destruct (mmap_related _ (related_objects ci instance) _ (resource_object (MR := MR2) ns) _ _ os
      (λ a b o Hab, related_object ci instance ns a b o Hre Hab) Hl H) as (os0 & Hos0 & Hrel).
    eapply mmap_perm in Hos0 as (os' & Hos' & Hp'); [|exact Hp]. by exists os', os0.
Qed.

Lemma cluster_objects_order R ns ci instance rs1 rs2 os :
  rebuilds ci instance → (∀ i, DiscoveryResource i ∉ rs1) →
  Forall2 (same_resource ci instance) rs1 rs2 → cluster_objects (MR := MR1) R ns rs1 = Ret os →
  ∃ os' os0, cluster_objects (MR := MR2) R ns rs2 = Ret os' ∧
    Forall2 (related_objects ci instance) os os0 ∧ os0 ≡ₚ os'.
Proof.
  unfold cluster_objects. intros Hre Hno Hrs. revert os.
  induction Hrs as [|a b rs1 rs2 Hab Hrs IH]; intros os H.
  { injection H as <-. by exists [], []. }
  apply bind_ret_inv in H as (ls & Hls & [= <-]). cbn [mmap] in Hls.
  apply bind_ret_inv in Hls as (l & Hl & Hls). apply bind_ret_inv in Hls as (ls' & Hls & [= <-]).
  eapply same_resource_objects in Hl as (l' & l0 & Hl' & Hr & Hp);
    [|done|intros i ->; by apply (Hno i); left|done].
  destruct (IH ltac:(intros i Hi; apply (Hno i); by right) (concat ls')) as (os' & os0 & Hos' & Hr' & Hp').
  { by rewrite Hls. }
  apply bind_ret_inv in Hos' as (ls2 & Hls2 & [= <-]).
  exists (l' ++ concat ls2), (l0 ++ os0). cbn [mmap]. rewrite Hl'. cbn [mbind outcome_bind].
  rewrite Hls2. split_and!; [reflexivity|by apply Forall2_app|]. by rewrite Hp, Hp'.
Qed.

(** With one group of journal nodes, the orders show in the stateful sets of the
    data nodes at most. *)
Lemma base_related R ns v ci instance bs :
  one_journal_group instance → rebuilds ci instance →
  base_objects (MR := MR1) R ns v ci instance = Ret bs →
  ∃ bs' bs0, base_objects (MR := MR2) R ns v ci instance = Ret bs' ∧
    Forall2 (related_objects ci instance) bs bs0 ∧ bs0 ≡ₚ bs'.
Proof.
  intros Hf Hre H. unfold base_objects in *. apply bind_ret_inv in H as (rs & Hrs & H).
  pose proof (registration_last _ _ _ _ Hrs) as [Heq Hno].
  apply registration_order in Hrs as (rs2 & Hrs2 & Hrs); [|done]. rewrite Hrs2. cbn [mbind outcome_bind].
  pose proof (registration_last _ _ _ _ Hrs2) as [Heq2 _]. rewrite Heq, Heq2 in Hrs.
  apply Forall2_app_inv in Hrs as [Hrs _].
  2: { apply Forall2_length in Hrs. rewrite !length_app in Hrs. simpl in Hrs. lia. }
  by eapply cluster_objects_order.
Qed.

Lemma base_order R ns v ci instance bs :
  order_free instance →
  base_objects (MR := MR1) R ns v ci instance = Ret bs →
  ∃ bs', base_objects (MR := MR2) R ns v ci instance = Ret bs' ∧ bs ≡ₚ bs'.
Proof.
  intros Hf H. apply base_related in H as (bs' & bs0 & Hbs' & Hrel & Hp); [|apply Hf|].
  - apply related_objects_eq in Hrel as ->; [|done]. by exists bs'.
  - intros g image rep c ov b1 b2 s info H1 H2. rewrite (data_builder_order _ _ _ _ _ _ Hf), H2 in H1.
    injection H1 as ->. eauto.
Qed.

Lemma desired_order R ns v ci instance os :
  order_free instance → one_listener R →
  desired_objects (MR := MR1) R ns v ci instance = Ret os →
  ∃ os', desired_objects (MR := MR2) R ns v ci instance = Ret os' ∧ os ≡ₚ os'.
Proof.
  intros Hf HR (bs & d & Hbs & Hd & ->)%desired_split.
  apply base_order in Hbs as (bs' & Hbs' & Hp); [|done]. rewrite discovery_order in Hd by done.
  eexists. split; [by apply desired_join|]. by rewrite Hp.
Qed.

End orders.

(** ** Where the order shows *)

(** The same maps, each visited backwards. *)
Definition reversed (MR : MapRange) : MapRange :=
  {| range V m := rev (range (MapRange := MR) m);
     range_perm V m := ltac:(by rewrite <- Permutation_rev, range_perm) |}.

Lemma Join_head x l : no_byte " " x = true → head (Split (Join (x :: l) " ") " ") = Some x.
Proof.
  intros Hx. destruct l as [|y l].
  - change (Join [x] " ") with x. by rewrite Split_no_sep.
  - change (Join (x :: y :: l) " ") with (x +:+ String " " (Join (y :: l) " ")).
    by rewrite Split_app.
Qed.

Lemma concat_map_nil {A B} (f : A → list B) l : (∀ x, x ∈ l → f x = []) → concat (map f l) = [].
Proof.
  intros Hf. induction l as [|x l IH]; [done|]. simpl. rewrite Hf, IH; [done| |left].
  intros y Hy. apply Hf. by right.
Qed.

Section shows.
Context {P : Platform} {O : ConfigMapOps} {L : ConfigMapLaws O} {SC : Type} {E : StatefulSetEnv SC}
  {Op : Operator (SC := SC)}.

(** Every group of name nodes has a pod. *)
Definition groups_have_pods (nn : RoleSpec) : Prop :=
  map_Forall (λ _ g, ∃ n, Replicas g = Some n ∧ (0 < n)%Z) (RoleGroups nn).

Lemma groups_have_pods_ok nn : groups_have_pods nn → replicas_ok nn.
Proof. intros H g s Hg. destruct (H g s Hg) as (n & ? & ?). exists n. split; [done|lia]. Qed.

(** The pods begin with the first pod of the first group. *)
Lemma pods_head (MR : MapRange) ci nn g s l :
  groups_have_pods nn → range (RoleGroups nn) = (g, s) :: l →
  ∃ l', name_node_pods ci nn = pod_name (GetFullName (group_info ci NameNodeRole g)) 0 :: l'.
Proof.
  intros Hn Hr. unfold name_node_pods. rewrite Hr. simpl.
  destruct (Hn g s) as (n & Hsn & Hpos). { apply elem_of_range. rewrite Hr. left. }
  unfold group_pods. simpl. rewrite Hsn. simpl.
  unfold indices. destruct (Z.to_nat n) as [|k] eqn:Hk; [lia|]. simpl. by eexists.
Qed.

(** Backwards, a data node asks another name node first. *)
Lemma pods_reversed (MR : MapRange) ci nn :
  full_name_spec P → name_nodes_named ci nn → groups_have_pods nn → 2 ≤ size (RoleGroups nn) →
  Join (name_node_pods (MR := MR) ci nn) " " ≠ Join (name_node_pods (MR := reversed MR) ci nn) " ".
Proof.
  intros HP Hnames Hn Hsize Heq.
  pose proof (range_perm (MapRange := MR) (RoleGroups nn)) as Hperm. apply Permutation_length in Hperm.
  rewrite length_map_to_list in Hperm.
  destruct (range (MapRange := MR) (RoleGroups nn)) as [|[g s] l] eqn:Hr; simpl in Hperm; [lia|].
  destruct l as [|[g' s'] l _] using rev_ind; simpl in Hperm; [lia|].
  assert (range (MapRange := reversed MR) (RoleGroups nn) = (g', s') :: rev ((g, s) :: l)) as Hr'.
  { unfold range at 1. simpl. rewrite Hr. by rewrite app_comm_cons, rev_app_distr. }
  destruct (pods_head MR ci nn g s _ Hn Hr) as (a & Ha).
  destruct (pods_head (reversed MR) ci nn g' s' _ Hn Hr') as (b & Hb).
  assert (∀ (A : MapRange) x l, name_node_pods (MR := A) ci nn = x :: l → no_byte " " x = true) as Hsp.
  { intros A x l' Hx. pose proof (name_node_pods_named (MR := A) ci nn Hnames) as Hall.
    rewrite Hx in Hall. apply Forall_cons in Hall as [[[_ Hw] _] _].
    unfold no_byte. eapply str_forall_impl; [|exact Hw]. intros c.
    destruct (Ascii.eqb c " ") eqn:Hc; [|done]. by apply Ascii.eqb_eq in Hc as ->. }
  apply (f_equal (λ t, head (Split t " "))) in Heq. rewrite Ha, Hb in Heq.
  rewrite (Join_head _ a (Hsp _ _ _ Ha)), (Join_head _ b (Hsp _ _ _ Hb)) in Heq. apply (inj Some) in Heq. unfold pod_name in Heq.
  apply append_inj_r, full_name_inj in Heq as [_ ->]; [|done|set_solver..].
  assert (s = s') as ->.
  { assert ((g', s) ∈ range (MapRange := MR) (RoleGroups nn) ∧ (g', s') ∈ range (MapRange := MR) (RoleGroups nn))
      as [H1%elem_of_range H2%elem_of_range] by (rewrite Hr; set_solver). congruence. }
  pose proof (NoDup_range (MR := MR) (RoleGroups nn)) as Hnd. rewrite Hr in Hnd.
  apply NoDup_cons in Hnd as [Hnd _]. set_solver.
Qed.

(** The arguments of the init containers of a stateful set. *)
Definition init_args (s : StatefulSet (SecurityContext := SC)) : list (list string) :=
  concat (map (λ c, match c with
    | AddInitContainer c =>
        concat (map (λ k, match k with SetArgs args => [args] | _ => [] end) (ctr_Calls c))
    | _ => []
    end) (sts_Calls s)).

Lemma data_init_args (MR : MapRange) info image replicas config overrides instance b s :
  role_builder info image replicas config overrides instance DataNodeRole = Ret b → StatefulSet_Build b = Ret s →
  ∃ cfg args, ClusterConfig (Spec instance) = Some cfg ∧
    waitForNameNodes_GetArgs instance cfg info = Ret args ∧ init_args s = [[Join args (String nl "")]].
Proof.
  intros Hb Hs. apply StatefulSet_Build_inv in Hs as (mains & inits & cfg & cvs & vs & cs & vec & oidc & sa'
    & _ & Hinits & _ & _ & _ & _ & Hvec & Hoidc & _ & _ & _ & _ & _ & Hcalls).
  unfold role_builder in Hb. rewrite decide_False, decide_True in Hb by done.
  unfold NewDataNodeStatefulSetBuilder in Hb. injection Hb as <-.
  cbn [sb_component GetInitContainers data_sts_component] in Hinits.
  apply bind_ret_inv in Hinits as (c & _ & H). apply bind_ret_inv in H as (wait & Hw & [= <-]).
  unfold WaitForNameNodesContainer_Build in Hw. apply bind_ret_inv in Hw as (cfg' & Hcfg%deref_ret_inv & Hw).
  unfold build_container, BuildWithComponent in Hw. apply bind_ret_inv in Hw as (args & Hargs & [= <-]).
  exists cfg', args. split; [done|]. split; [done|].
  unfold init_args. rewrite Hcalls, !map_app, !concat_app. cbn [map concat].
  rewrite (concat_map_nil _ (map _ mains)) by (intros x (y & -> & _)%list_elem_of_fmap; reflexivity).
  rewrite (concat_map_nil _ vec), (concat_map_nil _ oidc), !app_nil_r, app_nil_l.
  - cbn [ctr_Calls app map concat]. rewrite concat_map_nil; [reflexivity|].
    intros k. unfold resource_calls. repeat case_match; rewrite ?list_elem_of_singleton, ?elem_of_nil;
      by intros ?; subst.
  - unfold addOIDCContainer in Hoidc. apply bind_ret_inv in Hoidc as (cfg0 & _ & Ho).
    intros x Hx. repeat case_match; simplify_eq/=; try by apply elem_of_nil in Hx.
    all: apply bind_ret_inv in Ho as (port & _ & Ho); apply bind_ret_inv in Ho as (oc & _ & [= <-]);
      destruct oc; [apply list_elem_of_singleton in Hx; congruence|by apply elem_of_nil in Hx].
  - intros x Hx. apply vector_calls in Hvec as [[_ ->]|(f & _ & _ & ->)]; [by apply elem_of_nil in Hx|].
    rewrite !elem_of_cons, elem_of_nil in Hx. by destruct Hx as [->|[->|[]]].
Qed.

Lemma StatefulSet_Build_ret (b : StatefulSetBuilder (SecurityContext := SC)) mains inits cfg cvs vs cs
    vec oidc u sa :
  GetMainContainers (sb_component b) = Ret mains → GetInitContainers (sb_component b) = Ret inits →
  deref (ClusterConfig (Spec (sb_instance b))) = Ret cfg →
  GetCommonVolumes cfg (hc_Name (sb_instance b)) (sb_roleGroupInfo b) = Ret cvs →
  GetVolumes (sb_component b) = Ret vs → GetVolumeClaimTemplates (sb_component b) = Ret cs →
  addVectorContainer b = Ret vec → addOIDCContainer b = Ret oidc → sts_object_ok = Ret u →
  GetServiceAccountName (sb_component b) = Ret sa → ∃ s, StatefulSet_Build b = Ret s.
Proof.
  intros H1 H2 H3 H4 H5 H6 H7 H8 H9 H10. unfold StatefulSet_Build.
  rewrite H1, H2, H3. cbn [mbind outcome_bind]. rewrite H4, H5, H6, H7, H8, H9, H10.
  cbn [mbind outcome_bind]. eauto.
Qed.

(** The init container of the data nodes can be built in every order. *)
Lemma data_rebuilds (MR1 MR2 : MapRange) ci instance nn :
  template_spec P → NameNode (Spec instance) = Some nn → replicas_ok nn → name_nodes_named ci nn →
  rebuilds MR1 MR2 ci instance.
Proof.
  intros HT Hnn Hrep Hnames g image rep c ov b1 b2 s info H1 H2 Hs.
  destruct c as [c|]; [|done]. unfold NewDataNodeStatefulSetBuilder in H1, H2.
  cbn [mbind outcome_bind deref] in H1, H2. injection H1 as <-. injection H2 as <-.
  unfold StatefulSet_Build in Hs.
  apply bind_ret_inv in Hs as (mains & Hm & Hs). apply bind_ret_inv in Hs as (inits & Hi & Hs).
  apply bind_ret_inv in Hs as (cfg & Hcfg & Hs). apply bind_ret_inv in Hs as (cvs & Hcvs & Hs).
  apply bind_ret_inv in Hs as (vs & Hvs & Hs). apply bind_ret_inv in Hs as (cs & Hcs & Hs).
  apply bind_ret_inv in Hs as (vec & Hvec & Hs). apply bind_ret_inv in Hs as (oidc & Hoidc & Hs).
  apply bind_ret_inv in Hs as (u & Hu & Hs). apply bind_ret_inv in Hs as (sa & Hsa & _).
  assert (∃ inits2, GetInitContainers (data_sts_component (MR := MR2) info image (Some c) instance)
                    = Ret inits2) as [inits2 Hi2].
  { apply deref_ret_inv in Hcfg. simpl in Hcfg. clear -HT Hnn Hrep Hnames Hcfg.
    cbn [GetInitContainers data_sts_component mbind outcome_bind deref].
    unfold WaitForNameNodesContainer_Build. cbn [cb_instance NewWaitForNameNodesContainerBuilder].
    rewrite Hcfg. cbn [mbind outcome_bind deref].
    destruct (wait_args instance cfg nn HT Hnn Hrep) as (r & Hr).
    destruct (Hr MR2 info Hnames) as [Hargs _]. unfold build_container, BuildWithComponent.
    match goal with |- context [GetArgs ?x] =>
      change (GetArgs x) with (waitForNameNodes_GetArgs (MR := MR2) instance cfg info) end.
    rewrite Hargs. eexists. reflexivity. }
  by eapply StatefulSet_Build_ret; [exact Hm|exact Hi2|..].
Qed.

(** The stateful sets among the objects: those of the role groups. *)
Definition set_of {MR : MapRange} (ci : ClusterInfo) (instance : HdfsCluster) (role : Role) (g : string)
    (s : StatefulSet (SecurityContext := SC)) : Prop :=
  ∃ b image replicas config overrides, StatefulSet_Build b = Ret s ∧
    role_builder (group_info ci role g) image replicas config overrides instance role = Ret b.

Lemma elem_of_cluster_objects {MR : MapRange} R ns rs os o :
  cluster_objects R ns rs = Ret os →
  o ∈ os ↔ ∃ r l, r ∈ rs ∧ cluster_resource_objects R ns r = Ret l ∧ o ∈ l.
Proof.
  unfold cluster_objects. intros H. apply bind_ret_inv in H as (ls & Hls & [= <-]).
  rewrite list_elem_of_In, in_concat. setoid_rewrite <- list_elem_of_In.
  setoid_rewrite (elem_of_mmap _ _ _ _ Hls). naive_solver.
Qed.

Lemma role_resource_in {MR : MapRange} v ci instance rs role spec :
  role ∈ [NameNodeRole; JournalNodeRole; DataNodeRole] → role_spec instance role = Some spec →
  Cluster_RegisterResources v ci instance = Ret rs →
  ∃ res, RoleResource role (cluster_stopped instance) res ∈ rs ∧
    role_made ci instance role (cluster_stopped instance) spec res.
Proof.
  intros Hrole Hspec H. apply registration_shape in H as (sa & nn & jn & dn & _ & -> & Hblocks).
  assert (∃ block, role_block ci instance role block ∧ ∀ x, x ∈ block → x ∈ nn ++ jn ++ dn)
    as (block & Hb & Hin).
  { destruct Hblocks as (Hn & Hj & Hd). rewrite !elem_of_cons, elem_of_nil in Hrole.
    setoid_rewrite elem_of_app. setoid_rewrite elem_of_app. destruct_or? Hrole; subst; eauto. }
  unfold role_block in Hb. rewrite Hspec in Hb. destruct Hb as (res & -> & Hmade).
  exists res. split; [|done]. rewrite (app_assoc nn), (app_assoc (nn ++ jn)), <- (app_assoc nn).
  apply elem_of_app. right. apply elem_of_app. left. apply Hin. left.
Qed.

(** A role group has its stateful set, and every stateful set is one of a role group. *)
Lemma base_set {MR : MapRange} R ns v ci instance bs role g :
  role ∈ [NameNodeRole; JournalNodeRole; DataNodeRole] →
  base_objects R ns v ci instance = Ret bs →
  is_Some (groups_of (role_spec instance role) !! g) →
  ∃ s stopped, StatefulSetObj s stopped ∈ bs ∧ set_of ci instance role g s.
Proof.
  intros Hrole H [gs Hg]. unfold base_objects in H. apply bind_ret_inv in H as (rs & Hrs & H).
  destruct (role_spec instance role) as [spec|] eqn:Hspec; [|done]. simpl in Hg.
  destruct (registration_last _ _ _ _ Hrs) as [Heq _].
  apply (role_resource_in _ _ _ _ role spec) in Hrs as (res & Hin & Hmade); [|done..].
  rewrite Heq in Hin. apply elem_of_app in Hin as [Hin|Hin%list_elem_of_singleton]; [|done].
  destruct (group_made_of _ _ _ _ _ _ _ _ Hmade Hg) as (svc & m & b & c & o & Hfour & [_ _ Hb]).
  destruct Hb as (image & config & Hb & _).
  pose proof H as Hos. unfold cluster_objects in Hos. apply bind_ret_inv in Hos as (ls & Hls & _).
  apply mmap_ret_inv in Hls. apply list_elem_of_lookup_1 in Hin as [i Hi].
  destruct (Forall2_lookup_l _ _ _ _ _ Hls Hi) as (l & _ & Hl). pose proof Hl as Hl'. simpl in Hl'.
  assert (StatefulSetResource b (cluster_stopped instance) ∈ res) as Hsts by (apply Hfour; set_solver).
  apply list_elem_of_lookup_1 in Hsts as [j Hj]. apply mmap_ret_inv in Hl'.
  destruct (Forall2_lookup_l _ _ _ _ _ Hl' Hj) as (o' & Ho' & Hbuild). simpl in Hbuild.
  apply bind_ret_inv in Hbuild as (s & Hs & [= <-]).
  exists s, (cluster_stopped instance). split; [|by exists b, image, (Replicas gs), config, (Some o)].
  eapply elem_of_cluster_objects; [exact H|]. eexists _, l. split; [by eapply list_elem_of_lookup_2|].
  split; [done|by eapply list_elem_of_lookup_2].
Qed.

Lemma desired_set {MR : MapRange} R ns v ci instance os role g :
  role ∈ [NameNodeRole; JournalNodeRole; DataNodeRole] →
  desired_objects R ns v ci instance = Ret os →
  is_Some (groups_of (role_spec instance role) !! g) →
  ∃ s stopped, StatefulSetObj s stopped ∈ os ∧ set_of ci instance role g s.
Proof.
  intros Hrole (bs & d & Hbs & _ & ->)%desired_split Hg.
  destruct (base_set _ _ _ _ _ _ role g Hrole Hbs Hg) as (s & st & Hs & Hset).
  exists s, st. split; [|done]. apply elem_of_app. by left.
Qed.

Lemma desired_set_inv {MR : MapRange} R ns v ci instance os s stopped :
  desired_objects R ns v ci instance = Ret os → StatefulSetObj s stopped ∈ os →
  ∃ role g, role ∈ [NameNodeRole; JournalNodeRole; DataNodeRole] ∧ set_of ci instance role g s.
Proof.
  intros H Hin. unfold desired_objects in H. apply bind_ret_inv in H as (rs & Hrs & H).
  apply (elem_of_cluster_objects _ _ _ _ _ H) in Hin as (r & l & Hr & Hl & Ho).
  destruct r as [name|role st res|i]; simpl in Hl.
  - injection Hl as <-. by apply list_elem_of_singleton in Ho.
  - apply (elem_of_mmap _ _ _ _ Hl) in Ho as (x & Hx & Hbuild).
    destruct x as [svc|b st'|c]; simpl in Hbuild; [done| |by apply bind_ret_inv in Hbuild as (? & _ & ?)].
    apply bind_ret_inv in Hbuild as (s' & Hs & [= -> ->]).
    apply (registered_role _ _ _ _ role st res) in Hrs as (_ & spec & _ & _ & Hspec & _ & _ & Hmade); [|done].
    destruct Hmade as (rss & -> & Hrss). apply list_elem_of_In, in_concat in Hx as (rs' & Hrs' & Hx).
    apply list_elem_of_In in Hx, Hrs'. apply list_elem_of_lookup_1 in Hrs' as [j Hj].
    destruct (Forall2_lookup_r _ _ _ _ _ Hrss Hj) as ([g gs] & _ & svc & m & b' & c & o & -> & [_ _ Hb]).
    destruct Hb as (image & config & Hb & _). exists role, g. split.
    + unfold role_spec in Hspec. repeat case_decide; subst; try done; repeat constructor.
    + unfold four in Hx. rewrite !elem_of_cons, elem_of_nil in Hx. destruct_or? Hx; try done.
      injection Hx as -> ->. by exists b', image, (Replicas gs), config, (Some o).
  - apply bind_ret_inv in Hl as (d & _ & [= <-]). by apply list_elem_of_singleton in Ho.
Qed.

(** The stateful sets of a group of data nodes, in an order and in its reverse. *)
Lemma data_sets_differ (MR : MapRange) ci instance nn g s s' :
  template_spec P → full_name_spec P → NameNode (Spec instance) = Some nn → name_nodes_named ci nn →
  groups_have_pods nn → 2 ≤ size (RoleGroups nn) →
  set_of (MR := MR) ci instance DataNodeRole g s →
  set_of (MR := reversed MR) ci instance DataNodeRole g s' → init_args s ≠ init_args s'.
Proof.
  intros HT HP Hnn Hnames Hpods Hsize (b & image & n & c & ov & Hs & Hb) (b' & image' & n' & c' & ov' & Hs' & Hb') Heq.
  destruct (data_init_args _ _ _ _ _ _ _ _ _ Hb Hs) as (cfg & args & Hcfg & Hargs & Hi).
  destruct (data_init_args _ _ _ _ _ _ _ _ _ Hb' Hs') as (cfg' & args' & Hcfg' & Hargs' & Hi').
  rewrite Hcfg in Hcfg'. injection Hcfg' as <-.
  destruct (wait_args instance cfg nn HT Hnn (groups_have_pods_ok _ Hpods)) as (r & Hr).
  destruct (Hr MR (group_info ci DataNodeRole g) Hnames) as [H1 H2].
  destruct (Hr (reversed MR) (group_info ci DataNodeRole g) Hnames) as [H1' H2'].
  rewrite Hargs in H1. rewrite Hargs' in H1'. injection H1 as Ha. injection H1' as Ha'.
  rewrite Hi, Hi', Ha, Ha', H2, H2' in Heq.
  apply (f_equal (λ l, head (default [] (head l)))) in Heq. apply (inj Some) in Heq.
  apply append_inj_l, wait_text_inj in Heq. by eapply (pods_reversed MR ci nn).
Qed.

(** With two groups of name nodes that have pods, the objects depend on the order
    in which Go visits the groups: visited backwards, they give the data nodes a
    stateful set of the same name whose init container has other arguments. *)
Lemma desired_orders_differ (MR : MapRange) R R' ns v ci instance nn g os os' :
  template_spec P → full_name_spec P → NameNode (Spec instance) = Some nn → name_nodes_named ci nn →
  groups_have_pods nn → 2 ≤ size (RoleGroups nn) → is_Some (groups_of (DataNode (Spec instance)) !! g) →
  desired_objects (MR := MR) R ns v ci instance = Ret os →
  desired_objects (MR := reversed MR) R' ns v ci instance = Ret os' →
  (∃ s s' st st', StatefulSetObj s st ∈ os ∧ StatefulSetObj s' st' ∈ os' ∧
     object_key (StatefulSetObj s st) = object_key (StatefulSetObj s' st') ∧ init_args s ≠ init_args s') ∧
  ¬ os ≡ₚ os'.
Proof.
  intros HT HP Hnn Hnames Hpods Hsize Hg H H'.
  assert (DataNodeRole ∈ [NameNodeRole; JournalNodeRole; DataNodeRole]) as Hrole by (repeat constructor).
  destruct (desired_set (MR := MR) R ns v ci instance os DataNodeRole g Hrole H Hg) as (s & st & Hs & Hset).
  assert (∀ A role g s, set_of (MR := A) ci instance role g s →
            sts_Name s = GetFullName (group_info ci role g)) as Hname.
  { intros A role g0 s0 (b & image & n & c & ov & Hs0 & Hb). apply StatefulSet_Build_name in Hs0.
    apply role_builder_parts in Hb as (_ & Hb & _). by rewrite Hs0, Hb. }
  split.
  - destruct (desired_set (MR := reversed MR) R' ns v ci instance os' DataNodeRole g Hrole H' Hg)
      as (s' & st' & Hs' & Hset').
    exists s, s', st, st'. split; [done|]. split; [done|]. split.
    + simpl. by rewrite (Hname _ _ _ _ Hset), (Hname _ _ _ _ Hset').
    + by eapply (data_sets_differ MR).
  - intros Hp. rewrite Hp in Hs.
    apply (desired_set_inv (MR := reversed MR) R' ns v ci instance os' s st) in Hs as (role & g' & Hrole' & Hset'); [|done].
    assert (role = DataNodeRole ∧ g' = g) as [-> ->].
    { apply (full_name_inj ci); [done..|]. by rewrite <- (Hname _ _ _ _ Hset), <- (Hname _ _ _ _ Hset'). }
    by eapply (data_sets_differ MR ci instance nn g s s).
Qed.

End shows.

(** ** Claims *)

(** C15. Within the namespace of the cluster no two objects of a reconciliation
    have the same kind and name, unless a role has a group that is named like
    another of its groups with "-metrics" appended; and then two have: the
    service of the one and the metrics service of the other. *)
Theorem object_names_distinct {P : Platform} {MR : MapRange} {O : ConfigMapOps} {L : ConfigMapLaws O}
    {SC : Type} {E : StatefulSetEnv SC} {Op : Operator (SC := SC)} R ns v ci instance os :
  full_name_spec P → ClusterName ci = hc_Name instance →
  desired_objects R ns v ci instance = Ret os →
  NoDup (map object_key os) ↔ no_metrics_clash instance.
Proof.
  intros HP Hci H. apply desired_keys in H as (sa & ->). by apply cluster_keys_NoDup.
Qed.

(** C16. With at most one group of name nodes and one of journal nodes, and one
    listener label on each pod, the objects of a reconciliation do not depend on
    the orders in which Go visits the maps: with any other orders it succeeds
    too, and builds the same objects. *)
Theorem map_order_irrelevant {P : Platform} {O : ConfigMapOps} {L : ConfigMapLaws O} {SC : Type}
    {E : StatefulSetEnv SC} {Op : Operator (SC := SC)} (MR1 MR2 : MapRange) R ns v ci instance os :
  order_free instance → one_listener R →
  desired_objects (MR := MR1) R ns v ci instance = Ret os →
  ∃ os', desired_objects (MR := MR2) R ns v ci instance = Ret os' ∧ os ≡ₚ os'.
Proof. apply desired_order. Qed.

(** ** Witnesses *)

Section samples.
#[local] Existing Instance sample_cm_ops.
#[local] Existing Instance sample_env.
#[local] Existing Instance sample_operator.

Definition sample_objects (MR : MapRange) (instance : HdfsCluster (P := sample_platform)) :=
  desired_objects (P := sample_platform) (SC := string) (sample_reads sample_ports) "default" "0.0.0"
    sample_cluster_info instance.

Definition sample_desired := get [] (sample_objects sorted_range (sample_cluster false)).

Lemma sample_desired_ret : sample_objects sorted_range (sample_cluster false) = Ret sample_desired.
Proof. apply get_ret. vm_compute. reflexivity. Qed.

Lemma sample_one_listener : one_listener (sample_reads sample_ports).
Proof.
  intros ns pod labels k1 v1 k2 v2 [= <-] H1 H2 _ _.
  apply lookup_singleton_Some in H1 as [<- _], H2 as [<- _]. reflexivity.
Qed.

Lemma sample_no_clash : no_metrics_clash (sample_cluster false).
Proof.
  intros role g Hrole [x Hx].
  assert (∀ n, groups_of (Some (sample_role n)) !! g = Some x →
            groups_of (Some (sample_role n)) !! (g +:+ "-metrics") = None) as Hone.
  { intros n Hg. unfold groups_of, sample_role, RoleGroups in *.
    by apply lookup_singleton_Some in Hg as [<- _]. }
  apply list_elem_of_In in Hrole. destruct Hrole as [<-|[<-|[<-|[]]]]; by apply Hone.
Qed.

Lemma object_names_distinct_witness : NoDup (map object_key sample_desired).
Proof.
  apply (@object_names_distinct sample_platform sorted_range sample_cm_ops sample_cm_laws string sample_env
    sample_operator (sample_reads sample_ports) "default" "0.0.0" sample_cluster_info (sample_cluster false)
    sample_desired sample_full_name eq_refl sample_desired_ret).
  exact sample_no_clash.
Defined.

Lemma map_order_irrelevant_witness :
  ∃ os, sample_objects (reversed sorted_range) (sample_cluster false) = Ret os ∧ sample_desired ≡ₚ os.
Proof.
  apply (@map_order_irrelevant sample_platform sample_cm_ops sample_cm_laws string sample_env
    sample_operator sorted_range (reversed sorted_range) (sample_reads sample_ports) "default" "0.0.0"
    sample_cluster_info (sample_cluster false)); [|exact sample_one_listener|exact sample_desired_ret].
  split; apply Nat.le_refl.
Defined.

(** Two groups of name nodes; the journal nodes look for the one that has the name of
    their group. *)
Definition two_name_node_groups : RoleSpec (P := sample_platform) := {|
  rs_Config := None; rs_OverridesSpec := None;
  RoleGroups := {[ "default" := sample_group 1; "other" := sample_group 1 ]};
|}.

Lemma elem_of_two_groups g s :
  RoleGroups two_name_node_groups !! g = Some s → (g = "default" ∨ g = "other") ∧ s = sample_group 1.
Proof.
  unfold two_name_node_groups, RoleGroups. rewrite lookup_insert_Some, lookup_singleton_Some. naive_solver.
Qed.

Definition two_groups : HdfsCluster (P := sample_platform) := {|
  hc_Name := "simple-hdfs"; hc_Namespace := "default"; hc_UID := "7f3c";
  Spec := {|
    Image := Image (Spec (sample_cluster false)); spec_ClusterOperation := None;
    ClusterConfig := Some (sample_cluster_config None);
    NameNode := Some two_name_node_groups;
    DataNode := Some (sample_role 1); JournalNode := Some (sample_role 3);
  |};
|}.

Lemma two_groups_named ci : ClusterName ci = "simple-hdfs" → name_nodes_named ci two_name_node_groups.
Proof.
  destruct ci as [gvk name]. simpl. intros -> g s [[-> | ->] _]%elem_of_two_groups;
    apply (bool_decide_eq_true_1 _); vm_compute; reflexivity.
Qed.

Lemma two_groups_pods : groups_have_pods two_name_node_groups.
Proof. intros g s [_ ->]%elem_of_two_groups. exists 1%Z. split; [reflexivity|lia]. Qed.

End samples.
