(* ===== verification/Rounds.v ===== *)
(** * Rounds: reconciliation after reconciliation

    The manager calls [Reconcile] again and again. Each round builds the objects
    of the cluster and writes the first that the API server does not have as
    built; Go's maps may be visited in different orders in different rounds.
    This file runs [Reconcile] (internal/controller/hdfscluster_controller.go)
    in rounds, over a store of objects that operator-go's reconcilers write and
    that may refuse a write, and shows when the rounds come to rest. *)

From S2P Require Import Prelude GoStd GoXml XmlUtil Api Util Security Components HdfsConf.
From S2P Require Import ConfigMaps Discovery RoleConfig Containers Oidc StatefulSets Services Roles Cluster.
From S2P Require Import GoTemplate Shell Scripts ScriptRuns ContainerScripts Objects.

(** ** The store and the reconcilers of operator-go *)

Section rounds.
Context {P : Platform} {O : ConfigMapOps} {L : ConfigMapLaws O} {SC : Type} {E : StatefulSetEnv SC}
  {Op : Operator (SC := SC)}.

(** What the operator sees of Kubernetes: what it reads, whether an object is
    stored as it was built, and what writing an object makes of the store, unless
    the API server refuses it. *)
Class Store := {
  store : Type;
  store_reads : store → Reads;
  stored : Object (SC := SC) → store → bool;
  write : Object (SC := SC) → store → error + store;
}.

(** What [Reconcile] and [Ready] of operator-go's cluster answer for the
    registered resources; [requeue] is the answer after a write. *)
Class Runtime {St : Store} := {
  requeue : Result;
  reconcile_in : MapRange → string → list (ClusterResource (SC := SC)) → store → outcome Result * store;
  ready_in : list (ClusterResource (SC := SC)) → store → outcome Result;
}.
Context {St : Store} {Rt : Runtime}.

(** The objects a registered resource writes; only the discovery reads the store. *)
Definition leaves {MR : MapRange} (ns : string) (r : ClusterResource (SC := SC))
    : list (Reads → outcome (Object (SC := SC))) :=
  match r with
  | ServiceAccountResource name => [λ _, Ret (ServiceAccountObj name)]
  | RoleResource _ _ rs => map (λ r _, resource_object ns r) rs
  | DiscoveryResource instance => [λ R, d ← discovery_Build R instance; Ret (ConfigMapObj d.2)]
  end.

(** Writing an object: a request to come back, or the error of the API server. *)
Definition attempt (later : Result) (o : Object (SC := SC)) (w : store) : outcome Result * store :=
  match write o w with
  | inr w' => (Ret later, w')
  | inl e => (Err e, w)
  end.

(** One pass over the objects: an object that is stored as built is left alone,
    the first other one is written and ends the pass with a request to come
    back, and so does an error. *)
Fixpoint pass (later : Result) (ls : list (Reads → outcome (Object (SC := SC)))) (w : store)
    : outcome Result * store :=
  match ls with
  | [] => (Ret zero_result, w)
  | l :: ls =>
      match l (store_reads w) with
      | Ret o => if stored o w then pass later ls w else attempt later o w
      | Err e => (Err e, w)
      | Panic p => (Panic p, w)
      | Beyond p => (Beyond p, w)
      end
  end.

(** The behaviour of operator-go that the rounds rely on, *)
Record runtime_spec : Prop := {
  reconcile_passes : ∀ (MR : MapRange) ns rs w,
    reconcile_in MR ns rs w = pass requeue (concat (map (leaves (MR := MR) ns) rs)) w;
  requeue_later : result_IsZero requeue = false;
}.

(** and that of the API server: a write it accepts stores the object, and leaves
    the objects of other names alone. *)
Record writes_spec : Prop := {
  write_stores : ∀ o w w', write o w = inr w' → stored o w' = true;
  write_keeps : ∀ o o' w w', write o w = inr w' → object_key o' ≠ object_key o →
    stored o' w = true → stored o' w' = true;
}.

(** ** A round *)

(** The operator whose resources are reconciled in the store [w]. *)
Definition operator_at (MR : MapRange) (ns : string) (w : store) : Operator (SC := SC) := {|
  MergeConfig := MergeConfig;
  MergeOverrides := MergeOverrides;
  reconcile_resources rs := (reconcile_in MR ns rs w).1;
  ready_resources rs := ready_in rs (reconcile_in MR ns rs w).2;
|}.

Context (v : string) (gvk : GroupVersionKind) (instance : HdfsCluster).

Definition the_cluster : ClusterInfo := {| GVK := Some gvk; ClusterName := hc_Name instance |}.

(** What a call of [Reconcile] returns, and the store after it. *)
Definition round (MR : MapRange) (w : store) : outcome Result * store :=
  let ns := hc_Namespace instance in
  let Opw := operator_at MR ns w in
  (Reconcile (MR := MR) (Op := Opw) v gvk (Ret instance),
   match Cluster_RegisterResources (MR := MR) (Op := Opw) v the_cluster instance with
   | Ret rs => (reconcile_in MR ns rs w).2
   | _ => w
   end).

(** Rounds with an order each, between which the rest of the cluster acts. *)
Context (orders : nat → MapRange) (env : nat → store → store) (w0 : store).

Fixpoint store_at (n : nat) : store :=
  match n with
  | 0 => w0
  | S n => env n (round (orders n) (store_at n)).2
  end.

(** Nobody else changes the objects of the operator. *)
Definition env_keeps : Prop := ∀ n o w, stored o w = true → stored o (env n w) = true.

(** ** A pass *)

Definition all_stored (os : list (Object (SC := SC))) (w : store) : Prop :=
  ∀ o, o ∈ os → stored o w = true.

Lemma pass_stored ls more os w :
  mmap (λ l : Reads → outcome Object, l (store_reads w)) ls = Ret os → all_stored os w →
  pass requeue (ls ++ more) w = pass requeue more w.
Proof.
  revert os. induction ls as [|l ls IH]; intros os H Hs; [done|]. cbn [mmap] in H.
  apply bind_ret_inv in H as (o & Ho & H). apply bind_ret_inv in H as (os' & Hos & [= <-]).
  cbn [app pass]. rewrite Ho, (Hs o) by left. apply (IH os' Hos). intros x Hx. apply Hs. by right.
Qed.

Lemma pass_writes ls more os w :
  mmap (λ l : Reads → outcome Object, l (store_reads w)) ls = Ret os → ¬ all_stored os w →
  ∃ o, o ∈ os ∧ stored o w = false ∧ pass requeue (ls ++ more) w = attempt requeue o w.
Proof.
  revert os. induction ls as [|l ls IH]; intros os H Hs; cbn [mmap] in H.
  { injection H as <-. destruct Hs. by intros o ?%elem_of_nil. }
  apply bind_ret_inv in H as (o & Ho & H). apply bind_ret_inv in H as (os' & Hos & [= <-]).
  cbn [app pass]. rewrite Ho. destruct (stored o w) eqn:Hst; [|exists o; split; [left|done]].
  destruct (IH os' Hos) as (o' & Ho' & Hst' & Hp).
  { intros Hall. apply Hs. intros x [->|Hx]%elem_of_cons; [done|by apply Hall]. }
  exists o'. split; [by right|done].
Qed.

Lemma attempt_later o w : result_IsZero requeue = false → (attempt requeue o w).1 ≠ Ret zero_result.
Proof.
  intros Hr H. unfold attempt in H. destruct (write o w); [done|]. injection H as H. by rewrite H in Hr.
Qed.

(** A pass that finds nothing to do found every object stored. *)
Lemma pass_zero ls w :
  result_IsZero requeue = false → (pass requeue ls w).1 = Ret zero_result →
  ∀ l, l ∈ ls → ∃ o, l (store_reads w) = Ret o ∧ stored o w = true.
Proof.
  intros Hr. induction ls as [|l ls IH]; intros H l'; [by intros ?%elem_of_nil|]. cbn [pass] in H.
  destruct (l (store_reads w)) as [o| | |] eqn:Hl; try discriminate H.
  destruct (stored o w) eqn:Hs; [|by apply attempt_later in H].
  intros [->|Hin]%elem_of_cons; [by exists o|by apply IH].
Qed.

(** The objects of the leaves. *)
Lemma mmap_map {A B C} (f : A → B) (g : B → outcome C) l : mmap g (map f l) = mmap (λ a, g (f a)) l.
Proof. induction l as [|a l IH]; [done|]. cbn [map mmap]. by rewrite IH. Qed.

Lemma leaves_objects {MR : MapRange} R ns rs :
  mmap (λ l : Reads → outcome Object, l R) (concat (map (leaves ns) rs)) = cluster_objects R ns rs.
Proof.
  induction rs as [|r rs IH]; [done|]. cbn [map concat]. rewrite mmap_app, IH.
  unfold cluster_objects. cbn [mmap].
  assert (mmap (λ l : Reads → outcome Object, l R) (leaves ns r) = cluster_resource_objects R ns r) as ->.
  { destruct r as [name|role st res|i]; cbn [leaves]; [done|by rewrite mmap_map|].
    cbn [mmap cluster_resource_objects]. by destruct (discovery_Build R i). }
  destruct (cluster_resource_objects R ns r); cbn [mbind outcome_bind]; [|done..].
  by destruct (mmap _ rs).
Qed.

Lemma base_reads {MR : MapRange} R R' ns v' ci i :
  base_objects R ns v' ci i = base_objects R' ns v' ci i.
Proof.
  unfold base_objects. destruct (Cluster_RegisterResources v' ci i) as [rs| | |] eqn:Hrs; [|done..].
  cbn [mbind outcome_bind]. apply registration_last in Hrs as [_ Hno]. unfold cluster_objects. f_equal.
  induction (removelast rs) as [|r rs' IH]; [done|]. cbn [mmap].
  rewrite IH by (intros i' Hi'; apply (Hno i'); by right).
  destruct r as [| |i']; [done..|]. exfalso. apply (Hno i'). left.
Qed.

(** ** A round *)

Let ns := hc_Namespace instance.

Lemma round_registered (MR : MapRange) w rs :
  Cluster_RegisterResources (MR := MR) v the_cluster instance = Ret rs →
  (round MR w).2 = (reconcile_in MR ns rs w).2 ∧
  ((round MR w).1 = Ret zero_result ↔
     (reconcile_in MR ns rs w).1 = Ret zero_result ∧
     ready_in rs (reconcile_in MR ns rs w).2 = Ret zero_result).
Proof.
  intros Hrs. change (Cluster_RegisterResources (MR := MR) (Op := operator_at MR ns w) v the_cluster instance
                      = Ret rs) in Hrs.
  unfold round. cbn [fst snd]. fold ns. rewrite Hrs. split; [done|].
  by destruct (reconcile_waits (MR := MR) (Op := operator_at MR ns w) v gvk instance rs Hrs) as [Hz _].
Qed.

(** What the reconcilers answer is what the round answers, unless it is zero. *)
Lemma round_answer (MR : MapRange) w rs :
  Cluster_RegisterResources (MR := MR) v the_cluster instance = Ret rs →
  (reconcile_in MR ns rs w).1 ≠ Ret zero_result → round MR w = reconcile_in MR ns rs w.
Proof.
  intros Hrs Hne. destruct (round_registered MR w rs Hrs) as [H2 _].
  apply injective_projections; [|done]. clear H2.
  change (Cluster_RegisterResources (MR := MR) (Op := operator_at MR ns w) v the_cluster instance
          = Ret rs) in Hrs.
  unfold round, Reconcile. cbn [fst mbind outcome_bind]. fold ns. fold the_cluster.
  rewrite Hrs. cbn [mbind outcome_bind].
  change (reconcile_resources (Operator := operator_at MR ns w) rs) with (reconcile_in MR ns rs w).1.
  destruct (reconcile_in MR ns rs w) as [[r|e|m|m] w']; cbn [fst mbind outcome_bind] in *; [|done..].
  destruct (result_IsZero r) eqn:Hz; [|done]. exfalso. apply Hne. f_equal. by apply result_zero.
Qed.

(** What a round does, by the objects that are stored. *)
Lemma round_writes (MR : MapRange) w R bs :
  runtime_spec → base_objects (MR := MR) R ns v the_cluster instance = Ret bs → ¬ all_stored bs w →
  ∃ o, o ∈ bs ∧ stored o w = false ∧ round MR w = attempt requeue o w.
Proof.
  intros Hrt Hbs Hno. rewrite (base_reads R (store_reads w)) in Hbs. unfold base_objects in Hbs.
  apply bind_ret_inv in Hbs as (rs & Hrs & Hbs). destruct (registration_last _ _ _ _ Hrs) as [Heq _].
  rewrite <- leaves_objects in Hbs.
  destruct (pass_writes _ (concat (map (leaves (MR := MR) ns) [DiscoveryResource instance])) _ w Hbs Hno)
    as (o & Ho & Hst & Hp).
  rewrite <- concat_app, <- map_app, <- Heq, <- (reconcile_passes Hrt MR) in Hp.
  exists o. split_and!; [done..|]. rewrite <- Hp. apply round_answer; [done|].
  rewrite Hp. by apply attempt_later, requeue_later.
Qed.

Lemma round_base_stored (MR : MapRange) w R bs :
  runtime_spec → base_objects (MR := MR) R ns v the_cluster instance = Ret bs → all_stored bs w →
  (round MR w).2 = match discovery_Build (MR := MR) (store_reads w) instance with
                   | Ret d => if stored (ConfigMapObj d.2) w then w else (attempt requeue (ConfigMapObj d.2) w).2
                   | _ => w
                   end ∧
  (∀ d, discovery_Build (MR := MR) (store_reads w) instance = Ret d → stored (ConfigMapObj d.2) w = true →
     (∀ rs, ready_in rs w = Ret zero_result) → (round MR w).1 = Ret zero_result).
Proof.
  intros Hrt Hbs Hall. rewrite (base_reads R (store_reads w)) in Hbs. unfold base_objects in Hbs.
  apply bind_ret_inv in Hbs as (rs & Hrs & Hbs). destruct (registration_last _ _ _ _ Hrs) as [Heq _].
  destruct (round_registered MR w rs Hrs) as [-> Hz].
  assert (reconcile_in MR ns rs w = pass requeue (leaves (MR := MR) ns (DiscoveryResource instance)) w) as Hp.
  { rewrite (reconcile_passes Hrt), Heq, map_app, concat_app. rewrite <- leaves_objects in Hbs.
    rewrite (pass_stored _ _ _ w Hbs Hall). cbn [map concat]. by rewrite app_nil_r. }
  rewrite Hp in *. cbn [leaves pass] in *. split.
  - destruct (discovery_Build (store_reads w) instance) as [d| | |]; cbn [mbind outcome_bind]; [|done..].
    by destruct (stored _ w).
  - intros d Hd Hst Hready. apply Hz. rewrite Hd. cbn [mbind outcome_bind]. by rewrite Hst.
Qed.

(** ** Progress *)

Definition missing (bs : list (Object (SC := SC))) (w : store) : nat :=
  length (List.filter (λ o, negb (stored o w)) bs).

Lemma missing_mono bs w w' :
  (∀ o, o ∈ bs → stored o w = true → stored o w' = true) → missing bs w' ≤ missing bs w.
Proof.
  unfold missing. induction bs as [|o bs IH]; intros H; [done|]. cbn [List.filter].
  assert (stored o w = true → stored o w' = true) as Ho by (apply H; left).
  specialize (IH ltac:(intros x Hx; apply H; by right)).
  destruct (stored o w), (stored o w'); cbn [negb length]; lia.
Qed.

Lemma missing_less bs w w' o :
  (∀ o, o ∈ bs → stored o w = true → stored o w' = true) → o ∈ bs → stored o w = false →
  stored o w' = true → missing bs w' < missing bs w.
Proof.
  intros H Hin Hw Hw'. unfold missing. induction bs as [|x bs IH]; [by apply elem_of_nil in Hin|].
  cbn [List.filter].
  assert (stored x w = true → stored x w' = true) as Hx by (apply H; left).
  assert (∀ o, o ∈ bs → stored o w = true → stored o w' = true) as Hbs by (intros y Hy; apply H; by right).
  apply elem_of_cons in Hin as [->|Hin].
  - rewrite Hw, Hw'. cbn [negb length]. pose proof (missing_mono bs w w' Hbs). unfold missing in *. lia.
  - specialize (IH Hbs Hin). destruct (stored x w), (stored x w'); cbn [negb length]; lia.
Qed.

Lemma missing_zero bs w : missing bs w = 0 ↔ all_stored bs w.
Proof.
  unfold missing, all_stored. rewrite length_zero_iff_nil. induction bs as [|o bs IH]; cbn [List.filter].
  - split; [intros _ o ?%elem_of_nil; done|done].
  - destruct (stored o w) eqn:Ho; cbn [negb].
    + rewrite IH. setoid_rewrite elem_of_cons. naive_solver.
    + split; [done|]. intros H. rewrite H in Ho by left. done.
Qed.

Lemma NoDup_map_inj {A B} (f : A → B) l x y :
  NoDup (map f l) → x ∈ l → y ∈ l → f x = f y → x = y.
Proof.
  induction l as [|a l IH]; [by intros _ ?%elem_of_nil|]. cbn [map].
  intros [Ha Hl]%NoDup_cons [->|Hx]%elem_of_cons [->|Hy]%elem_of_cons Hf; [done| | |by apply IH].
  - destruct Ha. rewrite Hf. by apply (list_elem_of_fmap_2 f).
  - destruct Ha. rewrite <- Hf. by apply (list_elem_of_fmap_2 f).
Qed.

(** Distinct names let the objects of the cluster be written one by one. *)
Lemma attempt_keeps bs o w :
  writes_spec → NoDup (map object_key bs) → o ∈ bs →
  ∀ o', o' ∈ bs → stored o' w = true → stored o' (attempt requeue o w).2 = true.
Proof.
  intros Hws Hnd Ho o' Ho' Hs. unfold attempt. destruct (write o w) as [e|w'] eqn:Hw; [done|]. simpl.
  destruct (decide (object_key o' = object_key o)) as [Hk|Hk].
  - assert (o' = o) as -> by (by eapply NoDup_map_inj). by apply (write_stores Hws _ _ _ Hw).
  - by apply (write_keeps Hws _ _ _ _ Hw).
Qed.

(** The API server accepts the objects of the cluster in a store. *)
Definition accepts (bs : list (Object (SC := SC))) (w : store) : Prop :=
  (∀ o, o ∈ bs → stored o w = false → ∃ w', write o w = inr w') ∧
  ∀ (MR : MapRange) d, discovery_Build (store_reads w) instance = Ret d → ∃ w', write (ConfigMapObj d.2) w = inr w'.

(** ** Coming to rest *)

Section converge.
Context (bs : list (Object (SC := SC))).
Hypothesis Hrt : runtime_spec.
Hypothesis Hws : writes_spec.
Hypothesis Hkeeps : env_keeps.
Hypothesis Hfree : order_free instance.
Hypothesis Hnames : full_name_spec P.
Hypothesis Hclash : no_metrics_clash instance.
Hypothesis Hbase : base_objects (MR := orders 0) (store_reads w0) ns v the_cluster instance = Ret bs.

Lemma base_at n : ∃ bs', bs ≡ₚ bs' ∧
  base_objects (MR := orders n) (store_reads w0) ns v the_cluster instance = Ret bs'.
Proof.
  destruct (base_order (orders 0) (orders n) _ _ _ _ _ _ Hfree Hbase) as (bs' & H & Hp). by exists bs'.
Qed.

Lemma base_NoDup : NoDup (map object_key bs) ∧ ("ConfigMap", hc_Name instance) ∉ map object_key bs.
Proof.
  destruct (base_keys (MR := orders 0) _ _ _ _ _ _ Hbase) as (sa & Hk).
  pose proof (proj2 (cluster_keys_NoDup (MR := orders 0) sa the_cluster instance Hnames eq_refl) Hclash) as Hnd.
  rewrite !app_assoc, app_comm_cons, <- !app_assoc, <- Hk in Hnd.
  apply NoDup_app in Hnd as (Hnd & Hdis & _). split; [done|]. intros Hin.
  by apply (Hdis _ Hin), list_elem_of_singleton.
Qed.

Lemma all_stored_perm os os' w : os ≡ₚ os' → all_stored os w → all_stored os' w.
Proof. intros Hp H o Ho. apply H. by rewrite Hp. Qed.

(** A stored object stays, whatever the round writes or fails to write. *)
Lemma round_keeps n o : o ∈ bs → stored o (store_at n) = true → stored o (store_at (S n)) = true.
Proof.
  intros Ho Hs. cbn [store_at]. apply Hkeeps. destruct (base_at n) as (bs' & Hp & Hb).
  destruct base_NoDup as [Hnd Hdis]. rewrite Hp in Ho, Hnd.
  destruct (decide (missing bs' (store_at n) = 0)) as [H0%missing_zero|Hm].
  - destruct (round_base_stored (orders n) _ _ bs' Hrt Hb H0) as [-> _].
    destruct (discovery_Build (MR := orders n) (store_reads (store_at n)) instance) as [d| | |] eqn:Hd; [|done..].
    destruct (stored (ConfigMapObj d.2) (store_at n)); [done|]. unfold attempt.
    destruct (write _ _) as [e|w'] eqn:Hw; [done|]. apply (write_keeps Hws _ _ _ _ Hw); [|done].
    rewrite (discovery_key (MR := orders n) _ _ _ Hd). intros Hk. apply Hdis. rewrite Hp, <- Hk.
    by apply (list_elem_of_fmap_2 object_key).
  - rewrite missing_zero in Hm. destruct (round_writes (orders n) _ _ bs' Hrt Hb Hm) as (x & Hx & _ & ->).
    by apply (attempt_keeps bs').
Qed.

Lemma step_writes n :
  accepts bs (store_at n) → missing bs (store_at n) ≠ 0 →
  missing bs (store_at (S n)) < missing bs (store_at n).
Proof.
  intros [Hacc _] Hm. destruct (base_at n) as (bs' & Hp & Hb).
  assert (¬ all_stored bs' (store_at n)) as Hno.
  { intros Hall. apply Hm, missing_zero. by eapply all_stored_perm. }
  destruct (round_writes (orders n) _ _ bs' Hrt Hb Hno) as (x & Hx & Hst & Hw).
  rewrite <- Hp in Hx. apply (missing_less _ _ _ x); [apply round_keeps|done..|].
  cbn [store_at]. rewrite Hw. apply Hkeeps. destruct (Hacc x Hx Hst) as [w' Hw'].
  unfold attempt. rewrite Hw'. by apply (write_stores Hws _ _ _ Hw').
Qed.

(** Every round [k] of a list in which the objects are accepted stores a further one. *)
Lemma missing_bound n l :
  NoDup l → (∀ k, k ∈ l → k < n ∧ accepts bs (store_at k)) → missing bs (store_at n) ≤ length bs - length l.
Proof.
  revert l. induction n as [|n IH]; intros l Hnd Hl.
  - destruct l as [|k l]; [|destruct (Hl k); [left|lia]].
    unfold missing. rewrite List.filter_length_le. simpl. lia.
  - pose proof (missing_mono bs _ _ (round_keeps n)) as Hmono.
    destruct (decide (n ∈ l)) as [Hn|Hn].
    + apply elem_of_Permutation in Hn as (l' & Hp). rewrite Hp in Hnd |- *. apply NoDup_cons in Hnd as [Hn Hnd].
      assert (missing bs (store_at n) ≤ length bs - length l') as Hm.
      { apply IH; [done|]. intros k Hk. destruct (Hl k) as [H1 H2]; [rewrite Hp; by right|].
        split; [|done]. assert (k ≠ n) by (by intros ->). lia. }
      destruct (Hl n) as [_ Hacc]; [rewrite Hp; by left|]. cbn [length].
      destruct (decide (missing bs (store_at n) = 0)) as [H0|H0]; [lia|].
      pose proof (step_writes n Hacc H0). lia.
    + etrans; [exact Hmono|]. apply IH; [done|]. intros k Hk. destruct (Hl k Hk) as [H1 H2].
      split; [|done]. assert (k ≠ n) by (by intros ->). lia.
Qed.

Lemma base_stored n l :
  NoDup l → (∀ k, k ∈ l → k < n ∧ accepts bs (store_at k)) → length bs ≤ length l →
  all_stored bs (store_at n).
Proof. intros Hnd Hl Hlen. apply missing_zero. pose proof (missing_bound n l Hnd Hl). lia. Qed.

Lemma base_stays n k : n ≤ k → all_stored bs (store_at n) → all_stored bs (store_at k).
Proof. intros Hnk Hall. induction Hnk as [|k _ IH]; [done|]. intros o Ho. by apply round_keeps, IH. Qed.

(** The objects of the cluster are accepted again and again. *)
Definition accepts_again : Prop := ∀ m, ∃ k, m ≤ k ∧ accepts bs (store_at k).

Lemma accepting_rounds c :
  accepts_again → ∃ n l, NoDup l ∧ length l = c ∧ ∀ k, k ∈ l → k < n ∧ accepts bs (store_at k).
Proof.
  intros Hagain. induction c as [|c (n & l & Hnd & Hlen & Hl)].
  { exists 0, []. split_and!; [constructor|done|by intros k ?%elem_of_nil]. }
  destruct (Hagain n) as (k & Hk & Hacc). exists (S k), (k :: l). split_and!; [|simpl; lia|].
  - apply NoDup_cons. split; [|done]. intros [Hlt _]%Hl. lia.
  - intros j [->|Hj]%elem_of_cons; [split; [lia|done]|]. destruct (Hl j Hj). split; [lia|done].
Qed.

(** With the objects stored, the pods come up, get their listeners and stay. *)
Definition settles : Prop :=
  (∃ n, ∀ k, n ≤ k → all_stored bs (store_at k)) →
  ∃ m d, ∀ k, m ≤ k →
    discovery_Build (MR := orders k) (store_reads (store_at k)) instance = Ret d ∧
    ∀ rs, ready_in rs (store_at k) = Ret zero_result.

Lemma rounds_settle :
  accepts_again → settles →
  ∃ N, ∀ n, N ≤ n → round (orders n) (store_at n) = (Ret zero_result, store_at n).
Proof.
  intros Hagain Hset. destruct (accepting_rounds (length bs) Hagain) as (n0 & l & Hnd & Hlen & Hl).
  assert (∀ k, n0 ≤ k → all_stored bs (store_at k)) as Hall.
  { intros k Hk. eapply base_stays; [exact Hk|]. apply (base_stored n0 l); [done..|lia]. }
  destruct Hset as (m & d & Hd); [by exists n0|].
  destruct (Hagain (m `max` n0)) as (N & HN & Hacc).
  assert (∀ k, N ≤ k →
    (round (orders k) (store_at k)).2 = (if stored (ConfigMapObj d.2) (store_at k) then store_at k
       else (attempt requeue (ConfigMapObj d.2) (store_at k)).2) ∧
    (stored (ConfigMapObj d.2) (store_at k) = true → (round (orders k) (store_at k)).1 = Ret zero_result)) as Hround.
  { intros k Hk. destruct (base_at k) as (bs' & Hp & Hb).
    destruct (round_base_stored (orders k) (store_at k) _ bs' Hrt Hb) as [H1 H2].
    { eapply all_stored_perm; [done|]. apply Hall. lia. }
    destruct (Hd k) as [Hdk Hready]; [lia|]. rewrite Hdk in H1. split; [done|]. intros Hst. by apply (H2 d). }
  assert (∀ j, stored (ConfigMapObj d.2) (store_at (S (N + j))) = true) as Hstored.
  { induction j as [|j IH].
    - rewrite Nat.add_0_r. cbn [store_at]. apply Hkeeps. destruct (Hround N) as [-> _]; [lia..|].
      destruct (stored _ (store_at N)) eqn:Hs; [done|].
      destruct (proj2 Hacc (orders N) d) as [w' Hw]; [apply Hd; lia|].
      unfold attempt. rewrite Hw. by apply (write_stores Hws _ _ _ Hw).
    - rewrite Nat.add_succ_r. cbn [store_at]. apply Hkeeps. destruct (Hround (S (N + j))) as [H _]; [lia..|].
      cbn [store_at] in H, IH. rewrite H. by rewrite IH. }
  exists (S N). intros n Hn. replace n with (S (N + (n - S N))) by lia.
  specialize (Hstored (n - S N)). destruct (Hround (S (N + (n - S N)))) as [H1 H2]; [lia..|].
  rewrite Hstored in H1. specialize (H2 Hstored). destruct (round _ _) as [r w]. by simplify_eq/=.
Qed.

End converge.

(** ** Unrest *)

Lemma mmap_total {A B} (f : A → outcome B) (Q : B → Prop) l :
  (∀ a, a ∈ l → ∃ b, f a = Ret b ∧ Q b) → ∃ bs, mmap f l = Ret bs ∧ ∀ b, b ∈ bs → Q b.
Proof.
  induction l as [|a l IH]; intros H; cbn [mmap].
  { exists []. split; [done|]. by intros b ?%elem_of_nil. }
  destruct (H a) as (b & Hb & HQ); [left|]. destruct IH as (bs & Hbs & HQs); [intros x Hx; apply H; by right|].
  exists (b :: bs). rewrite Hb. cbn [mbind outcome_bind]. rewrite Hbs. split; [done|].
  intros x [->|Hx]%elem_of_cons; auto.
Qed.

Lemma pass_zero_same ls w : result_IsZero requeue = false → (pass requeue ls w).1 = Ret zero_result → (pass requeue ls w).2 = w.
Proof.
  intros Hr. induction ls as [|l ls IH]; intros H; [done|]. cbn [pass] in *.
  destruct (l (store_reads w)) as [o| | |]; try done.
  destruct (stored o w); [by apply IH|]. by apply attempt_later in H.
Qed.

Lemma zero_registered (MR : MapRange) w :
  (round MR w).1 = Ret zero_result →
  ∃ rs, Cluster_RegisterResources (MR := MR) v the_cluster instance = Ret rs.
Proof.
  change ((round MR w).1 = Ret zero_result → ∃ rs,
    Cluster_RegisterResources (MR := MR) (Op := operator_at MR ns w) v the_cluster instance = Ret rs).
  unfold round. cbn [fst Reconcile]. fold ns the_cluster.
  destruct (Cluster_RegisterResources v the_cluster instance) as [rs| | |]; [by exists rs|done..].
Qed.

(** A round that reports a finished cluster found every object stored, and wrote nothing. *)
Lemma round_zero (MR : MapRange) w :
  runtime_spec → (round MR w).1 = Ret zero_result →
  (round MR w).2 = w ∧
  ∃ os, desired_objects (MR := MR) (store_reads w) ns v the_cluster instance = Ret os ∧ all_stored os w.
Proof.
  intros Hrt Hz. destruct (zero_registered MR w Hz) as [rs Hrs].
  destruct (round_registered MR w rs Hrs) as [-> Hiff]. destruct (proj1 Hiff Hz) as [Hz' _]. clear Hiff Hz. rename Hz' into Hz.
  rewrite (reconcile_passes Hrt) in *. split; [apply pass_zero_same; [apply (requeue_later Hrt)|done]|].
  destruct (mmap_total (λ l : Reads → outcome Object, l (store_reads w)) (λ o, stored o w = true)
    (concat (map (leaves (MR := MR) ns) rs))) as (os & Hos & Hall).
  { by apply pass_zero; [apply (requeue_later Hrt)|]. }
  rewrite leaves_objects in Hos. exists os. split; [|exact Hall].
  unfold desired_objects. by rewrite Hrs.
Qed.

(** So all objects of the cluster were stored. *)
Lemma zero_base_stored bs n :
  runtime_spec → order_free instance →
  base_objects (MR := orders 0) (store_reads w0) ns v the_cluster instance = Ret bs →
  (round (orders n) (store_at n)).1 = Ret zero_result → all_stored bs (store_at n).
Proof.
  intros Hrt Hfree Hbase Hz. apply round_zero in Hz as (_ & os & Hos & Hall); [|done].
  apply desired_split in Hos as (bs' & d & Hbs' & _ & ->).
  rewrite (base_reads (MR := orders n) _ (store_reads w0)) in Hbs'.
  destruct (base_at bs Hfree Hbase n) as (bs'' & Hp & Hbs''). rewrite Hbs'' in Hbs'. injection Hbs' as ->.
  intros o Ho. apply Hall, elem_of_app. left. by rewrite <- Hp.
Qed.

(** The API server has one pod template for a stateful set. *)
Definition one_template : Prop :=
  ∀ s s' st st' w, stored (StatefulSetObj s st) w = true → stored (StatefulSetObj s' st') w = true →
    object_key (StatefulSetObj s st) = object_key (StatefulSetObj s' st') → init_args s = init_args s'.

(** The API server stores no pod template with two volumes of one name. *)
Definition valid_pods : Prop :=
  ∀ s st w, stored (StatefulSetObj s st) w = true → NoDup (pod_volumes s).

(** The stateful sets that two orders make of a group of data nodes. *)
Lemma related_sets (MR1 MR2 : MapRange) o o' :
  related_objects MR1 MR2 the_cluster instance o o' → o ≠ o' →
  ∃ g s s' stopped, o = StatefulSetObj s stopped ∧ o' = StatefulSetObj s' stopped ∧
    set_of (MR := MR1) the_cluster instance DataNodeRole g s ∧
    set_of (MR := MR2) the_cluster instance DataNodeRole g s'.
Proof.
  intros [->|(g & image & rep & c & ov & b1 & b2 & s & s' & st & H1 & H2 & H3 & H4 & -> & ->)] Hne; [done|].
  destruct c as [c|]; [|done]. exists g, s, s', st. split_and!; [done..| |].
  - by exists b1, image, rep, c, ov.
  - by exists b2, image, rep, c, ov.
Qed.

Lemma set_of_name (MR : MapRange) role g s :
  set_of the_cluster instance role g s → sts_Name s = GetFullName (group_info the_cluster role g).
Proof.
  intros (b & image & n & c & ov & Hs & Hb). apply StatefulSet_Build_name in Hs.
  apply role_builder_parts in Hb as (_ & Hb & _). by rewrite Hs, Hb.
Qed.

End rounds.

(** ** Claims *)

Section claims.
Context {P : Platform} {O : ConfigMapOps} {L : ConfigMapLaws O} {SC : Type} {E : StatefulSetEnv SC}
  {Op : Operator (SC := SC)} {St : Store (SC := SC)} {Rt : Runtime (St := St)}.
Context (v : string) (gvk : GroupVersionKind) (instance : HdfsCluster).
Context (orders : nat → MapRange) (env : nat → store → store) (w0 : store).
Notation store_of := (store_at v gvk instance orders env w0).
Notation call := (round v gvk instance).
Notation ci := (the_cluster gvk instance).

(** C12. The rounds come to rest from any store, so also after the cluster was
    changed, and whatever orders Go chooses in each of them, for a cluster in
    which the orders do not show and no two objects share a name, when nobody
    else changes the objects. The API server may refuse a write: a round never
    loses an object that is stored; every round in which the server accepts the
    objects of the cluster stores a further one, until all but the discovery
    document are stored, which does not depend on the discovery, which may fail
    as long as the name nodes have no listeners; no round returns the zero
    result before; and when the server accepts the objects again and again and
    the pods become ready and their listeners known, the rounds end up returning
    the zero result and changing nothing. *)
Theorem rounds_converge bs :
  runtime_spec → writes_spec → env_keeps env → order_free instance → full_name_spec P →
  no_metrics_clash instance →
  base_objects (MR := orders 0) (store_reads w0) (hc_Namespace instance) v ci instance = Ret bs →
  (∀ n o, o ∈ bs → stored o (store_of n) = true → stored o (store_of (S n)) = true) ∧
  (∀ n l, NoDup l → (∀ k, k ∈ l → k < n ∧ accepts instance bs (store_of k)) → length bs ≤ length l →
     all_stored bs (store_of n)) ∧
  (∀ n, (call (orders n) (store_of n)).1 = Ret zero_result → all_stored bs (store_of n)) ∧
  (accepts_again v gvk instance orders env w0 bs → settles v gvk instance orders env w0 bs →
   ∃ N, ∀ n, N ≤ n → call (orders n) (store_of n) = (Ret zero_result, store_of n)).
Proof.
  intros. split_and!.
  - intros n o. by apply round_keeps.
  - intros n l. by apply base_stored.
  - intros n. by apply zero_base_stored.
  - by apply rounds_settle.
Qed.



End claims.

(** ** Witnesses *)

Section samples.
#[local] Existing Instance sample_cm_ops.
#[local] Existing Instance sample_env.
#[local] Existing Instance sample_operator.

Definition sample_object := Object (P := sample_platform) (SC := string).

(** A store that keeps, for each kind and name, the init arguments; a strict one
    refuses pods with two volumes of one name. *)
Definition template_of (o : sample_object) : list (list string) :=
  match o with StatefulSetObj s _ => init_args s | _ => [] end.

Definition admitted (strict : bool) (o : sample_object) : bool :=
  match o with StatefulSetObj s _ => negb strict || bool_decide (NoDup (pod_volumes s)) | _ => true end.

Definition sample_store (strict : bool) : Store (P := sample_platform) (SC := string) := {|
  store := gmap (string * string) (list (list string));
  store_reads _ := sample_reads sample_ports;
  stored o w := admitted strict o && bool_decide (w !! object_key o = Some (template_of o));
  write o w := if admitted strict o then inr (<[object_key o := template_of o]> w)
               else inl (EMsg "Duplicate value");
|}.

Definition sample_runtime (strict : bool) : Runtime (St := sample_store strict) := {|
  requeue := {| Requeue := false; RequeueAfter := 1 |};
  reconcile_in MR ns rs w :=
    pass (St := sample_store strict) {| Requeue := false; RequeueAfter := 1 |}
      (concat (map (leaves (MR := MR) ns) rs)) w;
  ready_in _ _ := Ret zero_result;
|}.

Lemma sample_runtime_spec strict : runtime_spec (Rt := sample_runtime strict).
Proof. by split. Qed.

Lemma sample_writes_spec strict : writes_spec (St := sample_store strict).
Proof.
  split.
  - intros o w w' Hw. simpl in *. destruct (admitted strict o); [|done]. injection Hw as <-.
    apply bool_decide_eq_true_2, lookup_insert_eq.
  - intros o o' w w' Hw Hk Hs. simpl in *. destruct (admitted strict o); [|done]. injection Hw as <-.
    apply andb_true_iff in Hs as [-> Hs%bool_decide_eq_true_1]. apply bool_decide_eq_true_2.
    etrans; [by apply lookup_insert_ne, not_eq_sym|exact Hs].
Qed.

Lemma sample_one_template strict : one_template (St := sample_store strict).
Proof.
  intros s s' st st' w Hs Hs' Hk. simpl in Hs, Hs'.
  apply andb_true_iff in Hs as [_ Hs%bool_decide_eq_true_1], Hs' as [_ Hs'%bool_decide_eq_true_1].
  simpl in Hk. rewrite Hk, Hs' in Hs. by injection Hs.
Qed.

Lemma sample_valid_pods : valid_pods (St := sample_store true).
Proof. intros s st w Hs. simpl in Hs. apply andb_true_iff in Hs as [Hs _]. by apply bool_decide_eq_true_1 in Hs. Qed.

Definition sample_gvk : GroupVersionKind :=
  {| Group := "hdfs.kubedoop.dev"; Version := "v1alpha1"; Kind := "HdfsCluster" |}.

(** Every second round visits the maps backwards. *)
Definition sample_orders (n : nat) : MapRange :=
  if Nat.even n then sorted_range else reversed sorted_range.

Definition sample_base :=
  get [] (base_objects (P := sample_platform) (MR := sorted_range) (SC := string)
    (sample_reads sample_ports) "default" "0.0.0" (the_cluster sample_gvk (sample_cluster false))
    (sample_cluster false)).

Lemma sample_base_ret :
  base_objects (P := sample_platform) (MR := sorted_range) (SC := string)
    (sample_reads sample_ports) "default" "0.0.0" (the_cluster sample_gvk (sample_cluster false))
    (sample_cluster false) = Ret sample_base.
Proof. apply get_ret. vm_compute. reflexivity. Qed.

Lemma sample_discovery :
  ∃ d, ∀ n, discovery_Build (P := sample_platform) (MR := sample_orders n) (sample_reads sample_ports)
              (sample_cluster false) = Ret d.
Proof.
  destruct (discovery_Build (P := sample_platform) (MR := sorted_range) (sample_reads sample_ports)
              (sample_cluster false)) as [d| | |] eqn:Hd; [|vm_compute in Hd; discriminate Hd..].
  exists d. intros n. rewrite <- Hd. apply discovery_order; [|exact sample_one_listener].
  split; apply Nat.le_refl.
Qed.

Lemma rounds_converge_witness :
  ∃ N, ∀ n, N ≤ n →
    let w := store_at (Rt := sample_runtime false) "0.0.0" sample_gvk (sample_cluster false) sample_orders
               (λ _ w, w) ∅ n in
    round (Rt := sample_runtime false) "0.0.0" sample_gvk (sample_cluster false) (sample_orders n) w
    = (Ret zero_result, w).
Proof.
  refine (proj2 (proj2 (proj2 (@rounds_converge sample_platform sample_cm_ops sample_cm_laws string sample_env
    sample_operator (sample_store false) (sample_runtime false) "0.0.0" sample_gvk (sample_cluster false)
    sample_orders (λ _ w, w) ∅ sample_base (sample_runtime_spec false) (sample_writes_spec false)
    (λ _ _ _ H, H) _ sample_full_name sample_no_clash sample_base_ret))) _ _).
  - split; apply Nat.le_refl.
  - intros m. exists m. split; [lia|]. split.
    + intros o _ _. destruct o; by eexists.
    + intros MR d _. by eexists.
  - intros _. destruct sample_discovery as [d Hd]. exists 0, d. intros k _. split; [apply Hd|done].
Defined.

Definition two_groups_stored : store (Store := sample_store false) :=
  foldl (λ w o, <[object_key o := template_of o]> w) (∅ : gmap _ _)
    (get [] (sample_objects sorted_range two_groups)).


(** The sample with TLS and Kerberos, whose objects can be built. *)
Definition sample_tls_cluster : HdfsCluster (P := sample_platform) := {|
  hc_Name := "simple-hdfs"; hc_Namespace := "default"; hc_UID := "7f3c";
  Spec := {|
    Image := Image (Spec (sample_cluster false)); spec_ClusterOperation := None;
    ClusterConfig := Some (sample_cluster_config sample_auth);
    NameNode := Some (sample_role 2); DataNode := Some (sample_role 1);
    JournalNode := Some (sample_role 3);
  |};
|}.

End samples.
