(* ===== verification/GoFlag.v ===== *)
(** * Command line flags

    The part of Go's package [flag] that [cmd/main.go] uses: the flags of a
    set with their values, and the loop of [Parse] with its syntax: one or two
    dashes, a value after an equals sign or in the next argument, boolean flags
    without a value, and [--] as the end. Flags that a library adds are a
    parameter. *)

From S2P Require Import Prelude GoStd.

(** The value a flag has; a library's flag has a state and a setter of its own. *)
Inductive Value :=
  | StringValue (s : string)
  | BoolValue (b : bool).

(** The flags a library binds: whether one is boolean, and how it is set; an
    unacceptable value gives nothing. *)
Class LibraryFlags := {
  lib_options : Type;
  lib_flag : string → option (bool * (string → lib_options → option lib_options));
}.

Section flags.
Context {L : LibraryFlags}.

Record FlagSet := { formal : gmap string Value; library : lib_options }.

Definition set_formal (m : gmap string Value) (f : FlagSet) : FlagSet :=
  {| formal := m; library := library f |}.
Definition set_library (o : lib_options) (f : FlagSet) : FlagSet :=
  {| formal := formal f; library := o |}.

(** [StringVar] and [BoolVar]; a name that is in use panics. *)
Definition define (name : string) (v : Value) (f : FlagSet) : outcome FlagSet :=
  match formal f !! name with
  | Some _ => Panic ("flag redefined: " +:+ name)
  | None => Ret (set_formal (<[name := v]> (formal f)) f)
  end.

Definition StringVar name value := define name (StringValue value).
Definition BoolVar name value := define name (BoolValue value).

(** [BindFlags] of the library defines its flags. *)
Definition BindFlags (f : FlagSet) : outcome FlagSet :=
  if decide (map_Forall (λ name _, lib_flag name = None) (formal f)) then Ret f
  else Panic "flag redefined".

(** [strconv.ParseBool]. *)
Definition ParseBool (s : string) : option bool :=
  if decide (s ∈ ["1"; "t"; "T"; "true"; "TRUE"; "True"]) then Some true
  else if decide (s ∈ ["0"; "f"; "F"; "false"; "FALSE"; "False"]) then Some false
  else None.

Definition FormatBool (b : bool) : string := if b then "true" else "false".

(** What parsing ends with: the set and the arguments left, a request for
    help, or a complaint. *)
Inductive parsed :=
  | Parsed (f : FlagSet) (args : list string)
  | ErrHelp
  | ErrUsage (why : string).

(** Splits at the first equals sign that is not the first byte. *)
Fixpoint cut (s : string) : string * option string :=
  match s with
  | EmptyString => ("", None)
  | String c s' =>
      if Ascii.eqb c "=" then ("", Some s')
      else let '(n, v) := cut s' in (String c n, v)
  end.

Definition cut_name (name : string) : string * option string :=
  match name with
  | EmptyString => ("", None)
  | String c rest => let '(n, v) := cut rest in (String c n, v)
  end.

(** Sets the flag [name]; [value] is what followed the equals sign, [args]
    are the arguments after this one. *)
Definition set_flag (name : string) (value : option string) (f : FlagSet) (args : list string)
    : parsed :=
  let with_value k :=
    match value, args with
    | Some v, _ => k v args
    | None, v :: args' => k v args'
    | None, [] => ErrUsage ("flag needs an argument: -" +:+ name)
    end in
  match formal f !! name, lib_flag name with
  | Some (BoolValue _), _ =>
      match ParseBool (default "true" value) with
      | Some b => Parsed (set_formal (<[name := BoolValue b]> (formal f)) f) args
      | None => ErrUsage ("invalid boolean value for -" +:+ name)
      end
  | Some (StringValue _), _ =>
      with_value (λ v args', Parsed (set_formal (<[name := StringValue v]> (formal f)) f) args')
  | None, Some (true, set) =>
      match set (default "true" value) (library f) with
      | Some o => Parsed (set_library o f) args
      | None => ErrUsage ("invalid boolean value for -" +:+ name)
      end
  | None, Some (false, set) =>
      with_value (λ v args',
        match set v (library f) with
        | Some o => Parsed (set_library o f) args'
        | None => ErrUsage ("invalid value for flag -" +:+ name)
        end)
  | None, None =>
      if decide (name = "help" ∨ name = "h") then ErrHelp
      else ErrUsage ("flag provided but not defined: -" +:+ name)
  end.

Definition bad_syntax (name : string) : bool :=
  match name with
  | EmptyString => true
  | String c _ => Ascii.eqb c "-" || Ascii.eqb c "="
  end.

(** One turn of [Parse] on an argument: [inl] ends the loop. *)
Definition parseOne (s : string) (f : FlagSet) (args : list string) : parsed + parsed :=
  let flag name :=
    if bad_syntax name then inl (ErrUsage ("bad flag syntax: " +:+ s))
    else let '(n, v) := cut_name name in inr (set_flag n v f args) in
  match s with
  | String "-" EmptyString => inl (Parsed f (s :: args))
  | String "-" (String "-" EmptyString) => inl (Parsed f args)
  | String "-" (String "-" name) => flag name
  | String "-" name => flag name
  | _ => inl (Parsed f (s :: args))
  end.

(** Each turn takes an argument away, so their number is enough [fuel]. *)
Fixpoint parse (fuel : nat) (args : list string) (f : FlagSet) : parsed :=
  match fuel, args with
  | S fuel', s :: args' =>
      match parseOne s f args' with
      | inl r => r
      | inr (Parsed f' args'') => parse fuel' args'' f'
      | inr r => r
      end
  | _, _ => Parsed f args
  end.

Definition Parse (args : list string) (f : FlagSet) : parsed := parse (length args) args f.

(** ** Lemmas *)

Lemma set_flag_args name value f args f' args' :
  set_flag name value f args = Parsed f' args' → length args' ≤ length args.
Proof.
  unfold set_flag. repeat case_match; intros H'; simplify_eq; simpl; lia.
Qed.

Lemma parseOne_args s f args f' args' :
  parseOne s f args = inr (Parsed f' args') → length args' ≤ length args.
Proof.
  unfold parseOne. intros H. repeat case_match; simplify_eq; by eapply set_flag_args.
Qed.

(** More fuel changes nothing: [Parse] stops at the end of the flags. *)
Lemma parse_fuel fuel args f : length args ≤ fuel → parse fuel args f = Parse args f.
Proof.
  unfold Parse. assert (∀ n fuel1 fuel2 args f, length args ≤ n → length args ≤ fuel1 →
    length args ≤ fuel2 → parse fuel1 args f = parse fuel2 args f) as H.
  { clear. induction n as [|n IH]; intros fuel1 fuel2 [|s args] f; simpl; intros;
      try lia; [by destruct fuel1, fuel2..|].
    destruct fuel1 as [|fuel1], fuel2 as [|fuel2]; try lia. simpl.
    destruct (parseOne s f args) as [?|[f' args'| |]] eqn:Hp; [done| |done..].
    apply parseOne_args in Hp. apply IH; lia. }
  intros Hle. by apply (H (length args)).
Qed.

Lemma Parse_cons s args f f' args' :
  parseOne s f args = inr (Parsed f' args') → Parse (s :: args) f = Parse args' f'.
Proof.
  intros H. unfold Parse at 1. simpl. rewrite H. apply parse_fuel. by eapply parseOne_args.
Qed.

(** *** Types of flags *)

Definition same_kind (v w : Value) : bool :=
  match v, w with
  | StringValue _, StringValue _ | BoolValue _, BoolValue _ => true
  | _, _ => false
  end.

Lemma cut_app n v : no_byte "=" n = true → cut (n +:+ String "=" v) = (n, Some v).
Proof.
  unfold no_byte. induction n as [|c n IH]; [done|]. rewrite append_cons. cbn [cut str_forall].
  intros [Hc Hn]%andb_true_iff. destruct (Ascii.eqb c "="); [done|]. by rewrite IH.
Qed.

Lemma cut_name_app n v :
  n ≠ "" → no_byte "=" n = true → cut_name (n +:+ String "=" v) = (n, Some v).
Proof.
  destruct n as [|c n]; [done|]. intros _ [_ Hn]%andb_true_iff.
  rewrite append_cons. cbn [cut_name]. by rewrite cut_app.
Qed.

(** A name as flags have it. *)
Definition flag_name (n : string) : bool :=
  match n with
  | EmptyString => false
  | String c _ => negb (Ascii.eqb c "-") && no_byte "=" n
  end.

(** An argument [-name=value]. *)
Lemma parseOne_assign n v f args :
  flag_name n = true →
  parseOne ("-" +:+ n +:+ "=" +:+ v) f args = inr (set_flag n (Some v) f args).
Proof.
  intros Hn. assert (no_byte "=" n = true ∧ n ≠ "") as [Heq Hne].
  { destruct n; [done|]. simpl in Hn. by apply andb_true_iff in Hn as [_ ?]. }
  pose proof (cut_name_app n v Hne Heq) as Hcut.
  destruct n as [|c n]; [done|]. cbn [flag_name] in Hn.
  apply andb_true_iff in Hn as [Hd He]. cbn in He. apply andb_true_iff in He as [He _].
  change ("-" +:+ String c n +:+ "=" +:+ v) with (String "-" (String c (n +:+ "=" +:+ v))).
  change (String c n +:+ String "=" v) with (String c (n +:+ "=" +:+ v)) in Hcut.
  assert (bad_syntax (String c (n +:+ "=" +:+ v)) = false) as Hb.
  { cbn. apply negb_true_iff in Hd, He. by rewrite Hd, He. }
  unfold parseOne. rewrite Hb, Hcut.
  destruct c as [[] [] [] [] [] [] [] []]; try done; discriminate Hd.
Qed.

End flags.
