(* ===== verification/Main.v ===== *)
(** * The operator process

    [cmd/main.go] and [internal/util/version/version.go]: the command line, the
    options of the metrics and webhook servers, and the start of the manager.
    What the controller framework answers to a call may depend on all calls
    made before; it is the class [Framework]. A process is the list of the
    calls it made, what it printed, and its exit code. *)

From S2P Require Import Prelude GoStd GoFlag.

(** ** version.go *)

(** The variables that the linker sets, and what package [runtime] reports. *)
Record BuildInfo := {
  BuildVersion : string;
  BuildTime : string;
  GitCommit : string;
  runtime_Version : string;
  runtime_Compiler : string;
  GOOS : string;
  GOARCH : string;
}.

Record AppInfo := {
  ai_Name : string;
  ai_AppVersion : string;
  ai_BuildTime : string;
  ai_GitCommit : string;
  ai_GoVersion : string;
  ai_Compiler : string;
  ai_Platform : string;
}.

Definition NewAppInfo (b : BuildInfo) (name : string) : AppInfo :=
  {| ai_Name := name; ai_AppVersion := BuildVersion b; ai_GitCommit := GitCommit b;
     ai_BuildTime := BuildTime b; ai_GoVersion := runtime_Version b;
     ai_Compiler := runtime_Compiler b; ai_Platform := GOOS b +:+ "/" +:+ GOARCH b |}.

Definition hex_digit (n : N) : ascii :=
  if (n <? 10)%N then ascii_of_N (48 + n) else ascii_of_N (87 + n).

(** A byte in a string of [encoding/json], which also escapes the characters
    of HTML; bytes above 127 are outside this model. *)
Definition json_byte (c : ascii) : outcome string :=
  let n := N_of_ascii c in
  if decide (c = quot) then Ret (String "\" (String quot ""))
  else if decide (c = "\"%char) then Ret "\\"
  else if decide (n = 8)%N then Ret "\b"
  else if decide (n = 12)%N then Ret "\f"
  else if decide (n = 10)%N then Ret "\n"
  else if decide (n = 13)%N then Ret "\r"
  else if decide (n = 9)%N then Ret "\t"
  else if decide (n < 32)%N then Ret ("\u00" +:+ String (hex_digit (n / 16)) (String (hex_digit (n mod 16)) ""))
  else if decide (c = "<" ∨ c = ">" ∨ c = "&")%char then
    Ret ("\u00" +:+ String (hex_digit (n / 16)) (String (hex_digit (n mod 16)) ""))
  else if decide (n < 128)%N then Ret (String c "")
  else Beyond "UTF-8 in JSON".

Fixpoint json_bytes (s : string) : outcome string :=
  match s with
  | EmptyString => Ret ""
  | String c s' => t ← json_byte c; t' ← json_bytes s'; Ret (t +:+ t')
  end.

Definition json_string (s : string) : outcome string := t ← json_bytes s; Ret (quoted t).

Definition json_field (f : string * string) : outcome string :=
  v ← json_string f.2; Ret (quoted f.1 +:+ ":" +:+ v).

(** The fields of [AppInfo] under their JSON names, in order. *)
Definition json_fields (a : AppInfo) : list (string * string) :=
  [ ("AppName", ai_Name a); ("AppVersion", ai_AppVersion a); ("BuildTime", ai_BuildTime a);
    ("GitCommit", ai_GitCommit a); ("GoVersion", ai_GoVersion a); ("Compiler", ai_Compiler a);
    ("Platform", ai_Platform a) ].

(** Marshalling strings has no error. *)
Definition AppInfo_String (a : AppInfo) : outcome string :=
  fields ← mmap json_field (json_fields a);
  Ret ("{" +:+ Join fields "," +:+ "}").

(** ** Options *)

(** The field of [tls.Config] that is set here. *)
Record TlsConfig := { NextProtos : list string }.

Definition disableHTTP2 (c : TlsConfig) : TlsConfig := {| NextProtos := ["http/1.1"] |}.

Record WebhookOptions := {
  wo_TLSOpts : list (TlsConfig → TlsConfig);
  wo_CertDir : string;
  wo_CertName : string;
  wo_KeyName : string;
}.

Record MetricsOptions := {
  BindAddress : string;
  SecureServing : bool;
  mo_TLSOpts : list (TlsConfig → TlsConfig);
  FilterProvider : option string;
  mo_CertDir : string;
  mo_CertName : string;
  mo_KeyName : string;
}.

Record ManagerOptions := {
  Metrics : MetricsOptions;
  HealthProbeBindAddress : string;
  LeaderElection : bool;
  WebhookServer : WebhookOptions;
  LeaderElectionID : string;
}.

(** A server applies its options to its configuration in order. *)
Definition apply_tls (opts : list (TlsConfig → TlsConfig)) (c : TlsConfig) : TlsConfig :=
  foldl (λ c f, f c) c opts.

(** ** The process *)

Inductive call :=
  | AddToScheme (package : string)
  | GetConfig
  | NewManager (o : ManagerOptions)
  | SetupWithManager (kind : string)
  | AddHealthzCheck (name : string)
  | AddReadyzCheck (name : string)
  | Start.

(** The error that the framework answers a call with, after the calls before
    it; [None] is success. [Start] answers when the manager has stopped. *)
Class Framework := answer : list call → call → option error.

Record process := { calls : list call; stdout : list string }.

(** A computation of the process: it goes on with a value, or ends the process
    with an exit code or a panic. *)
Definition proc (A : Type) : Type := process → process * (A + outcome Z).

#[export] Instance proc_ret : MRet proc := λ A a p, (p, inl a).
#[export] Instance proc_bind : MBind proc := λ A B f m p,
  match m p with
  | (p', inl a) => f a p'
  | (p', inr o) => (p', inr o)
  end.

Definition stop {A} (o : outcome Z) : proc A := λ p, (p, inr o).
Definition os_Exit {A} (code : Z) : proc A := stop (Ret code).

(** A computation that neither prints nor calls the framework. *)
Definition lift {A} (o : outcome A) : proc A :=
  match o with
  | Ret a => mret a
  | Err e => stop (Err e)
  | Panic w => stop (Panic w)
  | Beyond w => stop (Beyond w)
  end.
Definition Println (s : string) : proc unit :=
  λ p, ({| calls := calls p; stdout := stdout p ++ [s] |}, inl ()).

Section process.
Context {L : LibraryFlags} {F : Framework}.

Definition ask (c : call) : proc (option error) :=
  λ p, ({| calls := calls p ++ [c]; stdout := stdout p |}, inl (answer (calls p) c)).

(** [if err := c; err != nil], with what the branch ends with. *)
Definition check (o : outcome Z) (c : call) : proc unit :=
  e ← ask c;
  match e with Some _ => stop o | None => mret () end.

Definition Must (c : call) : proc unit := check (Panic "utilruntime.Must") c.
Definition or_exit (c : call) : proc unit := check (Ret 1%Z) c.

Definition init : proc unit :=
  _ ← Must (AddToScheme "k8s.io/client-go/kubernetes/scheme");
  _ ← Must (AddToScheme "github.com/zncdatadev/operator-go/pkg/apis/authentication/v1alpha1");
  _ ← Must (AddToScheme "github.com/zncdatadev/hdfs-operator/api/v1alpha1");
  Must (AddToScheme "github.com/zncdatadev/operator-go/pkg/apis/listeners/v1alpha1").

(** The variables that the flags are bound to. *)
Record Flags := {
  metricsAddr : string;
  probeAddr : string;
  enableLeaderElection : bool;
  secureMetrics : bool;
  webhookCertPath : string;
  webhookCertName : string;
  webhookCertKey : string;
  metricsCertPath : string;
  metricsCertName : string;
  metricsCertKey : string;
  enableHTTP2 : bool;
  showVersion : bool;
}.

(** [zap.Options] with [Development] set is [opts]. *)
Definition own_flags (opts : lib_options) : outcome FlagSet :=
  let f := {| formal := ∅; library := opts |} in
  f ← StringVar "metrics-bind-address" "0" f;
  f ← StringVar "health-probe-bind-address" ":8081" f;
  f ← BoolVar "leader-elect" false f;
  f ← BoolVar "metrics-secure" true f;
  f ← StringVar "webhook-cert-path" "" f;
  f ← StringVar "webhook-cert-name" "tls.crt" f;
  f ← StringVar "webhook-cert-key" "tls.key" f;
  f ← StringVar "metrics-cert-path" "" f;
  f ← StringVar "metrics-cert-name" "tls.crt" f;
  f ← StringVar "metrics-cert-key" "tls.key" f;
  f ← BoolVar "enable-http2" false f;
  BoolVar "version" false f.

Definition define_flags (opts : lib_options) : outcome FlagSet :=
  f ← own_flags opts; BindFlags f.

(** The value of a variable after parsing. *)
Definition string_var (f : FlagSet) (name : string) : string :=
  match formal f !! name with Some (StringValue s) => s | _ => "" end.
Definition bool_var (f : FlagSet) (name : string) : bool :=
  match formal f !! name with Some (BoolValue b) => b | _ => false end.

Definition flag_values (f : FlagSet) : Flags :=
  {| metricsAddr := string_var f "metrics-bind-address";
     probeAddr := string_var f "health-probe-bind-address";
     enableLeaderElection := bool_var f "leader-elect";
     secureMetrics := bool_var f "metrics-secure";
     webhookCertPath := string_var f "webhook-cert-path";
     webhookCertName := string_var f "webhook-cert-name";
     webhookCertKey := string_var f "webhook-cert-key";
     metricsCertPath := string_var f "metrics-cert-path";
     metricsCertName := string_var f "metrics-cert-name";
     metricsCertKey := string_var f "metrics-cert-key";
     enableHTTP2 := bool_var f "enable-http2";
     showVersion := bool_var f "version" |}.

(** [flag.Parse] on the command line: a request for help ends the process
    with 0, and a complaint with 2. *)
Definition parse_flags (opts : lib_options) (args : list string) : proc Flags :=
  f ← lift (define_flags opts);
  match Parse args f with
  | Parsed f' _ => mret (flag_values f')
  | ErrHelp => os_Exit 0
  | ErrUsage _ => os_Exit 2
  end.

Definition tlsOpts (v : Flags) : list (TlsConfig → TlsConfig) :=
  if negb (enableHTTP2 v) then [] ++ [disableHTTP2] else [].

Definition webhookServerOptions (v : Flags) : WebhookOptions :=
  let given := negb (bool_decide (webhookCertPath v = "")) in
  {| wo_TLSOpts := tlsOpts v;
     wo_CertDir := if given then webhookCertPath v else "";
     wo_CertName := if given then webhookCertName v else "";
     wo_KeyName := if given then webhookCertKey v else "" |}.

Definition metricsServerOptions (v : Flags) : MetricsOptions :=
  let given := negb (bool_decide (metricsCertPath v = "")) in
  {| BindAddress := metricsAddr v;
     SecureServing := secureMetrics v;
     mo_TLSOpts := tlsOpts v;
     FilterProvider := if secureMetrics v then Some "WithAuthenticationAndAuthorization" else None;
     mo_CertDir := if given then metricsCertPath v else "";
     mo_CertName := if given then metricsCertName v else "";
     mo_KeyName := if given then metricsCertKey v else "" |}.

Definition manager_options (v : Flags) : ManagerOptions :=
  {| Metrics := metricsServerOptions v;
     HealthProbeBindAddress := probeAddr v;
     LeaderElection := enableLeaderElection v;
     WebhookServer := webhookServerOptions v;
     LeaderElectionID := "377b9d1f.kubedoop.dev" |}.

(** From the version to the logger: prints it and ends. *)
Definition show_version (b : BuildInfo) (v : Flags) : proc unit :=
  if showVersion v then
    s ← lift (AppInfo_String (NewAppInfo b "hdfs-operator"));
    _ ← Println s;
    os_Exit 0
  else mret ().

(** [GetConfigOrDie] ends the process with code 1. *)
Definition start_manager (v : Flags) : proc unit :=
  _ ← or_exit GetConfig;
  _ ← or_exit (NewManager (manager_options v));
  _ ← or_exit (SetupWithManager "HdfsCluster");
  _ ← or_exit (AddHealthzCheck "healthz");
  _ ← or_exit (AddReadyzCheck "readyz");
  or_exit Start.

Definition main (b : BuildInfo) (opts : lib_options) (args : list string) : proc unit :=
  v ← parse_flags opts args;
  _ ← show_version b v;
  start_manager v.

(** The process from its start: [init] of the package, then [main]. *)
Definition program (b : BuildInfo) (opts : lib_options) (args : list string)
    : process * outcome Z :=
  match (_ ← init; main b opts args) {| calls := []; stdout := [] |} with
  | (p, inl ()) => (p, Ret 0%Z)
  | (p, inr o) => (p, o)
  end.

End process.

(** ** Lemmas on the command line *)

Section flags.
Context {L : LibraryFlags}.

(** The names the program itself defines. *)
Definition flag_names : list string :=
  [ "metrics-bind-address"; "health-probe-bind-address"; "leader-elect"; "metrics-secure";
    "webhook-cert-path"; "webhook-cert-name"; "webhook-cert-key"; "metrics-cert-path";
    "metrics-cert-name"; "metrics-cert-key"; "enable-http2"; "version" ].

(** The library has no flag of these names. *)
Definition library_apart : Prop := Forall (λ n, lib_flag n = None) flag_names.

Definition initial_flags (opts : lib_options) : FlagSet :=
  {| formal := list_to_map
       [ ("metrics-bind-address", StringValue "0"); ("health-probe-bind-address", StringValue ":8081");
         ("leader-elect", BoolValue false); ("metrics-secure", BoolValue true);
         ("webhook-cert-path", StringValue ""); ("webhook-cert-name", StringValue "tls.crt");
         ("webhook-cert-key", StringValue "tls.key"); ("metrics-cert-path", StringValue "");
         ("metrics-cert-name", StringValue "tls.crt"); ("metrics-cert-key", StringValue "tls.key");
         ("enable-http2", BoolValue false); ("version", BoolValue false) ];
     library := opts |}.

Lemma define_flags_ok opts : library_apart → define_flags opts = Ret (initial_flags opts).
Proof.
  intros Hlib.
  unfold define_flags. assert (own_flags opts = Ret (initial_flags opts)) as ->.
  { vm_compute. reflexivity. }
  cbn [mbind outcome_bind]. unfold BindFlags. rewrite decide_True; [done|].
  intros n v Hn. unfold library_apart in Hlib. rewrite Forall_forall in Hlib. apply Hlib.
  cbn [initial_flags formal] in Hn. apply elem_of_list_to_map_2 in Hn.
  apply list_elem_of_In, (in_map fst) in Hn. by apply list_elem_of_In.
Qed.

(** The argument [-name=value]. *)
Definition arg (nv : string * Value) : string :=
  "-" +:+ nv.1 +:+ "=" +:+ match nv.2 with StringValue s => s | BoolValue b => FormatBool b end.

(** The arguments that set every flag. *)
Definition flag_settings (v : Flags) : list (string * Value) :=
  [ ("metrics-bind-address", StringValue (metricsAddr v));
    ("health-probe-bind-address", StringValue (probeAddr v));
    ("leader-elect", BoolValue (enableLeaderElection v));
    ("metrics-secure", BoolValue (secureMetrics v));
    ("webhook-cert-path", StringValue (webhookCertPath v));
    ("webhook-cert-name", StringValue (webhookCertName v));
    ("webhook-cert-key", StringValue (webhookCertKey v));
    ("metrics-cert-path", StringValue (metricsCertPath v));
    ("metrics-cert-name", StringValue (metricsCertName v));
    ("metrics-cert-key", StringValue (metricsCertKey v));
    ("enable-http2", BoolValue (enableHTTP2 v));
    ("version", BoolValue (showVersion v)) ].

Definition flag_args (v : Flags) : list string := map arg (flag_settings v).

(** [nv] sets a flag that the set has. *)
Definition sets (m : gmap string Value) (nv : string * Value) : bool :=
  flag_name nv.1 && match m !! nv.1 with Some old => same_kind old nv.2 | None => false end.

Lemma Parse_arg nv f args :
  sets (formal f) nv = true →
  Parse (arg nv :: args) f = Parse args (set_formal (<[nv.1 := nv.2]> (formal f)) f).
Proof.
  destruct nv as [n v]. unfold sets. cbn [fst snd]. intros [Hn Hf]%andb_true_iff.
  apply Parse_cons. unfold arg. cbn [fst snd]. rewrite parseOne_assign by done.
  unfold set_flag. destruct (formal f !! n) as [old|]; [|done].
  destruct old, v; try done. cbn [from_option id].
  by match goal with |- context [FormatBool ?x] => destruct x end.
Qed.

Lemma sets_insert m nv nv' :
  sets m nv = true → sets m nv' = true → sets (<[nv.1 := nv.2]> m) nv' = true.
Proof.
  unfold sets. rewrite !andb_true_iff. intros [_ H] [Hn H']. split; [done|].
  rewrite lookup_insert. case_decide as He; [|done]. rewrite He in H.
  destruct (m !! nv'.1) as [old|]; [|done]. by destruct old, nv.2, nv'.2.
Qed.

Lemma Parse_args nvs f :
  forallb (sets (formal f)) nvs = true →
  Parse (map arg nvs) f
  = Parsed (set_formal (foldl (λ m nv, <[nv.1 := nv.2]> m) (formal f) nvs) f) [].
Proof.
  revert f. induction nvs as [|nv nvs IH]; intros f; cbn [forallb map foldl].
  { by destruct f. }
  intros [Hnv Hnvs]%andb_true_iff. rewrite Parse_arg, IH; [done| |done].
  cbn [set_formal formal]. rewrite forallb_forall in Hnvs |- *. eauto using sets_insert.
Qed.

(** C37. Every configuration of the process can be given on the command line
    and is read back exactly, whatever the values are (a value may itself hold
    equals signs or dashes), when the logging library brings no flag of the
    same name. *)
Theorem command_line_roundtrip {F : Framework} opts v p :
  library_apart → parse_flags opts (flag_args v) p = (p, inl v).
Proof.
  intros Hlib. unfold parse_flags. rewrite define_flags_ok by done.
  unfold mbind, proc_bind, lift, mret, proc_ret, flag_args.
  rewrite Parse_args by (vm_compute; reflexivity). destruct v. vm_compute. reflexivity.
Qed.

End flags.

(** ** Lemmas on the process *)

Section runs.
Context {L : LibraryFlags} {F : Framework}.

(** The calls of the start, each with what its failure ends the process with. *)
Definition scheme_calls : list (call * outcome Z) :=
  map (λ p, (AddToScheme p, Panic "utilruntime.Must"))
    [ "k8s.io/client-go/kubernetes/scheme";
      "github.com/zncdatadev/operator-go/pkg/apis/authentication/v1alpha1";
      "github.com/zncdatadev/hdfs-operator/api/v1alpha1";
      "github.com/zncdatadev/operator-go/pkg/apis/listeners/v1alpha1" ].

Definition manager_calls (v : Flags) : list (call * outcome Z) :=
  map (λ c, (c, Ret 1%Z))
    [ GetConfig; NewManager (manager_options v); SetupWithManager "HdfsCluster";
      AddHealthzCheck "healthz"; AddReadyzCheck "readyz"; Start ].

(** Calls in order up to the first that fails. *)
Fixpoint in_order (l : list (call * outcome Z)) : proc unit :=
  match l with
  | [] => mret ()
  | (c, o) :: l' => _ ← check o c; in_order l'
  end.

Lemma proc_bind_assoc {A B C} (m : proc A) (f : A → proc B) (g : B → proc C) p :
  ((m ≫= f) ≫= g) p = (m ≫= λ a, f a ≫= g) p.
Proof. unfold mbind, proc_bind. destruct (m p) as [p' [a|o]]; done. Qed.

Lemma proc_bind_ext {A B} (m : proc A) (f g : A → proc B) p :
  (∀ a p', f a p' = g a p') → (m ≫= f) p = (m ≫= g) p.
Proof. intros H. unfold mbind, proc_bind. destruct (m p) as [p' [a|o]]; done. Qed.

Lemma in_order_app l1 l2 p : in_order (l1 ++ l2) p = (in_order l1 ≫= λ _, in_order l2) p.
Proof.
  revert p. induction l1 as [|[c o] l1 IH]; intros p; [done|].
  cbn [app in_order]. rewrite proc_bind_assoc. apply proc_bind_ext. intros _ p'. apply IH.
Qed.

Lemma in_order_last c o p : check o c p = in_order [(c, o)] p.
Proof.
  unfold in_order, check, mbind, proc_bind, mret, proc_ret.
  destruct (ask c p) as [p' [[e|]|o']]; done.
Qed.

Lemma init_calls p : init p = in_order scheme_calls p.
Proof. unfold init, Must. do 3 (apply proc_bind_ext; intros _ ?). apply in_order_last. Qed.

Lemma start_manager_calls v p : start_manager v p = in_order (manager_calls v) p.
Proof. unfold start_manager, or_exit. do 5 (apply proc_bind_ext; intros _ ?). apply in_order_last. Qed.

(** After [before], the calls [cs] all succeed. *)
Definition succeed_after (before cs : list call) : Prop :=
  ∀ cs1 c cs2, cs = cs1 ++ c :: cs2 → answer (before ++ cs1) c = None.

(** What [in_order] does: all calls, or those up to the first that fails. *)
Lemma in_order_spec l p :
  (in_order l p = ({| calls := calls p ++ l.*1; stdout := stdout p |}, inl ()) ∧
   succeed_after (calls p) l.*1) ∨
  ∃ l1 c o l2 e, l = l1 ++ (c, o) :: l2 ∧
    in_order l p = ({| calls := calls p ++ l1.*1 ++ [c]; stdout := stdout p |}, inr o) ∧
    succeed_after (calls p) l1.*1 ∧ answer (calls p ++ l1.*1) c = Some e.
Proof.
  revert p. induction l as [|[c o] l IH]; intros p.
  { left. split; [|by intros [] ? ? ?]. simpl. rewrite app_nil_r. by destruct p. }
  cbn [in_order]. unfold check, ask. unfold mbind, proc_bind.
  destruct (answer (calls p) c) as [e|] eqn:Ha.
  { right. exists [], c, o, l, e. rewrite app_nil_r. split_and!; try done. by intros [] ? ? ?. }
  set (p' := {| calls := calls p ++ [c]; stdout := stdout p |}).
  assert (∀ cs, succeed_after (calls p') cs → succeed_after (calls p) (c :: cs)) as Hs.
  { intros cs H cs1 c' cs2 Hcs. destruct cs1 as [|d cs1]; simplify_eq/=.
    - by rewrite app_nil_r.
    - rewrite (app_assoc _ [d] cs1). by eapply H. }
  destruct (IH p') as [[Hrun Hok]|(l1 & d & o' & l2 & e & -> & Hrun & Hok & He)];
    unfold mret, proc_ret, mbind, proc_bind in Hrun |- *; rewrite Hrun; cbn [calls p'].
  - left. split; [|by apply Hs]. simpl. by rewrite <- app_assoc.
  - right. exists ((c, o) :: l1), d, o', l2, e. split_and!; [done| |by apply Hs|].
    + simpl. by rewrite <- app_assoc.
    + simpl in He |- *. by rewrite <- app_assoc in He.
Qed.

Lemma program_calls b opts args :
  program b opts args
  = match (in_order scheme_calls ≫= λ _, main b opts args) {| calls := []; stdout := [] |} with
    | (p, inl ()) => (p, Ret 0%Z)
    | (p, inr o) => (p, o)
    end.
Proof.
  unfold program. pose proof (init_calls {| calls := []; stdout := [] |}) as H.
  unfold mbind, proc_bind. by rewrite H.
Qed.

Lemma main_starts b opts args f' rest p :
  library_apart → Parse args (initial_flags opts) = Parsed f' rest →
  showVersion (flag_values f') = false →
  main b opts args p = in_order (manager_calls (flag_values f')) p.
Proof.
  intros Hlib Hparse Hv. unfold main, parse_flags. rewrite define_flags_ok by done.
  unfold mbind, proc_bind, lift, mret, proc_ret. rewrite Hparse.
  unfold show_version. rewrite Hv. apply start_manager_calls.
Qed.

(** Both servers offer HTTP/1.1 only, unless HTTP/2 is enabled. *)
Lemma manager_options_tls v c :
  let servers := [mo_TLSOpts (Metrics (manager_options v)); wo_TLSOpts (WebhookServer (manager_options v))] in
  ∀ opts, opts ∈ servers →
    apply_tls opts c = if enableHTTP2 v then c else {| NextProtos := ["http/1.1"] |}.
Proof.
  simpl. unfold tlsOpts. intros opts Ho.
  assert (opts = if negb (enableHTTP2 v) then [] ++ [disableHTTP2] else []) as -> by set_solver.
  by destruct (enableHTTP2 v).
Qed.

(** C36. With a command line that parses and does not ask for the version, the
    process makes the calls of its start in order and stops at the first that
    fails: a failing registration of types panics, any later failure ends it
    with exit code 1, and it ends with 0 only after the manager was started
    with the controller and both probes in place and has stopped without an
    error. The manager gets the options of the command line; both of its
    servers then refuse HTTP/2 unless it was enabled, and metrics that are
    served securely are behind authentication. *)
Theorem process_starts_in_order b opts args f' rest :
  library_apart → Parse args (initial_flags opts) = Parsed f' rest →
  let v := flag_values f' in
  showVersion v = false →
  let steps := scheme_calls ++ manager_calls v in
  let '(p, r) := program b opts args in
  stdout p = [] ∧
  ((calls p = steps.*1 ∧ succeed_after [] steps.*1 ∧ r = Ret 0%Z) ∨
   (∃ before c after e, steps = before ++ (c, r) :: after ∧ calls p = before.*1 ++ [c] ∧
      succeed_after [] before.*1 ∧ answer before.*1 c = Some e)) ∧
  ∀ o, NewManager o ∈ calls p →
    (SecureServing (Metrics o) = true → is_Some (FilterProvider (Metrics o))) ∧
    ∀ tls, tls ∈ [mo_TLSOpts (Metrics o); wo_TLSOpts (WebhookServer o)] →
      ∀ c, apply_tls tls c = if enableHTTP2 v then c else {| NextProtos := ["http/1.1"] |}.
Proof.
  intros Hlib Hparse v Hv steps.
  assert (program b opts args
          = match in_order steps {| calls := []; stdout := [] |} with
            | (p, inl ()) => (p, Ret 0%Z)
            | (p, inr o) => (p, o)
            end) as ->.
  { rewrite program_calls. unfold steps. rewrite in_order_app.
    rewrite (proc_bind_ext _ _ (λ _, in_order (manager_calls v))); [done|].
    intros [] p. by eapply main_starts. }
  assert (∀ o, NewManager o ∈ steps.*1 → o = manager_options v) as Hopts.
  { intros o Ho. unfold steps, scheme_calls, manager_calls in Ho. simpl in Ho. set_solver. }
  assert (∀ o, o = manager_options v →
    (SecureServing (Metrics o) = true → is_Some (FilterProvider (Metrics o))) ∧
    ∀ tls, tls ∈ [mo_TLSOpts (Metrics o); wo_TLSOpts (WebhookServer o)] →
      ∀ c, apply_tls tls c = if enableHTTP2 v then c else {| NextProtos := ["http/1.1"] |}) as Hsafe.
  { intros o ->. split; [simpl; intros ->; by eexists|].
    intros tls Htls c. by apply manager_options_tls. }
  destruct (in_order_spec steps {| calls := []; stdout := [] |})
    as [[-> Hok]|(l1 & c & o & l2 & e & Heq & -> & Hok & He)]; cbn [calls stdout app] in *.
  - split_and!; [done|by left|]. intros o Ho. by apply Hsafe, Hopts.
  - split_and!; [done|right; by exists l1, c, l2, e|]. intros o' Ho'. apply Hsafe, Hopts.
    rewrite Heq, fmap_app. simpl. set_solver.
Qed.

(** ** The version *)

(** Reading a JSON string after its opening quote: the text and the rest. *)
Definition hex_value (c : ascii) : N :=
  let n := N_of_ascii c in if is_digit c then (n - 48)%N else (n - 87)%N.

Definition unescape (c : ascii) : ascii :=
  if Ascii.eqb c "b" then "008"%char else if Ascii.eqb c "f" then "012"%char
  else if Ascii.eqb c "n" then nl else if Ascii.eqb c "r" then cr
  else if Ascii.eqb c "t" then "009"%char else c.

Fixpoint read_string (s : string) : option (string * string) :=
  match s with
  | EmptyString => None
  | String c s' =>
      if Ascii.eqb c quot then Some ("", s')
      else if Ascii.eqb c "\" then
        match s' with
        | String "u" (String "0" (String "0" (String h (String l r)))) =>
            '(t, r') ← read_string r; Some (String (ascii_of_N (16 * hex_value h + hex_value l)) t, r')
        | String e r => '(t, r') ← read_string r; Some (String (unescape e) t, r')
        | EmptyString => None
        end
      else '(t, r) ← read_string s'; Some (String c t, r)
  end.

Definition skip (c : ascii) (s : string) : option string :=
  match s with String d s' => if Ascii.eqb c d then Some s' else None | EmptyString => None end.

Definition read_field (s : string) : option (string * string * string) :=
  s ← skip quot s;
  '(k, s) ← read_string s;
  s ← skip ":" s; s ← skip quot s;
  '(v, s) ← read_string s;
  Some (k, v, s).

(** The fields of an object of strings, up to its closing brace. *)
Fixpoint read_fields (fuel : nat) (s : string) : option (list (string * string)) :=
  match fuel with
  | O => None
  | S fuel' =>
      '(k, v, s) ← read_field s;
      match s with
      | String "," s' => l ← read_fields fuel' s'; Some ((k, v) :: l)
      | "}" => Some [(k, v)]
      | _ => None
      end
  end.

Definition read_object (s : string) : option (list (string * string)) :=
  s' ← skip "{" s; read_fields (String.length s) s'.

Definition is_ascii (s : string) : bool := str_forall (λ c, N.ltb (N_of_ascii c) 128) s.

Lemma json_byte_ok c : (N_of_ascii c <? 128)%N = true → ∃ t, json_byte c = Ret t ∧
  ∀ r, read_string (t +:+ r) = ('(t', r') ← read_string r; Some (String c t', r')).
Proof.
  intros Hc. destruct c as [[] [] [] [] [] [] [] []]; try discriminate Hc;
    (eexists; split; [vm_compute; reflexivity|intros r; reflexivity]).
Qed.

Lemma json_bytes_ok s : is_ascii s = true → ∃ t, json_bytes s = Ret t ∧
  ∀ r, read_string (t +:+ String quot r) = Some (s, r).
Proof.
  induction s as [|c s IH]; intros H; [by exists ""|].
  cbn in H. apply andb_true_iff in H as [Hc Hs].
  destruct (json_byte_ok c Hc) as (t & Ht & Hread), (IH Hs) as (t' & Ht' & Hread').
  exists (t +:+ t'). cbn [json_bytes]. rewrite Ht, Ht'. split; [done|].
  intros r. rewrite append_assoc, Hread, Hread'. done.
Qed.

Lemma json_field_ok k v :
  is_ascii k = true → json_bytes k = Ret k → is_ascii v = true →
  ∃ t, json_field (k, v) = Ret t ∧ t ≠ "" ∧ ∀ r, read_field (t +:+ r) = Some (k, v, r).
Proof.
  intros Hk Hraw Hv. destruct (json_bytes_ok k Hk) as (k' & Hk' & Hread).
  rewrite Hraw in Hk'. injection Hk' as <-.
  destruct (json_bytes_ok v Hv) as (t & Ht & Hreadv).
  unfold json_field, json_string. cbn [fst snd]. rewrite Ht. cbn [mbind outcome_bind].
  eexists. split_and!; [reflexivity|done|]. intros r.
  unfold quoted. rewrite !append_cons, !append_assoc, !append_cons.
  unfold read_field, skip. rewrite Ascii.eqb_refl. cbn [mbind option_bind].
  change ("" +:+ ?x) with x. rewrite Hread. cbn [mbind option_bind].
  change (("" +:+ String quot ?x) +:+ r) with (String quot (x +:+ r)). cbn [Ascii.eqb Bool.eqb].
  rewrite (append_assoc t (String quot "") r). change (String quot "" +:+ r) with (String quot r).
  cbn. by rewrite Hreadv.
Qed.

(** Fields that can be written and read. *)
Definition plain_field (f : string * string) : Prop :=
  is_ascii f.1 = true ∧ json_bytes f.1 = Ret f.1 ∧ is_ascii f.2 = true.

Lemma json_fields_ok fs :
  Forall plain_field fs → fs ≠ [] →
  ∃ ts, mmap json_field fs = Ret ts ∧ length fs ≤ String.length (Join ts ",") ∧
    ∀ fuel, length fs ≤ fuel → read_fields fuel (Join ts "," +:+ "}") = Some fs.
Proof.
  intros Hfs. induction Hfs as [|[k v] fs (Hk & Hraw & Hv) Hfs IH]; [done|]. intros _.
  destruct (json_field_ok k v Hk Hraw Hv) as (t & Ht & Hne & Hread).
  destruct fs as [|f fs'].
  - exists [t]. cbn [mmap]. rewrite Ht. split_and!; [done|destruct t; simpl; [done|lia]|].
    intros [|fuel] Hfuel; simpl in Hfuel; [lia|]. cbn [read_fields Join String.concat].
    by rewrite Hread.
  - destruct (IH ltac:(done)) as (ts & Hts & Hlen & Hreads). exists (t :: ts).
    destruct ts as [|t' ts']; [by apply mmap_ret_inv, Forall2_length in Hts|].
    cbn [mmap] in Hts |- *. rewrite Ht, Hts. cbn [mbind outcome_bind].
    change (Join (t :: t' :: ts') ",") with (t +:+ "," +:+ Join (t' :: ts') ",").
    split_and!; [done| |].
    + rewrite !length_append. destruct t; [done|]. simpl in Hlen |- *. lia.
    + intros [|fuel] Hfuel; simpl in Hfuel; [lia|]. cbn [read_fields].
      rewrite append_assoc, Hread. cbn [mbind option_bind]. rewrite append_assoc.
      change ("," +:+ ?x) with (String "," x). cbn [mbind option_bind].
      rewrite Hreads; [done|]. simpl. lia.
Qed.

Definition build_ascii (b : BuildInfo) : bool :=
  forallb is_ascii [BuildVersion b; BuildTime b; GitCommit b; runtime_Version b; runtime_Compiler b;
                    GOOS b; GOARCH b].

Lemma AppInfo_String_ok b :
  build_ascii b = true →
  ∃ s, AppInfo_String (NewAppInfo b "hdfs-operator") = Ret s ∧
       read_object s = Some (json_fields (NewAppInfo b "hdfs-operator")).
Proof.
  intros Hb. unfold build_ascii in Hb. cbn [forallb] in Hb. rewrite !andb_true_iff in Hb.
  destruct Hb as (? & ? & ? & ? & ? & Hos & Harch & _).
  assert (is_ascii (GOOS b +:+ "/" +:+ GOARCH b) = true) as Hp.
  { unfold is_ascii in *. by rewrite !str_forall_app, Hos, Harch. }
  destruct (json_fields_ok (json_fields (NewAppInfo b "hdfs-operator"))) as (ts & Hts & Hlen & Hread).
  { unfold json_fields, NewAppInfo. repeat constructor; done. }
  { done. }
  unfold AppInfo_String. rewrite Hts. eexists. split; [reflexivity|].
  unfold read_object. change ("{" +:+ ?x) with (String "{" x). cbn [skip Ascii.eqb Bool.eqb mbind option_bind].
  apply Hread. cbn [String.length]. rewrite length_append. simpl in Hlen |- *. lia.
Qed.

(** The process touches the cluster for no other command line: a request
    for help ends it with 0, a flag it does not have or a value that is not
    acceptable with 2, and a request for the version prints one line, an
    object that reads back as the facts of the build, and ends it with 0. The
    only calls made are the registrations of types that precede all. *)
Theorem process_ends_early b opts args :
  library_apart → succeed_after [] scheme_calls.*1 → build_ascii b = true →
  match Parse args (initial_flags opts) with
  | ErrHelp => program b opts args = ({| calls := scheme_calls.*1; stdout := [] |}, Ret 0%Z)
  | ErrUsage _ => program b opts args = ({| calls := scheme_calls.*1; stdout := [] |}, Ret 2%Z)
  | Parsed f' _ =>
      showVersion (flag_values f') = true →
      ∃ line, program b opts args
              = ({| calls := scheme_calls.*1; stdout := [line] |}, Ret 0%Z) ∧
              read_object line = Some (json_fields (NewAppInfo b "hdfs-operator"))
  end.
Proof.
  intros Hlib Hinit Hb. rewrite program_calls.
  assert (in_order scheme_calls {| calls := []; stdout := [] |}
          = ({| calls := scheme_calls.*1; stdout := [] |}, inl ())) as Hrun.
  { destruct (in_order_spec scheme_calls {| calls := []; stdout := [] |})
      as [[-> _]|(l1 & c & o & l2 & e & Heq & _ & _ & He)]; [done|].
    exfalso. assert (scheme_calls.*1 = l1.*1 ++ c :: l2.*1) as Hl by (by rewrite Heq, fmap_app).
    apply Hinit in Hl. simpl in He, Hl. congruence. }
  unfold main, parse_flags, mbind, proc_bind. rewrite Hrun, define_flags_ok by done.
  unfold lift, mret, proc_ret.
  destruct (Parse args (initial_flags opts)) as [f' rest| |]; [|done..].
  intros Hv. unfold show_version. rewrite Hv.
  destruct (AppInfo_String_ok b Hb) as (s & Hs & Hread). rewrite Hs. by exists s.
Qed.

End runs.

(** ** Instances for the witnesses *)

#[local] Instance no_library_flags : LibraryFlags := {| lib_options := unit; lib_flag _ := None |}.

Definition sample_options : lib_options := tt.

Definition sample_flags : Flags :=
  {| metricsAddr := ":8443"; probeAddr := ":8081"; enableLeaderElection := true;
     secureMetrics := true; webhookCertPath := ""; webhookCertName := "a=b"; webhookCertKey := "-k";
     metricsCertPath := ""; metricsCertName := "tls.crt"; metricsCertKey := "tls.key";
     enableHTTP2 := false; showVersion := false |}.

Definition sample_build : BuildInfo :=
  {| BuildVersion := "0.0.0-dev"; BuildTime := "N/A"; GitCommit := "N/A";
     runtime_Version := "go1.24"; runtime_Compiler := "gc"; GOOS := "linux"; GOARCH := "amd64" |}.

#[local] Instance willing : Framework := λ _ _, None.

Lemma no_library_apart : library_apart.
Proof. repeat constructor. Qed.

Definition fresh_process : process := {| calls := []; stdout := [] |}.

Lemma command_line_roundtrip_witness :
  parse_flags sample_options (flag_args sample_flags) fresh_process = (fresh_process, inl sample_flags).
Proof. apply (command_line_roundtrip sample_options sample_flags fresh_process no_library_apart). Defined.

Lemma process_starts_in_order_witness :
  (program sample_build sample_options (flag_args sample_flags)).2 = Ret 0%Z ∧
  Start ∈ calls (program sample_build sample_options (flag_args sample_flags)).1.
Proof.
  pose proof (process_starts_in_order sample_build sample_options (flag_args sample_flags)
    (set_formal (foldl (λ m nv, <[nv.1 := nv.2]> m) (formal (initial_flags sample_options))
                   (flag_settings sample_flags)) (initial_flags sample_options)) []
    no_library_apart) as H.
  specialize (H ltac:(vm_compute; reflexivity) ltac:(reflexivity)).
  destruct (program sample_build sample_options (flag_args sample_flags)) as [p r].
  destruct H as (_ & [(Hcalls & _ & Hr)|(before & c & after & e & _ & _ & _ & He)] & _);
    [|discriminate He].
  cbn [fst snd]. rewrite Hcalls, Hr. split; [done|].
  match goal with |- context [manager_calls ?v] => generalize v end. intros v.
  apply list_elem_of_In. simpl. tauto.
Defined.

(** When the second probe cannot be set up the process ends with 1, and no
    manager was started. *)
Example start_stops_at_probe :
  let '(p, r) := program (F := λ _ c, match c with AddReadyzCheck _ => Some (EMsg "unable") | _ => None end)
                   sample_build sample_options [] in
  r = Ret 1%Z ∧ length (calls p) = 9 ∧ last (calls p) = Some (AddReadyzCheck "readyz").
Proof. vm_compute. done. Qed.

Lemma process_ends_early_witness :
  ∃ line, program sample_build sample_options ["--version"; "--metrics-secure=f"]
    = ({| calls := scheme_calls.*1; stdout := [line] |}, Ret 0%Z) ∧
    read_object line = Some (json_fields (NewAppInfo sample_build "hdfs-operator")).
Proof.
  assert (succeed_after [] scheme_calls.*1) as Hinit.
  { intros cs1 c cs2 Heq. simpl. assert (c ∈ scheme_calls.*1) as Hc by (rewrite Heq; set_solver).
    apply list_elem_of_fmap in Hc as ([c' o] & -> & Hc). unfold scheme_calls in Hc.
    apply list_elem_of_fmap in Hc as (s & [= -> ->] & _). done. }
  exact (process_ends_early sample_build sample_options ["--version"; "--metrics-secure=f"] no_library_apart
           Hinit eq_refl eq_refl).
Defined.
