(* ===== verification/GoStore.v ===== *)
(** * Values in a store, and copies of them

    Go values whose pointers, maps and slices lead to cells of a store, where
    two of them may share a cell; the statements that generated copy functions
    are made of; and what a deep copy is: [copied] relates it to the original
    structurally, [separate] says what a caller sees. Scalars of all kinds are
    opaque; a slice is its whole array, as the API types have it. *)

From S2P Require Import Prelude GoStd.

Create HintDb deepcopy.

(** ** Values, types and the store *)

Notation loc := nat.

(** A Go value: a scalar, nil, a reference to a cell, or a struct as its
    fields in order. *)
Inductive gval :=
  | VScalar (s : string)
  | VNil
  | VRef (l : loc)
  | VUnit
  | VField (f : string) (v rest : gval).

(** What a reference leads to: the variable of a pointer, a map or the array of
    a slice. *)
Inductive cell :=
  | CVar (v : gval)
  | CMap (m : gmap string gval)
  | CArray (l : list gval).

Notation store := (gmap loc cell).

Inductive gty :=
  | TScalar
  | TPtr (t : gty)
  | TMap (t : gty)
  | TSlice (t : gty)
  | TUnit
  | TField (f : string) (t rest : gty).

(** A struct type. *)
Definition TStruct (fields : list (string * gty)) : gty :=
  foldr (λ ft r, TField ft.1 ft.2 r) TUnit fields.

(** A value of a type, all of its references included. *)
Fixpoint typed (t : gty) (h : store) (v : gval) : bool :=
  match t, v with
  | TScalar, VScalar _ => true
  | TPtr t, VNil | TMap t, VNil | TSlice t, VNil => true
  | TPtr t, VRef l => match h !! l with Some (CVar c) => typed t h c | _ => false end
  | TMap t, VRef l =>
      match h !! l with
      | Some (CMap m) => forallb (λ kv, typed t h kv.2) (map_to_list m)
      | _ => false
      end
  | TSlice t, VRef l => match h !! l with Some (CArray c) => forallb (typed t h) c | _ => false end
  | TUnit, VUnit => true
  | TField f t r, VField f' a b => bool_decide (f = f') && typed t h a && typed r h b
  | _, _ => false
  end.

(** [v'] in the store [h'] has the contents of [v] in [h], and every cell it
    leads to is new: not one of [h]. *)
Fixpoint copied (t : gty) (h : store) (v : gval) (h' : store) (v' : gval) : Prop :=
  match t with
  | TScalar => ∃ s, v = VScalar s ∧ v' = VScalar s
  | TPtr t =>
      v = VNil ∧ v' = VNil ∨
      ∃ l l' c c', v = VRef l ∧ v' = VRef l' ∧ h !! l = Some (CVar c) ∧ h' !! l' = Some (CVar c') ∧
        h !! l' = None ∧ copied t h c h' c'
  | TMap t =>
      v = VNil ∧ v' = VNil ∨
      ∃ l l' m m', v = VRef l ∧ v' = VRef l' ∧ h !! l = Some (CMap m) ∧ h' !! l' = Some (CMap m') ∧
        h !! l' = None ∧
        ∀ k, match m !! k, m' !! k with
             | Some c, Some c' => copied t h c h' c'
             | None, None => True
             | _, _ => False
             end
  | TSlice t =>
      v = VNil ∧ v' = VNil ∨
      ∃ l l' c c', v = VRef l ∧ v' = VRef l' ∧ h !! l = Some (CArray c) ∧ h' !! l' = Some (CArray c') ∧
        h !! l' = None ∧ Forall2 (λ x x', copied t h x h' x') c c'
  | TUnit => v = VUnit ∧ v' = VUnit
  | TField f t r =>
      ∃ a b a' b', v = VField f a b ∧ v' = VField f a' b' ∧ copied t h a h' a' ∧ copied r h b h' b'
  end.

(** A type without references: assignment copies it. *)
Fixpoint flat (t : gty) : bool :=
  match t with
  | TScalar | TUnit => true
  | TField _ t r => flat t && flat r
  | _ => false
  end.

(** What a value of a type holds, read through all of its references. *)
Inductive tree :=
  | LScalar (s : string)
  | LNil
  | LVar (t : tree)
  | LMap (m : gmap string tree)
  | LArray (l : list tree)
  | LUnit
  | LField (f : string) (t rest : tree)
  | LDangling.

Fixpoint contents (t : gty) (h : store) (v : gval) : tree :=
  match t, v with
  | TScalar, VScalar s => LScalar s
  | TPtr _, VNil | TMap _, VNil | TSlice _, VNil => LNil
  | TPtr t, VRef l => match h !! l with Some (CVar c) => LVar (contents t h c) | _ => LDangling end
  | TMap t, VRef l => match h !! l with Some (CMap m) => LMap (contents t h <$> m) | _ => LDangling end
  | TSlice t, VRef l =>
      match h !! l with Some (CArray c) => LArray (contents t h <$> c) | _ => LDangling end
  | TUnit, VUnit => LUnit
  | TField _ t r, VField f a b => LField f (contents t h a) (contents r h b)
  | _, _ => LDangling
  end.

(** The cells a value of a type leads to. *)
Fixpoint cells (t : gty) (h : store) (v : gval) : gset loc :=
  match t, v with
  | TPtr t, VRef l =>
      {[l]} ∪ match h !! l with Some (CVar c) => cells t h c | _ => ∅ end
  | TMap t, VRef l =>
      {[l]} ∪ match h !! l with
              | Some (CMap m) => ⋃ ((λ kv, cells t h kv.2) <$> map_to_list m)
              | _ => ∅
              end
  | TSlice t, VRef l =>
      {[l]} ∪ match h !! l with Some (CArray c) => ⋃ (cells t h <$> c) | _ => ∅ end
  | TField _ t r, VField _ a b => cells t h a ∪ cells r h b
  | _, _ => ∅
  end.

(** ** Computations on the store *)

Definition M (A : Type) : Type := store → option (A * store).

#[export] Instance M_ret : MRet M := λ A a h, Some (a, h).
#[export] Instance M_bind : MBind M := λ A B f m h,
  match m h with Some (a, h') => f a h' | None => None end.

Definition load (l : loc) : M cell := λ h, match h !! l with Some c => Some (c, h) | None => None end.

(** A cell for a value that is complete: nothing refers to it before. *)
Definition new (c : cell) : M gval := λ h, let l := fresh (dom h) in Some (VRef l, <[l := c]> h).

Definition stuck {A} : M A := λ _, None.

(** ** The statements of the generated functions *)

Section statements.
Context {MR : MapRange}.

(** A value copied by assignment. *)
Definition assign (x : gval) : M gval := mret x.

(** [*out = new(T); ( *in).DeepCopyInto( *out)] unless the field is nil. *)
Definition new_deep (copy : gval → M gval) (v : gval) : M gval :=
  match v with
  | VNil => mret VNil
  | VRef l =>
      c ← load l;
      match c with CVar x => x' ← copy x; new (CVar x') | _ => stuck end
  | _ => stuck
  end.

(** [*out = new(T); **out = **in] *)
Definition new_shallow : gval → M gval := new_deep assign.

(** The loops over the entries of a map and the elements of an array. *)
Fixpoint copy_entries (copy : gval → M gval) (l : list (string * gval)) (out : gmap string gval)
    : M (gmap string gval) :=
  match l with
  | [] => mret out
  | (key, val) :: l' => x ← copy val; copy_entries copy l' (<[key := x]> out)
  end.

Fixpoint copy_elems (copy : gval → M gval) (l : list gval) : M (list gval) :=
  match l with
  | [] => mret []
  | x :: l' => x' ← copy x; xs ← copy_elems copy l'; mret (x' :: xs)
  end.

(** [*out = make(map[string]T, len( *in)); for key, val := range *in { ... }] *)
Definition make_map (copy : gval → M gval) (v : gval) : M gval :=
  match v with
  | VNil => mret VNil
  | VRef l =>
      c ← load l;
      match c with CMap m => m' ← copy_entries copy (range m) ∅; new (CMap m') | _ => stuck end
  | _ => stuck
  end.

(** [*out = make([]T, len( *in))] with a loop, or [copy] for scalars. *)
Definition make_slice_of (copy : gval → M gval) (v : gval) : M gval :=
  match v with
  | VNil => mret VNil
  | VRef l =>
      c ← load l;
      match c with CArray xs => xs' ← copy_elems copy xs; new (CArray xs') | _ => stuck end
  | _ => stuck
  end.

(** [*val.DeepCopy()] for the variable [val] of a loop: a copy through two new
    cells. *)
Definition copy_value (copy : gval → M gval) (val : gval) : M gval :=
  p ← new (CVar val);
  q ← new_deep copy p;
  match q with
  | VRef l => c ← load l; match c with CVar x => mret x | _ => stuck end
  | _ => stuck
  end.

(** The field [f] of a struct, and the struct with its field [f] set. *)
Fixpoint field (f : string) (v : gval) : option gval :=
  match v with
  | VField g x rest => if decide (f = g) then Some x else field f rest
  | _ => None
  end.

Fixpoint set_field (f : string) (x : gval) (v : gval) : gval :=
  match v with
  | VField g y rest => if decide (f = g) then VField g x rest else VField g y (set_field f x rest)
  | _ => v
  end.

(** The statements for the fields: each reads its field of [in] and writes it to
    [out]. *)
Fixpoint statements (l : list (string * (gval → M gval))) (inp out : gval) : M gval :=
  match l with
  | [] => mret out
  | (f, step) :: l' =>
      match field f inp with
      | Some x => x' ← step x; statements l' inp (set_field f x' out)
      | None => stuck
      end
  end.

(** [DeepCopyInto]: [*out = *in], then the statements in order. *)
Definition copy_into (l : list (string * (gval → M gval))) (v : gval) : M gval := statements l v v.

(** The specification of a copy function: on a value of the type it succeeds,
    changes no cell, and its result is a copy. *)
Definition deep (t : gty) (copy : gval → M gval) : Prop :=
  ∀ h v, typed t h v = true → ∃ v' h', copy v h = Some (v', h') ∧ h ⊆ h' ∧ copied t h v h' v'.

(** What a caller gets: the copy holds what the original holds, the two have no
    cell in common, and neither sees a later change of the cells of the other. *)
Definition separate (t : gty) (copy : gval → M gval) : Prop :=
  ∀ h v, typed t h v = true →
  ∃ v' h', copy v h = Some (v', h') ∧
    contents t h' v' = contents t h v ∧ contents t h' v = contents t h v ∧
    cells t h' v' ## cells t h' v ∧
    (∀ h2, (∀ l, l ∉ cells t h' v' → h2 !! l = h' !! l) → contents t h2 v = contents t h v) ∧
    (∀ h2, (∀ l, l ∉ cells t h' v → h2 !! l = h' !! l) → contents t h2 v' = contents t h v).

End statements.

(** ** Lemmas on copies *)

(** A copy depends on the new cells only. *)
Lemma copied_agree t h v h' h2 v' :
  (∀ l c, h !! l = None → h' !! l = Some c → h2 !! l = Some c) →
  copied t h v h' v' → copied t h v h2 v'.
Proof.
  intros Hag. revert v v'. induction t as [|t IH|t IH|t IH| |f t IHt r IHr]; intros v v'; simpl; try done.
  - intros [?|(l & l' & c & c' & -> & -> & Hl & Hl' & Hn & Hc)]; [by left|].
    right. exists l, l', c, c'. split_and!; auto.
  - intros [?|(l & l' & m & m' & -> & -> & Hl & Hl' & Hn & Hc)]; [by left|].
    right. exists l, l', m, m'. split_and!; auto. intros k. specialize (Hc k).
    destruct (m !! k), (m' !! k); auto.
  - intros [?|(l & l' & c & c' & -> & -> & Hl & Hl' & Hn & Hc)]; [by left|].
    right. exists l, l', c, c'. split_and!; auto. eapply Forall2_impl; [exact Hc|]. auto.
  - intros (a & b & a' & b' & -> & -> & Ha & Hb). exists a, b, a', b'. auto.
Qed.

Lemma copied_mono t h v h' h2 v' : h' ⊆ h2 → copied t h v h' v' → copied t h v h2 v'.
Proof. intros Hsub. apply copied_agree. intros l c _ Hl. by eapply lookup_weaken. Qed.

Lemma forallb_map {A} (p : A → bool) (m : gmap string A) :
  forallb (λ kv, p kv.2) (map_to_list m) = true ↔ ∀ k x, m !! k = Some x → p x = true.
Proof.
  rewrite forallb_forall. split.
  - intros H k x Hk. apply (H (k, x)). apply list_elem_of_In. by apply elem_of_map_to_list.
  - intros H [k x] Hin. apply (H k). apply list_elem_of_In in Hin. by apply elem_of_map_to_list in Hin.
Qed.

Lemma typed_mono t h h1 v : h ⊆ h1 → typed t h v = true → typed t h1 v = true.
Proof.
  intros Hsub. revert v. induction t as [|t IH|t IH|t IH| |f t IHt r IHr]; intros v; destruct v as [s| |l| |f' a b];
    simpl; try done.
  - destruct (h !! l) as [[c| |]|] eqn:Hl; try done. rewrite (lookup_weaken _ _ _ _ Hl Hsub). auto.
  - destruct (h !! l) as [[|m|]|] eqn:Hl; try done. rewrite (lookup_weaken _ _ _ _ Hl Hsub).
    rewrite !forallb_map. eauto.
  - destruct (h !! l) as [[| |c]|] eqn:Hl; try done. rewrite (lookup_weaken _ _ _ _ Hl Hsub).
    rewrite !forallb_forall. eauto.
  - rewrite !andb_true_iff. naive_solver.
Qed.

(** A copy made when the store had grown is a copy for the smaller store. *)
Lemma copied_shrink t h h1 v h2 v' :
  h ⊆ h1 → typed t h v = true → copied t h1 v h2 v' → copied t h v h2 v'.
Proof.
  intros Hsub. assert (∀ l, h1 !! l = None → h !! l = None) as Hnone.
  { intros l Hl. by eapply lookup_weaken_None. }
  revert v v'. induction t as [|t IH|t IH|t IH| |f t IHt r IHr]; intros v v' Ht; simpl; try done.
  - intros [?|(l & l' & c & c' & -> & -> & Hl & Hl' & Hn & Hc)]; [by left|]. simpl in Ht.
    destruct (h !! l) as [[x| |]|] eqn:Hx; try done.
    rewrite (lookup_weaken _ _ _ _ Hx Hsub) in Hl. simplify_eq.
    right. exists l, l', c, c'. split_and!; auto.
  - intros [?|(l & l' & m & m' & -> & -> & Hl & Hl' & Hn & Hc)]; [by left|]. simpl in Ht.
    destruct (h !! l) as [[|x|]|] eqn:Hx; try done.
    rewrite (lookup_weaken _ _ _ _ Hx Hsub) in Hl. simplify_eq. rewrite forallb_map in Ht.
    right. exists l, l', m, m'. split_and!; auto. intros k. specialize (Hc k). specialize (Ht k).
    destruct (m !! k), (m' !! k); auto.
  - intros [?|(l & l' & c & c' & -> & -> & Hl & Hl' & Hn & Hc)]; [by left|]. simpl in Ht.
    destruct (h !! l) as [[| |x]|] eqn:Hx; try done.
    rewrite (lookup_weaken _ _ _ _ Hx Hsub) in Hl. simplify_eq.
    right. exists l, l', c, c'. split_and!; auto.
    clear -Hc Ht IH. induction Hc as [|x x' c c' Hx Hc IHc]; [constructor|].
    simpl in Ht. apply andb_true_iff in Ht as [Hx1 Ht]. constructor; auto.
  - intros (a & b & a' & b' & -> & -> & Ha & Hb). simpl in Ht. rewrite !andb_true_iff in Ht.
    destruct Ht as [[_ Hta] Htb]. exists a, b, a', b'. auto.
Qed.

Lemma copied_flat t h h' v : flat t = true → typed t h v = true → copied t h v h' v.
Proof.
  revert v. induction t as [|t IH|t IH|t IH| |f t IHt r IHr]; intros v Hf; destruct v as [s| |l| |f' a b];
    simpl in *; try done.
  - eauto.
  - apply andb_true_iff in Hf as [Hft Hfr]. rewrite !andb_true_iff.
    intros [[->%bool_decide_eq_true_1 Ha] Hb]. exists a, b, a, b. auto.
Qed.

Lemma new_spec h c :
  ∃ l, new c h = Some (VRef l, <[l := c]> h) ∧ h !! l = None ∧ h ⊆ <[l := c]> h.
Proof.
  exists (fresh (dom h)). assert (h !! fresh (dom h) = None) as Hn.
  { apply not_elem_of_dom, is_fresh. }
  split; [done|]. split; [done|]. by apply insert_subseteq.
Qed.

Section specs.
Context {MR : MapRange}.

Lemma deep_flat t : flat t = true → deep t assign.
Proof.
  intros Hf h v Ht. exists v, h. split; [done|]. split; [done|]. by apply copied_flat.
Qed.

(** A reference to a new cell. *)
Lemma new_fresh (h h1 : store) c :
  h ⊆ h1 → ∃ l h2, new c h1 = Some (VRef l, h2) ∧ h1 ⊆ h2 ∧ h !! l = None ∧ h2 !! l = Some c.
Proof.
  intros Hsub. destruct (new_spec h1 c) as (l & Hnew & Hn & Hs). exists l, (<[l := c]> h1).
  split_and!; [done|done| |apply lookup_insert_eq]. by eapply lookup_weaken_None.
Qed.

Lemma deep_new t copy : deep t copy → deep (TPtr t) (new_deep copy).
Proof.
  intros Hc h v Ht. destruct v as [s| |l| |f' a b]; try done.
  { exists VNil, h. split; [done|]. split; [done|]. by left. }
  simpl in Ht. destruct (h !! l) as [[x| |]|] eqn:Hl; try done.
  destruct (Hc h x Ht) as (x' & h1 & Hx & Hsub & Hcop).
  destruct (new_fresh h h1 (CVar x') Hsub) as (l' & h2 & Hnew & Hsub2 & Hn & Hl').
  exists (VRef l'), h2. split_and!.
  - unfold new_deep, mbind, M_bind, load. rewrite Hl, Hx. exact Hnew.
  - by trans h1.
  - right. exists l, l', x, x'. split_and!; try done. by eapply copied_mono.
Qed.

Lemma deep_shallow t : flat t = true → deep (TPtr t) new_shallow.
Proof. intros Hf. by apply deep_new, deep_flat. Qed.

Lemma copy_entries_spec t copy h l out h1 :
  deep t copy → h ⊆ h1 → NoDup l.*1 → (∀ k x, (k, x) ∈ l → typed t h x = true) →
  ∃ out' h2, copy_entries copy l out h1 = Some (out', h2) ∧ h1 ⊆ h2 ∧
    (∀ k x, (k, x) ∈ l → ∃ x', out' !! k = Some x' ∧ copied t h x h2 x') ∧
    (∀ k, k ∉ l.*1 → out' !! k = out !! k).
Proof.
  intros Hc. revert out h1. induction l as [|[k x] l IH]; intros out h1 Hsub Hnd Ht.
  { exists out, h1. split_and!; [done|done|set_solver|done]. }
  apply NoDup_cons in Hnd as [Hk Hnd]. simpl in Hk.
  assert (typed t h x = true) as Hx by (apply (Ht k); set_solver).
  destruct (Hc h1 x (typed_mono _ _ _ _ Hsub Hx)) as (x' & h2 & Hcopy & Hs2 & Hcop).
  apply copied_shrink with (h := h) in Hcop; [|done|done].
  destruct (IH (<[k := x']> out) h2) as (out' & h3 & Hrun & Hs3 & Hin & Hout);
    [by trans h1|done|intros k' y Hy; apply (Ht k'); set_solver|].
  exists out', h3. split_and!.
  - simpl. unfold mbind, M_bind. by rewrite Hcopy.
  - by trans h2.
  - intros k' y [Heq|Hy]%elem_of_cons; [|by apply Hin]. simplify_eq.
    exists x'. rewrite (Hout k Hk), lookup_insert_eq. split; [done|]. by eapply copied_mono.
  - intros k' Hk'. simpl in Hk'. rewrite Hout by set_solver. rewrite lookup_insert_ne by set_solver. done.
Qed.

Lemma deep_map t copy : deep t copy → deep (TMap t) (make_map copy).
Proof.
  intros Hc h v Ht. destruct v as [s| |l| |f' a b]; try done.
  { exists VNil, h. split; [done|]. split; [done|]. by left. }
  simpl in Ht. destruct (h !! l) as [[|m|]|] eqn:Hl; try done. rewrite forallb_map in Ht.
  destruct (copy_entries_spec t copy h (range m) ∅ h Hc) as (m' & h1 & Hrun & Hsub & Hin & Hout);
    [done|apply NoDup_fst_range|intros k x Hk%elem_of_range; eauto|].
  destruct (new_fresh h h1 (CMap m') Hsub) as (l' & h2 & Hnew & Hsub2 & Hn & Hl').
  exists (VRef l'), h2. split_and!.
  - unfold make_map, mbind, M_bind, load. rewrite Hl, Hrun. exact Hnew.
  - by trans h1.
  - right. exists l, l', m, m'. split_and!; try done. intros k.
    destruct (m !! k) as [x|] eqn:Hk.
    + destruct (Hin k x) as (x' & -> & Hx); [by apply elem_of_range|]. by eapply copied_mono.
    + rewrite Hout; [done|]. intros ([k' x] & -> & Hx)%list_elem_of_fmap.
      apply elem_of_range in Hx. simpl in Hk. congruence.
Qed.

Lemma deep_slice t copy : deep t copy → deep (TSlice t) (make_slice_of copy).
Proof.
  intros Hc h v Ht. destruct v as [s| |l| |f' a b]; try done.
  { exists VNil, h. split; [done|]. split; [done|]. by left. }
  simpl in Ht. destruct (h !! l) as [[| |xs]|] eqn:Hl; try done.
  assert (∀ xs h1, h ⊆ h1 → forallb (typed t h) xs = true →
    ∃ xs' h2, copy_elems copy xs h1 = Some (xs', h2) ∧ h1 ⊆ h2 ∧
      Forall2 (λ x x', copied t h x h2 x') xs xs') as Hrun.
  { clear -Hc. induction xs as [|x xs IH]; intros h1 Hsub Ht.
    { exists [], h1. split_and!; [done|done|constructor]. }
    simpl in Ht. apply andb_true_iff in Ht as [Hx Hxs].
    destruct (Hc h1 x (typed_mono _ _ _ _ Hsub Hx)) as (x' & h2 & Hcopy & Hs2 & Hcop).
    apply copied_shrink with (h := h) in Hcop; [|done|done].
    destruct (IH h2) as (xs' & h3 & Hrun & Hs3 & Hall); [by trans h1|done|].
    exists (x' :: xs'), h3. split_and!.
    - simpl. unfold mbind, M_bind, mret, M_ret. by rewrite Hcopy, Hrun.
    - by trans h2.
    - constructor; [by eapply copied_mono|done]. }
  destruct (Hrun xs h) as (xs' & h1 & Hcopy & Hsub & Hall); [done|done|].
  destruct (new_fresh h h1 (CArray xs') Hsub) as (l' & h2 & Hnew & Hsub2 & Hn & Hl').
  exists (VRef l'), h2. split_and!.
  - unfold make_slice_of, mbind, M_bind, load. rewrite Hl, Hcopy. exact Hnew.
  - by trans h1.
  - right. exists l, l', xs, xs'. split_and!; try done.
    eapply Forall2_impl; [exact Hall|]. intros x x'. by apply copied_mono.
Qed.

(** The value behind [*val.DeepCopy()]. *)
Lemma deep_value t copy : deep t copy → deep t (copy_value copy).
Proof.
  intros Hc h v Ht. destruct (new_fresh h h (CVar v)) as (p & h1 & Hnew & Hsub & Hn & Hp); [done|].
  destruct (deep_new t copy Hc h1 (VRef p)) as (q & h2 & Hq & Hsub2 & Hcop).
  { simpl. rewrite Hp. by eapply typed_mono. }
  destruct Hcop as [[? _]|(l & l' & c & c' & Hl & -> & Hc1 & Hc2 & _ & Hcop)]; simplify_eq.
  exists c', h2. split_and!.
  - unfold copy_value, mbind, M_bind, load. by rewrite Hnew, Hq, Hc2.
  - by trans h1.
  - by eapply copied_shrink.
Qed.

(** *** Structs *)

(** [out] after some of the statements: the fields in [todo] are not done. *)
Fixpoint partial (todo : list string) (fs : list (string * gty)) (h : store) (v : gval)
    (h' : store) (out : gval) : Prop :=
  match fs with
  | [] => v = VUnit ∧ out = VUnit
  | (f, t) :: r =>
      ∃ a b a' b', v = VField f a b ∧ out = VField f a' b' ∧
        (f ∈ todo ∨ copied t h a h' a') ∧ partial todo r h b h' b'
  end.

Lemma partial_mono todo fs h v h1 h2 out :
  h1 ⊆ h2 → partial todo fs h v h1 out → partial todo fs h v h2 out.
Proof.
  intros Hsub. revert v out. induction fs as [|[f t] r IH]; intros v out; [done|].
  intros (a & b & a' & b' & -> & -> & Ha & Hb). exists a, b, a', b'. split_and!; auto.
  destruct Ha as [|Ha]; [by left|right]. by eapply copied_mono.
Qed.

Lemma partial_skip g todo fs h v h' out :
  g ∉ fs.*1 → partial (g :: todo) fs h v h' out → partial todo fs h v h' out.
Proof.
  revert v out. induction fs as [|[f t] r IH]; intros v out Hg; [done|].
  intros (a & b & a' & b' & -> & -> & Ha & Hb). exists a, b, a', b'.
  split_and!; [done|done|set_solver|]. apply IH; set_solver.
Qed.

Lemma partial_step g t todo fs h v h' out x x' :
  NoDup fs.*1 → (g, t) ∈ fs → field g v = Some x → copied t h x h' x' →
  partial (g :: todo) fs h v h' out → partial todo fs h v h' (set_field g x' out).
Proof.
  revert v out. induction fs as [|[f t'] r IH]; intros v out Hnd Hin Hx Hc; [set_solver|].
  apply NoDup_cons in Hnd as [Hf Hnd]. simpl in Hf.
  intros (a & b & a' & b' & -> & -> & Ha & Hb). simpl in *. destruct (decide (g = f)) as [->|Hne].
  - apply elem_of_cons in Hin as [Heq|Hin]; simplify_eq.
    + exists x, b, x', b'. split_and!; auto. by eapply partial_skip.
    + destruct Hf. apply list_elem_of_fmap. by exists (f, t).
  - apply elem_of_cons in Hin as [Heq|Hin]; simplify_eq.
    exists a, b, a', (set_field g x' b'). split_and!; auto. set_solver.
Qed.

Lemma partial_start todo fs h v :
  Forall (λ ft, ft.1 ∈ todo ∨ flat ft.2 = true) fs → typed (TStruct fs) h v = true →
  partial todo fs h v h v.
Proof.
  intros Hfs. revert v. induction Hfs as [|[f t] r Hf Hr IH]; intros v Ht;
    destruct v as [s| |l| |f' a b]; try done.
  simpl in Ht. rewrite !andb_true_iff in Ht. destruct Ht as [[->%bool_decide_eq_true_1 Ha] Hb].
  exists a, b, a, b. split_and!; auto. destruct Hf; [by left|right]. by apply copied_flat.
Qed.

Lemma partial_end fs h v h' out : partial [] fs h v h' out → copied (TStruct fs) h v h' out.
Proof.
  revert v out. induction fs as [|[f t] r IH]; intros v out; [done|].
  intros (a & b & a' & b' & -> & -> & Ha & Hb). exists a, b, a', b'. split_and!; auto.
  destruct Ha as [Ha|Ha]; [by apply elem_of_nil in Ha|done].
Qed.

Lemma field_typed f t fs h v :
  NoDup fs.*1 → (f, t) ∈ fs → typed (TStruct fs) h v = true →
  ∃ x, field f v = Some x ∧ typed t h x = true.
Proof.
  revert v. induction fs as [|[g t'] r IH]; intros v Hnd Hin Ht; [set_solver|].
  apply NoDup_cons in Hnd as [Hg Hnd]. simpl in Hg. destruct v as [s| |l| |f' a b]; try done.
  simpl in Ht. rewrite !andb_true_iff in Ht. destruct Ht as [[->%bool_decide_eq_true_1 Ha] Hb].
  simpl. apply elem_of_cons in Hin as [Heq|Hin]; simplify_eq.
  - rewrite decide_True by done. eauto.
  - rewrite decide_False; [by apply IH|]. intros ->. destruct Hg. apply list_elem_of_fmap. by exists (f', t).
Qed.

Lemma statements_spec fs l h v out h1 :
  NoDup fs.*1 → typed (TStruct fs) h v = true →
  Forall (λ s, ∃ t, (s.1, t) ∈ fs ∧ deep t s.2) l →
  h ⊆ h1 → partial l.*1 fs h v h1 out →
  ∃ out' h2, statements l v out h1 = Some (out', h2) ∧ h1 ⊆ h2 ∧ partial [] fs h v h2 out'.
Proof.
  intros Hnd Ht Hl. revert out h1. induction Hl as [|[f step] l (t & Hin & Hd) Hl IH]; intros out h1 Hsub Hp.
  { exists out, h1. split; [done|]. by split. }
  simpl in *. destruct (field_typed f t fs h v) as (x & Hx & Htx); [done..|].
  destruct (Hd h1 x (typed_mono _ _ _ _ Hsub Htx)) as (x' & h2 & Hstep & Hs2 & Hcop).
  apply copied_shrink with (h := h) in Hcop; [|done|done].
  destruct (IH (set_field f x' out) h2) as (out' & h3 & Hrun & Hs3 & Hp3).
  { by trans h1. }
  { eapply partial_step; [done|done|done|done|]. by eapply partial_mono. }
  exists out', h3. split_and!; [|by trans h2|done].
  rewrite Hx. unfold mbind, M_bind. by rewrite Hstep.
Qed.

(** A struct copied field by field: a statement for each field that is not
    flat. *)
Lemma deep_struct fs l :
  NoDup fs.*1 → Forall (λ ft, ft.1 ∈ l.*1 ∨ flat ft.2 = true) fs →
  Forall (λ s, ∃ t, (s.1, t) ∈ fs ∧ deep t s.2) l →
  deep (TStruct fs) (copy_into l).
Proof.
  intros Hnd Hfs Hl h v Ht.
  destruct (statements_spec fs l h v v h) as (v' & h' & Hrun & Hsub & Hp);
    [done|done|done|done|by apply partial_start|].
  exists v', h'. split_and!; [exact Hrun|done|]. by apply partial_end.
Qed.

(** *** From copies to separation *)

Lemma contents_agree t h h2 v :
  (∀ l, l ∈ cells t h v → h2 !! l = h !! l) →
  contents t h2 v = contents t h v ∧ cells t h2 v = cells t h v.
Proof.
  revert v. induction t as [|t IH|t IH|t IH| |f t IHt r IHr]; intros v Hag;
    destruct v as [s| |l| |f' a b]; try done; simpl in *.
  - rewrite (Hag l) by set_solver. destruct (h !! l) as [[c| |]|]; try done.
    destruct (IH c) as [-> ->]; [set_solver|done].
  - rewrite (Hag l) by set_solver. destruct (h !! l) as [[|m|]|]; try done.
    assert (∀ k x, m !! k = Some x → contents t h2 x = contents t h x ∧ cells t h2 x = cells t h x) as Hm.
    { intros k x Hk. apply IH. intros l' Hl'. apply Hag, elem_of_union_r, elem_of_union_list.
      exists (cells t h x). split; [|done]. apply list_elem_of_fmap. exists (k, x).
      split; [done|]. by apply elem_of_map_to_list. }
    split; f_equal; [|f_equal].
    + apply map_fmap_ext. intros k x Hk. by apply (Hm k).
    + apply list_fmap_ext. intros i [k x] Hi. apply list_elem_of_lookup_2, elem_of_map_to_list in Hi.
      by apply (Hm k).
  - rewrite (Hag l) by set_solver. destruct (h !! l) as [[| |c]|]; try done.
    assert (∀ i x, c !! i = Some x → contents t h2 x = contents t h x ∧ cells t h2 x = cells t h x) as Hm.
    { intros i x Hi. apply IH. intros l' Hl'. apply Hag, elem_of_union_r, elem_of_union_list.
      exists (cells t h x). split; [|done]. apply list_elem_of_fmap. exists x.
      split; [done|]. by eapply list_elem_of_lookup_2. }
    split; f_equal; [|f_equal]; apply list_fmap_ext; intros i x Hi; by apply (Hm i).
  - destruct (IHt a) as [-> ->]; [set_solver|]. destruct (IHr b) as [-> ->]; [set_solver|done].
Qed.

Lemma typed_cells t h v l : typed t h v = true → l ∈ cells t h v → is_Some (h !! l).
Proof.
  revert v. induction t as [|t IH|t IH|t IH| |f t IHt r IHr]; intros v Ht;
    destruct v as [s| |l'| |f' a b]; try done; simpl in *; try by intros []%not_elem_of_empty.
  - destruct (h !! l') as [[c| |]|] eqn:Hl; try done.
    intros [->%elem_of_singleton|Hin]%elem_of_union; [by eexists|eauto].
  - destruct (h !! l') as [[|m|]|] eqn:Hl; try done. rewrite forallb_map in Ht.
    intros [->%elem_of_singleton|Hin]%elem_of_union; [by eexists|].
    apply elem_of_union_list in Hin as (X & ([k x] & -> & Hk)%list_elem_of_fmap & Hin).
    apply elem_of_map_to_list in Hk. eauto.
  - destruct (h !! l') as [[| |c]|] eqn:Hl; try done. rewrite forallb_forall in Ht.
    intros [->%elem_of_singleton|Hin]%elem_of_union; [by eexists|].
    apply elem_of_union_list in Hin as (X & (x & -> & Hk)%list_elem_of_fmap & Hin).
    apply list_elem_of_In in Hk. eauto.
  - rewrite !andb_true_iff in Ht. destruct Ht as [[_ Ha] Hb].
    intros [Hin|Hin]%elem_of_union; eauto.
Qed.

Lemma copied_contents t h v h' v' : copied t h v h' v' → contents t h' v' = contents t h v.
Proof.
  revert v v'. induction t as [|t IH|t IH|t IH| |f t IHt r IHr]; intros v v'; simpl.
  - by intros (s & -> & ->).
  - intros [[-> ->]|(l & l' & c & c' & -> & -> & -> & -> & _ & Hc)]; [done|]. f_equal. auto.
  - intros [[-> ->]|(l & l' & m & m' & -> & -> & -> & -> & _ & Hc)]; [done|]. f_equal.
    apply map_eq. intros k. rewrite !lookup_fmap. specialize (Hc k).
    destruct (m !! k), (m' !! k); try done. simpl. f_equal. auto.
  - intros [[-> ->]|(l & l' & c & c' & -> & -> & -> & -> & _ & Hc)]; [done|]. f_equal.
    clear l l'. induction Hc as [|x x' c c' Hx Hc IHc]; [done|]. csimpl. f_equal; auto.
  - by intros [-> ->].
  - intros (a & b & a' & b' & -> & -> & Ha & Hb). f_equal; auto.
Qed.

Lemma copied_cells t h v h' v' l : copied t h v h' v' → l ∈ cells t h' v' → h !! l = None.
Proof.
  revert v v'. induction t as [|t IH|t IH|t IH| |f t IHt r IHr]; intros v v'; simpl.
  - intros (s & -> & ->). set_solver.
  - intros [[-> ->]|(k & k' & c & c' & -> & -> & _ & -> & Hn & Hc)]; [set_solver|].
    intros [->%elem_of_singleton|Hin]%elem_of_union; eauto.
  - intros [[-> ->]|(k & k' & m & m' & -> & -> & _ & -> & Hn & Hc)]; [set_solver|].
    intros [->%elem_of_singleton|Hin]%elem_of_union; [done|].
    apply elem_of_union_list in Hin as (X & ([f x] & -> & Hk)%list_elem_of_fmap & Hin).
    apply elem_of_map_to_list in Hk. specialize (Hc f). rewrite Hk in Hc.
    destruct (m !! f); [eauto|done].
  - intros [[-> ->]|(k & k' & c & c' & -> & -> & _ & -> & Hn & Hc)]; [set_solver|].
    intros [->%elem_of_singleton|Hin]%elem_of_union; [done|].
    apply elem_of_union_list in Hin as (X & (x & -> & Hk)%list_elem_of_fmap & Hin).
    apply list_elem_of_lookup_1 in Hk as [i Hi].
    destruct (Forall2_lookup_r _ _ _ _ _ Hc Hi) as (y & _ & Hy). eauto.
  - intros [-> ->]. set_solver.
  - intros (a & b & a' & b' & -> & -> & Ha & Hb). intros [Hin|Hin]%elem_of_union; eauto.
Qed.

Lemma deep_separate t copy : deep t copy → separate t copy.
Proof.
  intros Hd h v Ht. destruct (Hd h v Ht) as (v' & h' & Hrun & Hsub & Hcop).
  assert (∀ l, l ∈ cells t h v → h' !! l = h !! l) as Hold.
  { intros l Hl. destruct (typed_cells t h v l Ht Hl) as [c Hc]. rewrite Hc. by eapply lookup_weaken. }
  destruct (contents_agree t h h' v Hold) as [Hcont Hcells].
  assert (cells t h' v' ## cells t h v) as Hdis.
  { intros l Hl Hl2. apply (copied_cells t h v h' v' l Hcop) in Hl.
    destruct (typed_cells t h v l Ht Hl2). congruence. }
  exists v', h'. rewrite Hcells. split_and!; [done|by apply copied_contents|done|done| |].
  - intros h2 Hag. apply contents_agree. intros l Hl. rewrite Hag by set_solver. auto.
  - intros h2 Hag. rewrite <- (copied_contents t h v h' v' Hcop). apply contents_agree.
    intros l Hl. apply Hag. set_solver.
Qed.

End specs.
