(* ===== verification/DeepCopy.v ===== *)
(** * Deep copies of the API types

    [api/v1alpha1/zz_generated.deepcopy.go]: the copies that controllers make
    of the objects of a shared cache before they work on them. The types are
    described by their fields, in the order of hdfscluster_types.go, image.go
    and logger.go; the types of other packages with their copy functions are
    the class [Imported]. *)

From S2P Require Import Prelude GoStd GoStore.

(** ** The API types *)

(** The types of other packages and their copy functions. [TypeMeta] and
    [ClusterOperationSpec] hold no references; each of the other functions
    copies deeply. *)
Class Imported := {
  TypeMeta_type : gty;
  ObjectMeta_type : gty;
  ListMeta_type : gty;
  Status_type : gty;
  ClusterOperationSpec_type : gty;
  RoleGroupConfigSpec_type : gty;
  OverridesSpec_type : gty;
  RoleConfigSpec_type : gty;
  ObjectMeta_DeepCopyInto : gval → M gval;
  ListMeta_DeepCopyInto : gval → M gval;
  Status_DeepCopyInto : gval → M gval;
  RoleGroupConfigSpec_DeepCopyInto : gval → M gval;
  OverridesSpec_DeepCopyInto : gval → M gval;
  RoleConfigSpec_DeepCopyInto : gval → M gval;
  TypeMeta_flat : flat TypeMeta_type = true;
  ClusterOperationSpec_flat : flat ClusterOperationSpec_type = true;
  ObjectMeta_deep : deep ObjectMeta_type ObjectMeta_DeepCopyInto;
  ListMeta_deep : deep ListMeta_type ListMeta_DeepCopyInto;
  Status_deep : deep Status_type Status_DeepCopyInto;
  RoleGroupConfigSpec_deep : deep RoleGroupConfigSpec_type RoleGroupConfigSpec_DeepCopyInto;
  OverridesSpec_deep : deep OverridesSpec_type OverridesSpec_DeepCopyInto;
  RoleConfigSpec_deep : deep RoleConfigSpec_type RoleConfigSpec_DeepCopyInto;
}.

#[export] Hint Resolve deep_flat deep_new deep_map deep_slice deep_value deep_shallow
  ObjectMeta_deep ListMeta_deep Status_deep RoleGroupConfigSpec_deep OverridesSpec_deep
  RoleConfigSpec_deep TypeMeta_flat ClusterOperationSpec_flat : deepcopy.

Ltac pick := first [apply list_elem_of_here | apply list_elem_of_further; pick].
Ltac each_of := repeat first [apply Forall_nil_2 | apply Forall_cons_2].

(** A struct: its field names are distinct, the fields without a statement are
    flat, and each statement is deep. *)
Ltac deep_struct :=
  apply deep_struct;
  [apply (bool_decide_unpack _); vm_compute; exact I
  |each_of; simpl; solve [left; set_solver | right; auto with deepcopy]
  |each_of; eexists; (split; [pick|simpl; auto 6 with deepcopy])].

Section api.
Context {MR : MapRange} {Imp : Imported}.

Definition ImageSpec_type : gty :=
  TStruct [("Custom", TScalar);
           ("Repo", TScalar);
           ("KubedoopVersion", TScalar);
           ("ProductVersion", TScalar);
           ("PullPolicy", TScalar);
           ("PullSecretName", TScalar)].

Definition ImageSpec_DeepCopyInto : gval → M gval :=
  copy_into [].

Definition ImageSpec_DeepCopy : gval → M gval := new_deep ImageSpec_DeepCopyInto.

Definition KerberosSpec_type : gty :=
  TStruct [("SecretClass", TScalar)].

Definition KerberosSpec_DeepCopyInto : gval → M gval :=
  copy_into [].

Definition KerberosSpec_DeepCopy : gval → M gval := new_deep KerberosSpec_DeepCopyInto.

Definition TlsSpec_type : gty :=
  TStruct [("SecretClass", TScalar);
           ("JksPassword", TScalar)].

Definition TlsSpec_DeepCopyInto : gval → M gval :=
  copy_into [].

Definition TlsSpec_DeepCopy : gval → M gval := new_deep TlsSpec_DeepCopyInto.

Definition LogLevelSpec_type : gty :=
  TStruct [("Level", TScalar)].

Definition LogLevelSpec_DeepCopyInto : gval → M gval :=
  copy_into [].

Definition LogLevelSpec_DeepCopy : gval → M gval := new_deep LogLevelSpec_DeepCopyInto.

Definition PodDisruptionBudgetSpec_type : gty :=
  TStruct [("MinAvailable", TScalar);
           ("MaxUnavailable", TScalar)].

Definition PodDisruptionBudgetSpec_DeepCopyInto : gval → M gval :=
  copy_into [].

Definition PodDisruptionBudgetSpec_DeepCopy : gval → M gval := new_deep PodDisruptionBudgetSpec_DeepCopyInto.

Definition ServiceSpec_type : gty :=
  TStruct [("Annotations", TMap TScalar);
           ("Type", TScalar);
           ("Port", TScalar)].

Definition ServiceSpec_DeepCopyInto : gval → M gval :=
  copy_into [("Annotations", make_map assign)].

Definition ServiceSpec_DeepCopy : gval → M gval := new_deep ServiceSpec_DeepCopyInto.

Definition OidcSpec_type : gty :=
  TStruct [("ClientCredentialsSecret", TScalar);
           ("ExtraScopes", TSlice TScalar)].

Definition OidcSpec_DeepCopyInto : gval → M gval :=
  copy_into [("ExtraScopes", make_slice_of assign)].

Definition OidcSpec_DeepCopy : gval → M gval := new_deep OidcSpec_DeepCopyInto.

Definition LoggingConfigSpec_type : gty :=
  TStruct [("Loggers", TMap (TPtr LogLevelSpec_type));
           ("Console", TPtr LogLevelSpec_type);
           ("File", TPtr LogLevelSpec_type)].

Definition LoggingConfigSpec_DeepCopyInto : gval → M gval :=
  copy_into [("Loggers", make_map new_shallow);
             ("Console", new_shallow);
             ("File", new_shallow)].

Definition LoggingConfigSpec_DeepCopy : gval → M gval := new_deep LoggingConfigSpec_DeepCopyInto.

Definition AuthenticationSpec_type : gty :=
  TStruct [("AuthenticationClass", TScalar);
           ("Oidc", TPtr OidcSpec_type);
           ("Tls", TPtr TlsSpec_type);
           ("Kerberos", TPtr KerberosSpec_type)].

Definition AuthenticationSpec_DeepCopyInto : gval → M gval :=
  copy_into [("Oidc", new_deep OidcSpec_DeepCopyInto);
             ("Tls", new_shallow);
             ("Kerberos", new_shallow)].

Definition AuthenticationSpec_DeepCopy : gval → M gval := new_deep AuthenticationSpec_DeepCopyInto.

Definition ClusterConfigSpec_type : gty :=
  TStruct [("VectorAggregatorConfigMapName", TScalar);
           ("Service", TPtr ServiceSpec_type);
           ("ClusterName", TScalar);
           ("Authentication", TPtr AuthenticationSpec_type);
           ("ClusterDomain", TScalar);
           ("DfsReplication", TScalar);
           ("ZookeeperConfigMapName", TScalar)].

Definition ClusterConfigSpec_DeepCopyInto : gval → M gval :=
  copy_into [("Service", new_deep ServiceSpec_DeepCopyInto);
             ("Authentication", new_deep AuthenticationSpec_DeepCopyInto)].

Definition ClusterConfigSpec_DeepCopy : gval → M gval := new_deep ClusterConfigSpec_DeepCopyInto.

Definition ConfigOverridesSpec_type : gty :=
  TStruct [("CoreSite", TMap TScalar);
           ("HdfsSite", TMap TScalar);
           ("Log4j", TMap TScalar);
           ("Security", TMap TScalar);
           ("HadoopPolicy", TMap TScalar);
           ("SslServer", TMap TScalar);
           ("SslClient", TMap TScalar)].

Definition ConfigOverridesSpec_DeepCopyInto : gval → M gval :=
  copy_into [("CoreSite", make_map assign);
             ("HdfsSite", make_map assign);
             ("Log4j", make_map assign);
             ("Security", make_map assign);
             ("HadoopPolicy", make_map assign);
             ("SslServer", make_map assign);
             ("SslClient", make_map assign)].

Definition ConfigOverridesSpec_DeepCopy : gval → M gval := new_deep ConfigOverridesSpec_DeepCopyInto.

Definition ConfigSpec_type : gty :=
  TStruct [("RoleGroupConfigSpec", TPtr RoleGroupConfigSpec_type);
           ("ListenerClass", TPtr TScalar)].

Definition ConfigSpec_DeepCopyInto : gval → M gval :=
  copy_into [("RoleGroupConfigSpec", new_deep RoleGroupConfigSpec_DeepCopyInto);
             ("ListenerClass", new_shallow)].

Definition ConfigSpec_DeepCopy : gval → M gval := new_deep ConfigSpec_DeepCopyInto.

Definition RoleGroupSpec_type : gty :=
  TStruct [("Replicas", TPtr TScalar);
           ("Config", TPtr ConfigSpec_type);
           ("OverridesSpec", TPtr OverridesSpec_type)].

Definition RoleGroupSpec_DeepCopyInto : gval → M gval :=
  copy_into [("Replicas", new_shallow);
             ("Config", new_deep ConfigSpec_DeepCopyInto);
             ("OverridesSpec", new_deep OverridesSpec_DeepCopyInto)].

Definition RoleGroupSpec_DeepCopy : gval → M gval := new_deep RoleGroupSpec_DeepCopyInto.

Definition RoleSpec_type : gty :=
  TStruct [("Config", TPtr ConfigSpec_type);
           ("RoleGroups", TMap RoleGroupSpec_type);
           ("RoleConfig", TPtr RoleConfigSpec_type);
           ("OverridesSpec", TPtr OverridesSpec_type)].

Definition RoleSpec_DeepCopyInto : gval → M gval :=
  copy_into [("Config", new_deep ConfigSpec_DeepCopyInto);
             ("RoleGroups", make_map (copy_value RoleGroupSpec_DeepCopyInto));
             ("RoleConfig", new_deep RoleConfigSpec_DeepCopyInto);
             ("OverridesSpec", new_deep OverridesSpec_DeepCopyInto)].

Definition RoleSpec_DeepCopy : gval → M gval := new_deep RoleSpec_DeepCopyInto.

Definition HdfsClusterSpec_type : gty :=
  TStruct [("Image", TPtr ImageSpec_type);
           ("ClusterOperationSpec", TPtr ClusterOperationSpec_type);
           ("ClusterConfig", TPtr ClusterConfigSpec_type);
           ("NameNode", TPtr RoleSpec_type);
           ("DataNode", TPtr RoleSpec_type);
           ("JournalNode", TPtr RoleSpec_type)].

Definition HdfsClusterSpec_DeepCopyInto : gval → M gval :=
  copy_into [("Image", new_shallow);
             ("ClusterOperationSpec", new_shallow);
             ("ClusterConfig", new_deep ClusterConfigSpec_DeepCopyInto);
             ("NameNode", new_deep RoleSpec_DeepCopyInto);
             ("DataNode", new_deep RoleSpec_DeepCopyInto);
             ("JournalNode", new_deep RoleSpec_DeepCopyInto)].

Definition HdfsClusterSpec_DeepCopy : gval → M gval := new_deep HdfsClusterSpec_DeepCopyInto.

Definition HdfsCluster_type : gty :=
  TStruct [("TypeMeta", TypeMeta_type);
           ("ObjectMeta", ObjectMeta_type);
           ("Spec", HdfsClusterSpec_type);
           ("Status", Status_type)].

Definition HdfsCluster_DeepCopyInto : gval → M gval :=
  copy_into [("TypeMeta", assign);
             ("ObjectMeta", ObjectMeta_DeepCopyInto);
             ("Spec", HdfsClusterSpec_DeepCopyInto);
             ("Status", Status_DeepCopyInto)].

Definition HdfsCluster_DeepCopy : gval → M gval := new_deep HdfsCluster_DeepCopyInto.

Definition HdfsClusterList_type : gty :=
  TStruct [("TypeMeta", TypeMeta_type);
           ("ListMeta", ListMeta_type);
           ("Items", TSlice HdfsCluster_type)].

Definition HdfsClusterList_DeepCopyInto : gval → M gval :=
  copy_into [("TypeMeta", assign);
             ("ListMeta", ListMeta_DeepCopyInto);
             ("Items", make_slice_of HdfsCluster_DeepCopyInto)].

Definition HdfsClusterList_DeepCopy : gval → M gval := new_deep HdfsClusterList_DeepCopyInto.

(** [if c := in.DeepCopy(); c != nil { return c }; return nil] *)
Definition HdfsCluster_DeepCopyObject (v : gval) : M gval :=
  c ← HdfsCluster_DeepCopy v; match c with VNil => mret VNil | _ => mret c end.

Definition HdfsClusterList_DeepCopyObject (v : gval) : M gval :=
  c ← HdfsClusterList_DeepCopy v; match c with VNil => mret VNil | _ => mret c end.

(** The copy functions of the package with the types they copy. *)
Definition deep_copies : list (gty * (gval → M gval)) :=
  [(ImageSpec_type, ImageSpec_DeepCopy);
   (KerberosSpec_type, KerberosSpec_DeepCopy);
   (TlsSpec_type, TlsSpec_DeepCopy);
   (LogLevelSpec_type, LogLevelSpec_DeepCopy);
   (PodDisruptionBudgetSpec_type, PodDisruptionBudgetSpec_DeepCopy);
   (ServiceSpec_type, ServiceSpec_DeepCopy);
   (OidcSpec_type, OidcSpec_DeepCopy);
   (LoggingConfigSpec_type, LoggingConfigSpec_DeepCopy);
   (AuthenticationSpec_type, AuthenticationSpec_DeepCopy);
   (ClusterConfigSpec_type, ClusterConfigSpec_DeepCopy);
   (ConfigOverridesSpec_type, ConfigOverridesSpec_DeepCopy);
   (ConfigSpec_type, ConfigSpec_DeepCopy);
   (RoleGroupSpec_type, RoleGroupSpec_DeepCopy);
   (RoleSpec_type, RoleSpec_DeepCopy);
   (HdfsClusterSpec_type, HdfsClusterSpec_DeepCopy);
   (HdfsCluster_type, HdfsCluster_DeepCopy);
   (HdfsClusterList_type, HdfsClusterList_DeepCopy);
   (HdfsCluster_type, HdfsCluster_DeepCopyObject);
   (HdfsClusterList_type, HdfsClusterList_DeepCopyObject)].

Lemma ImageSpec_deep : deep ImageSpec_type ImageSpec_DeepCopyInto.
Proof. deep_struct. Qed.

#[local] Hint Resolve ImageSpec_deep : deepcopy.

Lemma KerberosSpec_deep : deep KerberosSpec_type KerberosSpec_DeepCopyInto.
Proof. deep_struct. Qed.

#[local] Hint Resolve KerberosSpec_deep : deepcopy.

Lemma TlsSpec_deep : deep TlsSpec_type TlsSpec_DeepCopyInto.
Proof. deep_struct. Qed.

#[local] Hint Resolve TlsSpec_deep : deepcopy.

Lemma LogLevelSpec_deep : deep LogLevelSpec_type LogLevelSpec_DeepCopyInto.
Proof. deep_struct. Qed.

#[local] Hint Resolve LogLevelSpec_deep : deepcopy.

Lemma PodDisruptionBudgetSpec_deep : deep PodDisruptionBudgetSpec_type PodDisruptionBudgetSpec_DeepCopyInto.
Proof. deep_struct. Qed.

#[local] Hint Resolve PodDisruptionBudgetSpec_deep : deepcopy.

Lemma ServiceSpec_deep : deep ServiceSpec_type ServiceSpec_DeepCopyInto.
Proof. deep_struct. Qed.

#[local] Hint Resolve ServiceSpec_deep : deepcopy.

Lemma OidcSpec_deep : deep OidcSpec_type OidcSpec_DeepCopyInto.
Proof. deep_struct. Qed.

#[local] Hint Resolve OidcSpec_deep : deepcopy.

Lemma LoggingConfigSpec_deep : deep LoggingConfigSpec_type LoggingConfigSpec_DeepCopyInto.
Proof. deep_struct. Qed.

#[local] Hint Resolve LoggingConfigSpec_deep : deepcopy.

Lemma AuthenticationSpec_deep : deep AuthenticationSpec_type AuthenticationSpec_DeepCopyInto.
Proof. deep_struct. Qed.

#[local] Hint Resolve AuthenticationSpec_deep : deepcopy.

Lemma ClusterConfigSpec_deep : deep ClusterConfigSpec_type ClusterConfigSpec_DeepCopyInto.
Proof. deep_struct. Qed.

#[local] Hint Resolve ClusterConfigSpec_deep : deepcopy.

Lemma ConfigOverridesSpec_deep : deep ConfigOverridesSpec_type ConfigOverridesSpec_DeepCopyInto.
Proof. deep_struct. Qed.

#[local] Hint Resolve ConfigOverridesSpec_deep : deepcopy.

Lemma ConfigSpec_deep : deep ConfigSpec_type ConfigSpec_DeepCopyInto.
Proof. deep_struct. Qed.

#[local] Hint Resolve ConfigSpec_deep : deepcopy.

Lemma RoleGroupSpec_deep : deep RoleGroupSpec_type RoleGroupSpec_DeepCopyInto.
Proof. deep_struct. Qed.

#[local] Hint Resolve RoleGroupSpec_deep : deepcopy.

Lemma RoleSpec_deep : deep RoleSpec_type RoleSpec_DeepCopyInto.
Proof. deep_struct. Qed.

#[local] Hint Resolve RoleSpec_deep : deepcopy.

Lemma HdfsClusterSpec_deep : deep HdfsClusterSpec_type HdfsClusterSpec_DeepCopyInto.
Proof. deep_struct. Qed.

#[local] Hint Resolve HdfsClusterSpec_deep : deepcopy.

Lemma HdfsCluster_deep : deep HdfsCluster_type HdfsCluster_DeepCopyInto.
Proof. deep_struct. Qed.

#[local] Hint Resolve HdfsCluster_deep : deepcopy.

Lemma HdfsClusterList_deep : deep HdfsClusterList_type HdfsClusterList_DeepCopyInto.
Proof. deep_struct. Qed.

#[local] Hint Resolve HdfsClusterList_deep : deepcopy.

Lemma deep_object t copy :
  deep (TPtr t) copy →
  deep (TPtr t) (λ v, c ← copy v; match c with VNil => mret VNil | _ => mret c end).
Proof.
  intros Hd h v Ht. destruct (Hd h v Ht) as (v' & h' & Hrun & Hsub & Hcop). exists v', h'.
  split_and!; [|done|done]. unfold mbind, M_bind. rewrite Hrun. by destruct v'.
Qed.

(** C38. Every [DeepCopy] and [DeepCopyObject] of the API types, from any
    well-typed object and store, returns: a copy with the same contents, nil
    where the object is nil, which shares no cell with the object however deep
    its pointers, maps and slices go, the object being unchanged. A later
    change of any cells of the copy is not seen through the object, nor one of
    the object through the copy. *)
Theorem deep_copies_separate :
  Forall (λ tc, separate (TPtr tc.1) tc.2) deep_copies.
Proof.
  each_of; apply deep_separate; simpl;
    first [apply deep_new | apply deep_object, deep_new]; auto with deepcopy.
Qed.

End api.

(** ** A concrete package and cluster *)

Lemma TScalar_deep : deep TScalar assign.
Proof. by apply deep_flat. Qed.

Definition sample_meta : gty :=
  TStruct [("Name", TScalar); ("Annotations", TMap TScalar)].

Definition sample_meta_copy {MR : MapRange} : gval → M gval :=
  copy_into [("Annotations", make_map assign)].

Lemma sample_meta_deep {MR : MapRange} : deep sample_meta sample_meta_copy.
Proof. deep_struct. Qed.

Definition sample_imported {MR : MapRange} : Imported := {|
  TypeMeta_type := TScalar; ObjectMeta_type := sample_meta; ListMeta_type := TScalar;
  Status_type := TScalar; ClusterOperationSpec_type := TScalar;
  RoleGroupConfigSpec_type := TScalar; OverridesSpec_type := TScalar;
  RoleConfigSpec_type := TScalar;
  ObjectMeta_DeepCopyInto := sample_meta_copy; ListMeta_DeepCopyInto := assign;
  Status_DeepCopyInto := assign; RoleGroupConfigSpec_DeepCopyInto := assign;
  OverridesSpec_DeepCopyInto := assign; RoleConfigSpec_DeepCopyInto := assign;
  TypeMeta_flat := eq_refl; ClusterOperationSpec_flat := eq_refl;
  ObjectMeta_deep := sample_meta_deep; ListMeta_deep := TScalar_deep;
  Status_deep := TScalar_deep; RoleGroupConfigSpec_deep := TScalar_deep;
  OverridesSpec_deep := TScalar_deep; RoleConfigSpec_deep := TScalar_deep;
|}.

(** A struct value. *)
Definition VStruct (fields : list (string * gval)) : gval :=
  foldr (λ fv r, VField fv.1 fv.2 r) VUnit fields.

(** A cluster whose name and data nodes share the specification in cell 3. *)
Definition sample_object : gval :=
  VStruct [("TypeMeta", VScalar "HdfsCluster");
           ("ObjectMeta", VStruct [("Name", VScalar "simple-hdfs"); ("Annotations", VRef 1)]);
           ("Spec", VStruct [("Image", VRef 2); ("ClusterOperationSpec", VNil);
                             ("ClusterConfig", VNil); ("NameNode", VRef 3); ("DataNode", VRef 3);
                             ("JournalNode", VNil)]);
           ("Status", VScalar "")].

Definition sample_store : store :=
  <[0 := CVar sample_object]>
  (<[1 := CMap {["team" := VScalar "storage"]}]>
  (<[2 := CVar (VStruct [("Custom", VScalar ""); ("Repo", VScalar "quay.io/zncdatadev");
                         ("KubedoopVersion", VScalar "0.0.0"); ("ProductVersion", VScalar "3.4.1");
                         ("PullPolicy", VScalar "IfNotPresent"); ("PullSecretName", VScalar "")])]>
  (<[3 := CVar (VStruct [("Config", VNil); ("RoleGroups", VRef 4); ("RoleConfig", VNil);
                         ("OverridesSpec", VNil)])]>
  (<[4 := CMap {["default" := VStruct [("Replicas", VRef 5); ("Config", VNil);
                                       ("OverridesSpec", VNil)]]}]>
  (<[5 := CVar (VScalar "2")]> ∅))))).

Definition sample_copy : option (gval * store) :=
  HdfsCluster_DeepCopy (MR := sorted_range) (Imp := @sample_imported sorted_range)
    (VRef 0) sample_store.

Definition sample_type : gty := TPtr (@HdfsCluster_type (@sample_imported sorted_range)).

(** Scaling the original after the copy (cell 5) leaves the copy at 2. *)
Lemma deep_copies_separate_witness :
  ∃ v h, sample_copy = Some (v, h) ∧
    contents sample_type (<[5 := CVar (VScalar "7")]> h) v
    = contents sample_type sample_store (VRef 0) ∧
    contents sample_type (<[5 := CVar (VScalar "7")]> h) (VRef 0)
    ≠ contents sample_type sample_store (VRef 0).
Proof.
  pose proof (@deep_copies_separate sorted_range (@sample_imported sorted_range)) as Hall.
  destruct (Forall_lookup_1 _ _ 15 _ Hall eq_refl sample_store (VRef 0) eq_refl)
    as (v & h & Hrun & _ & Hold & _ & _ & Hcopy).
  exists v, h. split; [exact Hrun|]. split.
  - apply Hcopy. intros l Hl. apply lookup_insert_ne. intros <-. apply Hl.
    vm_compute in Hrun. injection Hrun as <- <-. apply (bool_decide_unpack _). vm_compute. exact I.
  - vm_compute in Hrun. injection Hrun as <- <-. vm_compute. discriminate.
Defined.
